(* ===== verification/_CoqProject ===== *)
-Q . S2P
Prelude.v
GoStrings.v
GoJson.v
JsonText.v
GoFloat.v
GoDuration.v
Scanner.v
GoSha256.v
Filepath.v
GoHttp.v
Fs.v
McProto.v
Status.v
Config.v
Lock.v
LockFile.v
Instance.v
FlyMachine.v
Rcon.v
StateFile.v
Lifecycle.v
Manager.v
ManagerSafety.v
ManagerRecovery.v
ManagerRaces.v
Router.v
Serve.v
Players.v
LogBuffer.v
WebUI.v
Archive.v
Launcher.v
Owner.v
Process.v
Store.v
StoreHead.v
StoreCommit.v
StoreRestore.v
StoreProps.v
StoreRefines.v
Filesystem.v
S3.v
Rclone.v
Cli.v
CliProps.v
