(* ===== verification/Prelude.v ===== *)
(** * Hostpack: a Rocq model of the [hostpackd] daemon

    Hostpack runs Minecraft modpacks on one small machine: a router listens for players,
    a manager starts the pack a player asks for, stops it when it is empty, and keeps its
    world in a backup store of numbered generations.  This library models the Go sources
    under [cmd/hostpackd] and [internal/] and proves what makes them correct.  Names of
    definitions are those of the sources where Rocq allows it.

    ** Conventions

    A Go string is a [string] of bytes, a byte slice a [list byte], an integer a [Z] kept
    in its width by [int64], [uint64], [uint32] (below) wherever the code can leave it; a
    pair of a value and an [error] is a [result]; code with effects is a function of a
    state, [M S A], with the notations of this file.  A map is a [gmap]; the order in which
    Go ranges over one is the parameter [MapRange], so that no theorem depends on it.  A
    time is a number of nanoseconds; its text is the class [GoTime].  Calls that can fail
    take their failures from a list in the state: a theorem about any state is a theorem
    about any failure, and a crash is a list that fails every call from some point on.

    ** The files, bottom up

    - [Prelude]: results, the monad, streams with the error they end in, writers with
      faults, fixed-width integers, and the tactics [run], [unbind], [bools].
    - [GoStrings], [GoJson], [JsonText], [GoFloat], [Scanner], [GoSha256], [Filepath], [GoHttp]:
      what the sources use of Go's standard library - text functions, JSON printing and
      parsing (with the round trip of any printed tree), [float64] numbers, line scanning,
      SHA-256 (evaluated on the committed lock file), paths, the routing of [net/http].
    - [Fs]: the file system as a finite map of nodes, each [os] call with its failures, and
      the idiom of a temporary file renamed over its target ([commit_temp]).
    - [McProto], [Status] ([internal/mcproto/protocol.go]): VarInts, frames, handshake,
      status and disconnect answers; [QueryStatus], the other end of the status.
    - [Config], [GoDuration], [Lock], [LockFile] ([internal/config]): validation and host
      routing; the durations' [UnmarshalYAML], over the standard library's
      [time.ParseDuration]; the lock, its resolvers and its immutability; both files on
      disk.
    - [Instance] ([ensureInstanceIdentity] in [internal/runtime/manager.go]).
    - [FlyMachine] ([internal/flymachine/client.go]), [Rcon] ([internal/rcon/client.go]).
    - [StateFile] ([internal/runtime/state.go]); [Lifecycle] and [Manager]
      ([internal/runtime/manager.go]): each critical section of the manager as a function
      of its fields, and the goroutines as a transition system [exec] whose events are
      steps of a goroutine with the outcome of the call it is in, arrivals of players,
      exits of processes, time, crashes and boots.  [ManagerSafety], [ManagerRecovery] and
      [ManagerRaces] hold its theorems.
    - [Router], [Serve] ([internal/router/server.go]): the limiter and one connection; the
      accept loop with its goroutines as a transition system over them.  [Players] puts
      the router on the manager: what [Ensure] may answer in a reachable configuration,
      and which pack the player is then relayed to.
    - [LogBuffer] and [WebUI] ([internal/webui]).
    - [Launcher], [Owner], [Process] ([internal/runtime/launcher.go]): what [Start] does up
      to the process; the owners its walk leaves; the process over a process table, with
      its group, and its log writer.
    - [Archive], [Store], [StoreHead], [StoreCommit], [StoreRestore], [StoreProps]
      ([internal/store/store.go]): the store against the interface [Backend] and its laws
      [BackendLaws]; [Filesystem], [S3], [Rclone] (the files of that name) discharge them.
      [StoreRefines] relates the store to the world of [Manager].
    - [Cli], [CliProps] ([cmd/hostpackd/main.go]): the commands.

    ** What the theorems show

    - Lifecycle, in orderly runs (below): one Minecraft process is alive at most
      ([single_process]); where [Head] is also trusted, no world is lost
      ([no_world_lost]); a player who is relayed reaches the pack of the host name and no
      other ([players_reach_their_pack], an invariant of the goroutines carried through
      [Ensure] and the router).  In every run: the state on disk is that of the last save
      that did not fail, and a crash is followed by a recovery of the pack in it
      ([crash_recovery]); a player who waits is never stuck and gets an answer in a bounded
      number of polls ([waitReady_terminates]); what an idle stop follows on
      ([idle_stop_after_empty_polls]).  A start on a working machine reaches READY.
      [Kill] ends every process of the server's group and no other.
    - Store: [Head] finds the highest complete generation; a commit makes the next one,
      keeps the older ones whatever fails, and reports success only for what is stored; a
      restore stays in its destination and brings back what was committed; the file system,
      S3 and rclone keep the laws this rests on.  [Commit_refines_manager] and
      [Restore_refines_manager] carry the manager's theorems to objects and files.
    - Files: [Save], [Put], the record of an instance and [hostpackd lock] are atomic under
      every failure; a lock, once written, cannot be replaced by one that changes a pinned
      identity; logs survive a restart and stay bounded.
    - Network: handshakes and status answers round trip, whatever is accepted is within
      bounds, bytes are relayed unchanged, the accept loop handles at most its number of
      connections and drops none, the limiter admits its rate and treats addresses apart,
      the dashboard does nothing without its password and the public status shows nothing
      but four fields.
    - Configuration: what validation accepts, in both directions; a host name leads to its
      pack; durations are read exactly or refused, but for one sum that [time.ParseDuration]
      lets wrap.
    - Commands: the child process gets no control-plane secret; looking commands change
      nothing; [Ensure] of the machine client settles.

    ** Orderly runs, and what goes wrong outside of them

    [exec] takes every interleaving and every outcome of every call.  Three of them break
    the daemon, and [ManagerRaces] shows each: a start that is retried while the goroutine
    of an older one is under way, a second shutdown or stop beside one that runs, and a
    crash or failure in the middle of the removal of a directory.  [ManagerSafety.orderly]
    excludes exactly these.  A fourth is the outcome [Stale] of [Head], which passes over
    backups it cannot open and reports an older one, or none, without an error;
    [ManagerSafety.trusted_step] is an orderly step in which this does not happen at the
    calls whose answer decides over a directory, and only [no_world_lost] and what it needs
    is restricted to it ([stale_head_loses_world] is the run in which it does).

    Each theorem states its exceptions, and a theorem or an example shows each of them:
    [recovered_pack_stopped_at_once], [unreadable_state_wedges], [headroom_check_wraps],
    [two_halves], [escaped_process], [stat_failure_exceeds_limit], [failed_rotation_is_final],
    [large_number_rounded], [escaped_slash_skips_password], [unclean_prefix_hides_objects],
    [symlink_backup_unrestorable], [head_after_timeout], [interrupted_walk_is_final],
    [nil_sizer_panics].

    ** Bounds and fuel

    A duration's loop has the length of its text, of which each term consumes a byte
    ([duration_terms_fuel]: more changes nothing).  A VarInt takes five bytes, so six rounds
    read it and five write it; the JSON parser has the length of its
    input as fuel, and each value and member consumes a byte; the SHA-256 rounds are counted
    by the message.  Recursion is otherwise structural, and
    loops of the manager that wait are steps of the transition system, with their
    termination a theorem ([waitReady_terminates]).

    ** Parameters

    Go's Unicode tables ([GoUnicode], [LowerText]); map order ([MapRange]); time texts
    ([GoTime]); the YAML decoder; the tar and zstd streams
    ([pack] and [unpack], with the law that they invert each other); the S3 client
    ([Minio], [MinioLaws]); the rclone command ([Rclone], [RcloneLaws]); HTTP transports
    and the URL parser of the machine client and the resolvers; the code and target of a
    redirect ([GoHttp]); the HTML, CSS and
    JavaScript of the dashboard.  Each is instantiated by a concrete function where a
    theorem depends on its laws.

    ** Not modelled

    Log lines but for the child's output, contexts but for their end, permission checks,
    and owners outside of [Owner].  The YAML decoding.  The lines of imports, interface
    declarations and constant pages.  The loss of data that was written and not synced: a
    crash keeps what was written, so [SyncFile] has no effect but that it can fail, and the
    order of the calls of [Save], [Put] and [atomicWrite] is checked up to it.  The
    guest site's JavaScript, the Terraform, shell and container files, and the tests.  In [Manager] a world is the number of its last change,
    and a call that reports a failure after it had its whole effect is the run in which
    the call worked and the next one failed. *)

From Stdlib Require Export ZArith Lia Bool.
From Stdlib Require Import String Ascii.
From stdpp Require Export base tactics list gmap strings option relations.
From coqutil Require Export Byte.

#[global] Open Scope Z_scope.

(** ** Errors and results *)

(** A Go [error] value.  Sentinels the code compares with [errors.Is] are
    constructors; [Errorf] is an error known by its text only ([errors.New],
    [fmt.Errorf] without [%w], or an error of the operating system); [Wrapf p e]
    is [fmt.Errorf] of the prefix [p], a colon and [%w]; [Noted e s] is [%w], a colon and
    the text [s]. *)
Inductive error :=
  | ErrEOF
  | ErrUnexpectedEOF
  | ErrNotExist
  | ErrGenerationConflict
  | ErrContext
  | Errorf (msg : string)
  | Wrapf (prefix : string) (e : error)
  | Noted (e : error) (note : string).

#[global] Instance error_eq_dec : EqDecision error.
Proof. solve_decision. Defined.

(** The text of an error, Go's [Error()]. *)
Fixpoint error_text (e : error) : string :=
  match e with
  | ErrEOF => "EOF"
  | ErrUnexpectedEOF => "unexpected EOF"
  | ErrNotExist => "file does not exist"
  | ErrGenerationConflict => "backup generation conflict"
  | ErrContext => "context deadline exceeded"
  | Errorf msg => msg
  | Wrapf prefix e => prefix +:+ ": " +:+ error_text e
  | Noted e note => error_text e +:+ ": " +:+ note
  end.

(** Go's [errors.Is]: the chain of wrapped errors holds the target. *)
Fixpoint errors_is (e target : error) : bool :=
  bool_decide (e = target) ||
  match e with Wrapf _ e' | Noted e' _ => errors_is e' target | _ => false end.

(** A call that returns a value or a non-nil error. *)
Inductive result (A : Type) :=
  | Ok (a : A)
  | Err (e : error).
Arguments Ok {A} a.
Arguments Err {A} e.

#[global] Instance result_eq_dec {A} `{EqDecision A} : EqDecision (result A).
Proof. solve_decision. Defined.

#[global] Instance result_ret : MRet result := fun A a => Ok a.
#[global] Instance result_bind : MBind result := fun A B f r =>
  match r with Ok a => f a | Err e => Err e end.
#[global] Instance result_fmap : FMap result := fun A B f r =>
  match r with Ok a => Ok (f a) | Err e => Err e end.

Definition is_ok {A} (r : result A) : bool :=
  match r with Ok _ => true | Err _ => false end.

Definition result_value {A} (r : result A) : option A :=
  match r with Ok a => Some a | Err _ => None end.

(** [fmt.Errorf("prefix: %w", err)] applied to the error of a result. *)
Definition wrap_err {A} (prefix : string) (r : result A) : result A :=
  match r with Ok a => Ok a | Err e => Err (Wrapf prefix e) end.

(** ** State with errors

    [M S A] is a computation that reads and changes a state [S] and returns an
    [A] or an error; the state reached when the error arose is kept, as the
    effects of a Go function that returns an error are. *)
Definition M (S A : Type) : Type := S -> result A * S.

#[global] Instance M_ret {S} : MRet (M S) := fun A a s => (Ok a, s).
#[global] Instance M_bind {S} : MBind (M S) := fun A B f m s =>
  match m s with
  | (Ok a, s') => f a s'
  | (Err e, s') => (Err e, s')
  end.

Definition throw {S A} (e : error) : M S A := fun s => (Err e, s).
Definition get_state {S} : M S S := fun s => (Ok s, s).
Definition put_state {S} (s : S) : M S unit := fun _ => (Ok tt, s).
Definition modify {S} (f : S -> S) : M S unit := fun s => (Ok tt, f s).
Definition lift_result {S A} (r : result A) : M S A := fun s => (r, s).

(** Run a computation and hand over its result as a value, as in
    [if _, err := f(); err != nil]. *)
Definition attempt {S A} (m : M S A) : M S (result A) :=
  fun s => let '(r, s') := m s in (Ok r, s').

(** ** Bytes, readers and writers *)

(** The conversions [[]byte(s)] and [string(b)]: a Go string is its bytes. *)
Definition bytes_of_string (s : string) : list byte := String.list_byte_of_string s.
Definition string_of_bytes (b : list byte) : string := String.string_of_list_byte b.

#[global] Instance byte_eq_dec : EqDecision byte.
Proof. intros x y. apply Byte.byte_eq_dec. Defined.

(** An [io.Reader] whose source delivers [rd_data] and then fails with
    [rd_end]: [ErrEOF] for a buffer or a closed connection, another error for a
    connection that breaks or passes its deadline. *)
Record reader := Reader { rd_data : list byte; rd_end : error }.

(** [bytes.NewReader]. *)
Definition bytes_reader (b : list byte) : reader := Reader b ErrEOF.

(** [io.ReadFull] of a buffer of [n] bytes. *)
Definition ReadFull (n : nat) : M reader (list byte) := fun r =>
  if Nat.leb n (length (rd_data r))
  then (Ok (take n (rd_data r)), Reader (drop n (rd_data r)) (rd_end r))
  else
    (Err (if bool_decide (rd_data r <> []) && bool_decide (rd_end r = ErrEOF)
          then ErrUnexpectedEOF else rd_end r),
     Reader [] (rd_end r)).

(** An [io.Writer]: the bytes accepted so far, and what happens to the next
    calls of [Write].  [None] or an exhausted list: the call succeeds;
    [Some (k, e)]: [k] bytes are taken and the call returns [e]. *)
Record writer := Writer { w_out : list byte; w_faults : list (option (nat * error)) }.

(** A [bytes.Buffer]: no write to it fails. *)
Definition empty_buffer : writer := Writer [] [].

Definition Write (b : list byte) : M writer unit := fun w =>
  match w_faults w with
  | [] => (Ok tt, Writer (w_out w ++ b) [])
  | None :: fs => (Ok tt, Writer (w_out w ++ b) fs)
  | Some (k, e) :: fs => (Err e, Writer (w_out w ++ take k b) fs)
  end.

(** What a computation on a fresh [bytes.Buffer] leaves in it. *)
Definition buffer_bytes {A} (m : M writer A) : list byte := w_out (snd (m empty_buffer)).

(** A connection: what the peer sends, and what was sent to it. *)
Record conn := Conn { c_in : reader; c_out : writer }.

Definition on_in {A} (m : M reader A) : M conn A := fun c =>
  let '(x, r) := m (c_in c) in (x, Conn r (c_out c)).
Definition on_out {A} (m : M writer A) : M conn A := fun c =>
  let '(x, w) := m (c_out c) in (x, Conn (c_in c) w).

(** ** Machine integers *)

Definition wrap (w : Z) (z : Z) : Z := z `mod` 2 ^ w.
Definition uint16 (z : Z) : Z := wrap 16 z.
Definition uint32 (z : Z) : Z := wrap 32 z.
Definition uint64 (z : Z) : Z := wrap 64 z.
(** The two's complement reading of the low [w] bits. *)
Definition swrap (w : Z) (z : Z) : Z := (z + 2 ^ (w - 1)) `mod` 2 ^ w - 2 ^ (w - 1).
Definition int32 (z : Z) : Z := swrap 32 z.
Definition int64 (z : Z) : Z := swrap 64 z.

(** ** Hash collisions

    The theorems on digests do not assume that a hash is injective: they
    conclude that two values are equal or that a collision was found. *)
Definition collision {A B} (h : A -> B) (x y : A) : Prop := x <> y /\ h x = h y.

(** Running a bind whose first call is known. *)
Lemma M_bind_ok {S A B} (m : M S A) (f : A -> M S B) s a s' :
  m s = (Ok a, s') -> (m ≫= f) s = f a s'.
Proof. intros E. unfold mbind, M_bind. by rewrite E. Qed.

Lemma M_bind_err {S A B} (m : M S A) (f : A -> M S B) s e s' :
  m s = (Err e, s') -> (m ≫= f) s = (Err e, s').
Proof. intros E. unfold mbind, M_bind. by rewrite E. Qed.

Lemma M_bind_inv {S A B} (m : M S A) (f : A -> M S B) s b s' :
  (m ≫= f) s = (Ok b, s') -> exists a s1, m s = (Ok a, s1) /\ f a s1 = (Ok b, s').
Proof.
  unfold mbind, M_bind. destruct (m s) as [[a|e] s1]; [eauto|discriminate].
Qed.

(** ** Tactics *)

(** Split the results of calls in the hypotheses and the goal. *)
Ltac step_ok :=
  match goal with
  | H : Ok _ = Ok _ |- _ => injection H as H; subst
  | H : Err _ = Err _ |- _ => injection H as H; subst
  | H : Ok _ = Err _ |- _ => discriminate H
  | H : Err _ = Ok _ |- _ => discriminate H
  | H : (_, _) = (_, _) |- _ => injection H as ? ?; subst
  | H : Some _ = Some _ |- _ => injection H as H; subst
  | H : Some _ = None |- _ => discriminate H
  | H : None = Some _ |- _ => discriminate H
  end.
(** Take the next call of a computation whose outcome the lemma [H] gives. *)
Tactic Notation "run" uconstr(H) :=
  erewrite M_bind_ok; [|first [apply H|eapply H]; try assumption]; cbv beta.
(** Take a successful computation apart at its first call. *)
Tactic Notation "unbind" hyp(H) "as" simple_intropattern(a) simple_intropattern(s)
    simple_intropattern(E) :=
  apply M_bind_inv in H as (a & s & E & H).
(** Case analysis on every [match] and [if] of a hypothesis. *)
Ltac break_in H :=
  repeat (let E := fresh "E" in
          match type of H with context [match ?x with _ => _ end] => destruct x eqn:E end;
          repeat step_ok; try discriminate).
Ltac break_goal :=
  repeat (let E := fresh "E" in
          match goal with |- context [match ?x with _ => _ end] => destruct x eqn:E end;
          repeat step_ok; try discriminate).
Ltac bools :=
  repeat match goal with
  | H : _ && _ = true |- _ => apply andb_true_iff in H as [? ?]
  | H : _ || _ = false |- _ => apply orb_false_iff in H as [? ?]
  | H : negb _ = true |- _ => apply negb_true_iff in H
  | H : negb _ = false |- _ => apply negb_false_iff in H
  | H : bool_decide _ = true |- _ => apply bool_decide_eq_true in H
  | H : bool_decide _ = false |- _ => apply bool_decide_eq_false in H
  | H : (_ =? _) = true |- _ => apply Z.eqb_eq in H
  | H : (_ =? _) = false |- _ => apply Z.eqb_neq in H
  | H : (_ <=? _) = true |- _ => apply Z.leb_le in H
  | H : (_ <=? _) = false |- _ => apply Z.leb_gt in H
  | H : (_ <? _) = true |- _ => apply Z.ltb_lt in H
  | H : (_ <? _) = false |- _ => apply Z.ltb_ge in H
  end.

(** ** Shared lemmas *)

Create HintDb hostpack.
Create Rewrite HintDb hostpack.

Lemma error_is_refl e : errors_is e e = true.
Proof. destruct e; cbn; rewrite bool_decide_eq_true_2; done. Qed.

Lemma string_of_bytes_of_string s : string_of_bytes (bytes_of_string s) = s.
Proof. apply String.string_of_list_byte_of_string. Qed.

Lemma bytes_of_string_of_bytes b : bytes_of_string (string_of_bytes b) = b.
Proof. apply String.list_byte_of_string_of_list_byte. Qed.

#[global] Instance bytes_of_string_inj : Inj (=) (=) bytes_of_string.
Proof.
  intros s t H. rewrite <- (string_of_bytes_of_string s), H.
  apply string_of_bytes_of_string.
Qed.

Lemma bytes_of_string_length s : length (bytes_of_string s) = String.length s.
Proof.
  unfold bytes_of_string, String.list_byte_of_string. rewrite length_map.
  induction s as [|c s IH]; [done|]. cbn. by f_equal.
Qed.

(** [String.append] does not simplify under stdpp. *)
Lemma append_nil_l (t : string) : "" +:+ t = t.
Proof. done. Qed.

Lemma append_cons (c : ascii) (s t : string) : String c s +:+ t = String c (s +:+ t).
Proof. done. Qed.

#[export] Hint Rewrite append_nil_l append_cons : hostpack.

Lemma bytes_of_string_app s t :
  bytes_of_string (s +:+ t) = bytes_of_string s ++ bytes_of_string t.
Proof.
  unfold bytes_of_string, String.list_byte_of_string.
  rewrite <- map_app. f_equal. induction s as [|c s IH]; [done|].
  rewrite append_cons. cbn. by rewrite IH.
Qed.

Lemma string_of_bytes_app a b :
  string_of_bytes (a ++ b) = string_of_bytes a +:+ string_of_bytes b.
Proof.
  apply (inj bytes_of_string).
  by rewrite bytes_of_string_app, !bytes_of_string_of_bytes.
Qed.

(** Reading back exactly what is at the front of the stream. *)
Lemma ReadFull_app n a b e :
  length a = n -> ReadFull n (Reader (a ++ b) e) = (Ok a, Reader b e).
Proof.
  intros <-. unfold ReadFull; cbn.
  rewrite length_app, (proj2 (Nat.leb_le _ _)) by lia.
  by rewrite take_app_length, drop_app_length.
Qed.

Lemma ReadFull_1 b l e : ReadFull 1 (Reader (b :: l) e) = (Ok [b], Reader l e).
Proof. done. Qed.

Lemma ReadFull_ok n r b r' :
  ReadFull n r = (Ok b, r') ->
  length b = n /\ rd_data r = b ++ rd_data r' /\ rd_end r' = rd_end r.
Proof.
  unfold ReadFull. case_match eqn:E; intros ?; repeat step_ok.
  apply Nat.leb_le in E. cbn. split_and!; [|by rewrite take_drop|done].
  rewrite length_take. lia.
Qed.

Lemma Write_buffer b out : Write b (Writer out []) = (Ok tt, Writer (out ++ b) []).
Proof. done. Qed.

Lemma on_in_ok {A} (m : M reader A) r r' w a :
  m r = (Ok a, r') -> on_in m (Conn r w) = (Ok a, Conn r' w).
Proof. intros E. unfold on_in; cbn. by rewrite E. Qed.

Lemma on_out_write b r out : on_out (Write b) (Conn r (Writer out [])) = (Ok tt, Conn r (Writer (out ++ b) [])).
Proof. done. Qed.

#[export] Hint Rewrite string_of_bytes_of_string bytes_of_string_of_bytes
  bytes_of_string_length bytes_of_string_app string_of_bytes_app : hostpack.

Lemma byte_unsigned_of_Z z : byte.unsigned (byte.of_Z z) = z `mod` 256.
Proof. rewrite byte.unsigned_of_Z. done. Qed.

Lemma byte_range b : 0 <= byte.unsigned b < 256.
Proof. apply (byte.unsigned_range b). Qed.

#[export] Hint Rewrite byte_unsigned_of_Z : hostpack.

Lemma wrap_range w z : 0 <= w -> 0 <= wrap w z < 2 ^ w.
Proof. intros. apply Z.mod_pos_bound. apply Z.pow_pos_nonneg; lia. Qed.

Lemma swrap_range w z : 0 < w -> - 2 ^ (w - 1) <= swrap w z < 2 ^ (w - 1).
Proof.
  intros Hw. unfold swrap.
  assert (2 ^ w = 2 * 2 ^ (w - 1)) as Hp.
  { rewrite <- Z.pow_succ_r by lia. f_equal. lia. }
  pose proof (Z.mod_pos_bound (z + 2 ^ (w - 1)) (2 ^ w) ltac:(apply Z.pow_pos_nonneg; lia)). lia.
Qed.

Lemma swrap_id w z : 0 < w -> - 2 ^ (w - 1) <= z < 2 ^ (w - 1) -> swrap w z = z.
Proof.
  intros Hw Hz. unfold swrap.
  assert (2 ^ w = 2 * 2 ^ (w - 1)) as Hp.
  { rewrite <- Z.pow_succ_r by lia. f_equal. lia. }
  rewrite Z.mod_small; lia.
Qed.
