(* ===== verification/GoStrings.v ===== *)
(** * Go's string library, as far as hostpack uses it

    The functions of [strings], [strconv], [fmt] and [sort] that the sources
    call, on Go strings (sequences of bytes, Rocq's [string]), and what the other
    files need to know about them.  Case mapping and space classes of characters
    outside ASCII come from Go's Unicode tables, which are the parameters of the
    class [GoUnicode]; the order in which [range] walks a map is the parameter of
    [MapRange]. *)
From Stdlib Require Import String Ascii.
From stdpp Require Import sorting pretty.
From S2P Require Import Prelude.

#[global] Open Scope string_scope.
#[global] Open Scope list_scope.
#[global] Open Scope Z_scope.

(** ** Characters *)

Definition code (c : ascii) : Z := Z.of_N (N_of_ascii c).
Definition chr (z : Z) : ascii := ascii_of_N (Z.to_N z).

Definition is_ascii (c : ascii) : bool := code c <? 128.
Definition ascii_lower (c : ascii) : ascii :=
  if (65 <=? code c) && (code c <=? 90) then chr (code c + 32) else c.
(** Tab, line feed, vertical tab, form feed, carriage return and space. *)
Definition ascii_space (c : ascii) : bool :=
  ((9 <=? code c) && (code c <=? 13)) || (code c =? 32).

Fixpoint string_map (f : ascii -> ascii) (s : string) : string :=
  match s with "" => "" | String c s' => String (f c) (string_map f s') end.
Fixpoint string_forallb (p : ascii -> bool) (s : string) : bool :=
  match s with "" => true | String c s' => p c && string_forallb p s' end.
Fixpoint string_existsb (p : ascii -> bool) (s : string) : bool :=
  match s with "" => false | String c s' => p c || string_existsb p s' end.

Definition all_ascii : string -> bool := string_forallb is_ascii.
Definition byte_in (set : string) (c : ascii) : bool :=
  string_existsb (fun d => bool_decide (c = d)) set.
Definition string_len (s : string) : Z := Z.of_nat (String.length s).

(** The behaviour of [strings.ToLower], [strings.TrimSpace] and [%q] on a string
    that holds a byte outside ASCII. *)
Class GoUnicode := {
  unicode_lower : string -> string;
  unicode_trim_space : string -> string;
  unicode_quote : string -> string }.

(** The order in which [range] delivers the entries of a map. *)
Class MapRange := {
  range : forall {A}, gmap string A -> list (string * A);
  range_perm : forall {A} (m : gmap string A), range m ≡ₚ map_to_list m }.

(** Instances for concrete evaluations: tables that leave their argument alone,
    and maps walked in the order of their representation. *)
Definition plain_unicode : GoUnicode := {|
  unicode_lower s := s; unicode_trim_space s := s; unicode_quote s := s |}.
Definition map_order : MapRange := {|
  range _ m := map_to_list m; range_perm _ m := reflexivity (map_to_list m) |}.

(** ** Prefixes and suffixes *)

(** [strings.CutPrefix]: the rest after a prefix. *)
Fixpoint CutPrefix (p s : string) : option string :=
  match p, s with
  | "", _ => Some s
  | String a p', String b s' => if bool_decide (a = b) then CutPrefix p' s' else None
  | String _ _, "" => None
  end.

(** [strings.CutSuffix]: what comes before a suffix. *)
Fixpoint CutSuffix (suf s : string) : option string :=
  if bool_decide (s = suf) then Some ""
  else match s with "" => None | String c s' => String c <$> CutSuffix suf s' end.

Definition HasPrefix (s p : string) : bool := bool_decide (is_Some (CutPrefix p s)).
Definition HasSuffix (s suf : string) : bool := bool_decide (is_Some (CutSuffix suf s)).
Definition TrimPrefix (s p : string) : string := default s (CutPrefix p s).
Definition TrimSuffix (s suf : string) : string := default s (CutSuffix suf s).

(** ** Searching and splitting at a byte *)

(** [strings.Cut] at the first, and the split at the last, occurrence. *)
Fixpoint CutByte (c : ascii) (s : string) : option (string * string) :=
  match s with
  | "" => None
  | String a s' =>
      if bool_decide (a = c) then Some ("", s')
      else prod_map (String a) id <$> CutByte c s'
  end.
Fixpoint CutLastByte (c : ascii) (s : string) : option (string * string) :=
  match s with
  | "" => None
  | String a s' =>
      match CutLastByte c s' with
      | Some (l, r) => Some (String a l, r)
      | None => if bool_decide (a = c) then Some ("", s') else None
      end
  end.

Definition ContainsByte (c : ascii) (s : string) : bool :=
  string_existsb (fun a => bool_decide (a = c)) s.
Definition ContainsAny (s chars : string) : bool := string_existsb (byte_in chars) s.
Fixpoint Contains (s sub : string) : bool :=
  HasPrefix s sub || match s with "" => false | String _ s' => Contains s' sub end.
Fixpoint CountByte (c : ascii) (s : string) : Z :=
  match s with
  | "" => 0
  | String a s' => (if bool_decide (a = c) then 1 else 0) + CountByte c s'
  end.

(** [strings.Split] with a separator of one byte. *)
Fixpoint SplitByte (c : ascii) (s : string) : list string :=
  match s with
  | "" => [""]
  | String a s' =>
      if bool_decide (a = c) then "" :: SplitByte c s'
      else match SplitByte c s' with
           | h :: t => String a h :: t
           | [] => [String a ""]
           end
  end.
Fixpoint Join (l : list string) (sep : string) : string :=
  match l with
  | [] => ""
  | [s] => s
  | s :: l' => s +:+ sep +:+ Join l' sep
  end.

(** ** Trimming and case *)

Fixpoint trim_left (p : ascii -> bool) (s : string) : string :=
  match s with
  | "" => ""
  | String c s' => if p c then trim_left p s' else s
  end.
Fixpoint trim_right (p : ascii -> bool) (s : string) : string :=
  match s with
  | "" => ""
  | String c s' =>
      let t := trim_right p s' in
      if bool_decide (t = "") && p c then "" else String c t
  end.
(** [strings.Trim] and [strings.TrimRight] with a set of bytes. *)
Definition Trim (s set : string) : string :=
  trim_right (byte_in set) (trim_left (byte_in set) s).
Definition TrimRight (s set : string) : string := trim_right (byte_in set) s.

Section Unicode.
Context `{GoUnicode}.

Definition TrimSpace (s : string) : string :=
  if all_ascii s then trim_right ascii_space (trim_left ascii_space s)
  else unicode_trim_space s.
Definition ToLower (s : string) : string :=
  if all_ascii s then string_map ascii_lower s else unicode_lower s.
End Unicode.

(** ** Numbers and formats *)

(** [strconv.Itoa], [strconv.FormatInt] in base 10 and [%d]. *)
Definition Itoa (z : Z) : string := pretty z.

Fixpoint string_repeat (c : ascii) (n : nat) : string :=
  match n with O => "" | S n' => String c (string_repeat c n') end.

(** The [n] last decimal digits of [z], and [%0nd] for [z < 10^n]. *)
Fixpoint digits (n : nat) (z : Z) : string :=
  match n with
  | O => ""
  | S n' => digits n' (z / 10) +:+ String (chr (48 + z mod 10)) ""
  end.
Definition pad20 (z : Z) : string := digits 20 z.

(** A hexadecimal digit and two of them. *)
Definition hex_digit (z : Z) : ascii := chr (if z <? 10 then 48 + z else 87 + z).
Definition hex2 (z : Z) : string :=
  String (hex_digit (z / 16)) (String (hex_digit (z mod 16)) "").

Definition dquote : string := String (chr 34) "".
Definition backslash : string := String (chr 92) "".
Definition newline : string := String (chr 10) "".

(** [%q] of a string of ASCII characters. *)
Definition quote_char (c : ascii) : string :=
  let z := code c in
  if z =? 34 then backslash +:+ dquote
  else if z =? 92 then backslash +:+ backslash
  else if (32 <=? z) && (z <? 127) then String c ""
  else if z =? 7 then backslash +:+ "a"
  else if z =? 8 then backslash +:+ "b"
  else if z =? 12 then backslash +:+ "f"
  else if z =? 10 then backslash +:+ "n"
  else if z =? 13 then backslash +:+ "r"
  else if z =? 9 then backslash +:+ "t"
  else if z =? 11 then backslash +:+ "v"
  else backslash +:+ "x" +:+ hex2 z.
Fixpoint quote_ascii (s : string) : string :=
  match s with "" => "" | String c s' => quote_char c +:+ quote_ascii s' end.
Definition Quote `{GoUnicode} (s : string) : string :=
  if all_ascii s then dquote +:+ quote_ascii s +:+ dquote else unicode_quote s.

(** ** Sorting *)

(** [sort.Strings]: equal strings are the same string, so every sorting
    algorithm gives the same list. *)
Definition SortStrings (l : list string) : list string := merge_sort String.le l.
(** The sorted keys of a map, a loop the sources write out where they need it. *)
Definition sorted_keys {A} (m : gmap string A) : list string :=
  SortStrings (map_to_list m).*1.

(** ** Lemmas *)

Lemma append_assoc (a b c : string) : (a +:+ b) +:+ c = a +:+ (b +:+ c).
Proof. induction a as [|x a IH]; [done|]. by rewrite !append_cons, IH. Qed.

Lemma append_nil_r (a : string) : a +:+ "" = a.
Proof. induction a as [|x a IH]; [done|]. by rewrite append_cons, IH. Qed.

Lemma length_append (a b : string) :
  String.length (a +:+ b) = (String.length a + String.length b)%nat.
Proof. induction a as [|x a IH]; [done|]. rewrite append_cons. cbn. by rewrite IH. Qed.

Lemma append_inj_r (a b s : string) : a +:+ s = b +:+ s -> a = b.
Proof.
  intros E. apply (inj bytes_of_string), (app_inv_tail (bytes_of_string s)).
  by rewrite <- !bytes_of_string_app, E.
Qed.

#[export] Hint Rewrite append_assoc append_nil_r length_append : hostpack.

Lemma CutPrefix_spec p s r : CutPrefix p s = Some r <-> s = p +:+ r.
Proof.
  revert s. induction p as [|a p IH]; intros s.
  - rewrite append_nil_l. cbn. split; congruence.
  - rewrite append_cons. destruct s as [|b s]; [cbn; split; discriminate|]. cbn.
    case_bool_decide as E; [subst; rewrite IH; split; congruence|].
    split; [discriminate|congruence].
Qed.

Lemma CutSuffix_spec suf s r : CutSuffix suf s = Some r <-> s = r +:+ suf.
Proof.
  revert r. induction s as [|c s IH]; intros r; cbn; case_bool_decide as E.
  - subst. split; [intros [= <-]; done|].
    intros L%(f_equal String.length). rewrite length_append in L. cbn in L.
    destruct r; [done|]. cbn in L. lia.
  - split; [done|]. intros L. destruct r; [|by rewrite append_cons in L].
    by rewrite append_nil_l in L.
  - subst. split; [by intros [= <-]|].
    intros L%(f_equal String.length). rewrite length_append in L. cbn in L.
    destruct r; [done|]. cbn in L. lia.
  - rewrite fmap_Some. setoid_rewrite IH. split.
    + intros (x & -> & ->). done.
    + destruct r as [|d r]; [done|]. rewrite append_cons. intros [= -> ->]. eauto.
Qed.

Lemma HasPrefix_spec s p : HasPrefix s p = true <-> exists r, s = p +:+ r.
Proof. unfold HasPrefix. rewrite bool_decide_eq_true. split.
  - intros [r ?%CutPrefix_spec]. eauto.
  - intros [r ?%CutPrefix_spec]. eauto.
Qed.

Lemma HasSuffix_spec s suf : HasSuffix s suf = true <-> exists r, s = r +:+ suf.
Proof. unfold HasSuffix. rewrite bool_decide_eq_true. split.
  - intros [r ?%CutSuffix_spec]. eauto.
  - intros [r ?%CutSuffix_spec]. eauto.
Qed.

Lemma TrimSuffix_app r suf : TrimSuffix (r +:+ suf) suf = r.
Proof.
  unfold TrimSuffix. by rewrite (proj2 (CutSuffix_spec suf (r +:+ suf) r)).
Qed.

Lemma TrimSuffix_none s suf : HasSuffix s suf = false -> TrimSuffix s suf = s.
Proof.
  unfold TrimSuffix, HasSuffix. intros E%bool_decide_eq_false.
  destruct (CutSuffix suf s); [|done]. contradict E; eauto.
Qed.

Lemma string_existsb_app p a b :
  string_existsb p (a +:+ b) = string_existsb p a || string_existsb p b.
Proof.
  induction a as [|x a IH]; [done|]. rewrite append_cons. cbn. by rewrite IH, orb_assoc.
Qed.

Lemma string_forallb_app p a b :
  string_forallb p (a +:+ b) = string_forallb p a && string_forallb p b.
Proof.
  induction a as [|x a IH]; [done|]. rewrite append_cons. cbn. by rewrite IH, andb_assoc.
Qed.

Lemma string_map_app f a b : string_map f (a +:+ b) = string_map f a +:+ string_map f b.
Proof. induction a as [|x a IH]; [done|]. rewrite !append_cons. cbn. by rewrite IH. Qed.

Lemma CutLastByte_none c s : ContainsByte c s = false -> CutLastByte c s = None.
Proof.
  induction s as [|a s IH]; [done|]. cbn. intros [? ?]%orb_false_iff.
  rewrite IH by done. by case_bool_decide.
Qed.

Lemma CutLastByte_app c a b :
  ContainsByte c b = false -> CutLastByte c (a +:+ String c b) = Some (a, b).
Proof.
  intros Hb. induction a as [|x a IH].
  - rewrite append_nil_l. cbn. rewrite CutLastByte_none by done. by case_bool_decide.
  - rewrite append_cons. cbn. by rewrite IH.
Qed.

Lemma Join_cons2 (x y : string) l sep : Join (x :: y :: l) sep = x +:+ sep +:+ Join (y :: l) sep.
Proof. done. Qed.

Lemma sorted_keys_perm {A} (m : gmap string A) : sorted_keys m ≡ₚ (map_to_list m).*1.
Proof. apply merge_sort_Permutation. Qed.

Lemma elem_of_sorted_keys {A} (m : gmap string A) k :
  k ∈ sorted_keys m <-> is_Some (m !! k).
Proof.
  rewrite (sorted_keys_perm m), list_elem_of_fmap. split.
  - intros ([k' v] & -> & Hin%elem_of_map_to_list). eauto.
  - intros [v Hv]. exists (k, v). by rewrite elem_of_map_to_list.
Qed.

Lemma sorted_keys_NoDup {A} (m : gmap string A) : NoDup (sorted_keys m).
Proof. rewrite (sorted_keys_perm m). apply NoDup_fst_map_to_list. Qed.

Lemma sorted_keys_sorted {A} (m : gmap string A) : StronglySorted String.le (sorted_keys m).
Proof. apply StronglySorted_merge_sort; apply _. Qed.

Lemma sorted_keys_fmap {A B} (f : A -> B) (m : gmap string A) :
  sorted_keys (f <$> m) = sorted_keys m.
Proof.
  unfold sorted_keys. f_equal. rewrite map_to_list_fmap, <- list_fmap_compose.
  by apply list_fmap_ext; intros ? [].
Qed.

(** The entries of a map in the order of its sorted keys determine the map. *)
Lemma elem_of_sorted_entries {A B} (f : string -> A -> B) (m : gmap string A) b :
  b ∈ omap (fun k => f k <$> m !! k) (sorted_keys m) <-> exists k a, m !! k = Some a /\ f k a = b.
Proof.
  rewrite list_elem_of_omap. split.
  - intros (k & _ & E). apply fmap_Some in E as (a & Ha & ->). eauto.
  - intros (k & a & Ha & <-). exists k. rewrite elem_of_sorted_keys, Ha. eauto.
Qed.

Lemma SortStrings_perm l k : l ≡ₚ k -> SortStrings l = SortStrings k.
Proof.
  intros P. apply (StronglySorted_unique String.le).
  1, 2: apply StronglySorted_merge_sort; apply _.
  unfold SortStrings. by rewrite !merge_sort_Permutation.
Qed.

Lemma elem_of_range `{MapRange} {A} (m : gmap string A) k v :
  (k, v) ∈ range m <-> m !! k = Some v.
Proof. by rewrite range_perm, elem_of_map_to_list. Qed.

(** *** Trimming and case *)

Lemma trim_left_id p s :
  string_forallb (fun c => negb (p c)) s = true -> trim_left p s = s.
Proof. destruct s as [|c s]; [done|]. cbn. intros [Hc _]%andb_true_iff. by destruct (p c). Qed.

Lemma trim_right_id p s :
  string_forallb (fun c => negb (p c)) s = true -> trim_right p s = s.
Proof.
  induction s as [|c s IH]; [done|]. cbn. intros [Hc Hs]%andb_true_iff.
  rewrite IH by done. apply negb_true_iff in Hc. by rewrite Hc, andb_false_r.
Qed.

Lemma string_forallb_impl (p q : ascii -> bool) s :
  (forall c, p c = true -> q c = true) -> string_forallb p s = true -> string_forallb q s = true.
Proof.
  intros Hpq. induction s as [|c s IH]; [done|]. cbn. rewrite !andb_true_iff. naive_solver.
Qed.

Lemma ContainsByte_forallb c s :
  string_forallb (fun a => negb (bool_decide (a = c))) s = true <-> ContainsByte c s = false.
Proof.
  unfold ContainsByte. induction s as [|a s IH]; [done|]. cbn.
  rewrite andb_true_iff, orb_false_iff, IH, negb_true_iff. done.
Qed.

Lemma SplitByte_forallb c (p : ascii -> bool) s :
  (forall l, l ∈ SplitByte c s -> string_forallb p l = true) ->
  string_forallb (fun a => p a || bool_decide (a = c)) s = true.
Proof.
  induction s as [|a s IH]; [done|]. cbn. case_bool_decide as E.
  - intros Hl. rewrite orb_true_r. apply IH. set_solver.
  - destruct (SplitByte c s) as [|h t]; intros Hl.
    + specialize (Hl (String a "") ltac:(set_solver)). cbn in Hl.
      rewrite andb_true_r in Hl. rewrite Hl. apply IH. set_solver.
    + pose proof (Hl (String a h) ltac:(set_solver)) as Hh. cbn in Hh.
      apply andb_true_iff in Hh as [-> Hh]. apply IH. set_solver.
Qed.

(** A string that ends in the separator has an empty last piece. *)
Lemma SplitByte_suffix c r : exists x l, SplitByte c (r +:+ String c "") = x :: l ++ [""].
Proof.
  induction r as [|a r (x & l & IH)].
  - exists "", []. rewrite append_nil_l. cbn. by rewrite bool_decide_eq_true_2.
  - rewrite append_cons. cbn. case_bool_decide.
    + exists "", (x :: l). by rewrite IH.
    + exists (String a x), l. by rewrite IH.
Qed.

Lemma string_map_id f s :
  string_forallb (fun c => bool_decide (f c = c)) s = true -> string_map f s = s.
Proof.
  induction s as [|c s IH]; [done|]. cbn. intros [->%bool_decide_eq_true ?]%andb_true_iff.
  by rewrite IH.
Qed.

Lemma string_map_forallb (f : ascii -> ascii) (p q : ascii -> bool) s :
  (forall c, p (f c) = true -> q c = true) ->
  string_forallb p (string_map f s) = true -> string_forallb q s = true.
Proof.
  intros Hpq. induction s as [|c s IH]; [done|]. cbn. rewrite !andb_true_iff. naive_solver.
Qed.

Lemma plain_ascii s :
  string_forallb (fun c => is_ascii c && negb (ascii_space c)) s = true ->
  string_forallb is_ascii s = true.
Proof. apply string_forallb_impl. intros c Hc. by apply andb_true_iff in Hc as [? ?]. Qed.

Lemma TrimSpace_id `{GoUnicode} s :
  string_forallb (fun c => is_ascii c && negb (ascii_space c)) s = true -> TrimSpace s = s.
Proof.
  intros Hs. unfold TrimSpace, all_ascii.
  rewrite plain_ascii by done.
  assert (string_forallb (fun c => negb (ascii_space c)) s = true) as Hn.
  { revert Hs. apply string_forallb_impl. intros c Hc. by apply andb_true_iff in Hc as [? ?]. }
  by rewrite trim_left_id, trim_right_id.
Qed.

Lemma HasSuffix_none x y c :
  y <> "" -> ContainsByte c y = false -> HasSuffix (x +:+ y) (String c "") = false.
Proof.
  intros Hy Hc. apply not_true_iff_false. rewrite HasSuffix_spec. intros [r E].
  revert r E. induction x as [|a x IH]; intros r E.
  - rewrite append_nil_l in E. subst y. unfold ContainsByte in Hc.
    rewrite string_existsb_app in Hc. cbn in Hc. rewrite bool_decide_eq_true_2 in Hc by done.
    by rewrite orb_true_r in Hc.
  - rewrite append_cons in E. destruct r as [|b r].
    + rewrite append_nil_l in E. injection E as _ E. apply Hy.
      destruct x as [|? x]; [by rewrite append_nil_l in E|by rewrite append_cons in E].
    + rewrite append_cons in E. injection E as _ E. eauto.
Qed.

Lemma append_is_nil x y : x +:+ y = "" -> x = "" /\ y = "".
Proof. destruct x as [|a x]; [by rewrite append_nil_l|by rewrite append_cons]. Qed.

(** *** Decimal text *)

Definition num_char (c : ascii) : bool :=
  ((48 <=? code c) && (code c <=? 57)) || (code c =? 45).

Lemma pretty_N_char_num n : num_char (pretty_N_char n) = true.
Proof. unfold pretty_N_char. by repeat case_match. Qed.

Lemma pretty_N_go_num n s :
  string_forallb num_char s = true -> string_forallb num_char (pretty_N_go n s) = true.
Proof.
  revert s. induction (N.lt_wf_0 n) as [n _ IH]; intros s Hs.
  destruct (decide (n = 0%N)) as [->|Hn]; [by rewrite pretty_N_go_0|].
  rewrite pretty_N_go_step by lia. apply IH; [apply N.div_lt; lia|].
  cbn [string_forallb]. by rewrite pretty_N_char_num.
Qed.

Lemma Itoa_num z : string_forallb num_char (Itoa z) = true.
Proof.
  assert (forall n : N, string_forallb num_char (pretty n) = true) as HN.
  { intros n. unfold pretty, pretty_N. case_decide; [done|]. by apply pretty_N_go_num. }
  unfold Itoa. destruct z as [|p|p]; [done|apply (HN (Npos p))|].
  change (pretty (Zneg p)) with ("-" +:+ pretty (Npos p)).
  rewrite string_forallb_app. by rewrite HN.
Qed.

(** A string of number characters and a separator split at the separator. *)
Lemma append_sep_inj (p : ascii -> bool) a b c d x y :
  string_forallb p a = true -> string_forallb p b = true -> p c = false -> p d = false ->
  a +:+ String c x = b +:+ String d y -> a = b /\ String c x = String d y.
Proof.
  revert b. induction a as [|e a IH]; intros [|f b]; rewrite ?append_nil_l, ?append_cons; cbn.
  - done.
  - intros _ [Hf _]%andb_true_iff Hc _ [= -> _]. congruence.
  - intros [He _]%andb_true_iff _ _ Hd [= -> _]. congruence.
  - intros [_ Ha]%andb_true_iff [_ Hb]%andb_true_iff Hc Hd [= -> E].
    destruct (IH b Ha Hb Hc Hd E) as [-> ->]. done.
Qed.

Lemma Itoa_inj_sep m n c d x y :
  num_char c = false -> num_char d = false ->
  Itoa m +:+ String c x = Itoa n +:+ String d y -> m = n /\ String c x = String d y.
Proof.
  intros Hc Hd E. eapply append_sep_inj in E as [E ->]; [..|done|done]; try apply Itoa_num.
  split; [by apply (inj pretty)|done].
Qed.
