(* ===== verification/GoJson.v ===== *)
(** * Go's [encoding/json], as far as hostpack uses it

    JSON values, the compact text [json.Marshal] gives them (with the HTML-safe
    escapes Go applies by default), and the string decoder, which turns out to
    invert the encoder on valid UTF-8: the property the immutability of a pack's
    identity digest rests on. *)
From Stdlib Require Import String Ascii.
From S2P Require Import Prelude GoStrings.

(** ** Values *)

(** A JSON value.  An object keeps the order its members are written in; [JNum] is
    a number with a fraction or an exponent, as its text. *)
#[warnings="-register-all"]
Inductive json :=
  | JNull
  | JBool (b : bool)
  | JInt (z : Z)
  | JNum (literal : string)
  | JStr (s : string)
  | JArr (l : list json)
  | JObj (l : list (string * json)).

(** ** UTF-8 *)

Definition between (lo hi : Z) (c : ascii) : bool := (lo <=? code c) && (code c <=? hi).

(** The byte sequences [utf8.DecodeRune] accepts, of two, three and four bytes. *)
Definition utf8_2 (a b : ascii) : bool := between 194 223 a && between 128 191 b.
Definition utf8_3 (a b c : ascii) : bool :=
  ((between 224 224 a && between 160 191 b)
   || (between 225 236 a && between 128 191 b)
   || (between 237 237 a && between 128 159 b)
   || (between 238 239 a && between 128 191 b)) && between 128 191 c.
Definition utf8_4 (a b c d : ascii) : bool :=
  ((between 240 240 a && between 144 191 b)
   || (between 241 243 a && between 128 191 b)
   || (between 244 244 a && between 128 143 b)) && between 128 191 c && between 128 191 d.

(** [utf8.ValidString]. *)
Fixpoint valid_utf8 (s : string) : bool :=
  match s with
  | "" => true
  | String a s1 =>
      if is_ascii a then valid_utf8 s1
      else match s1 with
      | "" => false
      | String b s2 =>
          if utf8_2 a b then valid_utf8 s2
          else match s2 with
          | "" => false
          | String c s3 =>
              if utf8_3 a b c then valid_utf8 s3
              else match s3 with
              | "" => false
              | String d s4 => utf8_4 a b c d && valid_utf8 s4
              end
          end
      end
  end.

(** U+2028 and U+2029, which Go escapes. *)
Definition line_separator (a b c : ascii) : bool :=
  (code a =? 226) && (code b =? 128) && ((code c =? 168) || (code c =? 169)).

(** ** The encoder *)

Definition unicode_escape (hi lo : Z) : string := backslash +:+ "u" +:+ hex2 hi +:+ hex2 lo.

Definition escape_ascii (c : ascii) : string :=
  let z := code c in
  if z =? 34 then backslash +:+ dquote
  else if z =? 92 then backslash +:+ backslash
  else if z =? 8 then backslash +:+ "b"
  else if z =? 12 then backslash +:+ "f"
  else if z =? 10 then backslash +:+ "n"
  else if z =? 13 then backslash +:+ "r"
  else if z =? 9 then backslash +:+ "t"
  else if (z <? 32) || (z =? 60) || (z =? 62) || (z =? 38) then unicode_escape 0 z
  else String c "".

(** The loop of [appendString]: an invalid byte is written as U+FFFD. *)
Fixpoint escape (s : string) : string :=
  match s with
  | "" => ""
  | String a s1 =>
      if is_ascii a then escape_ascii a +:+ escape s1
      else match s1 with
      | "" => backslash +:+ "ufffd"
      | String b s2 =>
          if utf8_2 a b then String a (String b (escape s2))
          else match s2 with
          | "" => backslash +:+ "ufffd" +:+ escape s1
          | String c s3 =>
              if utf8_3 a b c then
                (if line_separator a b c then unicode_escape 32 (code c - 128)
                 else String a (String b (String c ""))) +:+ escape s3
              else match s3 with
              | "" => backslash +:+ "ufffd" +:+ escape s1
              | String d s4 =>
                  if utf8_4 a b c d
                  then String a (String b (String c (String d (escape s4))))
                  else backslash +:+ "ufffd" +:+ escape s1
              end
          end
      end
  end.
Definition json_quote (s : string) : string := dquote +:+ escape s +:+ dquote.

(** [json.Marshal]. *)
Fixpoint Marshal (j : json) : string :=
  match j with
  | JNull => "null"
  | JBool true => "true"
  | JBool false => "false"
  | JInt z => Itoa z
  | JNum literal => literal
  | JStr s => json_quote s
  | JArr l => "[" +:+ Join (map Marshal l) "," +:+ "]"
  | JObj l =>
      "{" +:+ Join (map (fun '(k, v) => json_quote k +:+ ":" +:+ Marshal v) l) "," +:+ "}"
  end.

(** ** The string decoder *)

Definition hex_value (c : ascii) : option Z :=
  if between 48 57 c then Some (code c - 48)
  else if between 97 102 c then Some (code c - 87)
  else if between 65 70 c then Some (code c - 55)
  else None.
Definition hex4 (a b c d : ascii) : option Z :=
  w ← hex_value a; x ← hex_value b; y ← hex_value c; z ← hex_value d;
  Some (4096 * w + 256 * x + 16 * y + z).

(** The UTF-8 bytes of a rune; a surrogate becomes U+FFFD. *)
Definition encode_rune (r : Z) : string :=
  if r <? 128 then String (chr r) ""
  else if r <? 2048 then String (chr (192 + r / 64)) (String (chr (128 + r mod 64)) "")
  else if (55296 <=? r) && (r <=? 57343) then
    String (chr 239) (String (chr 191) (String (chr 189) ""))
  else if 65536 <=? r then
    String (chr (240 + r / 262144)) (String (chr (128 + (r / 4096) mod 64))
      (String (chr (128 + (r / 64) mod 64)) (String (chr (128 + r mod 64)) "")))
  else
    String (chr (224 + r / 4096))
      (String (chr (128 + (r / 64) mod 64)) (String (chr (128 + r mod 64)) "")).

Definition unescape_simple (c : ascii) : option ascii :=
  let z := code c in
  if (z =? 34) || (z =? 92) || (z =? 47) then Some c
  else if z =? 98 then Some (chr 8)
  else if z =? 102 then Some (chr 12)
  else if z =? 110 then Some (chr 10)
  else if z =? 114 then Some (chr 13)
  else if z =? 116 then Some (chr 9)
  else None.

Definition replacement : string := encode_rune 65533.

(** A pair of surrogates, decoded by [utf16.DecodeRune]. *)
Definition surrogate (r : Z) : bool := (55296 <=? r) && (r <=? 57343).
Definition surrogate_pair (r r2 : Z) : bool :=
  (55296 <=? r) && (r <? 56320) && (56320 <=? r2) && (r2 <? 57344).
Definition decode_pair (r r2 : Z) : Z := 65536 + (r - 55296) * 1024 + (r2 - 56320).

(** The first [n] bytes of a string, when it has them, and the rest. *)
Fixpoint split_string (n : nat) (s : string) : option (list ascii * string) :=
  match n, s with
  | O, _ => Some ([], s)
  | S n', String c s' => prod_map (cons c) id <$> split_string n' s'
  | S _, "" => None
  end.

(** The code unit of a [\uXXXX] escape at the front of the input. *)
Definition getu4 (s : string) : option (Z * string) :=
  match s with
  | String e (String u s2) =>
      if (code e =? 92) && (code u =? 117) then
        match split_string 4 s2 with
        | Some ([a; b; c; d], s') => r ← hex4 a b c d; Some (r, s')
        | _ => None
        end
      else None
  | _ => None
  end.

(** One step of the string decoder: the closing quote, or some text and the rest. *)
Inductive unquoted :=
  | Close (rest : string)
  | Chunk (out rest : string).

Definition unquote_escape (s : string) : option unquoted :=
  match getu4 s with
  | Some (r, s') =>
      if surrogate r then
        match getu4 s' with
        | Some (r2, s'') =>
            if surrogate_pair r r2 then Some (Chunk (encode_rune (decode_pair r r2)) s'')
            else Some (Chunk replacement s')
        | None => Some (Chunk replacement s')
        end
      else Some (Chunk (encode_rune r) s')
  | None =>
      match s with
      | String _ (String u s') => c ← unescape_simple u; Some (Chunk (String c "") s')
      | _ => None
      end
  end.

Definition unquote_step (s : string) : option unquoted :=
  match s with
  | "" => None
  | String a s1 =>
      if code a =? 34 then Some (Close s1)
      else if code a =? 92 then unquote_escape s
      else if code a <? 32 then None
      else if is_ascii a then Some (Chunk (String a "") s1)
      else match s1 with
      | "" => Some (Chunk replacement s1)
      | String b s2 =>
          if utf8_2 a b then Some (Chunk (String a (String b "")) s2)
          else match s2 with
          | "" => Some (Chunk replacement s1)
          | String c s3 =>
              if utf8_3 a b c then Some (Chunk (String a (String b (String c ""))) s3)
              else match s3 with
              | "" => Some (Chunk replacement s1)
              | String d s4 =>
                  if utf8_4 a b c d
                  then Some (Chunk (String a (String b (String c (String d "")))) s4)
                  else Some (Chunk replacement s1)
              end
          end
      end
  end.

Fixpoint unquote_go (fuel : nat) (s : string) : option (string * string) :=
  match fuel with
  | O => None
  | S n =>
      match unquote_step s with
      | Some (Close rest) => Some ("", rest)
      | Some (Chunk out rest) => prod_map (append out) id <$> unquote_go n rest
      | None => None
      end
  end.

(** What follows an opening quote: the decoded text up to the closing quote, and
    the rest of the input.  Every step consumes a byte. *)
Definition unquote (s : string) : option (string * string) :=
  unquote_go (S (String.length s)) s.

(** ** Decoding into Go values

    [json.Unmarshal] sets the field whose name equals a member's name, or equals it
    up to letter case; a later member overrides an earlier one, and an absent
    member or [null] leaves the zero value. *)
Definition fold_name (s : string) : string := string_map ascii_lower s.
Definition member (name : string) (l : list (string * json)) : option json :=
  snd <$> last (List.filter (fun kv => bool_decide (fold_name (fst kv) = fold_name name)) l).

Definition type_error {A} : result A := Err (Errorf "json: cannot unmarshal value").

Definition dec_string (j : option json) : result string :=
  match j with None | Some JNull => Ok "" | Some (JStr s) => Ok s | _ => type_error end.
Definition dec_int (j : option json) : result Z :=
  match j with
  | None | Some JNull => Ok 0
  | Some (JInt z) => if int64 z =? z then Ok z else type_error
  | _ => type_error
  end.
Definition dec_bool (j : option json) : result bool :=
  match j with None | Some JNull => Ok false | Some (JBool b) => Ok b | _ => type_error end.
Definition dec_object {A} (d : list (string * json) -> result A) (j : option json) : result A :=
  match j with None | Some JNull => d [] | Some (JObj l) => d l | _ => type_error end.
Definition dec_list {A} (d : option json -> result A) (j : option json) : result (list A) :=
  match j with
  | None | Some JNull => Ok []
  | Some (JArr l) => foldr (fun x acc => a ← d (Some x); l ← acc; Ok (a :: l)) (Ok []) l
  | _ => type_error
  end.
(** A [map[string]string]. *)
Definition dec_string_map (j : option json) : result (gmap string string) :=
  dec_object (foldl (fun acc kv => m ← acc; s ← dec_string (Some (snd kv)); Ok (<[fst kv := s]> m))
                    (Ok ∅)) j.

(** ** Lemmas *)

Lemma unquote_step_ascii c rest :
  is_ascii c = true ->
  unquote_step (escape_ascii c +:+ rest) = Some (Chunk (String c "") rest).
Proof.
  destruct c as [[] [] [] [] [] [] [] []]; intros E; try discriminate E; clear E; reflexivity.
Qed.

Lemma code_inj a z : (code a =? z) = true -> a = chr z.
Proof.
  intros E%Z.eqb_eq. unfold chr. rewrite <- E. unfold code.
  by rewrite N2Z.id, ascii_N_embedding.
Qed.

(** A separator is written as an escape and comes back as its three bytes. *)
Lemma unquote_step_separator a b c rest :
  line_separator a b c = true ->
  unquote_step (unicode_escape 32 (code c - 128) +:+ rest)
  = Some (Chunk (String a (String b (String c ""))) rest).
Proof.
  unfold line_separator. rewrite !andb_true_iff, orb_true_iff.
  intros [[->%code_inj ->%code_inj] [->%code_inj | ->%code_inj]]; reflexivity.
Qed.

(** The bytes outside ASCII are none of the bytes the decoder singles out. *)
Lemma unquote_step_high a s :
  is_ascii a = false ->
  unquote_step (String a s) =
    match s with
    | "" => Some (Chunk replacement s)
    | String b s2 =>
        if utf8_2 a b then Some (Chunk (String a (String b "")) s2)
        else match s2 with
        | "" => Some (Chunk replacement s)
        | String c s3 =>
            if utf8_3 a b c then Some (Chunk (String a (String b (String c ""))) s3)
            else match s3 with
            | "" => Some (Chunk replacement s)
            | String d s4 =>
                if utf8_4 a b c d
                then Some (Chunk (String a (String b (String c (String d "")))) s4)
                else Some (Chunk replacement s)
            end
        end
    end.
Proof.
  intros E. unfold unquote_step. rewrite E. unfold is_ascii in E. bools.
  rewrite (proj2 (Z.eqb_neq _ 34)), (proj2 (Z.eqb_neq _ 92)), (proj2 (Z.ltb_ge _ 32)) by lia.
  done.
Qed.

(** One more step of fuel than the fuel that gives a result gives it too. *)
Lemma unquote_go_mono n m s r : unquote_go n s = Some r -> (n <= m)%nat -> unquote_go m s = Some r.
Proof.
  revert m s r. induction n as [|n IH]; intros m s r; [done|].
  destruct m as [|m]; [lia|]. cbn. intros E Hm. destruct (unquote_step s) as [[]|]; try done.
  apply fmap_Some in E as (x & Ex & ->). by rewrite (IH m _ x) by (done || lia).
Qed.



(** What one step of [escape] writes, one step of the decoder reads. *)
Lemma unquote_step_escape s :
  valid_utf8 s = true -> s <> "" ->
  exists out s0, s = out +:+ s0 /\ out <> "" /\ valid_utf8 s0 = true /\
    forall rest, unquote_step (escape s +:+ rest) = Some (Chunk out (escape s0 +:+ rest)).
Proof.
  intros Hv Hne. destruct s as [|a s1]; [done|]. clear Hne. cbn [valid_utf8 escape] in *.
  destruct (is_ascii a) eqn:Ea.
  { exists (String a ""), s1. split_and!; [done..|]. intros rest. rewrite append_assoc.
    by apply unquote_step_ascii. }
  destruct s1 as [|b s2]; [done|]. destruct (utf8_2 a b) eqn:E2.
  { exists (String a (String b "")), s2. split_and!; [done..|]. intros rest.
    rewrite !append_cons, unquote_step_high, E2 by done. done. }
  destruct s2 as [|c s3]; [done|]. destruct (utf8_3 a b c) eqn:E3.
  { exists (String a (String b (String c ""))), s3. split_and!; [done..|]. intros rest.
    destruct (line_separator a b c) eqn:El.
    - rewrite append_assoc. by apply unquote_step_separator.
    - rewrite !append_cons, unquote_step_high, E2, E3 by done. done. }
  destruct s3 as [|d s4]; [done|]. apply andb_true_iff in Hv as [E4 Hv]. rewrite E4.
  exists (String a (String b (String c (String d "")))), s4. split_and!; [done..|].
  intros rest. rewrite !append_cons, unquote_step_high, E2, E3, E4 by done. done.
Qed.

Lemma unquote_go_escape s : valid_utf8 s = true -> forall rest,
  exists n, unquote_go n (escape s +:+ dquote +:+ rest) = Some (s, rest).
Proof.
  induction s as [s IH] using (induction_ltof1 _ String.length). unfold ltof in IH.
  intros Hv rest. destruct (decide (s = "")) as [->|Hne]; [by exists 1%nat|].
  destruct (unquote_step_escape s Hv Hne) as (out & s0 & -> & Hout & Hv0 & E).
  destruct (IH s0) with rest as [n Hn]; [|done|].
  { rewrite length_append. destruct out; [done|]. cbn. lia. }
  exists (S n). cbn. by rewrite E, Hn.
Qed.

(** Encoding is injective on valid strings, even with a tail. *)
Lemma json_quote_inj_app s t x y :
  valid_utf8 s = true -> valid_utf8 t = true ->
  json_quote s +:+ x = json_quote t +:+ y -> s = t /\ x = y.
Proof.
  unfold json_quote. rewrite !append_assoc. intros Hs Ht E%(inj (append dquote)).
  destruct (unquote_go_escape s Hs x) as [n Hn], (unquote_go_escape t Ht y) as [m Hm].
  apply (unquote_go_mono _ (n + m)) in Hn, Hm; [|lia..].
  rewrite E, Hm in Hn. by injection Hn as -> ->.
Qed.

(** *** Members of a printed object *)

Lemma member_app n l1 l2 :
  member n (l1 ++ l2) = match member n l2 with Some x => Some x | None => member n l1 end.
Proof.
  unfold member. rewrite List.filter_app. generalize (List.filter (fun kv =>
    bool_decide (fold_name kv.1 = fold_name n)) l2) as f2. intros f2.
  destruct f2 as [|x f2 _] using rev_ind; [by rewrite app_nil_r|].
  by rewrite app_assoc, !last_snoc.
Qed.

Lemma member_one n k v :
  member n [(k, v)] = if bool_decide (fold_name k = fold_name n) then Some v else None.
Proof. unfold member. cbn [List.filter fst]. by destruct (bool_decide _). Qed.

Lemma member_cons n k v l :
  member n ((k, v) :: l) = match member n l with
    | Some x => Some x
    | None => if bool_decide (fold_name k = fold_name n) then Some v else None end.
Proof. change ((k, v) :: l) with ([(k, v)] ++ l). by rewrite member_app, member_one. Qed.

(** The struct tag [omitempty] on a string. *)
Definition omit_empty (name value : string) : list (string * json) :=
  if bool_decide (value = "") then [] else [(name, JStr value)].

Lemma member_omit n k v :
  member n (omit_empty k v)
  = if bool_decide (fold_name k = fold_name n) && negb (bool_decide (v = "")) then Some (JStr v) else None.
Proof.
  unfold omit_empty. case_bool_decide as Hv; [by rewrite andb_false_r|].
  by rewrite member_one, andb_true_r.
Qed.

Lemma dec_string_omit v :
  dec_string (if negb (bool_decide (v = "")) then Some (JStr v) else None) = Ok v.
Proof. case_bool_decide; [by subst|done]. Qed.

(** Find a member of a concatenation of members with known names. *)
Ltac member_simpl :=
  repeat first [rewrite member_cons|rewrite member_app|rewrite member_omit];
  repeat match goal with
  | |- context [bool_decide (fold_name ?a = fold_name ?b)] =>
      let v := eval vm_compute in (bool_decide (fold_name a = fold_name b)) in
      change (bool_decide (fold_name a = fold_name b)) with v
  end;
  cbn [andb].
