(* ===== verification/JsonText.v ===== *)
(** * JSON texts: [json.MarshalIndent], [json.Unmarshal] and [json.Decoder]

    The texts hostpack writes, indented and compact, and a parser for JSON texts.
    The parser inverts the printer in any layout ([parse_print_text]), which lifts the round
    trips of the state file and of the backup manifests from JSON trees to the bytes on
    disk.  The fuel of the parser is the length of its input: every value and
    every member consumes a byte. *)
From Stdlib Require Import String Ascii.
From stdpp Require Import pretty.
From S2P Require Import Prelude GoStrings GoJson.

(** ** The printer *)

Definition json_space (c : ascii) : bool :=
  (code c =? 32) || (code c =? 9) || (code c =? 10) || (code c =? 13).

(** Where a printer puts white space: a break at a depth, between the elements of an
    array or an object, and the gap between a name and its value. *)
Class Layout := mkLayout {
  nl : nat -> string;
  gap : string;
  nl_space d : string_forallb json_space (nl d) = true;
  gap_space : string_forallb json_space gap = true }.

Fixpoint print `{Layout} (d : nat) (j : json) : string :=
  match j with
  | JArr [] => "[]"
  | JObj [] => "{}"
  | JArr l =>
      "[" +:+ nl (S d) +:+ Join (map (print (S d)) l) ("," +:+ nl (S d)) +:+ nl d +:+ "]"
  | JObj l =>
      "{" +:+ nl (S d)
      +:+ Join (map (fun '(k, v) => json_quote k +:+ ":" +:+ gap +:+ print (S d) v) l) ("," +:+ nl (S d))
      +:+ nl d +:+ "}"
  | _ => Marshal j
  end.

(** The layout of [json.MarshalIndent(v, "", "  ")], and the one without any space. *)
Definition indent (d : nat) : string := newline +:+ string_repeat (chr 32) (2 * d).

Lemma indent_space d : string_forallb json_space (indent d) = true.
Proof.
  unfold indent, newline. rewrite append_cons, append_nil_l. cbn [string_forallb].
  assert (forall n, string_forallb json_space (string_repeat (chr 32) n) = true) as ->; [|done].
  intros n. by induction n.
Qed.

Definition indented : Layout := mkLayout indent " " indent_space eq_refl.
Definition compact : Layout := mkLayout (fun _ => "") "" (fun _ => eq_refl) eq_refl.
Definition MarshalIndent (j : json) : string := @print indented 0 j.

(** ** The parser *)

Definition skip_ws : string -> string := trim_left json_space.

Definition digit (c : ascii) : bool := between 48 57 c.
(** Digits, signs, the point and the letter of an exponent. *)
Definition number_char (c : ascii) : bool :=
  digit c || (code c =? 43) || (code c =? 45) || (code c =? 46) || (code c =? 69) || (code c =? 101).

(** The longest prefix of characters that satisfy [p], and the rest. *)
Fixpoint span (p : ascii -> bool) (s : string) : string * string :=
  match s with
  | "" => ("", "")
  | String c s' => if p c then let '(a, b) := span p s' in (String c a, b) else ("", s)
  end.

(** An unsigned integer literal: no leading zero. *)
Definition is_natural (s : string) : bool :=
  match s with
  | "" => false
  | String c s' => digit c && string_forallb digit s' && (negb (code c =? 48) || bool_decide (s' = ""))
  end.
Definition unsigned (s : string) : string := TrimPrefix s "-".
Definition is_integer (s : string) : bool := is_natural (unsigned s).
Fixpoint decimal (acc : Z) (s : string) : Z :=
  match s with "" => acc | String c s' => decimal (10 * acc + (code c - 48)) s' end.
Definition integer_value (s : string) : Z :=
  if HasPrefix s "-" then - decimal 0 (unsigned s) else decimal 0 s.

(** A literal with a fraction or an exponent. *)
Definition is_digits (s : string) : bool := negb (bool_decide (s = "")) && string_forallb digit s.
Definition is_exponent (s : string) : bool :=
  match s with
  | String c s' => if (code c =? 43) || (code c =? 45) then is_digits s' else is_digits s
  | "" => false
  end.
Definition is_float (s : string) : bool :=
  let '(int, rest) := span digit (unsigned s) in
  is_natural int &&
  match rest with
  | "" => false
  | String c r =>
      let exponent r := match r with
        | "" => true
        | String e r' => ((code e =? 69) || (code e =? 101)) && is_exponent r' end in
      if code c =? 46 then let '(frac, r') := span digit r in is_digits frac && exponent r'
      else exponent rest
  end.

Definition number (s : string) : option json :=
  if is_integer s then Some (JInt (integer_value s))
  else if is_float s then Some (JNum s) else None.

Section Elements.
Context (value : string -> option (json * string)).

(** The elements of an array behind its bracket, and the members of an object. *)
Fixpoint parse_elements (fuel : nat) (s : string) : option (list json * string) :=
  match fuel with
  | O => None
  | S n =>
      '(v, r) ← value s;
      match skip_ws r with
      | String c r' =>
          if code c =? 44 then prod_map (cons v) id <$> parse_elements n r'
          else if code c =? 93 then Some ([v], r') else None
      | "" => None
      end
  end.

Definition parse_key (s : string) : option (string * string) :=
  match skip_ws s with
  | String q s' =>
      if code q =? 34 then
        '(k, r) ← unquote s';
        match skip_ws r with
        | String c r' => if code c =? 58 then Some (k, r') else None
        | "" => None
        end
      else None
  | "" => None
  end.

Fixpoint parse_members (fuel : nat) (s : string) : option (list (string * json) * string) :=
  match fuel with
  | O => None
  | S n =>
      '(k, r) ← parse_key s;
      '(v, r) ← value r;
      match skip_ws r with
      | String c r' =>
          if code c =? 44 then prod_map (cons (k, v)) id <$> parse_members n r'
          else if code c =? 125 then Some ([(k, v)], r') else None
      | "" => None
      end
  end.
End Elements.

(** Whether the next byte that is not space is the closing bracket. *)
Definition closes (z : Z) (s : string) : option string :=
  match skip_ws s with String c r => if code c =? z then Some r else None | "" => None end.

Fixpoint parse_value (fuel : nat) (s : string) : option (json * string) :=
  match fuel with
  | O => None
  | S n =>
      match skip_ws s with
      | "" => None
      | String c s1 =>
          if code c =? 34 then prod_map JStr id <$> unquote s1
          else if code c =? 123 then
            match closes 125 s1 with
            | Some r => Some (JObj [], r)
            | None => prod_map JObj id <$> parse_members (parse_value n) n s1
            end
          else if code c =? 91 then
            match closes 93 s1 with
            | Some r => Some (JArr [], r)
            | None => prod_map JArr id <$> parse_elements (parse_value n) n s1
            end
          else if code c =? 116 then (fun r => (JBool true, r)) <$> CutPrefix "rue" s1
          else if code c =? 102 then (fun r => (JBool false, r)) <$> CutPrefix "alse" s1
          else if code c =? 110 then (fun r => (JNull, r)) <$> CutPrefix "ull" s1
          else let '(literal, r) := span number_char (String c s1) in
               (fun j => (j, r)) <$> number literal
      end
  end.

Definition syntax_error {A} : result A := Err (Errorf "invalid JSON").

(** [json.Unmarshal]: one value and nothing else.  [json.NewDecoder(r).Decode]:
    the first value of the stream. *)
Definition Unmarshal (s : string) : result json :=
  match parse_value (S (String.length s)) s with
  | Some (j, r) => if bool_decide (skip_ws r = "") then Ok j else syntax_error
  | None => syntax_error
  end.
Definition Decode (s : string) : result json :=
  match parse_value (S (String.length s)) s with
  | Some (j, _) => Ok j
  | None => if bool_decide (skip_ws s = "") then Err ErrEOF else syntax_error
  end.

Example parse_example :
  Unmarshal (MarshalIndent (JObj [("a", JArr [JInt (-12); JNull; JNum "1.5e3"]); ("b", JObj []); ("c<", JBool true)]))
  = Ok (JObj [("a", JArr [JInt (-12); JNull; JNum "1.5e3"]); ("b", JObj []); ("c<", JBool true)]).
Proof. reflexivity. Qed.

(** ** The parser inverts the printer *)

(** Documents that are read as they are printed: strings and names are valid UTF-8, and
    the literals with a fraction or an exponent are ones. *)
Definition literal_ok (s : string) : bool :=
  negb (is_integer s) && is_float s && string_forallb number_char s
  && match s with String c _ => num_char c | "" => false end.
Fixpoint json_ok (j : json) : bool :=
  match j with
  | JNull | JBool _ | JInt _ => true
  | JNum s => literal_ok s
  | JStr s => valid_utf8 s
  | JArr l => forallb json_ok l
  | JObj l => forallb (fun '(k, v) => valid_utf8 k && json_ok v) l
  end.

(** *** White space *)

Lemma skip_ws_app w s : string_forallb json_space w = true -> skip_ws (w +:+ s) = skip_ws s.
Proof.
  unfold skip_ws. induction w as [|c w IH]; [done|]. rewrite append_cons. cbn.
  intros [-> Hw]%andb_true_iff. by apply IH.
Qed.

Lemma skip_ws_cons c s : json_space c = false -> skip_ws (String c s) = String c s.
Proof. intros Hc. unfold skip_ws. cbn. by rewrite Hc. Qed.

Lemma skip_nl `{Layout} d s : skip_ws (nl d +:+ s) = skip_ws s.
Proof. apply skip_ws_app, nl_space. Qed.

Lemma parse_value_skip n s : parse_value n (skip_ws s) = parse_value n s.
Proof.
  assert (skip_ws (skip_ws s) = skip_ws s) as E.
  { unfold skip_ws. induction s as [|c s IH]; [done|]. cbn.
    destruct (json_space c) eqn:Ec; [done|]. cbn. by rewrite Ec. }
  destruct n; [done|]. cbn [parse_value]. by rewrite E.
Qed.

Lemma parse_value_gap `{Layout} n s : parse_value n (gap +:+ s) = parse_value n s.
Proof. by rewrite <- parse_value_skip, skip_ws_app, parse_value_skip by apply gap_space. Qed.

Lemma parse_value_nl `{Layout} n d s : parse_value n (nl d +:+ s) = parse_value n s.
Proof. by rewrite <- parse_value_skip, skip_nl, parse_value_skip. Qed.

(** *** Strings *)

Lemma split_string_length n s l r :
  split_string n s = Some (l, r) -> (String.length r <= String.length s)%nat.
Proof.
  revert s l. induction n as [|n IH]; intros s l; cbn; [destruct s; by intros [= _ <-]|].
  destruct s as [|c s]; [done|]. intros ([l' r'] & E & [= _ <-])%fmap_Some.
  apply IH in E. cbn. lia.
Qed.

Lemma getu4_length s z r : getu4 s = Some (z, r) -> (String.length r < String.length s)%nat.
Proof.
  unfold getu4. destruct s as [|a [|b s]]; [done..|]. case_match; [|done].
  destruct (split_string 4 s) as [[l r']|] eqn:E; [|done]. apply split_string_length in E.
  repeat (case_match; try done). destruct (hex4 _ _ _ _); [|done]. intros [= _ <-]. cbn. lia.
Qed.

Lemma unquote_step_length s out r :
  unquote_step s = Some (Chunk out r) -> (String.length r < String.length s)%nat.
Proof.
  unfold unquote_step. destruct s as [|a s1]; [done|].
  destruct (code a =? 34); [done|]. destruct (code a =? 92).
  { unfold unquote_escape. destruct (getu4 (String a s1)) as [[z s']|] eqn:E.
    - apply getu4_length in E. destruct (surrogate z); [|intros [= _ <-]; done].
      destruct (getu4 s') as [[z2 s'']|] eqn:E2; [|intros [= _ <-]; done].
      apply getu4_length in E2. case_match; intros [= _ <-]; lia.
    - destruct s1 as [|u s']; [done|]. destruct (unescape_simple u); [|done].
      intros [= _ <-]. cbn. lia. }
  repeat (case_match; try done); intros [= _ <-]; cbn; lia.
Qed.

Lemma unquote_go_fuel n s x :
  unquote_go n s = Some x -> forall m, (String.length s < m)%nat -> unquote_go m s = Some x.
Proof.
  revert s x. induction n as [|n IH]; intros s x; [done|]. cbn. intros E m Hm.
  destruct m as [|m]; [lia|]. cbn. destruct (unquote_step s) as [[r|out r]|] eqn:Es; try done.
  apply unquote_step_length in Es. apply fmap_Some in E as (y & Ey & ->).
  by rewrite (IH r y Ey m) by lia.
Qed.

Lemma unquote_escape_text s rest :
  valid_utf8 s = true -> unquote (escape s +:+ dquote +:+ rest) = Some (s, rest).
Proof.
  intros Hs. destruct (unquote_go_escape s Hs rest) as [n Hn].
  eapply unquote_go_fuel; [exact Hn|lia].
Qed.

Lemma json_quote_app s rest :
  json_quote s +:+ rest = String (chr 34) (escape s +:+ dquote +:+ rest).
Proof. unfold json_quote, dquote. by rewrite !append_cons, !append_nil_l, append_assoc. Qed.

(** *** Numbers *)

Lemma decimal_pretty_go n s :
  decimal 0 (pretty_N_go n s) = decimal (Z.of_N n) s.
Proof.
  revert s. induction (N.lt_wf_0 n) as [n _ IH]; intros s.
  destruct (decide (n = 0%N)) as [->|Hn]; [by rewrite pretty_N_go_0|].
  rewrite pretty_N_go_step by lia. rewrite IH by (apply N.div_lt; lia). cbn [decimal]. f_equal.
  assert (code (pretty_N_char (n `mod` 10)) = 48 + Z.of_N (n `mod` 10)) as ->.
  { assert (n `mod` 10 < 10)%N as Hm by (apply N.mod_lt; lia).
    assert (exists k, (n `mod` 10)%N = N.of_nat k /\ (k < 10)%nat) as (k & -> & Hk).
    { exists (N.to_nat (n `mod` 10)). lia. }
    do 10 (destruct k as [|k]; [reflexivity|]). lia. }
  rewrite N2Z.inj_mod, N2Z.inj_div. change (Z.of_N 10) with 10.
  pose proof (Z.div_mod (Z.of_N n) 10). lia.
Qed.

Lemma pretty_go_digits n s :
  string_forallb digit s = true -> string_forallb digit (pretty_N_go n s) = true.
Proof.
  revert s. induction (N.lt_wf_0 n) as [n _ IH]; intros s Hs.
  destruct (decide (n = 0%N)) as [->|Hn]; [by rewrite pretty_N_go_0|].
  rewrite pretty_N_go_step by lia. apply IH; [apply N.div_lt; lia|].
  cbn [string_forallb]. rewrite Hs. unfold pretty_N_char. by repeat case_match.
Qed.

(** A positive number starts with a digit other than zero. *)
Lemma pretty_go_head n s : (0 < n)%N ->
  exists c t, pretty_N_go n s = String c t /\ code c <> 48.
Proof.
  revert s. induction (N.lt_wf_0 n) as [n _ IH]; intros s Hn.
  rewrite pretty_N_go_step by lia. destruct (decide (n < 10)%N) as [Hlt|Hge].
  - rewrite N.div_small, pretty_N_go_0, N.mod_small by done. do 2 eexists. split; [done|].
    assert (exists k, n = N.of_nat k /\ (0 < k < 10)%nat) as (k & -> & Hk).
    { exists (N.to_nat n). lia. }
    do 10 (destruct k as [|k]; [try done; lia|]). lia.
  - apply IH; [apply N.div_lt; lia|]. apply N.div_str_pos. lia.
Qed.

Lemma natural_pretty (n : N) :
  is_natural (pretty n) = true /\ decimal 0 (pretty n) = Z.of_N n.
Proof.
  unfold pretty, pretty_N. case_decide as Hn; [by subst|]. rewrite decimal_pretty_go. split; [|done].
  destruct (pretty_go_head n "") as (c & t & E & Hc); [lia|].
  pose proof (pretty_go_digits n "" eq_refl) as Hd. rewrite E in Hd |- *. cbn in Hd |- *.
  apply Z.eqb_neq in Hc. by rewrite Hc, andb_true_r.
Qed.

Lemma natural_no_sign s : is_natural s = true -> HasPrefix s "-" = false /\ unsigned s = s.
Proof.
  destruct s as [|c s]; [done|]. cbn. intros [[Hc _]%andb_true_iff _]%andb_true_iff.
  unfold HasPrefix, unsigned, TrimPrefix. cbn. rewrite (bool_decide_eq_false_2 (_ = c)) by (intros <-; done).
  split; [|done]. apply bool_decide_eq_false_2. by intros [].
Qed.

Lemma number_Itoa z : number (Itoa z) = Some (JInt z).
Proof.
  unfold number, is_integer, integer_value, Itoa. destruct z as [|p|p]; [done|..].
  - destruct (natural_pretty (Npos p)) as [Hn Hd].
    change (pretty (Zpos p)) with (pretty (Npos p)).
    destruct (natural_no_sign _ Hn) as [-> ->]. by rewrite Hn, Hd.
  - destruct (natural_pretty (Npos p)) as [Hn Hd].
    change (pretty (Zneg p)) with (String (chr 45) (pretty (Npos p))).
    change (unsigned (String (chr 45) (pretty (Npos p)))) with (pretty (Npos p)).
    by rewrite Hn, Hd.
Qed.

(** *** Documents *)

Fixpoint json_size (j : json) : nat :=
  match j with
  | JArr l => S (list_sum (map (fun x => S (json_size x)) l))
  | JObj l => S (list_sum (map (fun '(_, x) => S (json_size x)) l))
  | _ => 1
  end.

(** What may follow a number: no byte of a number. *)
Definition stops (rest : string) : bool :=
  match rest with "" => true | String c _ => negb (number_char c) end.

Lemma stops_nl `{Layout} d s : stops s = true -> stops (nl d +:+ s) = true.
Proof.
  intros Hs. pose proof (nl_space d) as Hn. destruct (nl d) as [|c t]; [done|].
  rewrite append_cons. cbn in Hn |- *. bools.
  unfold json_space, number_char, digit, between in *. lia.
Qed.

Lemma span_app p s rest :
  string_forallb p s = true -> (match rest with "" => true | String c _ => negb (p c) end) = true ->
  span p (s +:+ rest) = (s, rest).
Proof.
  intros Hs Hr. induction s as [|c s IH].
  - rewrite append_nil_l. destruct rest as [|c r]; [done|]. cbn. apply negb_true_iff in Hr. by rewrite Hr.
  - rewrite append_cons. cbn in Hs |- *. bools. by rewrite H, IH.
Qed.

(** The first byte of a printed value, none of the bytes the parser skips or takes
    for a closing bracket. *)
Definition value_head (c : ascii) : bool :=
  negb (json_space c) && negb (code c =? 93) && negb (code c =? 125).

Lemma Itoa_head z : exists c t, Itoa z = String c t /\ num_char c = true.
Proof.
  pose proof (Itoa_num z) as H. assert (number (Itoa z) <> None) as Hn by by rewrite number_Itoa.
  destruct (Itoa z) as [|c t]; [done|]. cbn in H. bools. eauto.
Qed.

Lemma num_char_cases c : num_char c = true ->
  value_head c = true /\ number_char c = true /\
  code c <> 34 /\ code c <> 123 /\ code c <> 91 /\ code c <> 116 /\ code c <> 102 /\ code c <> 110.
Proof.
  unfold num_char, value_head, json_space, number_char, digit, between. intros H.
  assert (48 <= code c <= 57 \/ code c = 45) as Hc.
  { apply orb_true_iff in H as [H|H]; bools; lia. }
  split_and!; lia.
Qed.

Lemma print_head `{Layout} d j : json_ok j = true ->
  exists c t, print d j = String c t /\ value_head c = true.
Proof.
  destruct j as [|[]|z|l|s|[|x l]|[|[k v] l]]; cbn [json_ok print Marshal]; intros Hj;
    try discriminate; try (do 2 eexists; split; [reflexivity|done]).
  - destruct (Itoa_head z) as (c & t & E & Hc). exists c, t. split; [done|]. by apply num_char_cases.
  - unfold literal_ok in Hj. destruct l as [|c t]; [by rewrite andb_false_r in Hj|]. bools.
    exists c, t. split; [done|]. by apply num_char_cases.
Qed.

Lemma closes_head z c t : value_head c = true -> code c <> z -> closes z (String c t) = None.
Proof.
  unfold value_head. intros [[Hs _]%andb_true_iff _]%andb_true_iff Hz. apply negb_true_iff in Hs.
  unfold closes. rewrite skip_ws_cons by done. apply Z.eqb_neq in Hz. by rewrite Hz.
Qed.

Lemma closes_nl `{Layout} z d s : closes z (nl d +:+ s) = closes z s.
Proof. unfold closes. by rewrite skip_nl. Qed.

(** A number is read off its text. *)
Lemma parse_number n c t j rest :
  num_char c = true -> string_forallb number_char (String c t) = true -> number (String c t) = Some j ->
  stops rest = true -> parse_value (S n) (String c t +:+ rest) = Some (j, rest).
Proof.
  intros Hc Hz Hn Hr. destruct (num_char_cases c Hc) as (Hh & _ & H1 & H2 & H3 & H4 & H5 & H6).
  assert (json_space c = false) as Hsp.
  { unfold value_head in Hh. bools. done. }
  rewrite append_cons. cbn [parse_value]. rewrite skip_ws_cons by done.
  rewrite !(proj2 (Z.eqb_neq (code c) _)) by done. rewrite <- append_cons.
  rewrite (span_app number_char) by done. by rewrite Hn.
Qed.

(** A scalar is read off in one step. *)
Lemma parse_scalar n j rest :
  json_ok j = true -> stops rest = true ->
  match j with JArr _ | JObj _ => False | _ => True end ->
  parse_value (S n) (Marshal j +:+ rest) = Some (j, rest).
Proof.
  intros Hj Hr Hs. destruct j as [|[]|z|l|s|l|l]; try done; cbn [Marshal].
  - destruct (Itoa_head z) as (c & t & E & Hc).
    pose proof (Itoa_num z) as Hz. apply (string_forallb_impl _ number_char) in Hz;
      [|intros ? H; by apply num_char_cases].
    pose proof (number_Itoa z) as Hn. rewrite E in *. by apply parse_number.
  - cbn [json_ok] in Hj. unfold literal_ok in Hj.
    destruct l as [|c t]; [by rewrite andb_false_r in Hj|]. bools. apply parse_number; try done.
    unfold number. by rewrite H, H2.
  - rewrite json_quote_app. cbn [parse_value]. rewrite skip_ws_cons by done.
    change (code (chr 34) =? 34) with true. cbv iota. by rewrite unquote_escape_text.
Qed.

Section Lists.
Context `{Layout} (pv : string -> option (json * string)) (pr : json -> string) (d d' : nat).
Context (pv_nl : forall d s, pv (nl d +:+ s) = pv s).

Lemma skip_comma s : skip_ws ("," +:+ s) = String "," s.
Proof. by rewrite append_cons, append_nil_l, skip_ws_cons. Qed.

(** What [pv] is known to do with the elements. *)
Definition reads (pr : json -> string) (x : json) : Prop :=
  forall r, stops r = true -> pv (pr x +:+ r) = Some (x, r).

Lemma parse_elements_join l rest n :
  l <> [] -> (length l <= n)%nat -> Forall (reads pr) l ->
  parse_elements pv n (Join (map pr l) ("," +:+ nl d) +:+ nl d' +:+ "]" +:+ rest) = Some (l, rest).
Proof.
  revert n. induction l as [|x l IH]; intros n Hl Hn Hpv; [done|].
  apply Forall_cons in Hpv as [Hx Hpv].
  destruct n as [|n]; [cbn in Hn; lia|]. destruct l as [|y l].
  - cbn [parse_elements map Join]. rewrite Hx by by apply stops_nl. cbn [mbind option_bind].
    by rewrite skip_nl.
  - cbn [parse_elements map]. rewrite Join_cons2, !append_assoc, Hx by done.
    cbn [mbind option_bind]. rewrite skip_comma. cbv iota beta.
    change (code "," =? 44) with true. cbv iota.
    destruct n as [|n]; [cbn in Hn; lia|].
    assert (parse_elements pv (S n) (nl d +:+ Join (map pr (y :: l)) ("," +:+ nl d)
      +:+ nl d' +:+ "]" +:+ rest) = Some (y :: l, rest)) as E; [|cbn [map] in E; by rewrite E].
    rewrite <- (IH (S n)) by (done || (cbn in *; lia)). cbn [parse_elements]. by rewrite pv_nl.
Qed.

(** The members of an object; [pm] prints one. *)
Definition print_member (kv : string * json) : string := let '(k, v) := kv in json_quote k +:+ ":" +:+ gap +:+ pr v.

Lemma parse_key_quote k s : valid_utf8 k = true ->
  parse_key (json_quote k +:+ ":" +:+ s) = Some (k, s).
Proof.
  intros Hk. unfold parse_key. rewrite json_quote_app, skip_ws_cons by done.
  change (code (chr 34) =? 34) with true. cbv iota. by rewrite unquote_escape_text.
Qed.

Lemma parse_key_nl s : parse_key (nl d +:+ s) = parse_key s.
Proof. unfold parse_key. by rewrite skip_nl. Qed.

Lemma parse_members_join l rest n :
  l <> [] -> (length l <= n)%nat -> (forall s, pv (gap +:+ s) = pv s) ->
  Forall (fun '(k, v) => valid_utf8 k = true /\ reads pr v) l ->
  parse_members pv n (Join (map print_member l) ("," +:+ nl d) +:+ nl d' +:+ "}" +:+ rest)
  = Some (l, rest).
Proof.
  intros Hl Hn Hsp. revert n Hl Hn. induction l as [|[k v] l IH]; intros n Hl Hn Hpv; [done|].
  apply Forall_cons in Hpv as [[Hk Hx] Hpv].
  destruct n as [|n]; [cbn in Hn; lia|]. destruct l as [|y l].
  - cbn [parse_members map Join print_member]. rewrite !append_assoc, parse_key_quote by done.
    cbn [mbind option_bind]. rewrite Hsp, Hx by by apply stops_nl. cbn [mbind option_bind].
    by rewrite skip_nl.
  - cbn [parse_members map]. rewrite Join_cons2. cbn [print_member].
    rewrite !append_assoc, parse_key_quote by done.
    cbn [mbind option_bind]. rewrite Hsp, Hx by done. cbn [mbind option_bind].
    rewrite skip_comma. cbv iota beta.
    change (code "," =? 44) with true. cbv iota.
    destruct n as [|n]; [cbn in Hn; lia|].
    assert (parse_members pv (S n) (nl d +:+ Join (map print_member (y :: l)) ("," +:+ nl d)
      +:+ nl d' +:+ "}" +:+ rest) = Some (y :: l, rest)) as E; [|cbn [map] in E; by rewrite E].
    rewrite <- (IH (S n)) by (done || (cbn in *; lia)). cbn [parse_members]. by rewrite parse_key_nl.
Qed.
End Lists.

Lemma list_sum_elem (l : list nat) n : n ∈ l -> (n <= list_sum l)%nat.
Proof. intros Hn. induction Hn as [n l|n m l _ IH]; cbn; [lia|]. unfold list_sum in IH. lia. Qed.

Lemma list_sum_length {A} (f : A -> nat) l : (length l <= list_sum (map (fun x => S (f x)) l))%nat.
Proof. unfold list_sum. induction l as [|x l IH]; cbn [length map foldr fold_right]; [lia|]. cbn in *. lia. Qed.

Lemma elem_size {A} (f : A -> nat) l x : x ∈ l -> (S (f x) <= list_sum (map (fun x => S (f x)) l))%nat.
Proof. intros Hx. apply list_sum_elem. apply list_elem_of_fmap. eauto. Qed.

(** The first step on an array or an object that is not empty. *)
Lemma parse_open `{Layout} n d z s c t :
  (z = 93 \/ z = 125) -> s = String c t -> value_head c = true ->
  parse_value (S n) (String (chr (z - 2)) (nl d +:+ s))
  = if z =? 93 then prod_map JArr id <$> parse_elements (parse_value n) n (nl d +:+ s)
    else prod_map JObj id <$> parse_members (parse_value n) n (nl d +:+ s).
Proof.
  intros Hz -> Hc. pose proof (closes_nl z d (String c t)) as Ecl.
  rewrite closes_head in Ecl; [|done|].
  - destruct Hz as [-> | ->]; cbn [parse_value]; rewrite skip_ws_cons by done;
      [change (code (chr (93 - 2))) with 91|change (code (chr (125 - 2))) with 123];
      cbn [Z.eqb Pos.eqb]; by rewrite Ecl.
  - unfold value_head in Hc. bools. destruct Hz as [-> | ->]; done.
Qed.

Lemma parse_print `{Layout} j d rest n :
  json_ok j = true -> stops rest = true -> (json_size j <= n)%nat ->
  parse_value n (print d j +:+ rest) = Some (j, rest).
Proof.
  revert d rest n. induction j as [j IH] using (induction_ltof1 _ json_size). unfold ltof in IH.
  intros d rest n Hj Hr Hn. destruct n as [|n]; [destruct j; cbn in Hn; lia|].
  destruct j as [|b|z|l|s|l|l]; try (by apply parse_scalar).
  - destruct l as [|x l]; [done|]. set (xs := x :: l) in *.
    change (print d (JArr xs)) with ("[" +:+ nl (S d)
      +:+ Join (map (print (S d)) xs) ("," +:+ nl (S d)) +:+ nl d +:+ "]").
    cbn [json_size] in Hn, IH. cbn [json_ok] in Hj. rewrite forallb_forall in Hj.
    pose proof (list_sum_length json_size xs) as Hlen.
    rewrite !append_assoc, append_cons, append_nil_l.
    destruct (print_head (S d) x) as (c & t & E & Hc); [by apply Hj; left|].
    change "["%char with (chr (93 - 2)).
    assert (exists t', Join (map (print (S d)) xs) ("," +:+ nl (S d)) +:+ nl d +:+ "]" +:+ rest
              = String c t') as [t' Et].
    { subst xs. destruct l; cbn [map Join]; rewrite ?append_assoc, E, append_cons; eauto. }
    rewrite (parse_open n (S d) 93 _ c t' (or_introl eq_refl) Et Hc). cbn [Z.eqb Pos.eqb].
    destruct n as [|n]; [cbn in Hn; lia|].
    assert (parse_elements (parse_value (S n)) (S n)
      (Join (map (print (S d)) xs) ("," +:+ nl (S d)) +:+ nl d +:+ "]" +:+ rest)
      = Some (xs, rest)) as Ee.
    { apply parse_elements_join; [intros; apply parse_value_nl|done|lia|].
      apply Forall_forall. intros y Hy r Hstop. pose proof (elem_size json_size xs y Hy).
      apply IH; [lia|apply Hj; by apply list_elem_of_In|done|lia]. }
    cbn [parse_elements] in Ee |- *. rewrite parse_value_nl. by rewrite Ee.
  - destruct l as [|[k x] l]; [done|]. set (xs := (k, x) :: l) in *.
    change (print d (JObj xs)) with ("{" +:+ nl (S d)
      +:+ Join (map (print_member (print (S d))) xs) ("," +:+ nl (S d)) +:+ nl d +:+ "}").
    cbn [json_size] in Hn, IH. cbn [json_ok] in Hj. rewrite forallb_forall in Hj.
    assert (list_sum (map (fun '(_, x) => S (json_size x)) xs)
      = list_sum (map (fun kv => S (json_size (snd kv))) xs)) as Esum.
    { f_equal. apply map_ext. by intros []. }
    rewrite Esum in *. pose proof (list_sum_length (fun kv => json_size (snd kv)) xs) as Hlen.
    rewrite !append_assoc, append_cons, append_nil_l. change "{"%char with (chr (125 - 2)).
    assert (exists t', Join (map (print_member (print (S d))) xs) ("," +:+ nl (S d))
              +:+ nl d +:+ "}" +:+ rest = String (chr 34) t') as [t' Et].
    { subst xs. destruct l; cbn [map Join print_member]; rewrite ?append_assoc, json_quote_app; eauto. }
    rewrite (parse_open n (S d) 125 _ _ t' (or_intror eq_refl) Et eq_refl). cbn [Z.eqb Pos.eqb].
    destruct n as [|n]; [cbn in Hn; lia|].
    assert (parse_members (parse_value (S n)) (S n)
      (Join (map (print_member (print (S d))) xs) ("," +:+ nl (S d)) +:+ nl d +:+ "}" +:+ rest)
      = Some (xs, rest)) as Ee.
    { apply parse_members_join; [done|lia|intros; apply parse_value_gap|].
      apply Forall_forall. intros [k' y] Hy.
      pose proof (elem_size (fun kv => json_size (snd kv)) xs _ Hy) as Hs. cbn [snd] in Hs.
      specialize (Hj (k', y) (proj1 (list_elem_of_In _ _) Hy)). cbn in Hj. bools.
      split; [done|]. intros r Hstop. apply IH; [lia|done|done|lia]. }
    cbn [parse_members] in Ee |- *. rewrite parse_key_nl. by rewrite Ee.
Qed.

(** The text of a document is at least as long as the document is large. *)
Lemma Join_length (l : list string) sep :
  (1 <= String.length sep)%nat ->
  (list_sum (map (fun s => S (String.length s)) l) <= S (String.length (Join l sep)))%nat.
Proof.
  unfold list_sum. intros Hs. induction l as [|s l IH]; [cbn; lia|]. cbn [map fold_right].
  destruct l as [|u l]; [cbn; lia|]. rewrite Join_cons2, !length_append. lia.
Qed.

Lemma list_sum_le {A} (f g : A -> nat) l :
  (forall x, x ∈ l -> (f x <= g x)%nat) -> (list_sum (map f l) <= list_sum (map g l))%nat.
Proof.
  intros H. unfold list_sum. induction l as [|x l IH]; [done|]. cbn.
  assert (f x <= g x)%nat by (apply H; left).
  assert (fold_right Init.Nat.add 0%nat (map f l) <= fold_right Init.Nat.add 0%nat (map g l))%nat; [|lia].
  apply IH. intros y Hy. apply H. by right.
Qed.

Lemma json_size_length `{Layout} j d : json_ok j = true -> (json_size j <= String.length (print d j))%nat.
Proof.
  revert d. induction j as [j IH] using (induction_ltof1 _ json_size). unfold ltof in IH.
  intros d Hj. destruct (print_head d j Hj) as (c & t & E & _).
  destruct j as [|b|z|l|s|l|l]; try (rewrite E; cbn; lia).
  - destruct l as [|x l]; [cbn; lia|]. set (xs := x :: l) in *.
    change (print d (JArr xs)) with ("[" +:+ nl (S d)
      +:+ Join (map (print (S d)) xs) ("," +:+ nl (S d)) +:+ nl d +:+ "]").
    cbn [json_size json_ok] in *. rewrite forallb_forall in Hj. rewrite !length_append.
    pose proof (Join_length (map (print (S d)) xs) ("," +:+ nl (S d))) as HJ.
    rewrite map_map, length_append in HJ.
    assert (list_sum (map (fun x => S (json_size x)) xs)
      <= list_sum (map (fun x => S (String.length (print (S d) x))) xs))%nat; [|cbn in *; lia].
    apply list_sum_le. intros y Hy. pose proof (elem_size json_size xs y Hy).
    pose proof (IH y ltac:(lia) (S d) ltac:(apply Hj; by apply list_elem_of_In)). lia.
  - destruct l as [|[k x] l]; [cbn; lia|]. set (xs := (k, x) :: l) in *.
    change (print d (JObj xs)) with ("{" +:+ nl (S d)
      +:+ Join (map (print_member (print (S d))) xs) ("," +:+ nl (S d)) +:+ nl d +:+ "}").
    cbn [json_size json_ok] in *. rewrite forallb_forall in Hj. rewrite !length_append.
    assert (list_sum (map (fun '(_, x) => S (json_size x)) xs)
      = list_sum (map (fun kv => S (json_size (snd kv))) xs)) as Esum.
    { f_equal. apply map_ext. by intros []. }
    rewrite Esum in *.
    pose proof (Join_length (map (print_member (print (S d))) xs) ("," +:+ nl (S d))) as HJ.
    rewrite map_map, length_append in HJ.
    assert (list_sum (map (fun kv => S (json_size (snd kv))) xs)
      <= list_sum (map (fun x => S (String.length (print_member (print (S d)) x))) xs))%nat; [|cbn in *; lia].
    apply list_sum_le. intros [k' y] Hy.
    pose proof (elem_size (fun kv => json_size (snd kv)) xs _ Hy) as Hs. cbn [snd] in Hs.
    specialize (Hj (k', y) (proj1 (list_elem_of_In _ _) Hy)). cbn in Hj. bools.
    pose proof (IH y ltac:(lia) (S d) ltac:(done)). cbn [snd print_member].
    rewrite !length_append. lia.
Qed.

Lemma parse_print_text `{Layout} j rest :
  json_ok j = true -> stops rest = true ->
  parse_value (S (String.length (print 0 j +:+ rest))) (print 0 j +:+ rest) = Some (j, rest).
Proof.
  intros Hj Hr. apply parse_print; [done..|]. pose proof (json_size_length j 0 Hj).
  rewrite length_append. lia.
Qed.

(** [Unmarshal] and [Decode] read what a printer writes. *)
Lemma Unmarshal_print `{Layout} j : json_ok j = true -> Unmarshal (print 0 j) = Ok j.
Proof.
  intros Hj. pose proof (parse_print_text j "" Hj eq_refl) as E.
  rewrite append_nil_r in E. unfold Unmarshal. by rewrite E.
Qed.

Lemma Decode_print `{Layout} j : json_ok j = true -> Decode (print 0 j) = Ok j.
Proof.
  intros Hj. pose proof (parse_print_text j "" Hj eq_refl) as E.
  rewrite append_nil_r in E. unfold Decode. by rewrite E.
Qed.

Lemma Unmarshal_MarshalIndent j : json_ok j = true -> Unmarshal (MarshalIndent j) = Ok j.
Proof. apply Unmarshal_print. Qed.

Lemma Decode_MarshalIndent j : json_ok j = true -> Decode (MarshalIndent j) = Ok j.
Proof. apply Decode_print. Qed.

(** [Marshal] is the printer without space. *)
Lemma Marshal_print j d : Marshal j = @print compact d j.
Proof.
  revert d. induction j as [j IH] using (induction_ltof1 _ json_size). unfold ltof in IH. intros d.
  destruct j as [|b|z|l|s|l|l]; try done; destruct l as [|x l]; try done;
    cbn [Marshal print nl gap compact]; rewrite !append_nil_l, append_nil_r.
  - do 3 f_equal. apply map_ext_in. intros y Hy%list_elem_of_In. apply IH. cbn [json_size].
    pose proof (elem_size json_size (x :: l) y Hy). lia.
  - do 3 f_equal. apply map_ext_in. intros [k y] Hy%list_elem_of_In. do 2 f_equal. rewrite append_nil_l.
    apply IH. cbn [json_size].
    pose proof (elem_size (fun kv => json_size (snd kv)) (x :: l) _ Hy) as Hs. cbn [snd] in Hs.
    rewrite (map_ext (fun '(_, x) => S (json_size x)) (fun kv => S (json_size (snd kv)))) by (by intros []). lia.
Qed.

Lemma Decode_Marshal j : json_ok j = true -> Decode (Marshal j) = Ok j.
Proof. rewrite (Marshal_print j 0). apply Decode_print. Qed.

(** ** Times and unsigned numbers

    A [time.Time] is its nanoseconds since the epoch.  Its JSON text is RFC 3339,
    which the class leaves open: what the code relies on is that a time that can be
    written (its year has four digits) is read back. *)
Class GoTime := {
  time_text : Z -> option string;
  parse_time : string -> option Z;
  parse_time_text t s : time_text t = Some s -> parse_time s = Some t;
  time_text_valid t s : time_text t = Some s -> valid_utf8 s = true }.

(** The zero [time.Time], 1 January of the year 1. *)
Definition zero_time : Z := - 62135596800 * 10 ^ 9.

Section Time.
Context `{GoTime}.
Definition json_time (t : Z) : result json :=
  match time_text t with
  | Some s => Ok (JStr s)
  | None => Err (Errorf "Time.MarshalJSON: year outside of range [0,9999]")
  end.
Definition dec_time (j : option json) : result Z :=
  match j with
  | None | Some JNull => Ok zero_time
  | Some (JStr s) => match parse_time s with Some t => Ok t | None => type_error end
  | _ => type_error
  end.
Definition dec_time_ptr (j : option json) : result (option Z) :=
  match j with None | Some JNull => Ok None | _ => t ← dec_time j; Ok (Some t) end.
End Time.

Definition dec_uint64 (j : option json) : result Z :=
  match j with
  | None | Some JNull => Ok 0
  | Some (JInt z) => if uint64 z =? z then Ok z else type_error
  | _ => type_error
  end.

Lemma dec_uint64_range z : 0 <= z < 2 ^ 64 -> dec_uint64 (Some (JInt z)) = Ok z.
Proof. intros Hz. unfold dec_uint64, uint64, wrap. rewrite Z.mod_small by done. by rewrite Z.eqb_refl. Qed.

Lemma dec_int_range z : - 2 ^ 63 <= z < 2 ^ 63 -> dec_int (Some (JInt z)) = Ok z.
Proof. intros Hz. unfold dec_int, int64. rewrite swrap_id by lia. by rewrite Z.eqb_refl. Qed.

(** An instance for evaluations: a time written as its number. *)
Lemma number_integer z : is_integer (Itoa z) = true /\ integer_value (Itoa z) = z.
Proof.
  pose proof (number_Itoa z) as E. unfold number in E. destruct (is_integer (Itoa z)).
  - by injection E as ->.
  - destruct (is_float (Itoa z)); [|done]. discriminate.
Qed.

Lemma ascii_valid s : all_ascii s = true -> valid_utf8 s = true.
Proof.
  unfold all_ascii. induction s as [|c s IH]; [done|]. cbn. intros [-> Hs]%andb_true_iff. by apply IH.
Qed.

Lemma decimal_time_text t s :
  Some (Itoa t) = Some s -> (if is_integer s then Some (integer_value s) else None) = Some t.
Proof. intros [= <-]. by destruct (number_integer t) as [-> ->]. Qed.

Lemma decimal_time_valid t s : Some (Itoa t) = Some s -> valid_utf8 s = true.
Proof.
  intros [= <-]. apply ascii_valid. eapply string_forallb_impl; [|apply Itoa_num].
  intros c. unfold num_char, is_ascii. intros H. apply Z.ltb_lt.
  apply orb_true_iff in H as [H|H]; bools; lia.
Qed.

Definition decimal_time : GoTime := {|
  time_text t := Some (Itoa t);
  parse_time s := if is_integer s then Some (integer_value s) else None;
  parse_time_text := decimal_time_text;
  time_text_valid := decimal_time_valid |}.
