(* ===== verification/GoFloat.v ===== *)
(** * Go's [float64] and the values of [map[string]any]

    A JSON document decoded without a schema: numbers become [float64], objects maps.
    Binary64 numbers are the standard library's [spec_float]; the reading of a decimal
    literal is correctly rounded, and the printing is [strconv.AppendFloat]'s shortest
    form in the format [encoding/json] chooses. *)
From Stdlib Require Import String Ascii.
From Stdlib Require Import SpecFloat.
From S2P Require Import Prelude GoStrings GoJson JsonText.

(** ** Numbers *)

Definition float64 : Type := spec_float.
#[global] Instance float64_eq_dec : EqDecision float64.
Proof. unfold float64, EqDecision, Decision. decide equality; solve [apply Pos.eq_dec|apply Z.eq_dec|apply bool_eq_dec]. Defined.

(** [float64(z)]. *)
Definition of_Z (z : Z) : float64 := binary_normalize 53 1024 z 0 false.

(** The float nearest to [d * 10 ^ p]; far outside the range the power is not computed. *)
Definition of_decimal (d p : Z) : float64 :=
  if d =? 0 then S754_zero false
  else if 400 <? p then (if d <? 0 then S754_infinity true else S754_infinity false)
  else if 0 <=? p then of_Z (d * 10 ^ p)
  else if p <? - (Z.log2 (Z.abs d) + 400) then S754_zero (d <? 0)
  else
    let '(q, e, l) := SFdiv_core_binary 53 1024 (Z.abs d) 0 (10 ^ (- p)) 0 in
    binary_round_aux 53 1024 (d <? 0) q e l.

Definition finite (f : float64) : bool :=
  match f with S754_zero _ | S754_finite _ _ _ => true | _ => false end.
Definition negative (f : float64) : bool :=
  match f with S754_zero s | S754_infinity s | S754_finite s _ _ => s | S754_nan => false end.

(** The conversion [int(f)] towards zero; out of range the amd64 instruction gives the
    smallest [int]. *)
Definition to_int (f : float64) : Z :=
  match f with
  | S754_zero _ => 0
  | S754_finite s m e =>
      let a := if 0 <=? e then Zpos m * 2 ^ e else Zpos m / 2 ^ (- e) in
      let z := if s then - a else a in
      if int64 z =? z then z else - 2 ^ 63
  | _ => - 2 ^ 63
  end.

(** ** Decimal literals *)

(** The digits and the exponent of a JSON number, as [strconv.ParseFloat] reads it. *)
Definition exponent_value (s : string) : Z :=
  match s with
  | "" => 0
  | String c s' =>
      if code c =? 43 then decimal 0 s' else if code c =? 45 then - decimal 0 s' else decimal 0 s
  end.
Definition of_literal (s : string) : float64 :=
  let '(int, rest) := span digit (unsigned s) in
  let exponent r := match r with "" => 0 | String _ r' => exponent_value r' end in
  let '(frac, r) := match rest with
    | String c r => if code c =? 46 then span digit r else ("", rest)
    | "" => ("", "")
    end in
  let f := of_decimal (decimal 0 (int +:+ frac)) (exponent r - string_len frac) in
  if HasPrefix s "-" then SFopp f else f.

(** ** Printing *)

(** How many decimal digits a positive number has. *)
Definition decimal_digits (n : Z) : Z := string_len (Itoa n).

(** [floor (log10 (n / d))] of a positive fraction. *)
Definition log10 (n d : Z) : Z :=
  let k := decimal_digits n - decimal_digits d in
  if (if 0 <=? k then d * 10 ^ k <=? n else d <=? n * 10 ^ (- k)) then k else k - 1.

(** The decimals of [digits] places next to [n / d] that read back as [f], the nearer
    first; [p] is the exponent of their last place. *)
Definition candidates (n d p : Z) : list Z :=
  let '(n, d) := if 0 <=? p then (n, d * 10 ^ p) else (n * 10 ^ (- p), d) in
  let q := n / d in
  let r := 2 * (n mod d) in
  if (r <? d) || ((r =? d) && Z.even q) then [q; q + 1] else [q + 1; q].
Fixpoint shortest (fuel : nat) (places : Z) (n d : Z) (f : float64) : Z * Z :=
  let p := log10 n d - places + 1 in
  let found := List.find (fun c => bool_decide (of_decimal c p = f)) (candidates n d p) in
  match found, fuel with
  | Some c, _ => (c, p)
  | None, O => (default 0 (head (candidates n d p)), p)
  | None, S fuel' => shortest fuel' (places + 1) n d f
  end.

(** Trailing zeros of the digits belong to the exponent. *)
Fixpoint strip_zeros (fuel : nat) (c p : Z) : Z * Z :=
  match fuel with
  | O => (c, p)
  | S fuel' => if c mod 10 =? 0 then strip_zeros fuel' (c / 10) (p + 1) else (c, p)
  end.

(** [strconv.AppendFloat] with the shortest precision: seventeen places suffice. *)
Definition shortest_digits (m : positive) (e : Z) : Z * Z :=
  let '(n, d) := if 0 <=? e then (Zpos m * 2 ^ e, 1) else (Zpos m, 2 ^ (- e)) in
  let '(c, p) := shortest 16 1 n d (S754_finite false m e) in strip_zeros 17 c p.

Definition format_e (c p : Z) : string :=
  let ds := Itoa c in
  let x := p + decimal_digits c - 1 in
  let mantissa := match ds with
    | String a "" => ds
    | String a t => String a ("." +:+ t)
    | "" => ""
    end in
  mantissa +:+ "e" +:+ (if x <? 0 then "-" else "+") +:+ Itoa (Z.abs x).

Definition format_f (c p : Z) : string :=
  if 0 <=? p then Itoa (c * 10 ^ p)
  else
    let ds := Itoa c in
    let k := string_len ds + p in
    if 0 <? k then String.substring 0 (Z.to_nat k) ds +:+ "."
                   +:+ String.substring (Z.to_nat k) (Z.to_nat (- p)) ds
    else "0." +:+ string_repeat (chr 48) (Z.to_nat (- k)) +:+ ds.

(** [floatEncoder]: the exponent form below 1e-6 and from 1e21 on. *)
Definition float_text (f : float64) : string :=
  match f with
  | S754_finite s m e =>
      let '(c, p) := shortest_digits m e in
      let x := p + decimal_digits c - 1 in
      (if s then "-" else "") +:+ (if (x <? -6) || (21 <=? x) then format_e c p else format_f c p)
  | S754_zero true => "-0"
  | _ => "0"
  end.

Example float_texts :
  map (fun s => float_text (of_literal s))
    ["2048"; "0.1"; "1e3"; "123456789012345678"; "1e21"; "1.5e-7"; "0.000001"; "-2.50"; "5e-324"; "1e23"]
  = ["2048"; "0.1"; "1000"; "123456789012345680"; "1e+21"; "1.5e-7"; "0.000001"; "-2.5"; "5e-324"; "1e+23"].
Proof. vm_compute. reflexivity. Qed.

(** ** Whole numbers *)

Lemma digits2_shift p n : digits2_pos (Pos.iter xO p n) = (digits2_pos p + n)%positive.
Proof.
  induction n as [|n IH] using Pos.peano_ind; [cbn; lia|].
  rewrite Pos.iter_succ. cbn [digits2_pos]. rewrite IH. lia.
Qed.

Lemma iter_xO p n : Zpos (Pos.iter xO p n) = Zpos p * 2 ^ Zpos n.
Proof.
  induction n as [|n IH] using Pos.peano_ind; [cbn; lia|].
  rewrite Pos.iter_succ, Pos2Z.inj_xO, IH, Pos2Z.inj_succ, Z.pow_succ_r by lia. lia.
Qed.

Lemma digits2_bounds p : 2 ^ (Zpos (digits2_pos p) - 1) <= Zpos p < 2 ^ Zpos (digits2_pos p).
Proof.
  induction p as [p IH|p IH|]; cbn [digits2_pos]; [..|cbn; lia];
    rewrite Pos2Z.inj_succ, Z.pow_succ_r by lia;
    replace (Z.succ (Zpos (digits2_pos p)) - 1) with (Z.succ (Zpos (digits2_pos p) - 1)) by lia;
    rewrite Z.pow_succ_r by lia; lia.
Qed.

(** Up to 53 bits a whole number is its float: no rounding takes place. *)
Lemma binary_round_exact s p :
  (digits2_pos p < 53)%positive ->
  binary_round 53 1024 s p 0
  = S754_finite s (Pos.iter xO p (53 - digits2_pos p)) (Zpos (digits2_pos p) - 53).
Proof.
  intros Hd. set (k := (53 - digits2_pos p)%positive). unfold binary_round, shl_align.
  replace (fexp 53 1024 (Zpos (digits2_pos p) + 0) - 0) with (Zneg k)
    by (unfold fexp, SpecFloat.emin; lia).
  replace (fexp 53 1024 (Zpos (digits2_pos p) + 0)) with (Zneg k)
    by (unfold fexp, SpecFloat.emin; lia).
  replace (Zpos (digits2_pos p) - 53) with (Zneg k) by lia.
  change (shift_pos k p) with (Pos.iter xO p k). set (m := Pos.iter xO p k).
  assert (Zdigits2 (Zpos m) = 53) as Hm.
  { cbn [Zdigits2]. subst m. rewrite digits2_shift. lia. }
  assert (shr_fexp 53 1024 (Zpos m) (Zneg k) loc_Exact = (Build_shr_record (Zpos m) false false, Zneg k)) as E.
  { unfold shr_fexp. rewrite Hm.
    replace (fexp 53 1024 (53 + Zneg k) - Zneg k) with 0 by (unfold fexp, SpecFloat.emin; lia). done. }
  unfold binary_round_aux. rewrite E. cbn [shr_m loc_of_shr_record round_nearest_even]. rewrite E.
  cbn [shr_m]. by rewrite (proj2 (Z.leb_le _ _)) by lia.
Qed.

Lemma of_Z_exact z :
  - 2 ^ 52 < z < 2 ^ 52 -> to_int (of_Z z) = z /\ of_Z (to_int (of_Z z)) = of_Z z /\ finite (of_Z z) = true.
Proof.
  intros Hz. assert (to_int (of_Z z) = z /\ finite (of_Z z) = true) as [E F]; [|by rewrite E].
  unfold of_Z, binary_normalize.
  assert (forall p, Zpos p < 2 ^ 52 -> (digits2_pos p < 53)%positive) as Hd.
  { intros p Hp. pose proof (digits2_bounds p) as [Hb _].
    destruct (Pos.lt_total (digits2_pos p) 53) as [|Hge]; [done|].
    assert (2 ^ 52 <= 2 ^ (Zpos (digits2_pos p) - 1)) by (apply Z.pow_le_mono_r; lia). lia. }
  assert (forall s p, Zpos p < 2 ^ 52 ->
    to_int (binary_round 53 1024 s p 0) = if s then Zneg p else Zpos p) as Hp.
  { intros s p Hp. specialize (Hd p Hp). rewrite binary_round_exact by done. cbn [to_int].
    rewrite (proj2 (Z.leb_gt _ _)) by lia.
    replace (- (Zpos (digits2_pos p) - 53)) with (Zpos (53 - digits2_pos p)) by lia.
    rewrite iter_xO, Z.div_mul by (apply Z.pow_nonzero; lia). unfold int64.
    destruct s; rewrite swrap_id by lia; by rewrite Z.eqb_refl. }
  destruct z as [|p|p]; [done|..].
  - split; [apply Hp; lia|]. by rewrite binary_round_exact by (apply Hd; lia).
  - split; [apply Hp; lia|]. by rewrite binary_round_exact by (apply Hd; lia).
Qed.

(** ** Values *)

(** A value of type [any]: [AInt] is an [int] the program stored itself.  A map is its
    entries in the order of the keys. *)
#[warnings="-register-all"]
Inductive any :=
  | ANil
  | ABool (b : bool)
  | AFloat (f : float64)
  | AInt (z : Z)
  | AStr (s : string)
  | AArr (l : list any)
  | AMap (m : list (string * any)).

Section Maps.
Context {V : Type}.
Fixpoint map_get (k : string) (m : list (string * V)) : option V :=
  match m with
  | [] => None
  | (k', v) :: m' => if bool_decide (k = k') then Some v else map_get k m'
  end.
Fixpoint map_set (k : string) (v : V) (m : list (string * V)) : list (string * V) :=
  match m with
  | [] => [(k, v)]
  | (k', v') :: m' =>
      match String.compare k k' with
      | Lt => (k, v) :: m
      | Eq => (k, v) :: m'
      | Gt => (k', v') :: map_set k v m'
      end
  end.
Definition key_lt (a b : string) : bool := match String.compare a b with Lt => true | _ => false end.
Fixpoint keys_sorted (m : list (string * V)) : bool :=
  match m with
  | [] => true
  | (k, _) :: m' => forallb (fun kv => key_lt k (fst kv)) m' && keys_sorted m'
  end.

Lemma map_get_set k v m : map_get k (map_set k v m) = Some v.
Proof.
  induction m as [|[k' v'] m IH]; cbn; [by rewrite bool_decide_eq_true_2|].
  destruct (String.compare k k') eqn:E; cbn; [by rewrite bool_decide_eq_true_2..|].
  rewrite bool_decide_eq_false_2; [done|]. intros ->.
  pose proof (String.compare_antisym k' k') as A. by rewrite E in A.
Qed.

Lemma map_get_set_ne k k2 v m : k2 <> k -> map_get k2 (map_set k v m) = map_get k2 m.
Proof.
  intros Hne. induction m as [|[k' v'] m IH]; cbn; [by rewrite bool_decide_eq_false_2|].
  destruct (String.compare k k') eqn:E; cbn.
  - apply String.compare_eq_iff in E as ->. by rewrite !bool_decide_eq_false_2.
  - by rewrite bool_decide_eq_false_2.
  - by rewrite IH.
Qed.

(** Setting a key behind all others appends it. *)
Lemma map_set_last k v m :
  forallb (fun kv => key_lt (fst kv) k) m = true -> map_set k v m = m ++ [(k, v)].
Proof.
  induction m as [|[k' v'] m IH]; cbn; [done|]. intros [Hk Hm]%andb_true_iff.
  unfold key_lt in Hk. rewrite String.compare_antisym. destruct (String.compare k' k); try done.
  cbn. by rewrite IH.
Qed.
End Maps.

(** Decoding into [any]: a number that no float can hold is an error. *)
Definition float_of (f : float64) : result any := if finite f then Ok (AFloat f) else type_error.
Definition map_results {A B} (f : A -> result B) : list A -> result (list B) :=
  fix go l := match l with [] => Ok [] | x :: l' => y ← f x; ys ← go l'; Ok (y :: ys) end.
Definition set_members {A} (f : json -> result A) :
    list (string * json) -> list (string * A) -> result (list (string * A)) :=
  fix go l m := match l with [] => Ok m | (k, x) :: l' => y ← f x; go l' (map_set k y m) end.

Fixpoint any_of_json (j : json) : result any :=
  match j with
  | JNull => Ok ANil
  | JBool b => Ok (ABool b)
  | JInt z => float_of (of_Z z)
  | JNum s => float_of (of_literal s)
  | JStr s => Ok (AStr s)
  | JArr l => AArr <$> map_results any_of_json l
  | JObj l => AMap <$> set_members any_of_json l []
  end.

(** Encoding. *)
Definition json_of_float (f : float64) : json :=
  let text := float_text f in
  if bool_decide (text = "-0") then JNum text else default (JNum text) (number text).
Fixpoint json_of_any (v : any) : json :=
  match v with
  | ANil => JNull
  | ABool b => JBool b
  | AFloat f => json_of_float f
  | AInt z => JInt z
  | AStr s => JStr s
  | AArr l => JArr (map json_of_any l)
  | AMap m => JObj (map (fun '(k, x) => (k, json_of_any x)) m)
  end.

(** The value that is read where [v] was written: an [int] comes back as a float. *)
Fixpoint reread (v : any) : any :=
  match v with
  | AInt z => AFloat (of_Z z)
  | AArr l => AArr (map reread l)
  | AMap m => AMap (map (fun '(k, x) => (k, reread x)) m)
  | _ => v
  end.

(** Values that are read as they are written: maps in order, names and strings in
    UTF-8, floats whose text reads back, integers of 52 bits. *)
Definition float_ok (f : float64) : bool :=
  json_ok (json_of_float f)
  && match any_of_json (json_of_float f) with Ok (AFloat g) => bool_decide (g = f) | _ => false end.
Fixpoint any_ok (v : any) : bool :=
  match v with
  | ANil | ABool _ => true
  | AFloat f => float_ok f
  | AInt z => (- 2 ^ 52 <? z) && (z <? 2 ^ 52)
  | AStr s => valid_utf8 s
  | AArr l => forallb any_ok l
  | AMap m => keys_sorted m && forallb (fun '(k, x) => valid_utf8 k && any_ok x) m
  end.

Fixpoint any_size (v : any) : nat :=
  match v with
  | AArr l => S (list_sum (map (fun x => S (any_size x)) l))
  | AMap m => S (list_sum (map (fun '(_, x) => S (any_size x)) m))
  | _ => 1
  end.

Lemma any_size_member (m : list (string * any)) k x :
  (k, x) ∈ m -> (S (any_size x) <= list_sum (map (fun '(_, x) => S (any_size x)) m))%nat.
Proof.
  intros H. pose proof (elem_size (fun kv => any_size (snd kv)) m _ H) as Hs. cbn [snd] in Hs.
  by rewrite (map_ext (fun '(_, x) => S (any_size x)) (fun kv => S (any_size (snd kv)))) by (by intros []).
Qed.

Lemma map_results_ok {A B} (f : A -> result B) g l :
  (forall x, x ∈ l -> f x = Ok (g x)) -> map_results f l = Ok (map g l).
Proof.
  induction l as [|x l IH]; intros H; [done|]. cbn. rewrite (H x) by left. cbn.
  by rewrite IH by (intros y Hy; apply H; by right).
Qed.

(** Entries in order are set one behind the other. *)
Lemma set_members_ok {A B} (f : json -> result A) (h : B -> json) (g : B -> A) m : forall acc,
  (forall k x, (k, x) ∈ m -> f (h x) = Ok (g x)) ->
  keys_sorted m = true ->
  forallb (fun a => forallb (fun kv => key_lt (fst a) (fst kv)) m) acc = true ->
  set_members f (map (fun '(k, x) => (k, h x)) m) acc = Ok (acc ++ map (fun '(k, x) => (k, g x)) m).
Proof.
  induction m as [|[k x] m IH]; intros acc Hf Hs Ha; [cbn; by rewrite app_nil_r|].
  cbn [map set_members]. rewrite (Hf k x) by left. cbn. cbn in Hs. apply andb_true_iff in Hs as [Hk Hs].
  assert (forallb (fun a => key_lt (fst a) k) acc = true
    /\ forallb (fun a => forallb (fun kv => key_lt (fst a) (fst kv)) m) acc = true) as [H1 H2].
  { rewrite !forallb_forall in *. split; intros a Hin; specialize (Ha a Hin); cbn in Ha; by bools. }
  rewrite map_set_last by done. rewrite IH; [by rewrite <- app_assoc|intros; apply (Hf k0); by right|done|].
  rewrite forallb_app, H2. cbn. by rewrite Hk.
Qed.

(** What is written is read back. *)
Lemma any_json v : any_ok v = true ->
  json_ok (json_of_any v) = true /\ any_of_json (json_of_any v) = Ok (reread v).
Proof.
  induction v as [v IH] using (induction_ltof1 _ any_size). unfold ltof in IH.
  destruct v as [|b|f|z|s|l|m]; cbn [any_ok json_of_any reread]; intros Hv; try done.
  - unfold float_ok in Hv. apply andb_true_iff in Hv as [Hj Hv]. split; [done|].
    destruct (any_of_json (json_of_float f)) as [[]|]; try done. by bools; subst.
  - bools. split; [done|]. cbn. unfold float_of.
    destruct (of_Z_exact z) as (_ & _ & ->); [lia|done].
  - cbn [any_size] in IH. rewrite forallb_forall in Hv.
    assert (forall x, x ∈ l -> json_ok (json_of_any x) = true /\ any_of_json (json_of_any x) = Ok (reread x)) as Hx.
    { intros x Hx. pose proof (elem_size any_size l x Hx). apply IH; [lia|]. by apply Hv, list_elem_of_In. }
    split.
    + cbn. apply forallb_forall. intros j (x & <- & Hx')%in_map_iff. by apply Hx, list_elem_of_In.
    + cbn. assert (map_results any_of_json (map json_of_any l) = Ok (map reread l)) as ->; [|done].
      clear Hv IH. induction l as [|x l IHl]; [done|]. cbn. destruct (Hx x) as [_ ->]; [left|]. cbn.
      by rewrite IHl by (intros y Hy; apply Hx; by right).
  - cbn [any_size] in IH. apply andb_true_iff in Hv as [Hs Hv]. rewrite forallb_forall in Hv.
    assert (forall k x, (k, x) ∈ m -> valid_utf8 k = true /\ json_ok (json_of_any x) = true
              /\ any_of_json (json_of_any x) = Ok (reread x)) as Hx.
    { intros k x Hx. pose proof (any_size_member m k x Hx).
      specialize (Hv (k, x) (proj1 (list_elem_of_In _ _) Hx)). cbn in Hv. bools. split; [done|]. apply IH; [lia|done]. }
    split.
    + cbn. apply forallb_forall. intros [k j] ([k' x] & [= -> <-] & Hin)%in_map_iff.
      destruct (Hx k x) as (-> & -> & _); [by apply list_elem_of_In|done].
    + cbn. rewrite (set_members_ok _ _ reread) by (done || (intros; by apply (Hx k))). done.
Qed.

(** *** Order of the keys *)

Lemma ascii_compare_lt_trans a b c : Ascii.compare a b = Lt -> Ascii.compare b c = Lt -> Ascii.compare a c = Lt.
Proof. unfold Ascii.compare. rewrite !N.compare_lt_iff. lia. Qed.

Lemma key_lt_trans a : forall b c, key_lt a b = true -> key_lt b c = true -> key_lt a c = true.
Proof.
  unfold key_lt. induction a as [|x a IH]; intros [|y b] [|z c]; cbn; try done.
  intros H1 H2. destruct (Ascii.compare x y) eqn:E1; [|..|done].
  - apply Ascii.compare_eq_iff in E1 as ->. destruct (Ascii.compare y z); try done. by apply (IH b).
  - destruct (Ascii.compare y z) eqn:E2; [|..|done].
    + apply Ascii.compare_eq_iff in E2 as ->. by rewrite E1.
    + by rewrite (ascii_compare_lt_trans x y z).
Qed.

Section Sorted.
Context {V : Type}.

Lemma forallb_map_set (P : string * V -> bool) k v m :
  P (k, v) = true -> forallb P m = true -> forallb P (map_set k v m) = true.
Proof.
  intros Hk. induction m as [|[k' v'] m IH]; cbn; intros Hm; [by rewrite Hk|].
  apply andb_true_iff in Hm as [Hk' Hm].
  destruct (String.compare k k'); cbn; rewrite ?Hk, ?Hk', ?Hm; cbn; auto.
Qed.

Lemma keys_sorted_set k (v : V) m : keys_sorted m = true -> keys_sorted (map_set k v m) = true.
Proof.
  induction m as [|[k' v'] m IH]; cbn; [done|]. intros [Hk Hm]%andb_true_iff.
  destruct (String.compare k k') eqn:E; cbn.
  - apply String.compare_eq_iff in E as ->. by rewrite Hk, Hm.
  - unfold key_lt at 1. rewrite E, Hk, Hm, andb_true_r. cbn. rewrite forallb_forall in Hk |- *.
    intros kv Hin. eapply key_lt_trans; [|by apply Hk]. unfold key_lt. by rewrite E.
  - rewrite IH, andb_true_r by done. apply forallb_map_set; [|done]. cbn. unfold key_lt.
    rewrite String.compare_antisym, E. done.
Qed.

Lemma map_get_map {W} (f : V -> W) k m :
  map_get k (map (fun '(k, x) => (k, f x)) m) = f <$> map_get k m.
Proof. induction m as [|[k' v] m IH]; cbn; [done|]. by case_bool_decide. Qed.

Lemma map_get_elem k (v : V) m : map_get k m = Some v -> (k, v) ∈ m.
Proof.
  induction m as [|[k' v'] m IH]; cbn; [done|]. case_bool_decide as E; [intros [= ->]; subst; left|].
  intros Hk. right. auto.
Qed.
End Sorted.

Lemma any_ok_set k x m :
  valid_utf8 k = true -> any_ok x = true -> any_ok (AMap m) = true -> any_ok (AMap (map_set k x m)) = true.
Proof.
  cbn [any_ok]. intros Hk Hx [Hs Hm]%andb_true_iff.
  rewrite keys_sorted_set by done. cbn. apply forallb_map_set; [by rewrite Hk, Hx|done].
Qed.

Lemma any_ok_get k x m : any_ok (AMap m) = true -> map_get k m = Some x -> any_ok x = true.
Proof.
  cbn [any_ok]. intros [_ Hm]%andb_true_iff Hk%map_get_elem. rewrite forallb_forall in Hm.
  specialize (Hm _ (proj1 (list_elem_of_In _ _) Hk)). cbn in Hm. by bools.
Qed.
