(* ===== verification/GoDuration.v ===== *)
(** * Durations in the configuration ([internal/config/config.go])

    [Duration.UnmarshalYAML] reads the text of a YAML scalar with [time.ParseDuration],
    modelled here as the standard library has it: 64-bit sums with their overflow checks,
    and fractions through [float64]. *)
From Stdlib Require Import String Ascii.
From Stdlib Require Import SpecFloat.
From S2P Require Import Prelude GoStrings GoJson JsonText GoFloat.

(** ** [time.ParseDuration] *)

(** The [quote] of package [time]: bytes that are not printable ASCII are escaped. *)
Definition quoted_char (c : ascii) : string :=
  if (128 <=? code c) || (code c <? 32) then backslash +:+ "x" +:+ hex2 (code c)
  else if (code c =? 34) || (code c =? 92) then backslash +:+ String c "" else String c "".
Fixpoint quoted (s : string) : string :=
  match s with "" => "" | String c s' => quoted_char c +:+ quoted s' end.
Definition invalid_duration (orig : string) : error :=
  Errorf ("time: invalid duration " +:+ dquote +:+ quoted orig +:+ dquote).

Definition unitMap : gmap string Z :=
  {[ "ns" := 1; "us" := 10 ^ 3; String (chr 194) (String (chr 181) "s") := 10 ^ 3;
     String (chr 206) (String (chr 188) "s") := 10 ^ 3; "ms" := 10 ^ 6; "s" := 10 ^ 9;
     "m" := 60 * 10 ^ 9; "h" := 3600 * 10 ^ 9 ]}.

(** [leadingInt]: the digits in front, unless they exceed [1 << 63]. *)
Fixpoint leadingInt (x : Z) (s : string) : option (Z * string) :=
  match s with
  | String c s' =>
      if digit c then
        if 2 ^ 63 / 10 <? x then None
        else
          let y := uint64 (x * 10 + (code c - 48)) in
          if 2 ^ 63 <? y then None else leadingInt y s'
      else Some (x, s)
  | "" => Some (x, "")
  end.

(** [leadingFraction]: digits that do not fit are dropped. *)
Fixpoint leadingFraction (x : Z) (scale : float64) (overflow : bool) (s : string) : Z * float64 * string :=
  match s with
  | String c s' =>
      if digit c then
        if overflow || ((2 ^ 63 - 1) / 10 <? x) then leadingFraction x scale true s'
        else
          let y := uint64 (x * 10 + (code c - 48)) in
          if 2 ^ 63 <? y then leadingFraction x scale true s'
          else leadingFraction y (SFmul 53 1024 scale (of_Z 10)) false s'
      else (x, scale, s)
  | "" => (x, scale, "")
  end.

(** [uint64(float64(f) * (float64(unit) / scale))]: less than a unit, so within [int64]. *)
Definition fraction (f unit : Z) (scale : float64) : Z :=
  uint64 (to_int (SFmul 53 1024 (of_Z f) (SFdiv 53 1024 (of_Z unit) scale))).

Definition unit_char (c : ascii) : bool := negb (code c =? 46) && negb (digit c).

(** One number with its unit; the value in nanoseconds and the rest. *)
Definition duration_term (orig s : string) : result (Z * string) :=
  let bad := Err (invalid_duration orig) in
  if negb (match s with String c _ => (code c =? 46) || digit c | "" => false end) then bad
  else
    match leadingInt 0 s with
    | None => bad
    | Some (v, s1) =>
        let pre := negb (string_len s1 =? string_len s) in
        let '(f, scale, s2, post) := match s1 with
          | String c s' =>
              if code c =? 46
              then let '(f, scale, s2) := leadingFraction 0 (of_Z 1) false s' in
                   (f, scale, s2, negb (string_len s2 =? string_len s'))
              else (0, of_Z 1, s1, false)
          | "" => (0, of_Z 1, s1, false)
          end in
        if negb pre && negb post then bad
        else
          let '(u, s3) := span unit_char s2 in
          if bool_decide (u = "")
          then Err (Errorf ("time: missing unit in duration " +:+ dquote +:+ quoted orig +:+ dquote))
          else
            match unitMap !! u with
            | None => Err (Errorf ("time: unknown unit " +:+ dquote +:+ quoted u +:+ dquote
                                    +:+ " in duration " +:+ dquote +:+ quoted orig +:+ dquote))
            | Some unit =>
                if 2 ^ 63 / unit <? v then bad
                else
                  let v := uint64 (v * unit) in
                  let v := if 0 <? f then uint64 (v + fraction f unit scale) else v in
                  if (0 <? f) && (2 ^ 63 <? v) then bad else Ok (v, s3)
            end
    end.

(** The loop over the terms; each takes at least one character. *)
Fixpoint duration_terms (fuel : nat) (orig : string) (d : Z) (s : string) : result Z :=
  if bool_decide (s = "") then Ok d
  else
    match fuel with
    | O => Err (invalid_duration orig)
    | S fuel' =>
        match duration_term orig s with
        | Err e => Err e
        | Ok (v, s') =>
            let d := uint64 (d + v) in
            if 2 ^ 63 <? d then Err (invalid_duration orig) else duration_terms fuel' orig d s'
        end
    end.

(** What is behind the sign. *)
Definition signed_duration (orig : string) (neg : bool) (s : string) : result Z :=
  if bool_decide (s = "0") then Ok 0
  else if bool_decide (s = "") then Err (invalid_duration orig)
  else
    match duration_terms (String.length s) orig 0 s with
    | Err e => Err e
    | Ok d =>
        if neg then Ok (int64 (- int64 d))
        else if 2 ^ 63 - 1 <? d then Err (invalid_duration orig) else Ok (int64 d)
    end.
Definition ParseDuration (orig : string) : result Z :=
  match orig with
  | String c s' =>
      if (code c =? 45) || (code c =? 43) then signed_duration orig (code c =? 45) s'
      else signed_duration orig false orig
  | "" => signed_duration orig false ""
  end.

(** [UnmarshalYAML]: what the receiver holds after it, and its error. *)
Definition UnmarshalYAML (value : string) (d : Z) : option error * Z :=
  match ParseDuration value with Err e => (Some e, d) | Ok v => (None, v) end.

Example parses :
  map ParseDuration ["25s"; "20m"; "1h30m"; "1.5h"; ".5s"; "-2ms"; "0"; "0.000000001s"; "1.23456789s"; "2562047h47m16.854775807s"]
  = map Ok [25 * 10 ^ 9; 1200 * 10 ^ 9; 5400 * 10 ^ 9; 5400 * 10 ^ 9; 5 * 10 ^ 8; - 2 * 10 ^ 6; 0; 1; 1234567890; 2 ^ 63 - 1].
Proof. vm_compute. reflexivity. Qed.

(** ** Lemmas *)

Lemma quotient_below u v : 0 < u -> (2 ^ 63 / u <? v) = (2 ^ 63 <? v * u).
Proof.
  intros Hu. apply eq_true_iff_eq. rewrite !Z.ltb_lt. split; intros H.
  - apply Z.nle_gt. intros Hn. assert (v <= 2 ^ 63 / u) by (apply Z.div_le_lower_bound; lia). lia.
  - apply Z.nle_gt. intros Hn. pose proof (Z.mul_div_le (2 ^ 63) u Hu). nia.
Qed.

Lemma digit_code c : digit c = true -> 0 <= code c - 48 <= 9.
Proof. unfold digit, between. intros H. bools. lia. Qed.

Lemma decimal_le s : forall x, string_forallb digit s = true -> 0 <= x -> x <= decimal x s.
Proof.
  induction s as [|c s IH]; intros x Hs Hx; cbn in *; [lia|]. bools.
  pose proof (digit_code c H). specialize (IH (10 * x + (code c - 48)) H0). lia.
Qed.

Lemma uint64_id z : 0 <= z < 2 ^ 64 -> uint64 z = z.
Proof. intros H. by apply Z.mod_small. Qed.

(** The head of what is behind a number or a unit. *)
Definition head_is (p : ascii -> bool) (s : string) : bool :=
  match s with String c _ => p c | "" => true end.

Lemma leadingInt_decimal s : forall x rest,
  string_forallb digit s = true -> head_is (fun c => negb (digit c)) rest = true -> 0 <= x <= 2 ^ 63 ->
  leadingInt x (s +:+ rest) = if decimal x s <=? 2 ^ 63 then Some (decimal x s, rest) else None.
Proof.
  induction s as [|c s IH]; intros x rest Hs Hr Hx.
  - rewrite append_nil_l. cbn [decimal]. rewrite (proj2 (Z.leb_le _ _)) by lia.
    destruct rest as [|c r]; [done|]. cbn in *. apply negb_true_iff in Hr. by rewrite Hr.
  - rewrite append_cons. cbn [leadingInt decimal] in *. cbn [string_forallb] in Hs. bools. rewrite H.
    pose proof (digit_code c H) as Hc. rewrite quotient_below by lia.
    pose proof (decimal_le s (10 * x + (code c - 48)) H0 ltac:(lia)) as Hle.
    destruct (2 ^ 63 <? x * 10) eqn:E1; bools; [by rewrite (proj2 (Z.leb_gt _ _)) by lia|].
    rewrite uint64_id by lia. replace (x * 10) with (10 * x) by lia.
    destruct (2 ^ 63 <? _) eqn:E2; bools; [by rewrite (proj2 (Z.leb_gt _ _)) by lia|].
    apply IH; [done|done|lia].
Qed.

Definition unit_ok (un : string * Z) : bool :=
  negb (bool_decide (un.1 = "")) && string_forallb unit_char un.1 && (0 <? un.2).
Lemma unitMap_ok u n : unitMap !! u = Some n -> u <> "" /\ string_forallb unit_char u = true /\ 0 < n.
Proof.
  intros H%elem_of_map_to_list. assert (forallb unit_ok (map_to_list unitMap) = true) as Ha by (vm_compute; reflexivity).
  rewrite List.forallb_forall in Ha. apply list_elem_of_In, Ha in H. unfold unit_ok in H. cbn in H. by bools.
Qed.

(** ** Texts of whole numbers *)

(** A term as it is written, and what it stands for. *)
Record term := mkTerm { t_digits : string; t_unit : string }.
Definition term_text (t : term) : string := t_digits t +:+ t_unit t.
Definition term_ns (t : term) : Z := decimal 0 (t_digits t) * default 0 (unitMap !! t_unit t).
Record term_ok (t : term) : Prop := {
  tk_digits : is_digits (t_digits t) = true;
  tk_unit : is_Some (unitMap !! t_unit t) }.

Definition terms_text (ts : list term) : string := foldr (fun t s => term_text t +:+ s) "" ts.
Definition total (ts : list term) : Z := foldr (fun t n => term_ns t + n) 0 ts.

(** The one sum that escapes the overflow check: behind terms (and a [d] before them) of
    exactly [2 ^ 63] ns, a term of exactly [2 ^ 63] ns makes it [2 ^ 64], which is [0]. *)
Definition collapses (d : Z) (ts : list term) : Prop :=
  exists a t b, ts = a ++ t :: b /\ d + total a = 2 ^ 63 /\ term_ns t = 2 ^ 63.

Lemma collapses_cons d t ts : collapses (d + term_ns t) ts -> collapses d (t :: ts).
Proof.
  intros (a & t' & b & -> & Ha & Ht). exists (t :: a), t', b. split_and!; [done| |done].
  unfold total in *. cbn. lia.
Qed.

(** The sign in front: none, or whether it is a minus. *)
Definition sign_text (sign : option bool) : string :=
  match sign with None => "" | Some true => "-" | Some false => "+" end.
Definition duration_text (sign : option bool) (ts : list term) : string := sign_text sign +:+ terms_text ts.
(** The number of nanoseconds a text stands for. *)
Definition duration_value (sign : option bool) (ts : list term) : Z :=
  match sign with Some true => - total ts | _ => total ts end.

Lemma is_digits_cons s : is_digits s = true -> string_forallb digit s = true /\ exists c s', s = String c s' /\ digit c = true.
Proof.
  unfold is_digits. intros H. bools. split; [done|]. destruct s as [|c s]; [done|]. exists c, s.
  split; [done|]. cbn in *. by bools.
Qed.

Lemma term_ns_nonneg t : term_ok t -> 0 <= term_ns t.
Proof.
  intros [Hd [n Hn]]. unfold term_ns. rewrite Hn. apply unitMap_ok in Hn as (_ & _ & Hpos). cbn.
  apply is_digits_cons in Hd as [Hd _]. pose proof (decimal_le (t_digits t) 0 Hd ltac:(lia)). apply Z.mul_nonneg_nonneg; lia.
Qed.

Lemma total_nonneg ts : Forall term_ok ts -> 0 <= total ts.
Proof.
  induction 1 as [|t ts Ht _ IH]; [done|]. pose proof (term_ns_nonneg t Ht). unfold total in *. cbn [foldr]. lia.
Qed.

(** What is behind a term starts with a digit, or nothing is. *)
Lemma terms_head ts : Forall term_ok ts -> head_is digit (terms_text ts) = true.
Proof.
  destruct 1 as [|t ts [Hd _] _]; [done|]. apply is_digits_cons in Hd as (_ & c & s & E & Hc).
  cbn. unfold term_text. by rewrite E, !append_cons.
Qed.

Lemma string_len_append a b : string_len (a +:+ b) = string_len a + string_len b.
Proof. unfold string_len. rewrite length_append. lia. Qed.

Lemma duration_term_exact orig t rest :
  term_ok t -> head_is digit rest = true ->
  duration_term orig (term_text t +:+ rest) =
    if term_ns t <=? 2 ^ 63 then Ok (term_ns t, rest) else Err (invalid_duration orig).
Proof.
  intros [Hd [n Hn]] Hr. unfold term_ns, term_text, duration_term. rewrite Hn. cbn [default from_option id].
  apply unitMap_ok in Hn as Hu. destruct Hu as (Hne & Hchars & Hpos).
  apply is_digits_cons in Hd as (Hdigits & c & s & E & Hc).
  pose proof (decimal_le (t_digits t) 0 Hdigits ltac:(lia)) as Hv.
  destruct (t_unit t) as [|uc us] eqn:Eu; [done|].
  assert (unit_char uc = true /\ string_forallb unit_char us = true) as [Huc Hus] by (cbn in Hchars; by bools).
  assert (digit uc = false /\ (code uc =? 46) = false) as [Hud Hup].
  { unfold unit_char in Huc. bools. by rewrite !Z.eqb_neq. }
  rewrite append_assoc. rewrite leadingInt_decimal by (done || lia || (rewrite append_cons; cbn; by rewrite Hud)).
  assert (match t_digits t +:+ String uc us +:+ rest with
    | String c _ => (code c =? 46) || digit c | "" => false end = true) as ->.
  { rewrite E, append_cons. by rewrite Hc, orb_true_r. }
  cbn [negb]. destruct (decimal 0 (t_digits t) <=? 2 ^ 63) eqn:El; bools.
  2: { rewrite (proj2 (Z.leb_gt _ _)) by nia. done. }
  rewrite (append_cons uc us rest), (proj2 (Z.eqb_neq _ _) Hup), <- (append_cons uc us rest).
  rewrite (string_len_append (t_digits t)). rewrite E at 1. cbn [string_len String.length].
  rewrite (proj2 (Z.eqb_neq _ _)) by (unfold string_len; cbn [String.length]; lia). cbn [negb andb].
  rewrite span_app; [|done|].
  2: { destruct rest as [|rc r]; [done|]. cbn in Hr. unfold unit_char. by rewrite Hr, andb_false_r. }
  rewrite bool_decide_eq_false_2 by done. rewrite Hn. rewrite quotient_below by done.
  destruct (2 ^ 63 <? decimal 0 (t_digits t) * n) eqn:Eo; bools.
  - by rewrite (proj2 (Z.leb_gt _ _)).
  - rewrite (proj2 (Z.leb_le _ _)) by lia. cbn. rewrite uint64_id by nia. done.
Qed.

Lemma duration_terms_exact orig ts : forall fuel d,
  Forall term_ok ts -> ~ collapses d ts -> 0 <= d <= 2 ^ 63 -> (String.length (terms_text ts) <= fuel)%nat ->
  duration_terms fuel orig d (terms_text ts) =
    if d + total ts <=? 2 ^ 63 then Ok (d + total ts) else Err (invalid_duration orig).
Proof.
  induction ts as [|t ts IH]; intros fuel d Hts Hcol Hd Hf.
  - cbn [terms_text foldr total]. rewrite Z.add_0_r, (proj2 (Z.leb_le _ _)) by lia. by destruct fuel.
  - apply Forall_cons in Hts as [Ht Hts]. cbn [terms_text foldr total] in *. fold (terms_text ts) (total ts) in *.
    pose proof (term_ns_nonneg t Ht) as Hn. pose proof (total_nonneg ts Hts) as Htot.
    assert (exists c s, term_text t = String c s) as (c & s & Es).
    { destruct (is_digits_cons _ (tk_digits _ Ht)) as (_ & c & s & E & _). unfold term_text. rewrite E, append_cons. eauto. }
    destruct fuel as [|fuel]; [rewrite Es, append_cons in Hf; cbn in Hf; lia|].
    cbn [duration_terms]. rewrite bool_decide_eq_false_2 by (by rewrite Es, append_cons).
    rewrite duration_term_exact by (done || by apply terms_head).
    destruct (term_ns t <=? 2 ^ 63) eqn:El; bools; [|by rewrite (proj2 (Z.leb_gt _ _)) by lia].
    assert (d + term_ns t <> 2 ^ 64) as Hne.
    { intros E. destruct Hcol. exists [], t, ts. cbn. split_and!; [done|lia..]. }
    rewrite uint64_id by lia.
    destruct (2 ^ 63 <? d + term_ns t) eqn:Eo; bools; [by rewrite (proj2 (Z.leb_gt _ _)) by lia|].
    rewrite IH; [by rewrite Z.add_assoc|done|by intros Hc%collapses_cons|lia|]. rewrite Es, append_cons in Hf. cbn in Hf.
    rewrite length_append in Hf. lia.
Qed.

(** The fuel is enough: with any more, the loop gives the same. *)
Lemma leadingInt_suffix s : forall x v r, leadingInt x s = Some (v, r) -> exists p, s = p +:+ r.
Proof.
  induction s as [|c s IH]; intros x v r; cbn [leadingInt]; [intros [= _ <-]; by exists ""|].
  destruct (digit c); [|intros [= _ <-]; by exists ""]. repeat (case_match; try discriminate).
  intros E. destruct (IH _ _ _ E) as [p ->]. by exists (String c p).
Qed.
Lemma leadingFraction_suffix s : forall x sc o f sc' r, leadingFraction x sc o s = (f, sc', r) -> exists p, s = p +:+ r.
Proof.
  induction s as [|c s IH]; intros x sc o f sc' r; cbn [leadingFraction]; [intros [= _ _ <-]; by exists ""|].
  destruct (digit c); [|intros [= _ _ <-]; by exists ""].
  repeat case_match; intros E; destruct (IH _ _ _ _ _ _ E) as [p ->]; by exists (String c p).
Qed.
Lemma span_suffix p s : forall a r, span p s = (a, r) -> s = a +:+ r.
Proof.
  induction s as [|c s IH]; intros a r; cbn; [by intros [= <- <-]|].
  destruct (p c); [|by intros [= <- <-]]. destruct (span p s) as [a' r'] eqn:E. intros [= <- <-].
  by rewrite append_cons, <- (IH _ _ eq_refl).
Qed.

Lemma duration_term_shorter orig s v s' :
  duration_term orig s = Ok (v, s') -> (String.length s' < String.length s)%nat.
Proof.
  unfold duration_term. intros H. destruct (negb _); [done|].
  destruct (leadingInt 0 s) as [[x s1]|] eqn:E1; [|done]. apply leadingInt_suffix in E1 as [p1 ->].
  set (fr := match s1 with String _ _ => _ | "" => _ end) in H.
  assert (exists p, s1 = p +:+ fr.1.2) as [p2 E2].
  { unfold fr. destruct s1 as [|c s1]; [by exists ""|]. destruct (code c =? 46); [|by exists ""].
    destruct (leadingFraction 0 (of_Z 1) false s1) as [[f sc] r] eqn:E.
    apply leadingFraction_suffix in E as [p ->]. by exists (String c p). }
  destruct fr as [[[f sc] s2] post]. cbn in E2. subst s1. destruct (_ && negb post); [done|].
  destruct (span unit_char s2) as [u s3] eqn:E3. apply span_suffix in E3 as ->.
  case_bool_decide as Eu; [done|]. destruct (unitMap !! u); [|done].
  repeat (case_match; try discriminate); injection H as _ <-; rewrite !length_append;
    (destruct u; [done|cbn; lia]).
Qed.

Lemma duration_terms_fuel orig n : forall m d s,
  (String.length s <= n)%nat -> (String.length s <= m)%nat -> duration_terms n orig d s = duration_terms m orig d s.
Proof.
  induction n as [|n IH]; intros m d s Hn Hm; destruct s as [|c s]; try (by destruct m); [cbn in Hn; lia|].
  destruct m as [|m]; [cbn in Hm; lia|]. cbn [duration_terms]. rewrite !bool_decide_eq_false_2 by done.
  destruct (duration_term orig (String c s)) as [[v s']|] eqn:E; [|done].
  apply duration_term_shorter in E. destruct (_ <? _); [done|]. apply IH; lia.
Qed.

Lemma terms_text_head ts : ts <> [] -> Forall term_ok ts ->
  exists c s, terms_text ts = String c s /\ digit c = true /\ s <> "".
Proof.
  intros Hne Hts. destruct Hts as [|t ts [Hd [n Hu]] _]; [done|]. apply is_digits_cons in Hd as (_ & c & s & E & Hc).
  apply unitMap_ok in Hu as [Hu _]. cbn [terms_text foldr]. unfold term_text. rewrite E, !append_cons.
  do 2 eexists. split_and!; [done..|]. intros [[_ X]%append_is_nil _]%append_is_nil. done.
Qed.

Lemma signed_duration_exact orig neg ts :
  ts <> [] -> Forall term_ok ts -> ~ collapses 0 ts ->
  signed_duration orig neg (terms_text ts) =
    if total ts <=? (if neg then 2 ^ 63 else 2 ^ 63 - 1)
    then Ok (if neg then - total ts else total ts) else Err (invalid_duration orig).
Proof.
  intros Hne Hts Hcol. pose proof (total_nonneg ts Hts) as Hn. unfold signed_duration.
  rewrite !bool_decide_eq_false_2; try (destruct (terms_text_head ts Hne Hts) as (c & s & -> & _ & Hs); congruence).
  rewrite duration_terms_exact by (done || lia). rewrite Z.add_0_l.
  destruct (total ts <=? 2 ^ 63) eqn:E; bools; [|by destruct neg; rewrite (proj2 (Z.leb_gt _ _)) by lia].
  destruct neg.
  - rewrite (proj2 (Z.leb_le _ _)) by lia. f_equal. destruct (decide (total ts = 2 ^ 63)) as [->|]; [done|].
    unfold int64. rewrite (swrap_id 64 (total ts)) by lia. apply swrap_id; lia.
  - destruct (2 ^ 63 - 1 <? total ts) eqn:E2; bools; [by rewrite (proj2 (Z.leb_gt _ _)) by lia|].
    rewrite (proj2 (Z.leb_le _ _)) by lia. f_equal. apply swrap_id; lia.
Qed.

(** The verdict on a number of nanoseconds. *)
Lemma in_range_signed (neg : bool) n : 0 <= n ->
  (n <=? (if neg then 2 ^ 63 else 2 ^ 63 - 1))
  = (- 2 ^ 63 <=? (if neg then - n else n)) && ((if neg then - n else n) <? 2 ^ 63).
Proof.
  intros Hn. apply eq_true_iff_eq. rewrite andb_true_iff, !Z.leb_le, Z.ltb_lt. destruct neg; lia.
Qed.

(** ** Properties *)

(** C22: durations are read exactly or refused.  A text of one or more whole numbers with
    units, with or without a sign, sets the field to the sum of its terms when that fits
    in 64 bits and is refused with the field as it was when it does not, whatever the
    length of its digits - with one exception, which [time.ParseDuration] lets through: a
    term of exactly 2^63 ns behind terms that sum to exactly 2^63 ns ([collapses]) takes
    the sum back to zero ([two_halves]).  No other text of this form wraps around. *)
Theorem durations_exact sign ts old :
  ts <> [] -> Forall term_ok ts -> ~ collapses 0 ts ->
  let text := duration_text sign ts in let v := duration_value sign ts in
  UnmarshalYAML text old =
    if (- 2 ^ 63 <=? v) && (v <? 2 ^ 63) then (None, v) else (Some (invalid_duration text), old).
Proof.
  intros Hne Hts Hcol text v. pose proof (total_nonneg ts Hts) as Hn.
  assert (ParseDuration text = if (- 2 ^ 63 <=? v) && (v <? 2 ^ 63) then Ok v else Err (invalid_duration text)) as Hp;
    [|unfold UnmarshalYAML; rewrite Hp; by destruct (_ && _)].
  pose proof (fun neg => signed_duration_exact text neg ts Hne Hts Hcol) as Hs.
  pose proof (fun neg => in_range_signed neg (total ts) Hn) as Hr.
  assert (ParseDuration text = signed_duration text (match sign with Some true => true | _ => false end) (terms_text ts)) as ->.
  { unfold text at 1, duration_text. destruct sign as [[|]|]; [done..|]. cbn [sign_text]. rewrite append_nil_l.
    destruct (terms_text_head ts Hne Hts) as (c & s & E & Hc%digit_code & _). rewrite E at 1. cbn [ParseDuration].
    rewrite !(proj2 (Z.eqb_neq _ _)) by lia. cbn [orb]. unfold text, duration_text. cbn [sign_text].
    by rewrite append_nil_l, E. }
  rewrite Hs, Hr. unfold v, duration_value. by destruct sign as [[|]|].
Qed.

(** ** Witnesses *)

(** Without a term of exactly [2 ^ 63] ns nothing collapses. *)
Lemma no_halves d ts : Forall (fun t => term_ns t <> 2 ^ 63) ts -> ~ collapses d ts.
Proof. rewrite Forall_forall. intros H (a & t & b & -> & _ & Ht). apply (H t); set_solver. Qed.

Definition ninety_minutes : list term := [mkTerm "1" "h"; mkTerm "030" "m"].

Lemma durations_exact_witness :
  duration_text (Some false) ninety_minutes = "+1h030m" /\ UnmarshalYAML "+1h030m" 7 = (None, 5400 * 10 ^ 9)
  /\ UnmarshalYAML "9223372036854775809ns" 7 = (Some (invalid_duration "9223372036854775809ns"), 7).
Proof.
  split; [reflexivity|split].
  - refine (durations_exact (Some false) ninety_minutes 7 _ _ _); [discriminate|..].
    + repeat constructor; vm_compute; first [reflexivity|discriminate|eauto].
    + apply no_halves. by repeat constructor.
  - refine (durations_exact None [mkTerm "9223372036854775809" "ns"] 7 _ _ _); [discriminate|..].
    + repeat constructor; vm_compute; first [reflexivity|discriminate|eauto].
    + apply no_halves. by repeat constructor.
Defined.

(** Two halves of [2 ^ 64]. *)
Example two_halves : UnmarshalYAML "9223372036854775808ns9223372036854775808ns" 7 = (None, 0).
Proof. vm_compute. reflexivity. Qed.
