(* ===== verification/Scanner.v ===== *)
(** * Go's [bufio.Scanner] over lines

    The scanner of two components, with the size of its buffer as a parameter, and that
    it reads back lines that fit. *)
From Stdlib Require Import String Ascii.
From S2P Require Import Prelude GoStrings.

(** [bufio.ErrTooLong]. *)
Definition ErrTooLong : error := Errorf "bufio.Scanner: token too long".

Section Scanner.
Context (maxToken : Z).

(** The lines, and whether the scanner got through: a piece that fills the buffer ends it. *)
Fixpoint scan_tokens (pieces : list string) : list string * bool :=
  match pieces with
  | [] => ([], true)
  | p :: rest =>
      if match rest with [] => bool_decide (p = "") | _ => false end then ([], true)
      else if maxToken <=? string_len p then ([], false)
      else let '(l, ok) := scan_tokens rest in (TrimSuffix p (String (chr 13) "") :: l, ok)
  end.
Definition scan_lines (b : list byte) : list string * bool :=
  scan_tokens (SplitByte (chr 10) (string_of_bytes b)).

(** A line that goes through: not empty, without line ends, within the buffer. *)
Definition good_line (l : string) : bool :=
  negb (bool_decide (l = "")) && negb (ContainsByte (chr 10) l)
  && negb (HasSuffix l (String (chr 13) "")) && (string_len l <? maxToken).
Definition line_bytes (l : string) : list byte := bytes_of_string (l +:+ newline).
Definition text (ls : list string) : list byte := mjoin (map line_bytes ls).

Lemma SplitByte_line c l rest :
  ContainsByte c l = false -> SplitByte c (l +:+ String c rest) = l :: SplitByte c rest.
Proof.
  induction l as [|a l IH]; intros H.
  - rewrite append_nil_l. cbn. by rewrite bool_decide_eq_true_2.
  - rewrite append_cons. unfold ContainsByte in *. cbn in H |- *. apply orb_false_iff in H as [Ha H].
    rewrite Ha. by rewrite IH.
Qed.

Lemma SplitByte_none c l : ContainsByte c l = false -> SplitByte c l = [l].
Proof.
  unfold ContainsByte. induction l as [|a l IH]; [done|]. cbn. intros [-> H]%orb_false_iff. by rewrite IH.
Qed.

Lemma text_app a b : text (a ++ b) = text a ++ text b.
Proof. unfold text. rewrite map_app. apply join_app. Qed.

Lemma text_one l : text [l] = line_bytes l.
Proof. unfold text. cbn. apply app_nil_r. Qed.

Lemma SplitByte_text ls : Forall (fun l => good_line l = true) ls ->
  SplitByte (chr 10) (string_of_bytes (text ls)) = ls ++ [""].
Proof.
  intros H. induction H as [|l ls Hl _ IH]; [done|]. unfold good_line in Hl. bools.
  change (text (l :: ls)) with (line_bytes l ++ text ls).
  rewrite string_of_bytes_app. unfold line_bytes. rewrite string_of_bytes_of_string, append_assoc.
  change (newline +:+ string_of_bytes (text ls)) with (String (chr 10) (string_of_bytes (text ls))).
  rewrite SplitByte_line by done. by rewrite IH.
Qed.

Lemma scan_tokens_good ls : Forall (fun l => good_line l = true) ls -> scan_tokens (ls ++ [""]) = (ls, true).
Proof.
  intros H. induction H as [|l ls Hl _ IH]; [done|]. cbn [app scan_tokens].
  assert (match ls ++ [""] with [] => bool_decide (l = "") | _ => false end = false) as -> by by destruct ls.
  unfold good_line in Hl. bools. rewrite (proj2 (Z.leb_gt _ _)) by done. rewrite IH.
  by rewrite TrimSuffix_none.
Qed.

Lemma scan_text ls : Forall (fun l => good_line l = true) ls -> scan_lines (text ls) = (ls, true).
Proof. intros H. unfold scan_lines. by rewrite SplitByte_text, scan_tokens_good. Qed.
End Scanner.
