(* ===== verification/GoSha256.v ===== *)
(** * SHA-256 and hexadecimal text

    Go's [crypto/sha256] and [encoding/hex], executable, so that the digests in
    the model are the digests the program computes: the two locked packs of
    [config/packs.lock.json] evaluate to the digests recorded there (file Lock).
    A digest is taken to be injective nowhere; theorems conclude an equality or a
    [collision]. *)
From Stdlib Require Import String Ascii.
From coqutil Require Import Word.LittleEndianList.
From S2P Require Import Prelude GoStrings.

Definition rotr (x n : Z) : Z := Z.lor (Z.shiftr x n) (uint32 (Z.shiftl x (32 - n))).

(** The round constants and the initial state are the fractional parts of the
    cube roots and square roots of the first primes, to 32 bits. *)
Definition is_prime (n : Z) : bool :=
  forallb (fun d => negb (n mod d =? 0)) (map Z.of_nat (seq 2 (Z.to_nat (n - 2)))).
Definition primes (n : nat) : list Z :=
  take n (List.filter is_prime (map Z.of_nat (seq 2 320))).

(** The integer cube root, bit by bit from [2^k]. *)
Fixpoint cube_root (k : nat) (r x : Z) : Z :=
  let r' := r + 2 ^ Z.of_nat k in
  let r'' := if r' * r' * r' <=? x then r' else r in
  match k with O => r'' | S k' => cube_root k' r'' x end.

Definition sha_k : list Z :=
  Eval vm_compute in map (fun p => uint32 (cube_root 36 0 (p * 2 ^ 96))) (primes 64).
Definition sha_init : list Z :=
  Eval vm_compute in map (fun p => uint32 (Z.sqrt (p * 2 ^ 64))) (primes 8).

(** Big-endian words. *)
Definition be_split (n : nat) (z : Z) : list byte := rev (le_split n z).
Definition be_combine (b : list byte) : Z := le_combine (rev b).

(** The message followed by 0x80, zeros and its length in bits. *)
Definition sha_pad (m : list byte) : list byte :=
  let zeros := Z.to_nat ((55 - Z.of_nat (length m)) mod 64) in
  m ++ [byte.of_Z 128] ++ replicate zeros (byte.of_Z 0)
    ++ be_split 8 (8 * Z.of_nat (length m)).

Fixpoint chunks (fuel n : nat) (b : list byte) : list (list byte) :=
  match fuel, b with
  | S f, _ :: _ => take n b :: chunks f n (drop n b)
  | _, _ => []
  end.

Definition small_sigma0 (x : Z) : Z := Z.lxor (Z.lxor (rotr x 7) (rotr x 18)) (Z.shiftr x 3).
Definition small_sigma1 (x : Z) : Z := Z.lxor (Z.lxor (rotr x 17) (rotr x 19)) (Z.shiftr x 10).
Definition big_sigma0 (x : Z) : Z := Z.lxor (Z.lxor (rotr x 2) (rotr x 13)) (rotr x 22).
Definition big_sigma1 (x : Z) : Z := Z.lxor (Z.lxor (rotr x 6) (rotr x 11)) (rotr x 25).

(** The message schedule, newest word first. *)
Fixpoint schedule (n : nat) (w : list Z) : list Z :=
  match n with
  | O => w
  | S n' =>
      let nth i := nth (i - 1) w 0 in
      schedule n' (uint32 (small_sigma1 (nth 2%nat) + nth 7%nat
                           + small_sigma0 (nth 15%nat) + nth 16%nat) :: w)
  end.

Definition sha_round (h : list Z) (kw : Z * Z) : list Z :=
  match h with
  | [a; b; c; d; e; f; g; i] =>
      let ch := Z.lxor (Z.land e f) (Z.land (2 ^ 32 - 1 - e) g) in
      let maj := Z.lxor (Z.lxor (Z.land a b) (Z.land a c)) (Z.land b c) in
      let t1 := i + big_sigma1 e + ch + fst kw + snd kw in
      let t2 := big_sigma0 a + maj in
      [uint32 (t1 + t2); a; b; c; uint32 (d + t1); e; f; g]
  | _ => h
  end.

Definition sha_block (h : list Z) (b : list byte) : list Z :=
  let w := rev (schedule 48 (rev (map be_combine (chunks 16 4 b)))) in
  zip_with (fun x y => uint32 (x + y)) h (foldl sha_round h (zip sha_k w)).

(** [sha256.Sum256]. *)
Definition Sum256 (m : list byte) : list byte :=
  let p := sha_pad m in
  concat (map (be_split 4) (foldl sha_block sha_init (chunks (length p) 64 p))).

(** [hex.EncodeToString]. *)
Definition EncodeToString (b : list byte) : string :=
  foldr (fun x s => hex2 (byte.unsigned x) +:+ s) "" b.

(** The digest of a sequence of bytes, as the sources write it down. *)
Definition sha256_hex (m : list byte) : string := EncodeToString (Sum256 m).

(** The first test vector of the standard. *)
Example sha256_abc :
  sha256_hex (bytes_of_string "abc")
  = "ba7816bf8f01cfea414140de5dae2223b00361a396177a9cb410ff61f20015ad".
Proof. vm_compute. reflexivity. Qed.

(** *** Lengths *)

Lemma length_EncodeToString b : String.length (EncodeToString b) = (2 * length b)%nat.
Proof.
  induction b as [|x b IH]; [done|].
  change (EncodeToString (x :: b)) with (hex2 (byte.unsigned x) +:+ EncodeToString b).
  rewrite length_append, IH. cbn. lia.
Qed.

Lemma length_be_split n z : length (be_split n z) = n.
Proof. unfold be_split. by rewrite length_rev, length_le_split. Qed.

Lemma length_sha_round h kw : length (sha_round h kw) = length h.
Proof. unfold sha_round. by repeat case_match. Qed.

Lemma length_sha_block h b : length h = 8%nat -> length (sha_block h b) = 8%nat.
Proof.
  intros Hh. unfold sha_block. rewrite length_zip_with.
  enough (forall l h0, length (foldl sha_round h0 l) = length h0) as -> by lia.
  induction l as [|kw l IH]; intros h0; [done|]. cbn. by rewrite IH, length_sha_round.
Qed.

Lemma length_concat_be_split l :
  length (concat (map (be_split 4) l)) = (4 * length l)%nat.
Proof.
  induction l as [|x l IH]; [done|]. cbn [map concat]. rewrite length_app, length_be_split, IH.
  cbn [length]. lia.
Qed.

Lemma length_Sum256 m : length (Sum256 m) = 32%nat.
Proof.
  unfold Sum256. rewrite length_concat_be_split.
  enough (forall l h, length h = 8%nat -> length (foldl sha_block h l) = 8%nat) as -> by done.
  induction l as [|b l IH]; intros h Hh; [done|]. cbn. by apply IH, length_sha_block.
Qed.

Lemma length_sha256_hex m : String.length (sha256_hex m) = 64%nat.
Proof. unfold sha256_hex. by rewrite length_EncodeToString, length_Sum256. Qed.

Lemma sha256_hex_ascii m : all_ascii (sha256_hex m) = true.
Proof.
  unfold sha256_hex. induction (Sum256 m) as [|x b IH]; [done|].
  change (EncodeToString (x :: b)) with (hex2 (byte.unsigned x) +:+ EncodeToString b).
  unfold all_ascii. rewrite string_forallb_app. apply andb_true_iff. split; [|exact IH].
  assert (forall z, 0 <= z < 16 -> is_ascii (hex_digit z) = true) as Hd.
  { intros z Hz. unfold is_ascii, hex_digit. apply Z.ltb_lt. unfold code, chr.
    rewrite N_ascii_embedding; case_match; lia. }
  pose proof (byte_range x). unfold hex2. cbn [string_forallb].
  rewrite !Hd; [done|apply Z.mod_pos_bound; lia|].
  split; [apply Z.div_pos; lia|apply Z.div_lt_upper_bound; lia].
Qed.
