(* ===== verification/Filepath.v ===== *)
(** * Paths: [path/filepath] on Unix

    The lexical operations of [filepath] the sources use, on strings, and the
    component lists the file-system model is indexed by. *)
From Stdlib Require Import String Ascii.
From S2P Require Import Prelude GoStrings.

Definition slash : ascii := "/"%char.

(** The parts between the slashes of a path. *)
Definition parts (s : string) : list string := SplitByte slash s.

(** The loop of [filepath.Clean] over the parts; [out] is what is kept so far,
    last component first. *)
Fixpoint clean_parts (rooted : bool) (out l : list string) : list string :=
  match l with
  | [] => out
  | c :: l' =>
      let out' :=
        if bool_decide (c = "") || bool_decide (c = ".") then out
        else if bool_decide (c = "..") then
          match out with
          | [] => if rooted then [] else [".."]
          | o :: rest => if bool_decide (o = "..") then ".." :: out else rest
          end
        else c :: out in
      clean_parts rooted out' l'
  end.

Definition IsAbs (s : string) : bool := HasPrefix s "/".

Definition Clean (s : string) : string :=
  if bool_decide (s = "") then "."
  else
    let out := rev (clean_parts (IsAbs s) [] (parts s)) in
    if IsAbs s then "/" +:+ Join out "/"
    else if bool_decide (out = []) then "." else Join out "/".

(** [filepath.Join]: leading empty elements are dropped. *)
Fixpoint PathJoin (l : list string) : string :=
  match l with
  | [] => ""
  | s :: l' => if bool_decide (s = "") then PathJoin l' else Clean (Join l "/")
  end.

(** [filepath.Dir] and [filepath.Base]. *)
Definition Dir (s : string) : string :=
  match CutLastByte slash s with
  | Some (d, _) => Clean (d +:+ "/")
  | None => "."
  end.
Definition Base (s : string) : string :=
  if bool_decide (s = "") then "."
  else
    let t := trim_right (fun c => bool_decide (c = slash)) s in
    if bool_decide (t = "") then "/"
    else match CutLastByte slash t with Some (_, b) => b | None => t end.

(** The components of an absolute path, and the path of a list of components. *)
Definition path_of (s : string) : list string := rev (clean_parts true [] (parts s)).
Definition abs_path (p : list string) : string := "/" +:+ Join p "/".

(** A component that stands for itself. *)
Definition normal (c : string) : Prop :=
  c <> "" /\ c <> "." /\ c <> ".." /\ ContainsByte slash c = false.
#[global] Instance normal_dec c : Decision (normal c).
Proof. unfold normal. apply _. Defined.

(** ** Lemmas *)

Lemma parts_cons_sep a : parts (String slash a) = "" :: parts a.
Proof. done. Qed.

Lemma SplitByte_nonempty c s : exists h t, SplitByte c s = h :: t.
Proof. destruct s as [|a s]; cbn; [eauto|]. case_bool_decide; [eauto|]. case_match; eauto. Qed.

Lemma parts_app a b : parts (a +:+ "/" +:+ b) = parts a ++ parts b.
Proof.
  unfold parts. induction a as [|c a IH].
  - by rewrite append_nil_l, append_cons, append_nil_l.
  - rewrite append_cons. cbn [SplitByte]. case_bool_decide; [by rewrite IH|].
    rewrite IH. destruct (SplitByte_nonempty slash a) as (h & t & ->). done.
Qed.

Lemma parts_single s : ContainsByte slash s = false -> parts s = [s].
Proof.
  unfold parts, ContainsByte. induction s as [|c s IH]; [done|]. cbn.
  intros [Hc Hs]%orb_false_iff. by rewrite Hc, IH.
Qed.

Lemma parts_Join l :
  l <> [] -> Forall (fun c => ContainsByte slash c = false) l -> parts (Join l "/") = l.
Proof.
  intros Hl Hn. induction Hn as [|c l Hc Hn IH]; [done|]. destruct l as [|d l].
  - by apply parts_single.
  - rewrite Join_cons2, parts_app, parts_single, IH by done. done.
Qed.

Lemma parts_no_slash s : Forall (fun c => ContainsByte slash c = false) (parts s).
Proof.
  unfold parts, ContainsByte. induction s as [|c s IH]; cbn; [by repeat constructor|].
  case_bool_decide as Hc; [by constructor|].
  destruct (SplitByte_nonempty slash s) as (h & t & E). rewrite E in *.
  apply Forall_cons in IH as [Hh Ht]. constructor; [|done]. cbn. by rewrite bool_decide_eq_false_2.
Qed.

Lemma Forall_normal_no_slash l :
  Forall normal l -> Forall (fun c => ContainsByte slash c = false) l.
Proof. intros Hl. eapply Forall_impl; [exact Hl|]. by intros c (_ & _ & _ & ?). Qed.

Lemma clean_parts_app r out l1 l2 :
  clean_parts r out (l1 ++ l2) = clean_parts r (clean_parts r out l1) l2.
Proof. revert out. induction l1 as [|c l1 IH]; [done|]. intros out. cbn. apply IH. Qed.

Lemma clean_parts_normal r out l : Forall normal l -> clean_parts r out l = rev l ++ out.
Proof.
  intros Hl. revert out. induction Hl as [|c l (H1 & H2 & H3 & _) _ IH]; intros out; [done|].
  cbn [clean_parts]. rewrite !bool_decide_eq_false_2 by done. cbn [orb]. rewrite IH.
  cbn [rev]. by rewrite <- app_assoc.
Qed.

(** What [clean_parts] keeps: normal components on top of [..]s, which are there
    only in a relative path. *)
Lemma clean_parts_shape r out l :
  Forall (fun c => ContainsByte slash c = false) l ->
  (exists up k, out = up ++ repeat ".." k /\ Forall normal up /\ (r = true -> k = 0%nat)) ->
  exists up k, clean_parts r out l = up ++ repeat ".." k /\ Forall normal up
    /\ (r = true -> k = 0%nat).
Proof.
  intros Hl. revert out. induction Hl as [|c l Hc _ IH]; [done|].
  intros out (up & k & -> & Hup & Hk). cbn [clean_parts]. apply IH. clear IH.
  destruct (bool_decide (c = "") || bool_decide (c = ".")) eqn:E1; [eauto|]. bools.
  case_bool_decide as E2; cycle 1.
  { exists (c :: up), k. split_and!; [done| |done]. constructor; [|done]. done. }
  subst c. destruct up as [|u up].
  - destruct k as [|k]; cbn [repeat app].
    + destruct r; [by exists [], 0%nat|]. by exists [], 1%nat.
    + exists [], (S (S k)). split_and!; [done..|]. intros Hr. by specialize (Hk Hr).
  - apply Forall_cons in Hup as [(_ & _ & Hu & _) Hup]. cbn [app].
    rewrite bool_decide_eq_false_2 by done. eauto.
Qed.

Lemma path_of_normal s : Forall normal (path_of s).
Proof.
  unfold path_of. destruct (clean_parts_shape true [] (parts s) (parts_no_slash s))
    as (up & k & -> & Hup & Hk); [by exists [], 0%nat|].
  rewrite Hk by done. rewrite app_nil_r. by apply Forall_rev.
Qed.

Lemma parts_abs_path p : p <> [] -> Forall normal p -> parts (abs_path p) = "" :: p.
Proof.
  intros Hp Hn. unfold abs_path. rewrite append_cons, append_nil_l, parts_cons_sep.
  by rewrite parts_Join by eauto using Forall_normal_no_slash.
Qed.

Lemma path_of_abs_path p : Forall normal p -> path_of (abs_path p) = p.
Proof.
  intros Hn. destruct (decide (p = [])) as [->|Hp]; [done|].
  unfold path_of. rewrite parts_abs_path by done. cbn [clean_parts].
  rewrite bool_decide_eq_true_2 by done. cbn [orb].
  by rewrite clean_parts_normal, app_nil_r, rev_involutive.
Qed.

Lemma IsAbs_abs_path p s : IsAbs (abs_path p +:+ s) = true.
Proof. apply HasPrefix_spec. exists (Join p "/" +:+ s). unfold abs_path. by rewrite append_assoc. Qed.

Lemma Clean_abs s : IsAbs s = true -> Clean s = abs_path (path_of s).
Proof.
  intros Hs. unfold Clean. rewrite bool_decide_eq_false_2 by (intros ->; done).
  by rewrite Hs.
Qed.

Lemma abs_path_inj p q : Forall normal p -> Forall normal q -> abs_path p = abs_path q -> p = q.
Proof. intros Hp Hq E. by rewrite <- (path_of_abs_path p Hp), E, path_of_abs_path. Qed.

(** Joining an absolute path and a relative one. *)
Lemma PathJoin_abs p s :
  PathJoin [abs_path p; s] = abs_path (path_of (abs_path p +:+ "/" +:+ s)).
Proof.
  cbn [PathJoin]. rewrite bool_decide_eq_false_2 by done. cbn [Join].
  by rewrite Clean_abs by apply IsAbs_abs_path.
Qed.

Lemma path_of_app p s : Forall normal p ->
  path_of (abs_path p +:+ "/" +:+ s) = rev (clean_parts true (rev p) (parts s)).
Proof.
  intros Hp. unfold path_of. rewrite parts_app, clean_parts_app.
  pose proof (path_of_abs_path p Hp) as E. unfold path_of in E.
  rewrite <- (rev_involutive (clean_parts true [] (parts (abs_path p)))), E. done.
Qed.

Lemma PathJoin_normal p q : Forall normal p -> Forall normal q -> q <> [] ->
  PathJoin [abs_path p; Join q "/"] = abs_path (p ++ q).
Proof.
  intros Hp Hq Hne. rewrite PathJoin_abs, path_of_app by done.
  rewrite parts_Join by eauto using Forall_normal_no_slash.
  rewrite clean_parts_normal by done. by rewrite rev_app_distr, !rev_involutive.
Qed.

(** A string prefix up to a slash is a prefix of components. *)
Lemma HasPrefix_abs_path p q :
  p <> [] -> Forall normal p -> Forall normal q ->
  HasPrefix (abs_path q) (abs_path p +:+ "/") = true <-> exists r, r <> [] /\ q = p ++ r.
Proof.
  intros Hne Hp Hq. rewrite HasPrefix_spec. split.
  - intros [x E]. destruct (decide (q = [])) as [->|Hq0].
    { apply (f_equal String.length) in E. unfold abs_path in E.
      rewrite !length_append in E. cbn in E. destruct p as [|c p]; [done|].
      apply Forall_cons in Hp as [(Hc & _) _]. destruct c; [done|]. destruct p; cbn in E; lia. }
    apply (f_equal parts) in E. rewrite append_assoc in E.
    rewrite parts_app, !parts_abs_path in E by done. injection E as E.
    exists (parts x). split; [|done]. destruct (SplitByte_nonempty slash x) as (h & t & Ex).
    unfold parts. by rewrite Ex.
  - intros (r & Hr & ->). apply Forall_app in Hq as [_ Hq]. exists (Join r "/").
    unfold abs_path. rewrite !append_assoc. f_equal. clear Hp Hq.
    induction p as [|c p IH]; [done|]. destruct p as [|d p].
    + cbn. destruct r; [done|]. done.
    + change ((c :: d :: p) ++ r) with (c :: d :: p ++ r).
      rewrite !Join_cons2. change (d :: p ++ r) with ((d :: p) ++ r).
      by rewrite IH, !append_assoc.
Qed.

Lemma Join_nonempty c l : c <> "" -> Join (c :: l) "/" <> "".
Proof. destruct l, c; cbn; try done. Qed.

(** A relative path of normal components is clean. *)
Lemma Clean_Join q : Forall normal q -> q <> [] ->
  Clean (Join q "/") = Join q "/" /\ IsAbs (Join q "/") = false.
Proof.
  intros Hq Hne. assert (IsAbs (Join q "/") = false) as Ha.
  { destruct (IsAbs (Join q "/")) eqn:E; [|done]. apply HasPrefix_spec in E as [x E].
    apply (f_equal parts) in E. rewrite parts_Join in E by eauto using Forall_normal_no_slash.
    rewrite append_cons, append_nil_l, parts_cons_sep in E. subst q.
    apply Forall_cons in Hq as [(? & _) _]. done. }
  split; [|done]. unfold Clean. rewrite Ha, bool_decide_eq_false_2; cycle 1.
  { destruct q as [|c q]; [done|]. apply Forall_cons in Hq as [(Hc & _) _]. by apply Join_nonempty. }
  rewrite parts_Join by eauto using Forall_normal_no_slash.
  rewrite clean_parts_normal, app_nil_r, rev_involutive by done.
  by rewrite bool_decide_eq_false_2.
Qed.

(** Appending a component, and taking it off again. *)
Lemma Join_snoc l c : l <> [] -> Join (l ++ [c]) "/" = Join l "/" +:+ "/" +:+ c.
Proof.
  intros Hl. induction l as [|d l IH]; [done|]. destruct l as [|e l]; [done|].
  change ((d :: e :: l) ++ [c]) with (d :: e :: l ++ [c]). rewrite !Join_cons2.
  change (e :: l ++ [c]) with ((e :: l) ++ [c]). by rewrite IH, !append_assoc.
Qed.

Lemma abs_path_snoc l c : l <> [] -> abs_path (l ++ [c]) = abs_path l +:+ "/" +:+ c.
Proof. intros Hl. unfold abs_path. by rewrite Join_snoc, !append_assoc. Qed.

Lemma Dir_abs_path l c : Forall normal l -> normal c -> Dir (abs_path (l ++ [c])) = abs_path l.
Proof.
  intros Hl (Hc1 & _ & _ & Hc). unfold Dir. destruct (decide (l = [])) as [->|Hne].
  - change (abs_path ([] ++ [c])) with ("" +:+ String slash c).
    by rewrite (CutLastByte_app slash "" c Hc).
  - rewrite abs_path_snoc by done. change ("/" +:+ c) with (String slash c).
    rewrite CutLastByte_app by done.
    rewrite Clean_abs by apply IsAbs_abs_path. f_equal.
    pose proof (path_of_app l "" Hl) as E. rewrite append_nil_r in E. rewrite E.
    change (clean_parts true (rev l) (parts "")) with (rev l). by rewrite rev_involutive.
Qed.

Lemma Forall_normal_check l : forallb (fun c => bool_decide (normal c)) l = true -> Forall normal l.
Proof.
  rewrite forallb_forall, Forall_forall. intros H c Hc%list_elem_of_In%H. by apply bool_decide_eq_true in Hc.
Qed.
