(* ===== verification/GoHttp.v ===== *)
(** * What the dashboard uses of [net/http]

    Requests with their escaped path, responses, [http.Error], and the part of [ServeMux]
    that patterns of a method and a literal path need: a path is matched segment by
    segment, each unescaped on its own, after a redirect to its clean form. *)
From Stdlib Require Import String Ascii.
From S2P Require Import Prelude GoStrings GoJson JsonText Filepath.

(** ** Requests and responses *)

(** A request: the method, [URL.EscapedPath()], [URL.RawQuery], the basic credentials if
    there are any, and [URL.Query().Get]. *)
Record Request := mkRequest {
  Method : string; EscapedPath : string; RawQuery : string;
  BasicAuth : option (string * string); Query : string -> string }.
Record Response := mkResponse { Code : Z; Headers : list (string * string); Contents : string }.

(** [Header().Set] and [Get]. *)
Definition set_header (k v : string) (h : list (string * string)) : list (string * string) :=
  List.filter (fun kv => negb (bool_decide (fst kv = k))) h ++ [(k, v)].
Definition get_header (k : string) (h : list (string * string)) : option string :=
  snd <$> List.find (fun kv => bool_decide (fst kv = k)) h.

(** [http.Error]. *)
Definition http_error (code : Z) (text : string) (h : list (string * string)) : Response :=
  mkResponse code
    (set_header "X-Content-Type-Options" "nosniff" (set_header "Content-Type" "text/plain; charset=utf-8" h))
    (text +:+ newline).

(** ** Paths *)

(** [url.PathUnescape], if every escape is one. *)
Fixpoint unescape (s : string) : option string :=
  match s with
  | "" => Some ""
  | String c s' =>
      if code c =? 37 then
        match s' with
        | String a (String b rest) =>
            x ← hex_value a; y ← hex_value b; String (chr (16 * x + y)) <$> unescape rest
        | _ => None
        end
      else String c <$> unescape s'
  end.
Definition pathUnescape (s : string) : string := default s (unescape s).

(** [URL.Path]. *)
Definition Path (r : Request) : string := pathUnescape (EscapedPath r).

(** The path [ServeMux] looks a handler up by, and its segments as they are matched. *)
Definition clean_path (p : string) : string :=
  let p := if HasPrefix p "/" then p else "/" +:+ p in
  let c := Clean p in
  if HasSuffix p "/" && negb (bool_decide (c = "/")) then c +:+ "/" else c.
Definition segments (p : string) : list string := map pathUnescape (SplitByte (chr 47) (TrimPrefix p "/")).

(** ** The redirect *)

(** What depends on Go's version and on the printing of URLs: the code of a redirect to
    the clean path (Go 1.25 answers 301), and its target. *)
Class GoHttp := {
  redirect_code : Z;
  redirect_url : string -> string -> string;   (* of the clean path and the raw query *)
  redirect_code_3xx : 300 <= redirect_code < 400 }.

Definition plain_http : GoHttp.
Proof.
  refine {| redirect_code := 301;
    redirect_url := fun path query => if bool_decide (query = "") then path else path +:+ "?" +:+ query |}.
  lia.
Defined.

Fixpoint htmlEscape (s : string) : string :=
  match s with
  | "" => ""
  | String c s' =>
      (if code c =? 38 then "&amp;" else if code c =? 60 then "&lt;" else if code c =? 62 then "&gt;"
       else if code c =? 34 then "&#34;" else if code c =? 39 then "&#39;" else String c "") +:+ htmlEscape s'
  end.
Definition status_text (code : Z) : string :=
  if code =? 301 then "Moved Permanently" else if code =? 307 then "Temporary Redirect" else "".

(** [http.Redirect]. *)
Definition Redirect `{GoHttp} (r : Request) (h : list (string * string)) : Response :=
  let url := redirect_url (clean_path (EscapedPath r)) (RawQuery r) in
  let had := bool_decide (is_Some (get_header "Content-Type" h)) in
  let h := set_header "Location" url h in
  let h := if negb had && (bool_decide (Method r = "GET") || bool_decide (Method r = "HEAD"))
    then set_header "Content-Type" "text/html; charset=utf-8" h else h in
  mkResponse redirect_code h
    (if negb had && bool_decide (Method r = "GET")
     then "<a href=" +:+ dquote +:+ htmlEscape url +:+ dquote +:+ ">" +:+ status_text redirect_code +:+ "</a>."
            +:+ newline +:+ newline
     else "").

(** [ServeMux] with patterns of the method GET, which HEAD matches too: [routes] are the
    literal paths by their segments, [other] is the handler of ["GET /"]. *)
Definition ServeMux `{GoHttp} (routes : list (list string * (list (string * string) -> Response)))
    (other : list (string * string) -> Response) (r : Request) (h : list (string * string)) : Response :=
  let path := clean_path (EscapedPath r) in
  if negb (bool_decide (path = EscapedPath r)) then Redirect r h
  else if negb (bool_decide (Method r = "GET")) && negb (bool_decide (Method r = "HEAD"))
  then http_error 405 "Method Not Allowed" (set_header "Allow" "GET, HEAD" h)
  else
    match List.find (fun route => bool_decide (fst route = segments path)) routes with
    | Some (_, handler) => handler h
    | None => other h
    end.

(** ** Headers *)

Lemma get_set_header k v h : get_header k (set_header k v h) = Some v.
Proof.
  unfold get_header, set_header. induction h as [|[k' v'] h IH]; cbn; [by rewrite bool_decide_eq_true_2|].
  case_bool_decide; cbn; [done|]. by rewrite bool_decide_eq_false_2.
Qed.

Lemma get_set_header_ne k k2 v h : k2 <> k -> get_header k2 (set_header k v h) = get_header k2 h.
Proof.
  intros Hne. unfold get_header, set_header. induction h as [|[k' v'] h IH]; cbn.
  - by rewrite bool_decide_eq_false_2.
  - case_bool_decide; cbn; [subst; by rewrite (bool_decide_eq_false_2 (k = k2))|]. by case_bool_decide.
Qed.

(** ** Segments and paths *)

Lemma unescape_app a b : forall a', unescape a = Some a' -> unescape (a +:+ b) = (fun b' => a' +:+ b') <$> unescape b.
Proof.
  assert (forall n a a', (String.length a < n)%nat -> unescape a = Some a' ->
    unescape (a +:+ b) = (fun b' => a' +:+ b') <$> unescape b) as H; [|intros a'; apply (H (S (String.length a))); lia].
  clear a. intros n. induction n as [|n IH]; intros a a' Hn Ha; [lia|].
  destruct a as [|c s]; [injection Ha as <-; rewrite append_nil_l; destruct (unescape b); cbn; by rewrite ?append_nil_l|].
  rewrite append_cons. cbn [unescape String.length] in *. destruct (code c =? 37).
  - destruct s as [|x [|y s]]; try done. rewrite !append_cons. cbn [String.length] in Hn.
    destruct (hex_value x); [|done]. destruct (hex_value y); [|done]. cbn in Ha |- *.
    destruct (unescape s) as [s'|] eqn:E; [|done]. injection Ha as <-.
    rewrite (IH s s') by (done || lia). destruct (unescape b); cbn; by rewrite ?append_cons.
  - destruct (unescape s) as [s'|] eqn:E; [|done]. injection Ha as <-.
    rewrite (IH s s') by (done || lia). destruct (unescape b); cbn; by rewrite ?append_cons.
Qed.

Lemma unescape_plain s : ContainsByte (chr 37) s = false -> unescape s = Some s.
Proof.
  induction s as [|c s IH]; [done|]. cbn. intros H. bools. rewrite (proj2 (Z.eqb_neq _ _)).
  - by rewrite IH.
  - intros E. destruct H. unfold code in E. rewrite <- (ascii_N_embedding c). by replace (N_of_ascii c) with 37%N by lia.
Qed.

(** A segment that reads as a word without escapes does so by its escapes. *)
Lemma pathUnescape_word s w : ContainsByte (chr 37) w = false -> pathUnescape s = w -> unescape s = Some w.
Proof.
  unfold pathUnescape. intros Hw. destruct (unescape s) eqn:E; cbn; [congruence|]. intros <-.
  rewrite unescape_plain in E; done.
Qed.

Lemma Join_SplitByte c s : Join (SplitByte c s) (String c "") = s.
Proof.
  induction s as [|a s IH]; [done|]. cbn [SplitByte]. case_bool_decide as E.
  - subst. destruct (SplitByte c s) as [|x l] eqn:El; [destruct s as [|b s]; cbn in El; repeat case_match; done|].
    rewrite Join_cons2, append_nil_l, append_cons, append_nil_l. by rewrite IH.
  - destruct (SplitByte c s) as [|x [|y l]] eqn:El; [destruct s as [|b s]; cbn in El; repeat case_match; done| |].
    + cbn in *. by rewrite IH.
    + rewrite Join_cons2 in *. by rewrite append_cons, IH.
Qed.

(** What a path that is matched as one or two words decodes to. *)
Lemma segments_word p w : HasPrefix p "/" = true -> ContainsByte (chr 37) w = false ->
  segments p = [w] -> pathUnescape p = "/" +:+ w.
Proof.
  intros [r ->]%HasPrefix_spec Hw. unfold segments, TrimPrefix. rewrite (proj2 (CutPrefix_spec _ _ r) eq_refl).
  cbn [default from_option id]. pose proof (Join_SplitByte (chr 47) r) as Hj.
  destruct (SplitByte (chr 47) r) as [|x [|y l]]; try done. cbn in Hj. subst x. cbn [map]. intros [= Hx].
  unfold pathUnescape at 1. rewrite (unescape_app "/" r "/" eq_refl), (pathUnescape_word r w Hw Hx). done.
Qed.
Lemma segments_words p v w : HasPrefix p "/" = true -> ContainsByte (chr 37) v = false -> ContainsByte (chr 37) w = false ->
  segments p = [v; w] -> pathUnescape p = "/" +:+ v +:+ "/" +:+ w.
Proof.
  intros [r ->]%HasPrefix_spec Hv Hw. unfold segments, TrimPrefix. rewrite (proj2 (CutPrefix_spec _ _ r) eq_refl).
  cbn [default from_option id]. pose proof (Join_SplitByte (chr 47) r) as Hj.
  destruct (SplitByte (chr 47) r) as [|x [|y [|z l]]]; try done. rewrite Join_cons2 in Hj. cbn [Join] in Hj.
  cbn [map]. intros [= Hx Hy]. subst r. apply pathUnescape_word in Hx, Hy; try done.
  unfold pathUnescape at 1. rewrite (unescape_app "/" _ "/" eq_refl), (unescape_app x _ v Hx).
  rewrite (unescape_app (String (chr 47) "") y "/" eq_refl), Hy. cbn. done.
Qed.

Lemma clean_path_rooted p : HasPrefix (clean_path p) "/" = true.
Proof.
  unfold clean_path. set (q := if HasPrefix p "/" then p else "/" +:+ p).
  assert (IsAbs q = true) as Hq.
  { unfold q. destruct (HasPrefix p "/") eqn:E; [|done]. done. }
  rewrite Clean_abs by done. unfold abs_path. destruct (_ && _); done.
Qed.
