(* ===== verification/Fs.v ===== *)
(** * The file system under [/state]

    A tree of files as a finite map from the components of a path to a node,
    the [os] calls hostpack makes on it, and the failures those calls can meet: each
    call takes the next entry of a list of faults, and a faulty call does the part
    of its work the entry says and returns the entry's error.  Symbolic links are
    nodes of their own: hostpack never passes a path that goes through one.
    Permission checks and ownership are not modelled. *)
From Stdlib Require Import String Ascii.
From S2P Require Import Prelude GoStrings Filepath.

Abbreviation path := (list string).

Inductive node :=
  | FDir (mode : Z)
  | FFile (mode : Z) (data : list byte)
  | FLink (target : string)
  | FOther.

#[global] Instance node_eq_dec : EqDecision node.
Proof. solve_decision. Defined.

Definition is_dir (n : node) : bool := match n with FDir _ => true | _ => false end.
Definition is_regular (n : node) : bool := match n with FFile _ _ => true | _ => false end.

(** A fault: the error of the call, and how much of the work was done before. *)
Record fault := Fault { ft_error : error; ft_done : nat }.

Record fs := Fs { nodes : gmap path node; fs_faults : list (option fault) }.

Definition set_nodes (m : gmap path node) (s : fs) : fs := Fs m (fs_faults s).

(** ** Trees *)

(** What is left of [q] behind the prefix [p]. *)
Fixpoint strip (p q : path) : option path :=
  match p, q with
  | [], _ => Some q
  | c :: p', d :: q' => if bool_decide (c = d) then strip p' q' else None
  | _ :: _, [] => None
  end.

Definition under (p q : path) : bool := bool_decide (is_Some (strip p q)).

Section Trees.
Context {A : Type}.
Implicit Types m : gmap path A.

(** The entries at [p] and below, by their path behind [p]. *)
Definition subtree (p : path) m : gmap path A :=
  list_to_map (omap (fun '(q, x) => (fun r => (r, x)) <$> strip p q) (map_to_list m)).
Definition prune (p : path) m : gmap path A := filter (fun qx => under p (fst qx) = false) m.
(** Put a tree at [p], where there is nothing. *)
Definition graft (p : path) (sub m : gmap path A) : gmap path A := kmap (app p) sub ∪ m.
End Trees.

(** ** Calls *)

(** The next fault: a call either fails or goes ahead. *)
Definition call {A} (partial : nat -> fs -> fs) (m : M fs A) : M fs A := fun s =>
  match fs_faults s with
  | [] => m s
  | None :: l => m (Fs (nodes s) l)
  | Some f :: l => (Err (ft_error f), partial (ft_done f) (Fs (nodes s) l))
  end.
Definition simple {A} : M fs A -> M fs A := call (fun _ s => s).

Definition ErrNotDir : error := Errorf "not a directory".
Definition ErrExist : error := Errorf "file exists".
Definition ErrIsDir : error := Errorf "is a directory".

(** The root is always there. *)
Definition lookup_node (p : path) (s : fs) : option node :=
  if bool_decide (p = []) then Some (FDir 493) else nodes s !! p.
Definition parent (p : path) : path := removelast p.

Definition Stat (p : path) : M fs node := simple (fun s =>
  match lookup_node p s with Some n => (Ok n, s) | None => (Err ErrNotExist, s) end).
Definition ReadFile (p : path) : M fs (list byte) := simple (fun s =>
  match lookup_node p s with
  | Some (FFile _ b) => (Ok b, s)
  | Some _ => (Err ErrIsDir, s)
  | None => (Err ErrNotExist, s)
  end).

(** The ancestors of a path, outermost first, and itself. *)
Fixpoint prefixes (p : path) : list path :=
  match p with [] => [] | c :: p' => [c] :: map (cons c) (prefixes p') end.

(** Make the directories of a list that are missing. *)
Fixpoint mkdirs (mode : Z) (l : list path) : M fs unit := fun s =>
  match l with
  | [] => (Ok tt, s)
  | p :: l' =>
      match nodes s !! p with
      | Some (FDir _) => mkdirs mode l' s
      | Some _ => (Err ErrNotDir, s)
      | None => mkdirs mode l' (set_nodes (<[p := FDir mode]> (nodes s)) s)
      end
  end.
Definition MkdirAll (mode : Z) (p : path) : M fs unit :=
  call (fun k s => snd (mkdirs mode (take k (prefixes p)) s)) (mkdirs mode (prefixes p)).

(** Create a file or empty the one that is there; its parent must be a directory. *)
Definition put_node (p : path) (n : node) : M fs unit := fun s =>
  match lookup_node (parent p) s with
  | Some (FDir _) => (Ok tt, set_nodes (<[p := n]> (nodes s)) s)
  | Some _ => (Err ErrNotDir, s)
  | None => (Err ErrNotExist, s)
  end.
Definition OpenTrunc (mode : Z) (p : path) : M fs unit := simple (fun s =>
  match lookup_node p s with
  | Some (FDir _) => (Err ErrIsDir, s)
  | Some (FFile m _) => put_node p (FFile m []) s
  | _ => put_node p (FFile mode []) s
  end).

(** Append to an open file. *)
Definition append_data (p : path) (b : list byte) (s : fs) : fs :=
  match nodes s !! p with
  | Some (FFile m old) => set_nodes (<[p := FFile m (old ++ b)]> (nodes s)) s
  | _ => s
  end.
Definition WriteFile (p : path) (b : list byte) : M fs unit :=
  call (fun k s => append_data p (take k b) s) (fun s => (Ok tt, append_data p b s)).
(** [Sync] and [Close]: they can fail, and change nothing here. *)
Definition SyncFile (p : path) : M fs unit := simple (mret tt).
Definition CloseFile (p : path) : M fs unit := simple (mret tt).
Definition Chmod (mode : Z) (p : path) : M fs unit := simple (fun s =>
  match nodes s !! p with
  | Some (FFile _ b) => (Ok tt, set_nodes (<[p := FFile mode b]> (nodes s)) s)
  | Some (FDir _) => (Ok tt, set_nodes (<[p := FDir mode]> (nodes s)) s)
  | Some _ => (Ok tt, s)
  | None => (Err ErrNotExist, s)
  end).

(** The name [os.CreateTemp] and [os.MkdirTemp] choose: the prefix and digits that
    make it new.  Go draws them at random until the name is free; here they are
    zeros, one more than the longest component in the tree has bytes. *)
Definition longest (m : gmap path node) : nat :=
  foldr (fun qx n => Nat.max (list_sum (map String.length (fst qx))) n) 0%nat (map_to_list m).
Definition temp_name (dir : path) (prefix : string) (s : fs) : path :=
  dir ++ [prefix +:+ string_repeat "0" (S (longest (nodes s)))].
Definition CreateTemp (dir : path) (prefix : string) : M fs path := simple (fun s =>
  let p := temp_name dir prefix s in
  match put_node p (FFile 384 []) s with
  | (Ok _, s') => (Ok p, s')
  | (Err e, s') => (Err e, s')
  end).
Definition MkdirTemp (dir : path) (prefix : string) : M fs path := simple (fun s =>
  let p := temp_name dir prefix s in
  match put_node p (FDir 448) s with
  | (Ok _, s') => (Ok p, s')
  | (Err e, s') => (Err e, s')
  end).

Definition Remove (p : path) : M fs unit := simple (fun s =>
  match nodes s !! p with
  | Some (FDir _) =>
      if bool_decide (prune p (nodes s) = delete p (nodes s))
      then (Ok tt, set_nodes (delete p (nodes s)) s)
      else (Err (Errorf "directory not empty"), s)
  | Some _ => (Ok tt, set_nodes (delete p (nodes s)) s)
  | None => (Err ErrNotExist, s)
  end).

(** [os.RemoveAll]: a failure leaves some of the entries below. *)
Definition RemoveAll (p : path) : M fs unit :=
  call (fun k s => set_nodes
          (foldr (fun q m => delete q m) (nodes s)
             (take k (List.filter (fun q => under p q && negb (bool_decide (q = p)))
                        (map fst (map_to_list (nodes s)))))) s)
       (fun s => (Ok tt, set_nodes (prune p (nodes s)) s)).

(** [os.Rename]: a file replaces a file; a directory goes where there is nothing or
    an empty directory. *)
Definition rename_node (p q : path) : M fs unit := fun s =>
  match nodes s !! p with
  | None => (Err ErrNotExist, s)
  | Some n =>
      match lookup_node (parent q) s with
      | Some (FDir _) =>
          let moved m := set_nodes (graft q (subtree p m) (prune q (prune p m))) s in
          let moved_file m := set_nodes (<[q := n]> (delete p m)) s in
          match is_dir n, nodes s !! q with
          | true, None => (Ok tt, moved (nodes s))
          | false, None => (Ok tt, moved_file (nodes s))
          | false, Some (FDir _) => (Err ErrExist, s)
          | false, Some _ => (Ok tt, moved_file (nodes s))
          | true, Some (FDir _) =>
              if bool_decide (prune q (nodes s) = delete q (nodes s))
              then (Ok tt, moved (nodes s)) else (Err ErrExist, s)
          | true, Some _ => (Err ErrNotDir, s)
          end
      | Some _ => (Err ErrNotDir, s)
      | None => (Err ErrNotExist, s)
      end
  end.
Definition Rename (p q : path) : M fs unit := simple (rename_node p q).

(** Run [m], then [cleanup] whatever [m] did, as a deferred call runs; its own error
    is dropped. *)
Definition deferred {A} (cleanup : M fs unit) (m : M fs A) : M fs A := fun s =>
  let '(r, s1) := m s in let '(_, s2) := cleanup s1 in (r, s2).

(** [if ce := f.Close(); err == nil { err = ce }]: the file is closed whatever
    happened, and the first error counts. *)
Definition then_close (p : path) (m : M fs unit) : M fs unit :=
  r ← attempt m; c ← attempt (CloseFile p);
  lift_result (match r with Ok _ => c | Err e => Err e end).

(** The idiom of the sources for replacing a file: fill a temporary file, close it,
    rename it over the target; the temporary file is removed at the end. *)
Definition commit_temp {A} (tmp p : path) (fill : M fs unit) (after : M fs A) : M fs A :=
  deferred (Remove tmp) (then_close tmp fill;; Rename tmp p;; after).

(** ** Lemmas *)

Lemma strip_spec p q r : strip p q = Some r <-> q = p ++ r.
Proof.
  revert q. induction p as [|c p IH]; intros [|d q]; cbn; try (split; congruence).
  case_bool_decide as E; [subst; rewrite IH; split; congruence|split; congruence].
Qed.

Lemma strip_app p r : strip p (p ++ r) = Some r.
Proof. by apply strip_spec. Qed.

Lemma strip_refl p : strip p p = Some [].
Proof. apply strip_spec. by rewrite app_nil_r. Qed.

Lemma under_spec p q : under p q = true <-> exists r, q = p ++ r.
Proof.
  unfold under. rewrite bool_decide_eq_true. split.
  - intros [r E%strip_spec]. eauto.
  - intros [r ->]. rewrite strip_app. eauto.
Qed.

Lemma under_app p r : under p (p ++ r) = true.
Proof. apply under_spec. eauto. Qed.

Lemma not_under p q : under p q = false <-> forall r, q <> p ++ r.
Proof.
  split.
  - intros E r ->. by rewrite under_app in E.
  - intros H. destruct (under p q) eqn:E; [|done]. apply under_spec in E as [r Hr]. by destruct (H r).
Qed.

Section TreeLemmas.
Context {A : Type}.
Implicit Types m : gmap path A.

Lemma elem_of_omap_strip p m r x :
  (r, x) ∈ omap (fun '(q, x) => (fun r => (r, x)) <$> strip p q) (map_to_list m)
  <-> m !! (p ++ r) = Some x.
Proof.
  rewrite list_elem_of_omap. split.
  - intros ([q y] & Hq%elem_of_map_to_list & E). apply fmap_Some in E as (r' & Es%strip_spec & E).
    injection E as -> ->. by subst q.
  - intros Hm. exists (p ++ r, x). split; [by apply elem_of_map_to_list|]. by rewrite strip_app.
Qed.

Lemma lookup_subtree p m r : subtree p m !! r = m !! (p ++ r).
Proof.
  unfold subtree. destruct (m !! (p ++ r)) as [x|] eqn:E.
  - apply elem_of_list_to_map_1'; [|by apply elem_of_omap_strip].
    intros y Hy%elem_of_omap_strip. congruence.
  - apply not_elem_of_list_to_map_1. intros [[r' x] [-> Hx]]%list_elem_of_fmap.
    apply elem_of_omap_strip in Hx. cbn in *. congruence.
Qed.

Lemma lookup_prune p m q : prune p m !! q = if under p q then None else m !! q.
Proof.
  unfold prune. destruct (under p q) eqn:E.
  - apply map_lookup_filter_None. right. intros x _ H. cbn in H. congruence.
  - destruct (m !! q) as [x|] eqn:Em.
    + by apply map_lookup_filter_Some.
    + apply map_lookup_filter_None. by left.
Qed.

Lemma lookup_graft p sub m q :
  graft p sub m !! q = match strip p q with
    | Some r => match sub !! r with Some x => Some x | None => m !! q end
    | None => m !! q end.
Proof.
  unfold graft. destruct (strip p q) as [r|] eqn:E.
  - apply strip_spec in E as ->. destruct (sub !! r) as [x|] eqn:Es.
    + apply lookup_union_Some_l. by rewrite (lookup_kmap (app p)).
    + apply lookup_union_r. by rewrite (lookup_kmap (app p)).
  - apply lookup_union_r. apply (lookup_kmap_None (app p)). intros r ->.
    by rewrite strip_app in E.
Qed.
End TreeLemmas.

Lemma length_string_repeat c n : String.length (string_repeat c n) = n.
Proof. induction n as [|n IH]; [done|]. cbn. by rewrite IH. Qed.

Lemma longest_elem m q x : m !! q = Some x -> (list_sum (map String.length q) <= longest m)%nat.
Proof.
  intros Hq%elem_of_map_to_list. unfold longest.
  induction (map_to_list m) as [|y l IH]; [by apply elem_of_nil in Hq|]. cbn [foldr].
  apply elem_of_cons in Hq as [<-|Hq]; [cbn [fst]; lia|]. specialize (IH Hq). lia.
Qed.

Lemma temp_name_fresh dir prefix s : nodes s !! temp_name dir prefix s = None.
Proof.
  destruct (nodes s !! _) as [x|] eqn:E; [|done]. exfalso. apply longest_elem in E.
  unfold temp_name in E. rewrite map_app, list_sum_app in E. cbn [map list_sum fold_right] in E.
  rewrite length_append, length_string_repeat in E. unfold list_sum in E. cbn [fold_right] in E. lia.
Qed.

Lemma temp_name_ne dir prefix s name :
  HasPrefix name prefix = false -> temp_name dir prefix s <> dir ++ [name].
Proof.
  intros Hn E. unfold temp_name in E. apply app_inj_2 in E as [_ E]; [|done]. injection E as E.
  assert (HasPrefix name prefix = true); [|congruence]. apply HasPrefix_spec. eauto.
Qed.

(** *** Frames: what a computation leaves alone *)

Definition keeps {A} (p : path) (m : M fs A) : Prop :=
  forall s, nodes (snd (m s)) !! p = nodes s !! p.

Section Keeps.
Context (p : path).

Lemma keeps_ret {A} (a : A) : keeps p (mret a).
Proof. done. Qed.
Lemma keeps_lift {A} (r : result A) : keeps p (lift_result r).
Proof. done. Qed.
Lemma keeps_throw {A} e : keeps p (@throw fs A e).
Proof. done. Qed.
Lemma keeps_bind {A B} (m : M fs A) (f : A -> M fs B) :
  keeps p m -> (forall a, keeps p (f a)) -> keeps p (m ≫= f).
Proof.
  intros Hm Hf s. unfold mbind, M_bind. specialize (Hm s). destruct (m s) as [[a|e] s1]; [|done].
  rewrite Hf. done.
Qed.
Lemma keeps_attempt {A} (m : M fs A) : keeps p m -> keeps p (attempt m).
Proof. intros Hm s. unfold attempt. specialize (Hm s). by destruct (m s). Qed.
Lemma keeps_call {A} partial (m : M fs A) :
  (forall k s, nodes (partial k s) !! p = nodes s !! p) -> keeps p m -> keeps p (call partial m).
Proof.
  intros Hp Hm s. unfold call. destruct (fs_faults s) as [|[f|] l]; [apply Hm|cbn; by rewrite Hp|].
  by rewrite Hm.
Qed.
Lemma keeps_simple {A} (m : M fs A) : keeps p m -> keeps p (simple m).
Proof. by apply keeps_call. Qed.
Lemma keeps_deferred {A} c (m : M fs A) : keeps p c -> keeps p m -> keeps p (deferred c m).
Proof.
  intros Hc Hm s. unfold deferred. specialize (Hm s). destruct (m s) as [r s1].
  specialize (Hc s1). destruct (c s1) as [r' s2]. cbn in *. congruence.
Qed.

Lemma nodes_append_data q b s : q <> p -> nodes (append_data q b s) !! p = nodes s !! p.
Proof.
  intros Hq. unfold append_data. destruct (nodes s !! q) as [[]|]; try done.
  cbn. by rewrite lookup_insert_ne.
Qed.
Lemma keeps_WriteFile q b : q <> p -> keeps p (WriteFile q b).
Proof. intros Hq. apply keeps_call; [intros k s|intros s]; by apply nodes_append_data. Qed.
Lemma keeps_Sync q : keeps p (SyncFile q).
Proof. by apply keeps_simple. Qed.
Lemma keeps_Close q : keeps p (CloseFile q).
Proof. by apply keeps_simple. Qed.
Lemma keeps_Chmod mode q : q <> p -> keeps p (Chmod mode q).
Proof.
  intros Hq. apply keeps_simple. intros s. destruct (nodes s !! q) as [[]|]; try done;
    cbn; by rewrite lookup_insert_ne.
Qed.
Lemma keeps_Remove q : q <> p -> keeps p (Remove q).
Proof.
  intros Hq. apply keeps_simple. intros s. destruct (nodes s !! q) as [[]|]; try done;
    [case_bool_decide; [|done]|..]; cbn; by rewrite lookup_delete_ne.
Qed.
Lemma keeps_then_close q m : keeps p m -> keeps p (then_close q m).
Proof.
  intros Hm. apply keeps_bind; [by apply keeps_attempt|]. intros r.
  apply keeps_bind; [apply keeps_attempt, keeps_Close|]. intros c. apply keeps_lift.
Qed.

Lemma keeps_mkdirs mode l : p ∉ l -> keeps p (mkdirs mode l).
Proof.
  induction l as [|q l IH]; intros Hl s; [done|]. apply not_elem_of_cons in Hl as [Hq Hl].
  cbn [mkdirs]. destruct (nodes s !! q) as [[]|]; try done; [by apply IH|].
  rewrite (IH Hl). cbn. by rewrite lookup_insert_ne.
Qed.

Lemma prefixes_length q r : r ∈ prefixes q -> (length r <= length q)%nat.
Proof.
  revert r. induction q as [|c q IH]; intros r; cbn; [by intros ?%elem_of_nil|].
  intros [->|(r' & -> & Hr)%list_elem_of_fmap]%elem_of_cons; cbn; [lia|]. apply IH in Hr. lia.
Qed.
Lemma keeps_MkdirAll mode q : (length q < length p)%nat -> keeps p (MkdirAll mode q).
Proof.
  intros Hq. assert (p ∉ prefixes q) as Hp by (intros ?%prefixes_length; lia).
  apply keeps_call; [|by apply keeps_mkdirs]. intros k s. apply keeps_mkdirs.
  intros (i & H & _)%elem_of_take. by apply list_elem_of_lookup_2 in H.
Qed.
End Keeps.

(** *** Replacing a file *)

Lemma call_ok {A} partial (m : M fs A) s a s' :
  call partial m s = (Ok a, s') -> exists l, m (Fs (nodes s) l) = (Ok a, s').
Proof.
  unfold call. destruct (fs_faults s) as [|[f|] l] eqn:E; [|done|eauto].
  intros H. exists []. by rewrite <- E; destruct s.
Qed.

Lemma simple_ok {A} (m : M fs A) s a s' :
  simple m s = (Ok a, s') -> exists l, m (Fs (nodes s) l) = (Ok a, s').
Proof. apply call_ok. Qed.

Lemma Rename_file_cases tmp p s mode b :
  nodes s !! tmp = Some (FFile mode b) -> tmp <> p ->
  let '(r, s') := Rename tmp p s in
  (is_ok r = false /\ nodes s' = nodes s) \/ (r = Ok tt /\ nodes s' !! p = Some (FFile mode b)).
Proof.
  intros Ht Hne.
  assert (forall l, let '(r, s') := rename_node tmp p (Fs (nodes s) l) in
    (is_ok r = false /\ nodes s' = nodes s) \/ (r = Ok tt /\ nodes s' !! p = Some (FFile mode b))) as H.
  { intros l. unfold rename_node. cbn [nodes]. rewrite Ht.
    destruct (lookup_node (parent p) _) as [[]|]; cbn; auto.
    destruct (nodes s !! p) as [[]|]; cbn; rewrite ?lookup_insert_eq; auto. }
  unfold Rename, simple, call. destruct s as [m [|[f|] l]]; cbn [fs_faults nodes] in *;
    [apply (H [])|by left|apply (H l)].
Qed.

Lemma Rename_missing tmp p s q : nodes s !! tmp = None -> nodes (snd (Rename tmp p s)) !! q = nodes s !! q.
Proof.
  intros Ht. unfold Rename, simple, call, rename_node.
  destruct (fs_faults s) as [|[f|] l]; cbn; by rewrite ?Ht.
Qed.

(** After [fill] the temporary file holds what [fill] put there, or nothing that
    can be renamed. *)
Definition fills (tmp : path) (fill : M fs unit) (n : node) : Prop :=
  forall s s', nodes s !! tmp = Some (FFile 384 []) -> fill s = (Ok tt, s') -> nodes s' !! tmp = Some n.

Lemma then_close_ok tmp m s s' :
  then_close tmp m s = (Ok tt, s') ->
  exists s1, m s = (Ok tt, s1) /\ nodes s' = nodes s1.
Proof.
  unfold then_close. intros H. unbind H as r s1 E1. unbind H as c s2 E2.
  unfold attempt in E1, E2. destruct (m s) as [r' s1'] eqn:Em. injection E1 as -> ->.
  assert (nodes s2 = nodes s1) as Hn.
  { unfold CloseFile, simple, call in E2. destruct (fs_faults s1) as [|[f|] l]; cbn in E2;
      by injection E2 as _ <-. }
  injection H as H <-. destruct r as [[]|e]; [|done]. eauto.
Qed.

(** Whatever fails, and wherever: the target is as it was, or holds the whole of
    what [fill] wrote; and it does when the computation succeeded. *)
Lemma commit_temp_cases {A} tmp p fill (after : M fs A) mode b s :
  keeps p fill -> keeps p after -> fills tmp fill (FFile mode b) -> tmp <> p ->
  nodes s !! tmp = Some (FFile 384 []) ->
  let '(r, s') := commit_temp tmp p fill after s in
  (is_ok r = false /\ nodes s' !! p = nodes s !! p) \/ nodes s' !! p = Some (FFile mode b).
Proof.
  intros Hfill Hafter Hb Hne Hs. unfold commit_temp, deferred.
  set (body := then_close tmp fill;; Rename tmp p;; after).
  assert (let '(r, s1) := body s in
    (is_ok r = false /\ nodes s1 !! p = nodes s !! p) \/ nodes s1 !! p = Some (FFile mode b)) as H.
  { subst body. pose proof (keeps_then_close p tmp fill Hfill s) as Hk.
    destruct (then_close tmp fill s) as [[[]|e] s1] eqn:E; cycle 1.
    { erewrite M_bind_err by exact E. by left. }
    erewrite M_bind_ok by exact E. cbn in Hk.
    apply then_close_ok in E as (s0 & E & En). apply (Hb s s0 Hs) in E. rewrite <- En in E.
    pose proof (Rename_file_cases tmp p s1 mode b E Hne) as Hr.
    destruct (Rename tmp p s1) as [[[]|e] s2] eqn:Er; cycle 1.
    { erewrite M_bind_err by exact Er. left. destruct Hr as [[_ ->]|[? _]]; [|done]. done. }
    erewrite M_bind_ok by exact Er. pose proof (Hafter s2) as Ha.
    destruct Hr as [[? _]|[_ Hp]]; [done|]. destruct (after s2) as [r3 s3]. cbn in Ha.
    right. congruence. }
  destruct (body s) as [r s1]. pose proof (keeps_Remove p tmp Hne s1) as Hk.
  destruct (Remove tmp s1) as [r2 s2]. cbn in Hk. by rewrite Hk.
Qed.

Lemma WriteFile_ok p b s s' mode old :
  nodes s !! p = Some (FFile mode old) -> WriteFile p b s = (Ok tt, s') ->
  nodes s' !! p = Some (FFile mode (old ++ b)).
Proof.
  intros Hp H. apply call_ok in H as [l H]. unfold append_data in H. cbn in H. rewrite Hp in H.
  injection H as <-. cbn. by rewrite lookup_insert_eq.
Qed.

Lemma SyncFile_ok p s s' : SyncFile p s = (Ok tt, s') -> nodes s' = nodes s.
Proof. intros [l H]%simple_ok. by injection H as <-. Qed.

Lemma fills_Write_Sync tmp b : fills tmp (WriteFile tmp b;; SyncFile tmp) (FFile 384 b).
Proof.
  intros s s' Hs H. unbind H as u s1 E. destruct u. apply SyncFile_ok in H as ->.
  by apply (WriteFile_ok _ _ _ _ _ _ Hs) in E.
Qed.

Lemma CreateTemp_ok dir prefix s t s' :
  CreateTemp dir prefix s = (Ok t, s') ->
  t = temp_name dir prefix s /\ nodes s' = <[t := FFile 384 []]> (nodes s).
Proof.
  intros [l H]%simple_ok. unfold put_node in H. cbn in H.
  destruct (lookup_node _ _) as [[]|]; try done. by injection H as <- <-.
Qed.

Lemma keeps_CreateTemp dir prefix name :
  HasPrefix name prefix = false -> keeps (dir ++ [name]) (CreateTemp dir prefix).
Proof.
  intros Hn. apply keeps_simple. intros s. unfold put_node.
  destruct (lookup_node _ _) as [[]|]; try done. cbn.
  rewrite lookup_insert_ne; [done|]. by apply temp_name_ne.
Qed.

(** A file replaced in a directory that is made first: as it was, or the new one. *)
Lemma replace_file_cases {A} dmode dir name prefix fill (after : M fs A) mode b s :
  HasPrefix name prefix = false ->
  let p := dir ++ [name] in
  (forall t, t <> p -> keeps p (fill t)) -> (forall t, fills t (fill t) (FFile mode b)) -> keeps p after ->
  let '(r, s') := (MkdirAll dmode dir;; tmp ← CreateTemp dir prefix; commit_temp tmp p (fill tmp) after) s in
  (is_ok r = false /\ nodes s' !! p = nodes s !! p) \/ nodes s' !! p = Some (FFile mode b).
Proof.
  intros Hname p Hk Hf Ha.
  assert (keeps p (MkdirAll dmode dir)) as Hm.
  { apply keeps_MkdirAll. unfold p. rewrite length_app. cbn. lia. }
  specialize (Hm s). destruct (MkdirAll dmode dir s) as [[[]|e] s1] eqn:E1; cycle 1.
  { erewrite M_bind_err by exact E1. by left. }
  erewrite M_bind_ok by exact E1. cbn in Hm.
  pose proof (keeps_CreateTemp dir prefix name Hname s1) as Hc.
  destruct (CreateTemp dir prefix s1) as [[t|e] s2] eqn:E2; cycle 1.
  { erewrite M_bind_err by exact E2. left. cbn in Hc. split; [done|]. unfold p in *. congruence. }
  erewrite M_bind_ok by exact E2. cbn in Hc. apply CreateTemp_ok in E2 as [-> Hs2].
  set (t := temp_name dir prefix s1) in *.
  assert (t <> p) as Htp by by apply temp_name_ne.
  pose proof (commit_temp_cases t p (fill t) after mode b s2 (Hk t Htp) Ha (Hf t) Htp) as H'.
  rewrite Hs2, lookup_insert_eq in H'. specialize (H' eq_refl). rewrite <- Hs2 in H'.
  destruct (commit_temp _ _ _ _ s2) as [r s3]. destruct H' as [[? Hp]|Hp]; [left|by right].
  split; [done|]. unfold p in *. congruence.
Qed.

(** *** Directories on the way *)

Lemma elem_of_prefixes q p : q ∈ prefixes p <-> q <> [] /\ exists r, p = q ++ r.
Proof.
  revert q. induction p as [|c p IH]; intros q; cbn.
  - rewrite elem_of_nil. split; [done|]. intros (Hq & r & E). by destruct q.
  - rewrite elem_of_cons, list_elem_of_fmap. split.
    + intros [->|(q' & -> & Hq)]; [split; [done|by exists p]|].
      apply IH in Hq as (_ & r & ->). split; [done|by exists r].
    + intros (Hq & r & E). destruct q as [|d q]; [done|]. injection E as <- ->.
      destruct (decide (q = [])) as [->|Hne]; [by left|right]. exists q. split; [done|].
      apply IH. split; [done|by exists r].
Qed.

Lemma prefixes_snoc p c : prefixes (p ++ [c]) = prefixes p ++ [p ++ [c]].
Proof. induction p as [|d p IH]; [done|]. cbn. by rewrite IH, map_app. Qed.

Lemma mkdirs_app mode l1 l2 s : mkdirs mode (l1 ++ l2) s = (mkdirs mode l1;; mkdirs mode l2) s.
Proof.
  unfold mbind, M_bind. revert s. induction l1 as [|q l1 IH]; intros s; [done|]. cbn.
  destruct (nodes s !! q) as [[]|]; done || apply IH.
Qed.

Lemma mkdirs_skip mode l s :
  (forall q, q ∈ l -> exists m, nodes s !! q = Some (FDir m)) -> mkdirs mode l s = (Ok tt, s).
Proof.
  induction l as [|q l IH]; intros H; [done|]. cbn. destruct (H q (list_elem_of_here q l)) as [m ->].
  apply IH. intros q' Hq'. apply H. by right.
Qed.

Lemma keeps_MkdirAll_other q mode p : q ∉ prefixes p -> keeps q (MkdirAll mode p).
Proof.
  intros Hq. apply keeps_call; [|by apply keeps_mkdirs]. intros k s. apply keeps_mkdirs.
  intros (i & H & _)%elem_of_take. by apply list_elem_of_lookup_2 in H.
Qed.

Lemma keeps_OpenTrunc q mode p : q <> p -> keeps q (OpenTrunc mode p).
Proof.
  intros Hq. apply keeps_simple. intros s. unfold put_node.
  destruct (lookup_node p s) as [[]|]; try done; destruct (lookup_node (parent p) s) as [[]|]; try done;
    cbn; by rewrite lookup_insert_ne.
Qed.

(** A new directory, and a new file, in a directory that is there. *)
Lemma MkdirAll_new mode p c m :
  (forall q, q ∈ prefixes p -> exists md, m !! q = Some (FDir md)) -> m !! (p ++ [c]) = None ->
  MkdirAll mode (p ++ [c]) (Fs m []) = (Ok tt, Fs (<[p ++ [c] := FDir mode]> m) []).
Proof.
  intros Hp Hc. unfold MkdirAll, call. cbn [fs_faults]. rewrite prefixes_snoc, mkdirs_app.
  erewrite M_bind_ok by (by apply mkdirs_skip). cbn. by rewrite Hc.
Qed.

Lemma MkdirAll_old mode p m :
  (forall q, q ∈ prefixes p -> exists md, m !! q = Some (FDir md)) ->
  MkdirAll mode p (Fs m []) = (Ok tt, Fs m []).
Proof. intros Hp. unfold MkdirAll, call. cbn [fs_faults]. by apply mkdirs_skip. Qed.

Lemma write_new_file mode p c b m :
  (p <> [] -> exists md, m !! p = Some (FDir md)) -> m !! (p ++ [c]) = None ->
  (OpenTrunc mode (p ++ [c]);; then_close (p ++ [c]) (WriteFile (p ++ [c]) b;; mret tt)) (Fs m [])
  = (Ok tt, Fs (<[p ++ [c] := FFile mode b]> m) []).
Proof.
  intros Hp Hc. assert (p ++ [c] <> []) as Hne by by destruct p.
  assert (OpenTrunc mode (p ++ [c]) (Fs m []) = (Ok tt, Fs (<[p ++ [c] := FFile mode []]> m) [])) as E.
  { unfold OpenTrunc, simple, call, put_node, lookup_node, parent. cbn [fs_faults nodes].
    rewrite (bool_decide_eq_false_2 (p ++ [c] = [])), Hc, removelast_last by done.
    case_bool_decide as Hp0; [done|]. by destruct (Hp Hp0) as [md ->]. }
  erewrite M_bind_ok by exact E.
  unfold then_close, attempt, WriteFile, CloseFile, simple, call, append_data, mbind, M_bind.
  cbn [fs_faults nodes]. rewrite lookup_insert_eq. cbn. by rewrite insert_insert_eq.
Qed.

Lemma Stat_nodes p s : nodes (snd (Stat p s)) = nodes s.
Proof.
  unfold Stat, simple, call. destruct (fs_faults s) as [|[f|] l]; [|done|].
  - by destruct (lookup_node p s).
  - by destruct (lookup_node p _).
Qed.

(** *** Directories moved and removed *)

Lemma lookup_delete_all (l : list path) (m : gmap path node) q :
  q ∉ l -> foldr (fun q m => delete q m) m l !! q = m !! q.
Proof.
  induction l as [|p l IH]; [done|]. intros [Hp Hl]%not_elem_of_cons. cbn.
  rewrite lookup_delete_ne by done. by apply IH.
Qed.

Lemma keeps_RemoveAll q p : under p q = false -> keeps q (RemoveAll p).
Proof.
  intros Hu. apply keeps_call.
  - intros k s. cbn. apply lookup_delete_all. intros (i & Hi & _)%elem_of_take.
    apply list_elem_of_lookup_2, list_elem_of_In, filter_In in Hi as [_ Hi]. bools. congruence.
  - intros s. cbn. by rewrite lookup_prune, Hu.
Qed.

Lemma keeps_Rename q p p' : under p q = false -> under p' q = false -> keeps q (Rename p p').
Proof.
  intros Hp Hp'. apply keeps_simple. intros s. unfold rename_node.
  assert (graft p' (subtree p (nodes s)) (prune p' (prune p (nodes s))) !! q = nodes s !! q) as Hq.
  { rewrite lookup_graft, !lookup_prune, Hp, Hp'. destruct (strip p' q) as [r|] eqn:E; [|done].
    apply strip_spec in E as ->. by rewrite under_app in Hp'. }
  destruct (nodes s !! p) as [n|]; [|done].
  assert (p <> q /\ p' <> q) as [Hpq Hpq'].
  { split; intros ->; [rewrite not_under in Hp; apply (Hp [])|rewrite not_under in Hp'; apply (Hp' [])];
      by rewrite app_nil_r. }
  assert (<[p' := n]> (delete p (nodes s)) !! q = nodes s !! q) as Hf
    by by rewrite lookup_insert_ne, lookup_delete_ne.
  destruct (lookup_node (parent p') s) as [[]|]; try done.
  destruct (is_dir n), (nodes s !! p') as [[]|]; try done. by case_bool_decide.
Qed.

Lemma MkdirTemp_cases dir prefix s : let '(r, s') := MkdirTemp dir prefix s in
  match r with
  | Ok t => t = temp_name dir prefix s /\ nodes s' = <[t := FDir 448]> (nodes s)
  | Err _ => nodes s' = nodes s
  end.
Proof.
  unfold MkdirTemp, simple, call, put_node.
  destruct (fs_faults s) as [|[f|] l]; cbn; [|done|];
    (destruct (lookup_node _ _) as [[]|]; [|done..]); done.
Qed.

(** A directory does not go where something is. *)
Lemma Rename_dir_occupied p p' s n :
  (forall n0, nodes s !! p = Some n0 -> is_dir n0 = true) -> nodes s !! p' = Some n ->
  (is_dir n = true -> exists r x, r <> [] /\ nodes s !! (p' ++ r) = Some x) ->
  exists e, fst (Rename p p' s) = Err e /\ nodes (snd (Rename p p' s)) = nodes s.
Proof.
  intros Hp Hn Hne.
  assert (forall l, exists e, fst (rename_node p p' (Fs (nodes s) l)) = Err e
    /\ nodes (snd (rename_node p p' (Fs (nodes s) l))) = nodes s) as Hr.
  { intros l. unfold rename_node. cbn [nodes]. destruct (nodes s !! p) as [n0|]; [|by eexists].
    rewrite (Hp n0 eq_refl), Hn. destruct (lookup_node (parent p') _) as [[]|]; try by eexists.
    destruct n; try by eexists. rewrite bool_decide_eq_false_2; [by eexists|]. intros E.
    destruct (Hne eq_refl) as (r & x & Hr & Hx). apply (f_equal (fun m => m !! (p' ++ r))) in E.
    rewrite lookup_prune, under_app, lookup_delete_ne, Hx in E; [done|].
    intros E'. apply (f_equal length) in E'. rewrite length_app in E'. destruct r; [done|cbn in E'; lia]. }
  unfold Rename, simple, call. destruct s as [m [|[f|] l]]; cbn [fs_faults nodes] in *;
    [apply Hr|by eexists|apply Hr].
Qed.

(** Moving a directory to a new place next to it. *)
Lemma Rename_new d c c' m :
  (d <> [] -> exists md, m !! d = Some (FDir md)) -> c <> c' -> (exists md, m !! (d ++ [c]) = Some (FDir md)) ->
  m !! (d ++ [c']) = None ->
  Rename (d ++ [c]) (d ++ [c']) (Fs m [])
  = (Ok tt, Fs (graft (d ++ [c']) (subtree (d ++ [c]) m) (prune (d ++ [c']) (prune (d ++ [c]) m))) []).
Proof.
  intros Hd Hc [n Hn] Hm. unfold Rename, simple, call, rename_node. cbn [fs_faults nodes].
  rewrite Hn, Hm. unfold lookup_node, parent. rewrite removelast_last. cbn [nodes].
  case_bool_decide as E; [done|]. by destruct (Hd E) as [md ->].
Qed.

(** *** Faults that are not the absence of a file *)

Definition real_faults (s : fs) : Prop :=
  Forall (fun f => match f with Some f => errors_is (ft_error f) ErrNotExist = false | None => True end) (fs_faults s).
Definition stays_real {A} (m : M fs A) : Prop := forall s, real_faults s -> real_faults (snd (m s)).

Lemma real_call {A} partial (m : M fs A) :
  (forall k s, fs_faults (partial k s) = fs_faults s) -> (forall s, fs_faults (snd (m s)) = fs_faults s) ->
  stays_real (call partial m).
Proof.
  intros Hp Hm s Hs. unfold call, real_faults in *. destruct (fs_faults s) as [|[f|] l] eqn:E; cbn.
  - rewrite Hm, E. exact Hs.
  - apply Forall_cons in Hs as [_ Hs]. rewrite Hp. exact Hs.
  - apply Forall_cons in Hs as [_ Hs]. rewrite Hm. exact Hs.
Qed.
Lemma real_simple {A} (m : M fs A) : (forall s, fs_faults (snd (m s)) = fs_faults s) -> stays_real (simple m).
Proof. by apply real_call. Qed.
Lemma real_bind {A B} (m : M fs A) (f : A -> M fs B) : stays_real m -> (forall a, stays_real (f a)) -> stays_real (m ≫= f).
Proof.
  intros Hm Hf s Hs. unfold mbind, M_bind. specialize (Hm s Hs). destruct (m s) as [[a|e] s1]; [|done].
  by apply Hf.
Qed.
Lemma real_ret {A} (a : A) : stays_real (mret a).
Proof. intros s Hs. exact Hs. Qed.
Lemma real_attempt {A} (m : M fs A) : stays_real m -> stays_real (attempt m).
Proof. intros Hm s Hs. unfold attempt. specialize (Hm s Hs). by destruct (m s). Qed.
Lemma real_lift {A} (r : result A) : stays_real (lift_result r).
Proof. intros s Hs. exact Hs. Qed.
Lemma real_deferred {A} c (m : M fs A) : stays_real c -> stays_real m -> stays_real (deferred c m).
Proof.
  intros Hc Hm s Hs. unfold deferred. specialize (Hm s Hs). destruct (m s) as [r s1].
  specialize (Hc s1 Hm). by destruct (c s1).
Qed.

Lemma real_throw {A} e : stays_real (@throw fs A e).
Proof. intros s Hs. exact Hs. Qed.

Lemma put_node_faults p n s : fs_faults (snd (put_node p n s)) = fs_faults s.
Proof. unfold put_node. by destruct (lookup_node (parent p) s) as [[]|]. Qed.
Lemma mkdirs_faults mode l s : fs_faults (snd (mkdirs mode l s)) = fs_faults s.
Proof.
  revert s. induction l as [|p l IH]; intros s; [done|]. cbn.
  destruct (nodes s !! p) as [[]|]; try done. by rewrite IH.
Qed.
Lemma append_data_faults p b s : fs_faults (append_data p b s) = fs_faults s.
Proof. unfold append_data. by destruct (nodes s !! p) as [[]|]. Qed.

Lemma real_MkdirAll mode p : stays_real (MkdirAll mode p).
Proof. apply real_call; [intros k s|intros s]; apply mkdirs_faults. Qed.
Lemma real_Stat p : stays_real (Stat p).
Proof. apply real_simple. intros s. by destruct (lookup_node p s). Qed.
Lemma real_ReadFile p : stays_real (ReadFile p).
Proof. apply real_simple. intros s. by destruct (lookup_node p s) as [[]|]. Qed.
Lemma real_Remove p : stays_real (Remove p).
Proof. apply real_simple. intros s. destruct (nodes s !! p) as [[]|]; try done. by case_bool_decide. Qed.
Lemma real_Rename p q : stays_real (Rename p q).
Proof.
  apply real_simple. intros s. unfold rename_node. destruct (nodes s !! p) as [n|]; [|done].
  destruct (lookup_node (parent q) s) as [[]|]; try done. destruct (is_dir n), (nodes s !! q) as [[]|]; try done.
  by case_bool_decide.
Qed.
Lemma real_WriteFile p b : stays_real (WriteFile p b).
Proof. apply real_call; [intros k s|intros s]; apply append_data_faults. Qed.
Lemma real_Sync p : stays_real (SyncFile p).
Proof. by apply real_simple. Qed.
Lemma real_Close p : stays_real (CloseFile p).
Proof. by apply real_simple. Qed.
Lemma real_Chmod mode p : stays_real (Chmod mode p).
Proof. apply real_simple. intros s. by destruct (nodes s !! p) as [[]|]. Qed.
Lemma real_CreateTemp d prefix : stays_real (CreateTemp d prefix).
Proof.
  apply real_simple. intros s. pose proof (put_node_faults (temp_name d prefix s) (FFile 384 []) s) as H.
  cbv zeta. destruct (put_node (temp_name d prefix s) _ s) as [[] ?]; exact H.
Qed.
Create HintDb real.
#[export] Hint Resolve real_ret real_throw real_MkdirAll real_Stat real_ReadFile real_Remove real_Rename real_WriteFile
  real_Sync real_Close real_Chmod real_CreateTemp real_attempt real_deferred real_lift : real.

Lemma real_then_close p m : stays_real m -> stays_real (then_close p m).
Proof. intros Hm. apply real_bind; [by auto with real|]. intros r. apply real_bind; auto with real. Qed.

(** *** Reading a file *)

Lemma ReadFile_nodes p s : nodes (snd (ReadFile p s)) = nodes s.
Proof.
  unfold ReadFile, simple, call. destruct (fs_faults s) as [|[f|] l]; [|done|];
    destruct (lookup_node p _) as [[]|]; done.
Qed.
Lemma ReadFile_ok p s b s' : ReadFile p s = (Ok b, s') -> exists m, nodes s !! p = Some (FFile m b).
Proof.
  intros [l E]%simple_ok. unfold lookup_node in E. cbn [nodes] in E. case_bool_decide; [done|].
  destruct (nodes s !! p) as [[| | |]|] eqn:Ep; try done. injection E as <- _. eauto.
Qed.
Lemma ReadFile_there p s m b : p <> [] -> real_faults s -> nodes s !! p = Some (FFile m b) ->
  fst (ReadFile p s) = Ok b \/ exists e, fst (ReadFile p s) = Err e /\ errors_is e ErrNotExist = false.
Proof.
  intros Hp Hs Hn. unfold ReadFile, simple, call, real_faults, lookup_node in *.
  destruct s as [nm [|[f|] l]]; cbn [fs_faults nodes] in *.
  - left. by rewrite bool_decide_eq_false_2, Hn.
  - right. apply Forall_cons in Hs as [Hf _]. eauto.
  - left. cbn [nodes]. by rewrite bool_decide_eq_false_2, Hn.
Qed.
Lemma ReadFile_fst p m : p <> [] -> fst (ReadFile p (Fs m [])) =
  match m !! p with
  | Some (FFile _ b) => Ok b | Some _ => Err ErrIsDir | None => Err ErrNotExist end.
Proof.
  intros Hp. unfold ReadFile, simple, call, lookup_node. cbn.
  rewrite bool_decide_eq_false_2 by done. by destruct (m !! p) as [[]|].
Qed.
