(* ===== verification/McProto.v ===== *)
(** * The Minecraft protocol ([internal/mcproto/protocol.go])

    VarInts, strings, packet frames, the handshake the router reads from a player,
    and the two answers it writes itself: the synthetic status and the login
    disconnect.  A connection is the bytes the peer sends, with the error the
    stream ends in (a closed peer, a deadline), and the bytes written to it. *)
From Stdlib Require Import String Ascii.
From coqutil Require Import Word.LittleEndianList Z.BitOps.
From S2P Require Import Prelude GoStrings GoJson GoSha256.

(** ** Definitions *)

Definition maxPacket : Z := Z.shiftl 2 20.

Record Handshake := mkHandshake {
  Protocol : Z;
  Host : string;
  Port : Z;
  NextState : Z;
  Frame : list byte }.

(** The body of the loop of [ReadVarInt]; the guard on [pos] ends it after five
    bytes, so six rounds of fuel are never used up. *)
Fixpoint ReadVarInt_loop (fuel : nat) (value pos : Z) : M reader Z :=
  if 35 <=? pos then throw (Errorf "varint too long")
  else match fuel with
  | O => throw (Errorf "out of fuel")
  | S fuel' =>
      b ← ReadFull 1;
      let b0 := byte.unsigned (default (byte.of_Z 0) (head b)) in
      let value' := Z.lor value (int64 (Z.shiftl (Z.land b0 127) pos)) in
      if Z.land b0 128 =? 0 then mret value' else ReadVarInt_loop fuel' value' (pos + 7)
  end.
Definition ReadVarInt : M reader Z := ReadVarInt_loop 6 0 0.

(** The loop of [WriteVarInt] on the 32-bit [u]; five rounds are enough. *)
Fixpoint WriteVarInt_loop (fuel : nat) (u : Z) : M writer unit :=
  match fuel with
  | O => mret tt
  | S fuel' =>
      let b := Z.land u 127 in
      let u' := Z.shiftr u 7 in
      let b' := if u' =? 0 then b else Z.lor b 128 in
      Write [byte.of_Z b'] ;;
      if u' =? 0 then mret tt else WriteVarInt_loop fuel' u'
  end.
Definition WriteVarInt (v : Z) : M writer unit := WriteVarInt_loop 5 (uint32 v).

Definition writeString (s : string) : M writer unit :=
  WriteVarInt (string_len s) ;; Write (bytes_of_string s).

Definition readString : M reader string :=
  n ← ReadVarInt;
  if (n <? 0) || (32767 <? n) then throw (Errorf ("invalid string length " +:+ Itoa n))
  else b ← ReadFull (Z.to_nat n); mret (string_of_bytes b).

Definition frame (payload : list byte) : list byte :=
  buffer_bytes (WriteVarInt (Z.of_nat (length payload)) ;; Write payload).

(** [binary.Read] and [binary.Write] of a big-endian [uint16]. *)
Definition ReadUint16BE : M reader Z := b ← ReadFull 2; mret (be_combine b).
Definition WriteUint16BE (z : Z) : M writer unit := Write (be_split 2 z).

(** The part of [ReadHandshake] that reads the payload of the packet. *)
Definition ReadHandshake_payload (payload : list byte) : result Handshake :=
  fst ((id ← attempt ReadVarInt;
        match id with
        | Err _ => throw (Errorf "expected handshake packet")
        | Ok id =>
            if negb (id =? 0) then throw (Errorf "expected handshake packet")
            else
              proto ← ReadVarInt;
              host ← readString;
              port ← ReadUint16BE;
              next ← ReadVarInt;
              if negb (next =? 1) && negb (next =? 2)
              then throw (Errorf ("unsupported next state " +:+ Itoa next))
              else mret (mkHandshake proto host port next (frame payload))
        end) (bytes_reader payload)).

Definition ReadHandshake : M reader Handshake :=
  n ← ReadVarInt;
  if (n <=? 0) || (maxPacket <? n)
  then throw (Errorf ("invalid packet length " +:+ Itoa n))
  else
    payload ← ReadFull (Z.to_nat n);
    lift_result (ReadHandshake_payload payload).

(** ** Answers *)

(** The bodies the two answers carry; Go marshals a map with its keys sorted. *)
Definition status_body (protocol : Z) (versionName motd : string) (online max : Z) : json :=
  JObj [("description", JObj [("text", JStr motd)]);
        ("players", JObj [("max", JInt max); ("online", JInt online)]);
        ("version", JObj [("name", JStr versionName); ("protocol", JInt protocol)])].
Definition disconnect_body (message : string) : json := JObj [("text", JStr message)].

(** A packet with id 0 that carries one string. *)
Definition string_packet (body : string) : list byte :=
  frame (buffer_bytes (WriteVarInt 0 ;; writeString body)).

Definition WriteStatus (protocol : Z) (versionName motd : string) (online max : Z) : M conn unit :=
  n ← on_in ReadVarInt;
  if (n <? 1) || (maxPacket <? n) then throw (Errorf "invalid status request")
  else
    req ← on_in (ReadFull (Z.to_nat n));
    match fst (ReadVarInt (bytes_reader req)) with
    | Err _ => throw (Errorf "expected status request")
    | Ok id =>
        if negb (id =? 0) then throw (Errorf "expected status request")
        else
          on_out (Write (string_packet (Marshal (status_body protocol versionName motd online max)))) ;;
          ping ← attempt (on_in ReadVarInt);
          match ping with
          | Err _ => mret tt
          | Ok pingLen =>
              if (pingLen <? 1) || (64 <? pingLen) then mret tt
              else
                p ← on_in (ReadFull (Z.to_nat pingLen));
                on_out (Write (frame p))
          end
    end.

Definition WriteLoginDisconnect (message : string) : M conn unit :=
  on_out (Write (string_packet (Marshal (disconnect_body message)))).

(** ** VarInts *)

(** The bytes [WriteVarInt] writes. *)
Fixpoint varint_loop (fuel : nat) (u : Z) : list byte :=
  match fuel with
  | O => []
  | S fuel' =>
      if Z.shiftr u 7 =? 0 then [byte.of_Z (Z.land u 127)]
      else byte.of_Z (Z.lor (Z.land u 127) 128) :: varint_loop fuel' (Z.shiftr u 7)
  end.
Definition varint (v : Z) : list byte := varint_loop 5 (uint32 v).

Lemma WriteVarInt_buffer v out :
  WriteVarInt v (Writer out []) = (Ok tt, Writer (out ++ varint v) []).
Proof.
  unfold WriteVarInt, varint. generalize (uint32 v), 5%nat. intros u n.
  revert out u. induction n as [|n IH]; intros out u; cbn [WriteVarInt_loop varint_loop].
  - by rewrite app_nil_r.
  - unfold mbind, M_bind. rewrite Write_buffer. case_match; [done|].
    rewrite IH. by rewrite <- app_assoc.
Qed.

Lemma low7 u : Z.land u 127 = u mod 128.
Proof. change 127 with (Z.ones 7). by rewrite Z.land_ones. Qed.

Lemma high7 u : Z.shiftr u 7 = u / 128.
Proof. by rewrite Z.shiftr_div_pow2. Qed.

Lemma land_shiftl_low v x p : 0 <= p -> 0 <= v < 2 ^ p -> Z.land v (Z.shiftl x p) = 0.
Proof.
  intros Hp Hv. destruct (Z.eq_dec v 0) as [->|Hv0]; [apply Z.land_0_l|].
  apply Z.bits_inj_0. intros n. rewrite Z.land_spec.
  destruct (Z.lt_ge_cases n p) as [Hn|Hn].
  - by rewrite Z.shiftl_spec_low, andb_false_r by done.
  - rewrite (Z.bits_above_log2 v n), andb_false_l; [done|lia|].
    apply Z.lt_le_trans with p; [|done]. apply Z.log2_lt_pow2; lia.
Qed.

Lemma lor_high v x p :
  0 <= p -> 0 <= v < 2 ^ p -> Z.lor v (Z.shiftl x p) = v + x * 2 ^ p.
Proof.
  intros Hp Hv. rewrite <- Z.shiftl_mul_pow2 by done. by apply or_to_plus, land_shiftl_low.
Qed.

(** A group of seven bits, with or without the continuation bit. *)
Lemma group_last y : 0 <= y < 128 ->
  byte.unsigned (byte.of_Z y) = y /\ Z.land y 127 = y /\ Z.land y 128 = 0.
Proof.
  intros Hy. split_and!.
  - rewrite byte_unsigned_of_Z, Z.mod_small; lia.
  - rewrite low7, Z.mod_small; lia.
  - change 128 with (Z.shiftl 1 7). apply land_shiftl_low; lia.
Qed.

Lemma group_more y : 0 <= y < 128 ->
  byte.unsigned (byte.of_Z (Z.lor y 128)) = Z.lor y 128
  /\ Z.land (Z.lor y 128) 127 = y /\ Z.land (Z.lor y 128) 128 = 128.
Proof.
  intros Hy. destruct (group_last y Hy) as (_ & H7 & H8). split_and!.
  - rewrite byte_unsigned_of_Z, Z.mod_small; [done|]. rewrite or_to_plus; lia.
  - rewrite Z.land_lor_distr_l, H7. change (Z.land 128 127) with 0. by rewrite Z.lor_0_r.
  - rewrite Z.land_lor_distr_l, H8. done.
Qed.

Lemma int64_shift x p : 0 <= x < 128 -> 0 <= p < 35 -> int64 (Z.shiftl x p) = x * 2 ^ p.
Proof.
  intros Hx Hp. unfold int64. rewrite Z.shiftl_mul_pow2 by lia.
  assert (2 ^ p <= 2 ^ 34) by (apply Z.pow_le_mono_r; lia).
  apply swrap_id; [lia|]. change (2 ^ (64 - 1)) with (2 ^ 29 * 2 ^ 34). nia.
Qed.

Lemma ReadVarInt_loop_step f v pos b l e :
  pos < 35 ->
  ReadVarInt_loop (S f) v pos (Reader (b :: l) e) =
    (let b0 := byte.unsigned b in
     let v' := Z.lor v (int64 (Z.shiftl (Z.land b0 127) pos)) in
     if Z.land b0 128 =? 0 then (Ok v', Reader l e)
     else ReadVarInt_loop f v' (pos + 7) (Reader l e)).
Proof.
  intros Hp. cbn [ReadVarInt_loop]. rewrite (proj2 (Z.leb_gt 35 pos)) by done.
  unfold mbind, M_bind. rewrite ReadFull_1. by destruct (Z.land _ _ =? 0).
Qed.

Lemma ReadVarInt_loop_varint n v u rest e :
  (n <= 5)%nat -> let pos := 7 * (5 - Z.of_nat n) in
  0 <= v < 2 ^ pos -> 0 <= u < 2 ^ (7 * Z.of_nat n) -> (0 < n)%nat ->
  ReadVarInt_loop (S n) v pos (Reader (varint_loop n u ++ rest) e)
  = (Ok (v + u * 2 ^ pos), Reader rest e).
Proof.
  revert v u. induction n as [|n IH]; intros v u Hn pos Hv Hu Hpos; [lia|].
  assert (0 <= pos < 35) as Hp by (subst pos; lia).
  assert (2 ^ (pos + 7) = 128 * 2 ^ pos) as Hp7.
  { rewrite Z.pow_add_r by lia. lia. }
  assert (0 <= u mod 128 < 128) as Hm by (apply Z.mod_pos_bound; lia).
  pose proof (Z.div_mod u 128 ltac:(lia)) as Hdm.
  cbn [varint_loop]. rewrite high7, low7.
  destruct (u / 128 =? 0) eqn:E; bools; cbn [app].
  - destruct (group_last _ Hm) as (Hb & H7 & H8).
    rewrite ReadVarInt_loop_step by lia. cbv zeta. rewrite Hb, H8, H7. cbn [Z.eqb].
    rewrite int64_shift, <- Z.shiftl_mul_pow2, lor_high by lia. repeat f_equal; lia.
  - destruct (group_more _ Hm) as (Hb & H7 & H8).
    rewrite ReadVarInt_loop_step by lia. cbv zeta. rewrite Hb, H8, H7. cbn [Z.eqb].
    rewrite int64_shift, <- Z.shiftl_mul_pow2, lor_high by lia.
    assert (0 <= u / 128) by (apply Z.div_pos; lia).
    assert (u / 128 < 2 ^ (7 * Z.of_nat n)).
    { apply Z.div_lt_upper_bound; [lia|].
      replace (7 * Z.of_nat (S n)) with (7 * Z.of_nat n + 7) in Hu by lia.
      rewrite Z.pow_add_r in Hu by lia. lia. }
    replace (pos + 7) with (7 * (5 - Z.of_nat n)) in * by lia.
    destruct n as [|n]; [cbn in *; lia|].
    rewrite IH; [|first [lia|nia]..]. f_equal. f_equal. rewrite Hp7. nia.
Qed.

(** Reading what was written gives the 32 bits of the number, unsigned. *)
Lemma ReadVarInt_varint v rest e :
  ReadVarInt (Reader (varint v ++ rest) e) = (Ok (uint32 v), Reader rest e).
Proof.
  unfold ReadVarInt, varint. pose proof (wrap_range 32 v ltac:(lia)).
  rewrite (ReadVarInt_loop_varint 5 0 (uint32 v)); try lia.
  - by rewrite Z.add_0_l, Z.mul_1_r.
  - unfold uint32. change (2 ^ (7 * Z.of_nat 5)) with (8 * 2 ^ 32). lia.
Qed.

Lemma length_varint_loop n u : (length (varint_loop n u) <= n)%nat.
Proof.
  revert u. induction n as [|n IH]; intros u; [done|]. cbn. case_match; cbn; [lia|].
  specialize (IH (Z.shiftr u 7)). lia.
Qed.

Lemma length_varint v : (length (varint v) <= 5)%nat.
Proof. apply length_varint_loop. Qed.

(** Whatever is read is a number of at most 35 bits, in at most five bytes. *)
Lemma ReadVarInt_loop_ok f v pos r x r' :
  0 <= pos -> 0 <= v < 2 ^ pos -> (Z.of_nat f * 7 + pos = 42) ->
  ReadVarInt_loop f v pos r = (Ok x, r') ->
  0 <= x < 2 ^ 35 /\ exists used, rd_data r = used ++ rd_data r'
    /\ (1 <= length used)%nat /\ Z.of_nat (length used) * 7 + pos <= 35
    /\ rd_end r' = rd_end r.
Proof.
  revert v pos r. induction f as [|f IH]; intros v pos r Hpos Hv Hf; cbn [ReadVarInt_loop];
    destruct (35 <=? pos) eqn:E; bools; try (intros [=]; fail).
  intros H. unbind H as b r1 Hb. apply ReadFull_ok in Hb as (Hl & Hd & He).
  destruct b as [|b [|]]; try discriminate Hl. cbn [head default] in H.
  unfold id in H.
  assert (0 <= Z.land (byte.unsigned b) 127 < 128) as Hg.
  { rewrite low7. apply Z.mod_pos_bound. lia. }
  assert (2 ^ (pos + 7) = 128 * 2 ^ pos) as Hp7 by (rewrite Z.pow_add_r; lia).
  assert (2 ^ (pos + 7) <= 2 ^ 35) by (apply Z.pow_le_mono_r; lia).
  rewrite int64_shift, <- Z.shiftl_mul_pow2, lor_high in H by lia.
  destruct (Z.land (byte.unsigned b) 128 =? 0).
  - injection H as <- <-. split; [nia|]. exists [b]. cbn [length]. split_and!; [done|lia|lia|done].
  - apply IH in H as (Hx & used & Hd' & Hu1 & Hu & He'); [|first [lia|nia]..].
    split; [done|]. exists (b :: used). cbn [length]. split_and!; [|lia|lia|congruence].
    rewrite Hd, Hd'. done.
Qed.

Lemma ReadVarInt_ok r x r' :
  ReadVarInt r = (Ok x, r') ->
  0 <= x < 2 ^ 35 /\ exists used, rd_data r = used ++ rd_data r'
    /\ (1 <= length used <= 5)%nat /\ rd_end r' = rd_end r.
Proof.
  intros H. apply ReadVarInt_loop_ok in H as (Hx & used & Hd & Hu1 & Hu & He); [|cbn; lia..].
  split; [done|]. exists used. split_and!; [done|lia|lia|done].
Qed.

Lemma ReadFull_one r :
  ReadFull 1 r = match rd_data r with
                 | [] => (Err (rd_end r), Reader [] (rd_end r))
                 | b :: l => (Ok [b], Reader l (rd_end r))
                 end.
Proof. unfold ReadFull. by destruct (rd_data r). Qed.

Lemma continuation_bit b : (Z.land (byte.unsigned b) 128 =? 0) = false -> 128 <= byte.unsigned b.
Proof.
  intros E. bools. destruct (Z.lt_ge_cases (byte.unsigned b) 128) as [Hb|]; [|done].
  destruct E. apply group_last. pose proof (byte_range b). lia.
Qed.

Lemma ReadVarInt_loop_err f v pos r err r' :
  0 <= pos <= 35 -> Z.of_nat f * 7 + pos = 42 ->
  ReadVarInt_loop f v pos r = (Err err, r') ->
  (err = Errorf "varint too long" /\ exists used, rd_data r = used ++ rd_data r'
     /\ Z.of_nat (length used) * 7 + pos = 35 /\ Forall (fun b => 128 <= byte.unsigned b) used)
  \/ (err = rd_end r /\ Z.of_nat (length (rd_data r)) * 7 + pos < 35 /\ rd_data r' = []).
Proof.
  revert v pos r. induction f as [|f IH]; intros v pos r Hpos Hf; [lia|].
  cbn [ReadVarInt_loop]. destruct (35 <=? pos) eqn:E; bools.
  { intros [= <- <-]. left. split; [done|]. exists []. cbn. split_and!; [done|lia|done]. }
  unfold mbind, M_bind. rewrite ReadFull_one. destruct (rd_data r) as [|b l] eqn:Hr.
  { intros [= <- <-]. right. cbn. split_and!; [done|lia|done]. }
  cbn [head default]. unfold id. destruct (Z.land (byte.unsigned b) 128 =? 0) eqn:Hb; [done|].
  intros H. apply IH in H as [(-> & used & Hd & Hu & Hc)|(-> & Hd & He)]; [..|lia|lia].
  - left. split; [done|]. exists (b :: used). cbn [rd_data length] in *. split_and!.
    + by rewrite Hd.
    + lia.
    + constructor; [by apply continuation_bit|done].
  - right. cbn [rd_data rd_end length] in *. split_and!; [done|lia|done].
Qed.

(** ** Frames and strings *)

Lemma frame_eq p : frame p = varint (Z.of_nat (length p)) ++ p.
Proof.
  unfold frame, buffer_bytes, empty_buffer. run WriteVarInt_buffer. by rewrite Write_buffer.
Qed.

Lemma writeString_buffer s out :
  writeString s (Writer out [])
  = (Ok tt, Writer (out ++ varint (string_len s) ++ bytes_of_string s) []).
Proof.
  unfold writeString. run WriteVarInt_buffer. by rewrite Write_buffer, <- app_assoc.
Qed.

Lemma string_len_nonneg s : 0 <= string_len s.
Proof. unfold string_len. lia. Qed.

Lemma uint32_small z : 0 <= z < 2 ^ 32 -> uint32 z = z.
Proof. apply Z.mod_small. Qed.

Lemma readString_writeString s rest e :
  string_len s <= 32767 ->
  readString (Reader (varint (string_len s) ++ bytes_of_string s ++ rest) e)
  = (Ok s, Reader rest e).
Proof.
  intros Hs. pose proof (string_len_nonneg s). unfold readString.
  run ReadVarInt_varint. rewrite uint32_small by lia.
  rewrite (proj2 (Z.ltb_ge _ 0)), (proj2 (Z.ltb_ge 32767 _)) by lia. cbn [orb].
  run ReadFull_app; [by rewrite string_of_bytes_of_string|].
  rewrite bytes_of_string_length. unfold string_len. lia.
Qed.

Lemma readString_ok r s r' :
  readString r = (Ok s, r') -> string_len s <= 32767 /\ rd_end r' = rd_end r.
Proof.
  unfold readString. intros H. unbind H as n r1 Hn.
  apply ReadVarInt_ok in Hn as (Hn & _ & _ & _ & He).
  destruct ((n <? 0) || (32767 <? n)) eqn:E; [discriminate|]. bools.
  unbind H as b r2 Hb. apply ReadFull_ok in Hb as (Hl & _ & He'). injection H as <- <-.
  split; [|congruence]. unfold string_len.
  rewrite <- bytes_of_string_length, bytes_of_string_of_bytes. lia.
Qed.

(** ** Handshakes *)

(** The payload of the handshake a client sends. *)
Definition handshake_payload (proto : Z) (host : string) (port next : Z) : list byte :=
  varint 0 ++ varint proto ++ (varint (string_len host) ++ bytes_of_string host)
  ++ be_split 2 port ++ varint next.

Lemma be_combine_split n z : be_combine (be_split n z) = z mod 2 ^ (8 * Z.of_nat n).
Proof.
  unfold be_combine, be_split. rewrite rev_involutive, le_combine_split.
  by rewrite Z.mul_comm.
Qed.

Lemma ReadUint16BE_split z rest e :
  ReadUint16BE (Reader (be_split 2 z ++ rest) e) = (Ok (uint16 z), Reader rest e).
Proof.
  unfold ReadUint16BE. run ReadFull_app; [|apply length_be_split].
  unfold uint16, wrap. by rewrite be_combine_split.
Qed.

Lemma ReadHandshake_payload_ok proto host port next :
  string_len host <= 32767 -> next = 1 \/ next = 2 ->
  ReadHandshake_payload (handshake_payload proto host port next)
  = Ok (mkHandshake (uint32 proto) host (uint16 port) next
          (frame (handshake_payload proto host port next))).
Proof.
  intros Hh Hn. unfold ReadHandshake_payload, bytes_reader.
  generalize (frame (handshake_payload proto host port next)). intros fr.
  unfold handshake_payload. rewrite <- !app_assoc.
  assert (attempt ReadVarInt (Reader (varint 0 ++ varint proto ++ varint (string_len host)
    ++ bytes_of_string host ++ be_split 2 port ++ varint next) ErrEOF)
    = (Ok (Ok 0), Reader (varint proto ++ varint (string_len host)
    ++ bytes_of_string host ++ be_split 2 port ++ varint next) ErrEOF)) as E.
  { unfold attempt. by rewrite ReadVarInt_varint. }
  run E. clear E. cbv iota. change (negb (0 =? 0)) with false. cbv iota.
  run ReadVarInt_varint. run readString_writeString. run ReadUint16BE_split.
  rewrite <- (app_nil_r (varint next)). run ReadVarInt_varint.
  rewrite uint32_small by lia. by destruct Hn as [-> | ->].
Qed.

Lemma length_handshake_payload proto host port next :
  string_len host <= 32767 -> 
  0 < Z.of_nat (length (handshake_payload proto host port next)) <= 32800.
Proof.
  unfold handshake_payload. rewrite !length_app, length_be_split, bytes_of_string_length.
  pose proof (length_varint 0). pose proof (length_varint proto). pose proof (length_varint next).
  pose proof (length_varint (string_len host)). unfold string_len in *. lia.
Qed.

Lemma ReadHandshake_frame p rest e :
  0 < Z.of_nat (length p) <= maxPacket ->
  ReadHandshake (Reader (frame p ++ rest) e) = (ReadHandshake_payload p, Reader rest e).
Proof.
  intros Hp. assert (maxPacket = 2097152) as Hm by done. unfold ReadHandshake.
  rewrite frame_eq, <- app_assoc. run ReadVarInt_varint.
  rewrite uint32_small by lia.
  rewrite (proj2 (Z.leb_gt _ 0)), (proj2 (Z.ltb_ge maxPacket _)) by lia. cbn [orb].
  run ReadFull_app; [done|lia].
Qed.

(** ** Properties *)

(** A number written as a VarInt reads back as its low 32 bits, unsigned, and
    the reader stops exactly behind it.  In particular every number of 32 bits
    round-trips, and a negative number comes back as its unsigned reading, since
    [ReadVarInt] accumulates in a 64-bit [int]. *)
Theorem varint_roundtrip v rest e :
  ReadVarInt (Reader (buffer_bytes (WriteVarInt v) ++ rest) e) = (Ok (uint32 v), Reader rest e).
Proof.
  unfold buffer_bytes, empty_buffer. rewrite WriteVarInt_buffer. apply ReadVarInt_varint.
Qed.

(** [ReadVarInt] on any input.  It returns a number below 2^35 after at most
    five bytes, or fails after five bytes that all announce another one, or fails
    with the error the stream ends in after fewer than five; it never loops. *)
Theorem ReadVarInt_total r :
  match ReadVarInt r with
  | (Ok x, r') => 0 <= x < 2 ^ 35 /\ exists used, rd_data r = used ++ rd_data r'
      /\ (1 <= length used <= 5)%nat
  | (Err err, r') =>
      (err = Errorf "varint too long" /\ exists used, rd_data r = used ++ rd_data r'
         /\ length used = 5%nat /\ Forall (fun b => 128 <= byte.unsigned b) used)
      \/ (err = rd_end r /\ (length (rd_data r) < 5)%nat /\ rd_data r' = [])
  end.
Proof.
  destruct (ReadVarInt r) as [[x|err] r'] eqn:E.
  - apply ReadVarInt_ok in E as (Hx & used & Hd & Hu & _). eauto.
  - apply ReadVarInt_loop_err in E as [(-> & used & Hd & Hu & Hc)|(-> & Hd & He)]; [..|lia|done].
    + left. split; [done|]. exists used. split_and!; [done|lia|done].
    + right. split_and!; [done|lia|done].
Qed.

(** The handshake of a client is read back field by field, its frame is kept
    byte for byte for the backend, and the bytes after it (a pipelined status
    request, or the login) are left in the stream. *)
Theorem handshake_roundtrip proto host port next rest e :
  string_len host <= 32767 -> next = 1 \/ next = 2 ->
  ReadHandshake (Reader (frame (handshake_payload proto host port next) ++ rest) e)
  = (Ok (mkHandshake (uint32 proto) host (uint16 port) next
           (frame (handshake_payload proto host port next))), Reader rest e).
Proof.
  intros Hh Hn. pose proof (length_handshake_payload proto host port next Hh).
  rewrite ReadHandshake_frame by (change maxPacket with 2097152; lia).
  by rewrite ReadHandshake_payload_ok.
Qed.

Lemma handshake_roundtrip_witness :
  string_len "alpha.mc.example.com" <= 32767 /\
  ReadHandshake (Reader (frame (handshake_payload 767 "alpha.mc.example.com" 25565 2) ++ []) ErrEOF)
  = (Ok (mkHandshake (uint32 767) "alpha.mc.example.com" (uint16 25565) 2
           (frame (handshake_payload 767 "alpha.mc.example.com" 25565 2))), Reader [] ErrEOF).
Proof.
  split; [vm_compute; discriminate|].
  apply handshake_roundtrip; [vm_compute; discriminate|by right].
Defined.

Lemma ReadHandshake_payload_sound p h :
  ReadHandshake_payload p = Ok h ->
  (NextState h = 1 \/ NextState h = 2) /\ string_len (Host h) <= 32767
  /\ 0 <= Port h < 2 ^ 16 /\ 0 <= Protocol h < 2 ^ 35 /\ Frame h = frame p.
Proof.
  unfold ReadHandshake_payload. intros H.
  match type of H with fst ?m = _ => destruct m as [[h'|] r'] eqn:E end; [|done].
  cbn in H. injection H as ->.
  unbind E as id r1 E1. destruct id as [id|]; [|discriminate]. unfold attempt in E1.
  destruct (ReadVarInt (bytes_reader p)) as [x r0] eqn:Ei. injection E1 as -> ->.
  destruct (negb (id =? 0)); [discriminate|].
  unbind E as proto r2 Hproto. unbind E as host r3 Hhost. unbind E as port r4 Hport.
  unbind E as next r5 Hnext. apply ReadVarInt_ok in Hproto as [? _].
  apply readString_ok in Hhost as [? _].
  unfold ReadUint16BE in Hport. unbind Hport as b r6 Hb. injection Hport as <- _.
  apply ReadFull_ok in Hb as (Hb & _).
  destruct (negb (next =? 1) && negb (next =? 2)) eqn:En; [discriminate|].
  injection E as <- _. cbn. pose proof (le_combine_bound (rev b)) as Hle.
  rewrite length_rev, Hb in Hle. unfold be_combine.
  split_and!; try done; lia.
Qed.

(** C23: what [ReadHandshake] accepts, from any peer: a known next state, a host
    of at most 32767 bytes, a 16-bit port, and a frame that is the received
    packet behind a minimal length prefix; nothing behind the packet is consumed,
    and a packet is never longer than [maxPacket]. *)
Theorem ReadHandshake_sound r h r' :
  ReadHandshake r = (Ok h, r') ->
  (NextState h = 1 \/ NextState h = 2) /\ string_len (Host h) <= 32767
  /\ 0 <= Port h < 2 ^ 16 /\ 0 <= Protocol h < 2 ^ 35
  /\ exists prefix packet, rd_data r = prefix ++ packet ++ rd_data r'
     /\ (length prefix <= 5)%nat /\ 0 < Z.of_nat (length packet) <= maxPacket
     /\ Frame h = varint (Z.of_nat (length packet)) ++ packet.
Proof.
  unfold ReadHandshake. intros H. unbind H as n r1 Hn.
  apply ReadVarInt_ok in Hn as (Hn & prefix & Hd & Hl & _).
  destruct ((n <=? 0) || (maxPacket <? n)) eqn:E; [discriminate|]. bools.
  unbind H as p r2 Hp. apply ReadFull_ok in Hp as (Hlp & Hdp & _). injection H as H <-.
  apply ReadHandshake_payload_sound in H as (? & ? & ? & ? & Hf).
  split_and!; try done; try lia. exists prefix, p. rewrite Hf, frame_eq.
  split_and!; [by rewrite Hd, Hdp|lia..|done].
Qed.

Lemma ReadHandshake_sound_witness :
  exists h, ReadHandshake (bytes_reader (frame (handshake_payload 767 "a.b" 25565 1)))
              = (Ok h, Reader [] ErrEOF)
    /\ (NextState h = 1 \/ NextState h = 2) /\ string_len (Host h) <= 32767.
Proof.
  eexists. split; [vm_compute; reflexivity|].
  edestruct ReadHandshake_sound as (H1 & H2 & _); [|split; [exact H1|exact H2]].
  instantiate (2 := bytes_reader (frame (handshake_payload 767 "a.b" 25565 1))).
  vm_compute. reflexivity.
Defined.

(** *** The status exchange *)

(** The part of [QueryStatus] that reads the answer, up to its JSON text. *)
Definition ReadStatusResponse : M reader string :=
  n ← ReadVarInt;
  if (n <=? 0) || (maxPacket <? n) then throw (Errorf "invalid response")
  else
    b ← ReadFull (Z.to_nat n);
    lift_result (fst ((id ← attempt ReadVarInt;
      match id with
      | Err _ => throw (Errorf "invalid response packet")
      | Ok id =>
          if negb (id =? 0) then throw (Errorf "invalid response packet") else readString
      end) (bytes_reader b))).

Lemma string_packet_eq body :
  string_packet body
  = frame (varint 0 ++ varint (string_len body) ++ bytes_of_string body).
Proof.
  unfold string_packet, buffer_bytes, empty_buffer. run WriteVarInt_buffer.
  by rewrite writeString_buffer.
Qed.

Lemma ReadStatusResponse_packet body rest e :
  string_len body <= 32767 ->
  ReadStatusResponse (Reader (string_packet body ++ rest) e) = (Ok body, Reader rest e).
Proof.
  intros Hb. rewrite string_packet_eq. set (p := varint 0 ++ _).
  assert (0 < Z.of_nat (length p) <= 32800) as Hp.
  { subst p. rewrite !length_app, bytes_of_string_length. pose proof (length_varint 0).
    pose proof (length_varint (string_len body)). unfold string_len in *.
    change (length (varint 0)) with 1%nat. lia. }
  assert (maxPacket = 2097152) as Hm by done.
  unfold ReadStatusResponse. rewrite frame_eq, <- app_assoc. run ReadVarInt_varint.
  rewrite uint32_small by lia.
  rewrite (proj2 (Z.leb_gt _ 0)), (proj2 (Z.ltb_ge maxPacket _)) by lia. cbn [orb].
  run ReadFull_app; [|lia]. subst p. unfold lift_result, bytes_reader. f_equal.
  assert (forall l, attempt ReadVarInt (Reader (varint 0 ++ l) ErrEOF)
    = (Ok (Ok 0), Reader l ErrEOF)) as E.
  { intros l. unfold attempt. by rewrite ReadVarInt_varint. }
  run E. cbv iota. change (negb (0 =? 0)) with false. cbv iota.
  rewrite <- (app_nil_r (bytes_of_string body)). by rewrite readString_writeString.
Qed.

(** A status exchange.  A player's status request and ping (1 to 64 bytes)
    are answered by one packet and the ping, byte for byte; the packet carries
    the marshalled body, and a client that reads the answer the way [QueryStatus]
    does gets that body back. *)
Theorem status_exchange protocol version motd online max ping rest e :
  let body := Marshal (status_body protocol version motd online max) in
  (1 <= length ping <= 64)%nat -> string_len body <= 32767 ->
  WriteStatus protocol version motd online max
    (Conn (Reader (frame [byte.of_Z 0] ++ frame ping ++ rest) e) empty_buffer)
  = (Ok tt, Conn (Reader rest e) (Writer (string_packet body ++ frame ping) []))
  /\ ReadStatusResponse (bytes_reader (string_packet body ++ frame ping))
     = (Ok body, bytes_reader (frame ping)).
Proof.
  intros body Hp Hb. split; [|by apply ReadStatusResponse_packet].
  unfold WriteStatus, empty_buffer. rewrite (frame_eq [_]), <- app_assoc.
  run on_in_ok; [|apply ReadVarInt_varint].
  change (uint32 (Z.of_nat (length [byte.of_Z 0]))) with 1.
  change ((1 <? 1) || (maxPacket <? 1)) with false. cbv iota.
  run on_in_ok; [|by apply ReadFull_app].
  change (fst (ReadVarInt (bytes_reader [byte.of_Z 0]))) with (@Ok Z 0). cbv iota.
  change (negb (0 =? 0)) with false. cbv iota. fold body.
  run on_out_write. cbn [app]. rewrite frame_eq, <- app_assoc.
  assert (forall r w a r', on_in ReadVarInt (Conn r w) = (Ok a, Conn r' w) ->
    attempt (on_in ReadVarInt) (Conn r w) = (Ok (Ok a), Conn r' w)) as Ha.
  { intros r w a r' E. unfold attempt. by rewrite E. }
  run Ha; [|apply on_in_ok, ReadVarInt_varint]. cbv iota.
  rewrite uint32_small by lia.
  rewrite (proj2 (Z.ltb_ge _ 1)), (proj2 (Z.ltb_ge 64 _)) by lia. cbn [orb].
  run on_in_ok; [|apply ReadFull_app; lia]. by rewrite frame_eq, on_out_write.
Qed.

Lemma status_exchange_witness :
  (1 <= length [byte.of_Z 7] <= 64)%nat /\
  string_len (Marshal (status_body 767 "Hostpack MVP" "Alpha is running" 0 0)) <= 32767 /\
  WriteStatus 767 "Hostpack MVP" "Alpha is running" 0 0
    (Conn (Reader (frame [byte.of_Z 0] ++ frame [byte.of_Z 7] ++ []) ErrEOF) empty_buffer)
  = (Ok tt, Conn (Reader [] ErrEOF) (Writer (string_packet
       (Marshal (status_body 767 "Hostpack MVP" "Alpha is running" 0 0))
       ++ frame [byte.of_Z 7]) [])).
Proof.
  split_and!; [cbn; lia..|vm_compute; discriminate|].
  apply (status_exchange 767 "Hostpack MVP" "Alpha is running" 0 0 [byte.of_Z 7] [] ErrEOF);
    [cbn; lia|vm_compute; discriminate].
Defined.
