(* ===== verification/Status.v ===== *)
(** * The status query ([QueryStatus] in [internal/mcproto/protocol.go])

    How the daemon asks the Minecraft server for its players, and that what it sends and
    expects is what hostpack's own status answer reads and writes. *)
From Stdlib Require Import String Ascii.
From coqutil Require Import Word.LittleEndianList.
From S2P Require Import Prelude GoStrings GoJson GoSha256 JsonText McProto.

(** ** Definitions *)

(** The handshake for a status. *)
Definition query_handshake (host : string) : list byte :=
  frame (buffer_bytes
    (WriteVarInt 0 ;; WriteVarInt 767 ;; writeString host ;;
     WriteUint16BE 25565 ;; WriteVarInt 1)).

(** [json.Unmarshal] into the struct with [players.online]: a member that comes twice is
    decoded twice into the same field, and [null] leaves it as it is. *)
Definition set_online (acc : result Z) (kv : string * json) : result Z :=
  online ← acc;
  if bool_decide (fold_name (fst kv) = "online") then
    match snd kv with
    | JNull => Ok online
    | JInt z => if int64 z =? z then Ok z else type_error
    | _ => type_error
    end
  else Ok online.
Definition set_players (acc : result Z) (kv : string * json) : result Z :=
  online ← acc;
  if bool_decide (fold_name (fst kv) = "players") then
    match snd kv with JNull => Ok online | JObj l => foldl set_online (Ok online) l | _ => type_error end
  else Ok online.
Definition players_online (body : string) : result Z :=
  j ← Unmarshal body;
  match j with JNull => Ok 0 | JObj l => foldl set_players (Ok 0) l | _ => type_error end.

(** [QueryStatus] on the connection that was dialled. *)
Definition QueryStatus (host : string) : M conn Z :=
  on_out (Write (query_handshake host)) ;;
  on_out (Write [byte.of_Z 1; byte.of_Z 0]) ;;
  s ← on_in ReadStatusResponse;
  lift_result (players_online s).

(** ** Lemmas *)

Lemma WriteUint16BE_buffer z out : WriteUint16BE z (Writer out []) = (Ok tt, Writer (out ++ be_split 2 z) []).
Proof. apply Write_buffer. Qed.

(** What is written for the handshake is the payload a client sends. *)
Lemma query_handshake_payload host : query_handshake host = frame (handshake_payload 767 host 25565 1).
Proof.
  unfold query_handshake, handshake_payload, buffer_bytes, empty_buffer. f_equal.
  run WriteVarInt_buffer. run WriteVarInt_buffer. run writeString_buffer. run WriteUint16BE_buffer.
  rewrite WriteVarInt_buffer. cbn. by rewrite <- !app_assoc.
Qed.

(** All a query sends. *)
Definition query_bytes (host : string) : list byte := query_handshake host ++ [byte.of_Z 1; byte.of_Z 0].

Lemma json_ok_status protocol version motd online max :
  valid_utf8 version = true -> valid_utf8 motd = true ->
  json_ok (status_body protocol version motd online max) = true.
Proof. intros Hv Hm. cbn. by rewrite Hv, Hm. Qed.

Lemma players_online_status protocol version motd online max :
  valid_utf8 version = true -> valid_utf8 motd = true -> int64 online = online ->
  players_online (Marshal (status_body protocol version motd online max)) = Ok online.
Proof.
  intros Hv Hm Ho. unfold players_online.
  rewrite (Marshal_print _ 0), Unmarshal_print by by apply json_ok_status.
  cbn -[int64]. by rewrite Ho, Z.eqb_refl.
Qed.

(** The request alone, from a peer that then closes: one packet, and no pong. *)
Lemma WriteStatus_no_ping protocol version motd online max :
  WriteStatus protocol version motd online max
    (Conn (bytes_reader [byte.of_Z 1; byte.of_Z 0]) empty_buffer)
  = (Ok tt, Conn (bytes_reader [])
       (Writer (string_packet (Marshal (status_body protocol version motd online max))) [])).
Proof. unfold WriteStatus, empty_buffer. generalize (string_packet (Marshal (status_body protocol version motd online max))). intros p. cbv. done. Qed.

(** ** Properties *)

(** C24: the two ends of the status protocol agree, within the limit that the readers of
    both ends put on a string: when the JSON text of the answer and the host have at most
    32767 bytes each, [QueryStatus] against a peer that sends what [WriteStatus] writes
    returns the number of players put into the answer, consumes that packet and nothing
    behind it, and has written bytes that [ReadHandshake] reads as a status handshake for
    the host it was given, followed by a request that [WriteStatus] answers with exactly
    that packet.  The player's count the idle stop relies on survives the JSON text in both
    directions, for every text of valid UTF-8 in the message of the day and the name of
    the version that keeps the answer within the limit; [WriteStatus] itself knows no
    limit, and [QueryStatus] refuses a longer answer. *)
Theorem query_reads_status host protocol version motd online max rest e :
  string_len host <= 32767 -> valid_utf8 version = true -> valid_utf8 motd = true ->
  int64 online = online ->
  let body := Marshal (status_body protocol version motd online max) in
  string_len body <= 32767 ->
  QueryStatus host (Conn (Reader (string_packet body ++ rest) e) empty_buffer)
  = (Ok online, Conn (Reader rest e) (Writer (query_bytes host) []))
  /\ ReadHandshake (bytes_reader (query_bytes host))
     = (Ok (mkHandshake 767 host 25565 1 (query_handshake host)),
        bytes_reader [byte.of_Z 1; byte.of_Z 0])
  /\ WriteStatus protocol version motd online max
       (Conn (bytes_reader [byte.of_Z 1; byte.of_Z 0]) empty_buffer)
     = (Ok tt, Conn (bytes_reader []) (Writer (string_packet body) [])).
Proof.
  intros Hh Hv Hm Ho body Hb. split_and!.
  - unfold QueryStatus, empty_buffer. run on_out_write. run on_out_write.
    run on_in_ok; [|by apply ReadStatusResponse_packet].
    unfold lift_result. f_equal. by apply players_online_status.
  - unfold query_bytes. rewrite query_handshake_payload.
    pose proof (length_handshake_payload 767 host 25565 1 Hh). unfold bytes_reader.
    rewrite ReadHandshake_frame by (change maxPacket with 2097152; lia).
    rewrite ReadHandshake_payload_ok by auto. done.
  - apply WriteStatus_no_ping.
Qed.

Lemma query_reads_status_witness :
  QueryStatus "alpha.mc.example.com"
    (Conn (Reader (string_packet (Marshal (status_body 767 "Paper" "Alpha" 3 20)) ++ []) ErrEOF) empty_buffer)
  = (Ok 3, Conn (Reader [] ErrEOF) (Writer (query_bytes "alpha.mc.example.com") [])).
Proof.
  apply (query_reads_status "alpha.mc.example.com" 767 "Paper" "Alpha" 3 20);
    first [reflexivity|vm_compute; discriminate].
Defined.

(** A count that is no number, or no 64-bit number, is an error and not zero players;
    an answer without the member counts as zero. *)
Example ex_players_online :
  map (fun j => players_online (Marshal j))
    [JObj [("players", JObj [("online", JInt 2)])]; JObj [("players", JObj [])]; JObj []; JNull]
    = [Ok 2; Ok 0; Ok 0; Ok 0]
  /\ map (fun j => players_online (Marshal j))
    [JObj [("players", JObj [("online", JInt (2 ^ 63))])]; JObj [("players", JObj [("online", JStr "2")])];
     JObj [("players", JArr [])]; JArr []]
    = [type_error; type_error; type_error; type_error].
Proof. by vm_compute. Qed.
