(* ===== verification/Config.v ===== *)
(** * The pack registry ([internal/config/config.go])

    The configuration record, its validation, the routing of a player's host name
    to a pack, and the digest of the immutable fields. *)
From Stdlib Require Import String Ascii.
From S2P Require Import Prelude GoStrings GoJson GoSha256.

(** ** Data *)

(** Durations are nanoseconds in a Go [int64]. *)
Definition Second : Z := 1000000000.
Definition Minute : Z := 60 * Second.

Record Runtime := mkRuntime {
  StartupWait : Z; StartupTimeout : Z; StatusIdleExit : Z; EmptyBeforeSwitch : Z;
  IdleBeforeStop : Z; BackendPollInterval : Z; ShutdownTimeout : Z;
  MaxConnections : Z; ConnectionsPerMinute : Z;
  ListenAddress : string; BackendAddress : string; WebListenAddress : string }.

Record Capacity := mkCapacity { CapMemoryMB : Z; CapCPUs : Z }.

Record S3Config := mkS3Config {
  Endpoint : string; Bucket : string; S3Prefix : string; Region : string;
  Secure : option bool }.

Record StorageConfig := mkStorageConfig {
  Driver : string; EvictAfterBackup : bool; FilesystemRoot : string;
  S3 : S3Config; RcloneRemote : string }.

Record Pack := mkPack {
  DisplayName : string; PackURL : string; Provider : string; ProjectID : string;
  VersionID : string; FileID : Z; Java : Z; MemoryMB : Z; MachineMemoryMB : Z;
  MachineCPUs : Z; ModrinthExcludeFiles : list string }.

Record Config := mkConfig {
  Schema : Z; Domain : string; RuntimeCfg : Runtime; CapacityCfg : Capacity;
  Storage : StorageConfig; Packs : gmap string Pack }.

Definition set_domain (c : Config) (d : string) : Config :=
  mkConfig (Schema c) d (RuntimeCfg c) (CapacityCfg c) (Storage c) (Packs c).

(** ** Validation *)

Definition alnum (c : ascii) : bool :=
  ((97 <=? code c) && (code c <=? 122)) || ((48 <=? code c) && (code c <=? 57)).
Definition label_char (c : ascii) : bool := alnum c || (code c =? 45).

Fixpoint last_char (d : ascii) (s : string) : ascii :=
  match s with "" => d | String c s' => last_char c s' end.

(** The regular expression [^[a-z0-9](?:[a-z0-9-]{0,61}[a-z0-9])?$]. *)
Definition dnsLabel (s : string) : bool :=
  match s with
  | "" => false
  | String c _ =>
      alnum c && alnum (last_char c s) && string_forallb label_char s && (string_len s <=? 63)
  end.

Definition when (b : bool) (msg : string) : list string := if b then [msg] else [].

Section Validate.
Context `{GoUnicode} `{MapRange}.

(** The domain is rewritten before it is checked. *)
Definition normalize_domain (d : string) : string := ToLower (TrimSuffix (TrimSpace d) ".").

Definition runtime_problems (r : Runtime) : list string :=
  when (existsb (fun d => d <=? 0)
          [StartupWait r; StartupTimeout r; StatusIdleExit r; EmptyBeforeSwitch r;
           IdleBeforeStop r; BackendPollInterval r; ShutdownTimeout r])
    "all runtime durations must be positive" ++
  when (existsb (fun s => bool_decide (s = ""))
          [ListenAddress r; BackendAddress r; WebListenAddress r])
    "runtime listen, backend, and web listen addresses are required" ++
  when ((MaxConnections r <=? 0) || (ConnectionsPerMinute r <=? 0))
    "connection limits must be positive".

Definition storage_problems (s : StorageConfig) : list string :=
  if bool_decide (Driver s = "filesystem") then
    when (bool_decide (FilesystemRoot s = "")) "storage.filesystem.root is required" ++
    when (EvictAfterBackup s) "storage.evict_after_backup requires s3 or rclone storage"
  else if bool_decide (Driver s = "s3") then
    when (bool_decide (Endpoint (S3 s) = "") || bool_decide (Bucket (S3 s) = ""))
      "storage.s3 endpoint and bucket are required"
  else if bool_decide (Driver s = "rclone") then
    when (bool_decide (RcloneRemote s = "")) "storage.rclone.remote is required"
  else ["storage.driver must be filesystem, s3, or rclone"].

Definition bad_pattern (p : string) : bool :=
  bool_decide (TrimSpace p = "") || ContainsAny p (String (chr 44) (String (chr 13) newline)).

(** [pack.MemoryMB+256] is computed in an [int], which wraps. *)
Definition pack_problems (cap : Capacity) (id : string) (p : Pack) : list string :=
  let says msg := "pack " +:+ Quote id +:+ " " +:+ msg in
  when (negb (dnsLabel id)) (says "is not a lowercase DNS label") ++
  when (bool_decide (DisplayName p = "") || bool_decide (ProjectID p = ""))
    (says "requires display_name and project_id") ++
  when (negb (Java p =? 17) && negb (Java p =? 21)) (says "java must be 17 or 21") ++
  when (MemoryMB p <=? 0) (says "memory_mb must be positive") ++
  when ((MachineMemoryMB p <=? 0) || (CapMemoryMB cap <? MachineMemoryMB p)
        || negb (Z.rem (MachineMemoryMB p) 256 =? 0))
    (says "machine_memory_mb must be a multiple of 256 that fits capacity") ++
  when (MachineMemoryMB p <? int64 (MemoryMB p + 256))
    (says "machine_memory_mb must leave at least 256 MB outside the Java heap") ++
  when ((MachineCPUs p <=? 0) || (CapCPUs cap <? MachineCPUs p))
    (says "machine_cpus must fit capacity") ++
  (if bool_decide (Provider p = "modrinth") then
     when (bool_decide (VersionID p = "") || negb (FileID p =? 0))
       (says "requires version_id and no file_id")
   else if bool_decide (Provider p = "curseforge") then
     when ((FileID p <=? 0) || negb (bool_decide (VersionID p = "")))
       (says "requires file_id and no version_id") ++
     when (negb (bool_decide (ModrinthExcludeFiles p = [])))
       (says "modrinth_exclude_files requires the modrinth provider")
   else [says "has unsupported provider"]) ++
  when (existsb bad_pattern (ModrinthExcludeFiles p))
    (says "modrinth_exclude_files entries must be non-empty and cannot contain commas or newlines").

Definition config_problems (c : Config) : list string :=
  when (negb (Schema c =? 1)) "schema must be 1" ++
  when (bool_decide (Domain c = "") || (253 <? string_len (Domain c)))
    "domain must be a valid non-empty DNS name" ++
  when (existsb (fun p => negb (dnsLabel p)) (SplitByte (chr 46) (Domain c)))
    "domain contains invalid DNS label" ++
  when (CapMemoryMB (CapacityCfg c) <=? 0) "capacity.memory_mb must be positive" ++
  when (CapCPUs (CapacityCfg c) <=? 0) "capacity.cpus must be positive" ++
  runtime_problems (RuntimeCfg c) ++
  storage_problems (Storage c) ++
  concat (map (fun '(id, p) => pack_problems (CapacityCfg c) id p) (range (Packs c))).

(** [Config.Validate]: the configuration with its domain normalized, and the
    problems found in it. *)
Definition Validate (c : Config) : result unit * Config :=
  let c := set_domain c (normalize_domain (Domain c)) in
  match config_problems c with
  | [] => (Ok tt, c)
  | problems => (Err (Errorf (Join (SortStrings problems) "; ")), c)
  end.

(** ** Routing *)

(** A host name as the routing reads it: without surrounding space, a trailing dot
    and a port, in lower case. *)
Definition host_name (host : string) : string :=
  let host := ToLower (TrimSuffix (TrimSpace host) ".") in
  match CutLastByte (chr 58) host with Some (h, _) => h | None => host end.

(** [Config.PackForHost]; its callers read the ID and the pack only when the third
    result is true, so the two failures are both [None]. *)
Definition PackForHost (c : Config) (host : string) : option (string * Pack) :=
  match CutSuffix ("." +:+ Domain c) (host_name host) with
  | None => None
  | Some id =>
      if ContainsByte (chr 46) id || bool_decide (id = "") then None
      else p ← Packs c !! id; Some (id, p)
  end.
End Validate.

(** ** Identity *)

Record identityPack := mkIdentityPack {
  ip_Provider : string; ip_ProjectID : string; ip_VersionID : string;
  ip_FileID : Z; ip_Java : Z }.

#[global] Instance identityPack_eq_dec : EqDecision identityPack.
Proof. solve_decision. Defined.

Definition identity_of (p : Pack) : identityPack :=
  mkIdentityPack (Provider p) (ProjectID p) (VersionID p) (FileID p) (Java p).

Definition identity_json (i : identityPack) : json :=
  JObj [("Provider", JStr (ip_Provider i)); ("ProjectID", JStr (ip_ProjectID i));
        ("VersionID", JStr (ip_VersionID i)); ("FileID", JInt (ip_FileID i));
        ("Java", JInt (ip_Java i))].

(** The entries the digest covers, in the order of their IDs. *)
Definition identity_entries (packs : gmap string Pack) : list (string * identityPack) :=
  omap (fun id => (fun p => (id, identity_of p)) <$> packs !! id) (sorted_keys packs).

Definition entry_json (e : string * identityPack) : json :=
  JObj [("ID", JStr (fst e)); ("Pack", identity_json (snd e))].

Definition identities_text (c : Config) : string :=
  Marshal (JArr (map entry_json (identity_entries (Packs c)))).
Definition IdentityDigest (c : Config) : string := sha256_hex (bytes_of_string (identities_text c)).

(** ** Validation: what acceptance means *)

(** What the documentation asks of a pack; the bound on the heap is the one that
    keeps [memory_mb + 256] inside an [int]. *)
Record valid_pack (cap : Capacity) (id : string) (p : Pack) : Prop := {
  vp_id : dnsLabel id = true;
  vp_named : DisplayName p <> "" /\ ProjectID p <> "";
  vp_java : Java p = 17 \/ Java p = 21;
  vp_memory : 0 < MemoryMB p;
  vp_machine : 0 < MachineMemoryMB p <= CapMemoryMB cap /\ (256 | MachineMemoryMB p);
  vp_headroom : MemoryMB p < 2 ^ 63 - 256 -> MemoryMB p + 256 <= MachineMemoryMB p;
  vp_cpus : 0 < MachineCPUs p <= CapCPUs cap;
  vp_provider :
    (Provider p = "modrinth" /\ VersionID p <> "" /\ FileID p = 0)
    \/ (Provider p = "curseforge" /\ 0 < FileID p /\ VersionID p = ""
        /\ ModrinthExcludeFiles p = []) }.

Record valid_config (c : Config) : Prop := {
  vc_schema : Schema c = 1;
  vc_domain : Domain c <> "" /\ string_len (Domain c) <= 253;
  vc_labels : forall l, l ∈ SplitByte (chr 46) (Domain c) -> dnsLabel l = true;
  vc_capacity : 0 < CapMemoryMB (CapacityCfg c) /\ 0 < CapCPUs (CapacityCfg c);
  vc_durations : Forall (fun d => 0 < d)
    [StartupWait (RuntimeCfg c); StartupTimeout (RuntimeCfg c); StatusIdleExit (RuntimeCfg c);
     EmptyBeforeSwitch (RuntimeCfg c); IdleBeforeStop (RuntimeCfg c);
     BackendPollInterval (RuntimeCfg c); ShutdownTimeout (RuntimeCfg c)];
  vc_limits : 0 < MaxConnections (RuntimeCfg c) /\ 0 < ConnectionsPerMinute (RuntimeCfg c);
  vc_evict : EvictAfterBackup (Storage c) = true ->
    Driver (Storage c) = "s3" \/ Driver (Storage c) = "rclone";
  vc_packs : forall id p, Packs c !! id = Some p -> valid_pack (CapacityCfg c) id p }.

(** And what else is checked.  The sum of the heap and 256 is an [int] that wraps, so the
    check of the headroom is passed, too, by a heap within 256 of the largest [int]. *)
Record checked_pack `{GoUnicode} (p : Pack) : Prop := {
  kp_headroom : MemoryMB p + 256 <= MachineMemoryMB p \/ 2 ^ 63 <= MemoryMB p + 256;
  kp_exclusions : forall x, x ∈ ModrinthExcludeFiles p ->
    TrimSpace x <> "" /\ ContainsAny x (String (chr 44) (String (chr 13) newline)) = false }.
Record checked_config `{GoUnicode} (c : Config) : Prop := {
  kc_valid : valid_config c;
  kc_addresses : ListenAddress (RuntimeCfg c) <> "" /\ BackendAddress (RuntimeCfg c) <> ""
    /\ WebListenAddress (RuntimeCfg c) <> "";
  kc_storage :
    (Driver (Storage c) = "filesystem" /\ FilesystemRoot (Storage c) <> "" /\ EvictAfterBackup (Storage c) = false)
    \/ (Driver (Storage c) = "s3" /\ Endpoint (S3 (Storage c)) <> "" /\ Bucket (S3 (Storage c)) <> "")
    \/ (Driver (Storage c) = "rclone" /\ RcloneRemote (Storage c) <> "");
  kc_packs : forall id p, Packs c !! id = Some p -> checked_pack p }.

Lemma when_nil b m : when b m = [] <-> b = false.
Proof. by destruct b. Qed.

Lemma concat_map_nil {A B} (f : A -> list B) l : concat (map f l) = [] <-> forall x, x ∈ l -> f x = [].
Proof.
  induction l as [|x l IH]; [set_solver|]. cbn. rewrite app_nil, IH. set_solver.
Qed.

Lemma existsb_false {A} (p : A -> bool) l : existsb p l = false <-> Forall (fun x => p x = false) l.
Proof.
  induction l as [|x l IH]; [done|]. cbn. rewrite orb_false_iff, IH, Forall_cons. done.
Qed.

(** Turn the absence of problems into the facts it stands for. *)
Ltac no_problems :=
  repeat match goal with
  | H : _ ++ _ = [] |- _ => apply app_nil in H as [? ?]
  | H : when _ _ = [] |- _ => apply when_nil in H
  | H : [_] = [] |- _ => discriminate H
  end; bools.

Lemma existsb_elem {A} (p : A -> bool) l :
  existsb p l = false -> forall x, x ∈ l -> p x = false.
Proof. intros H%existsb_false x. revert x. by apply Forall_forall. Qed.

Section Accepted.
Context `{GoUnicode} `{MapRange}.

Lemma pack_problems_nil cap id p : pack_problems cap id p = [] -> valid_pack cap id p.
Proof.
  unfold pack_problems. intros Hp. no_problems. constructor; try done; try lia.
  - split; [lia|]. apply Z.rem_divide; lia.
  - intros Hs. unfold int64 in *. rewrite swrap_id in *; change (2 ^ (64 - 1)) with (2 ^ 63); lia.
  - repeat case_bool_decide; no_problems; auto; right; split_and!; auto; congruence.
Qed.

Lemma runtime_problems_nil r :
  runtime_problems r = [] ->
  Forall (fun d => 0 < d)
    [StartupWait r; StartupTimeout r; StatusIdleExit r; EmptyBeforeSwitch r;
     IdleBeforeStop r; BackendPollInterval r; ShutdownTimeout r]
  /\ 0 < MaxConnections r /\ 0 < ConnectionsPerMinute r.
Proof.
  unfold runtime_problems. intros Hp. no_problems.
  match goal with H : existsb _ [StartupWait r; _; _; _; _; _; _] = false |- _ =>
    apply existsb_false in H; split; [|lia]; apply (Forall_impl _ _ _ H) end.
  intros d Hd. bools. lia.
Qed.

Lemma storage_problems_nil s :
  storage_problems s = [] -> EvictAfterBackup s = true -> Driver s = "s3" \/ Driver s = "rclone".
Proof.
  unfold storage_problems. intros Hp He.
  repeat case_bool_decide; no_problems; auto; congruence.
Qed.

Lemma config_problems_nil c : config_problems c = [] -> valid_config c.
Proof.
  unfold config_problems. intros Hp. no_problems.
  match goal with H : runtime_problems _ = [] |- _ => apply runtime_problems_nil in H as [? ?] end.
  match goal with H : concat _ = [] |- _ => rewrite concat_map_nil in H; rename H into Hpacks end.
  constructor; try done; try lia; try by split; lia.
  - intros l Hl. apply negb_false_iff.
    match goal with H : existsb _ (SplitByte _ _) = false |- _ =>
      apply (existsb_elem _ _ H l Hl) end.
  - by apply storage_problems_nil.
  - intros id p Hl. apply pack_problems_nil, (Hpacks (id, p)). by apply elem_of_range.
Qed.
End Accepted.

(** ** Routing lemmas *)

(** The characters of a domain or a host name. *)
Definition host_char (c : ascii) : bool := label_char c || bool_decide (c = chr 46).

Lemma host_char_plain c :
  host_char (ascii_lower c) = true ->
  is_ascii c && negb (ascii_space c) = true /\ c <> chr 58
  /\ (c = chr 46 <-> ascii_lower c = chr 46).
Proof.
  destruct c as [[] [] [] [] [] [] [] []]; vm_compute; intros E; try discriminate E;
    split_and!; try done; split; done.
Qed.

(** A string behind another one ends as it does. *)
Lemma domain_last_dot (x d r : string) :
  x +:+ "." +:+ d = r +:+ "." -> d <> "" -> HasSuffix d "." = false -> False.
Proof.
  intros E Hd Hs. assert (exists r', d = r' +:+ ".") as [r' ->].
  { clear Hs. change ("." +:+ d) with (String (chr 46) d) in E. revert r E.
    induction x as [|a x IH]; intros r E.
    - rewrite append_nil_l in E. destruct r as [|b r]; [injection E as ->; done|].
      rewrite append_cons in E. injection E as _ ->. by exists r.
    - rewrite append_cons in E. destruct r as [|b r].
      + rewrite append_nil_l in E. injection E as _ E. by destruct x.
      + rewrite append_cons in E. injection E as _ E. by apply (IH r). }
  assert (HasSuffix (r' +:+ ".") "." = true); [apply HasSuffix_spec; by exists r'|congruence].
Qed.

Lemma dnsLabel_chars s : dnsLabel s = true -> string_forallb label_char s = true /\ s <> "".
Proof. destruct s as [|c s]; [done|]. unfold dnsLabel. intros E. bools. done. Qed.

Lemma label_char_not_dot c : label_char c = true -> c <> chr 46.
Proof. intros H ->. discriminate H. Qed.

Lemma dnsLabel_no_dot s : dnsLabel s = true -> ContainsByte (chr 46) s = false.
Proof.
  intros [Hs _]%dnsLabel_chars. apply ContainsByte_forallb. revert Hs.
  apply string_forallb_impl. intros c Hc%label_char_not_dot. by rewrite bool_decide_eq_false_2.
Qed.

Section Routing.
Context `{GoUnicode}.

(** Letter case, a trailing dot and a port do not matter to [host_name]. *)
Lemma host_name_plain h :
  string_forallb host_char (string_map ascii_lower h) = true ->
  TrimSpace h = h /\ ToLower h = string_map ascii_lower h
  /\ ContainsByte (chr 58) (string_map ascii_lower h) = false.
Proof.
  intros Hh. split_and!.
  - apply TrimSpace_id. eapply string_map_forallb, Hh. intros c Hc. by apply host_char_plain.
  - unfold ToLower, all_ascii.
    rewrite (string_map_forallb ascii_lower host_char is_ascii); [done| |done].
    intros c Hc%host_char_plain. destruct Hc as [Hc _]. by apply andb_true_iff in Hc as [? ?].
  - apply ContainsByte_forallb. revert Hh. apply string_forallb_impl. intros c Hc.
    rewrite bool_decide_eq_false_2; [done|]. intros ->. discriminate Hc.
Qed.

Definition is_digit (c : ascii) : bool := (48 <=? code c) && (code c <=? 57).

Lemma digit_plain c :
  is_digit c = true -> is_ascii c && negb (ascii_space c) = true /\ c <> chr 58 /\ c <> chr 46.
Proof.
  destruct c as [[] [] [] [] [] [] [] []]; vm_compute; intros E; try discriminate E; done.
Qed.

Lemma digits_no_byte c port :
  (forall d, is_digit d = true -> d <> c) ->
  string_forallb is_digit port = true -> ContainsByte c port = false.
Proof.
  intros Hd Hp. apply ContainsByte_forallb. revert Hp. apply string_forallb_impl.
  intros d Hdd%Hd. by rewrite bool_decide_eq_false_2.
Qed.

Lemma host_name_port h port :
  string_forallb host_char (string_map ascii_lower h) = true ->
  string_forallb is_digit port = true ->
  host_name (h +:+ ":" +:+ port) = string_map ascii_lower h.
Proof.
  intros Hh Hp. destruct (host_name_plain h Hh) as (_ & _ & Hc).
  pose proof (digits_no_byte (chr 58) port (fun d Hd => proj1 (proj2 (digit_plain d Hd))) Hp) as H58.
  pose proof (digits_no_byte (chr 46) port (fun d Hd => proj2 (proj2 (digit_plain d Hd))) Hp) as H46.
  assert (string_forallb (fun c => is_ascii c && negb (ascii_space c)) (h +:+ ":" +:+ port) = true)
    as Hplain.
  { rewrite !string_forallb_app, !andb_true_iff. split_and!; [|done|].
    - eapply string_map_forallb, Hh. intros c Hc'. by apply host_char_plain.
    - revert Hp. apply string_forallb_impl. intros c Hc'. by apply digit_plain. }
  unfold host_name. rewrite TrimSpace_id, TrimSuffix_none by
    (done || by apply HasSuffix_none).
  assert (ToLower (h +:+ ":" +:+ port) = string_map ascii_lower h +:+ String (chr 58) (string_map ascii_lower port)) as ->.
  { unfold ToLower, all_ascii. by rewrite plain_ascii, !string_map_app. }
  rewrite CutLastByte_app; [done|].
  rewrite string_map_id; [done|]. revert Hp. apply string_forallb_impl. intros c.
  destruct c as [[] [] [] [] [] [] [] []]; vm_compute; done.
Qed.

(** The spelling of a host name does not matter: letter case, a trailing dot
    and a port are dropped before a pack is looked up. *)
Theorem host_name_variants h port :
  string_forallb host_char (string_map ascii_lower h) = true ->
  HasSuffix h "." = false -> string_forallb is_digit port = true ->
  host_name h = string_map ascii_lower h
  /\ host_name (h +:+ ".") = string_map ascii_lower h
  /\ host_name (h +:+ ":" +:+ port) = string_map ascii_lower h.
Proof.
  intros Hh Hs Hp. destruct (host_name_plain h Hh) as (Ht & Hl & Hc).
  split_and!; [| |by apply host_name_port].
  - unfold host_name. by rewrite Ht, TrimSuffix_none, Hl, CutLastByte_none.
  - assert (string_forallb host_char (string_map ascii_lower (h +:+ ".")) = true) as Hd.
    { by rewrite string_map_app, string_forallb_app, Hh. }
    destruct (host_name_plain _ Hd) as (Ht' & _).
    unfold host_name. by rewrite Ht', TrimSuffix_app, Hl, CutLastByte_none.
Qed.

Lemma PackForHost_spec c host id p :
  valid_config c ->
  PackForHost c host = Some (id, p)
  <-> Packs c !! id = Some p /\ host_name host = id +:+ "." +:+ Domain c.
Proof.
  intros Hc. unfold PackForHost. split.
  - destruct (CutSuffix _ _) as [id'|] eqn:E; [|done]. apply CutSuffix_spec in E.
    destruct (ContainsByte _ _ || _); [done|].
    destruct (Packs c !! id') eqn:Hl; [|done]. cbn. intros [= <- <-]. done.
  - intros [Hl Hn]. pose proof (vp_id _ _ _ (vc_packs _ Hc _ _ Hl)) as Hid.
    rewrite (proj2 (CutSuffix_spec _ _ id)) by done. rewrite dnsLabel_no_dot by done.
    rewrite bool_decide_eq_false_2; [by rewrite Hl|]. by apply dnsLabel_chars.
Qed.
(** A pack's own host name leads to it. *)
Lemma PackForHost_own c id p :
  valid_config c -> Packs c !! id = Some p -> PackForHost c (id +:+ "." +:+ Domain c) = Some (id, p).
Proof.
  intros Hc Hp. apply PackForHost_spec; [done|]. split; [done|].
  assert (string_forallb host_char (id +:+ "." +:+ Domain c) = true) as Hchars.
  { rewrite !string_forallb_app, !andb_true_iff. split_and!; [|done|].
    - destruct (dnsLabel_chars _ (vp_id _ _ _ (vc_packs _ Hc _ _ Hp))) as [Hid _].
      revert Hid. apply string_forallb_impl. intros a Ha. unfold host_char. by rewrite Ha.
    - apply SplitByte_forallb. intros l Hl. by apply dnsLabel_chars, (vc_labels _ Hc). }
  assert (string_map ascii_lower (id +:+ "." +:+ Domain c) = id +:+ "." +:+ Domain c) as Hlow.
  { apply string_map_id. revert Hchars. apply string_forallb_impl. intros a.
    destruct a as [[] [] [] [] [] [] [] []]; vm_compute; done. }
  destruct (host_name_plain (id +:+ "." +:+ Domain c)) as (Ht & Hl & H58); [by rewrite Hlow|].
  unfold host_name. rewrite Ht, TrimSuffix_none, Hl, Hlow, CutLastByte_none; [done|by rewrite Hlow in H58|].
  (* a domain does not end in a dot *)
  destruct (HasSuffix _ _) eqn:E; [|done]. exfalso. apply HasSuffix_spec in E as [r Er].
  assert (exists r', Domain c = r' +:+ ".") as [r' Hd].
  { destruct (HasSuffix (Domain c) ".") eqn:Ed; [by apply HasSuffix_spec in Ed|]. exfalso.
    destruct (vc_domain _ Hc) as [Hne _]. apply (domain_last_dot id (Domain c) r); done. }
  destruct (SplitByte_suffix (chr 46) r') as (x & l & Es).
  assert (dnsLabel "" = true) as Habs; [|discriminate Habs].
  apply (vc_labels _ Hc). rewrite Hd. change (r' +:+ ".") with (r' +:+ String (chr 46) ""). rewrite Es. set_solver.
Qed.

(** C20: exact routing.  With a validated configuration a host name leads to a
    pack if and only if, normalized, it is the ID of that pack, a dot and the
    domain; no other host starts anything. *)
Theorem PackForHost_exact c host id p :
  valid_config c ->
  PackForHost c host = Some (id, p)
  <-> Packs c !! id = Some p /\ host_name host = id +:+ "." +:+ Domain c.
Proof. apply PackForHost_spec. Qed.
End Routing.

(** ** Identity digests *)

Definition valid_identity (i : identityPack) : Prop :=
  valid_utf8 (ip_Provider i) = true /\ valid_utf8 (ip_ProjectID i) = true
  /\ valid_utf8 (ip_VersionID i) = true.

(** The text of an identity, with what follows it. *)
Lemma identity_text i x :
  Marshal (identity_json i) +:+ x =
  "{" +:+ json_quote "Provider" +:+ ":" +:+ json_quote (ip_Provider i)
  +:+ "," +:+ json_quote "ProjectID" +:+ ":" +:+ json_quote (ip_ProjectID i)
  +:+ "," +:+ json_quote "VersionID" +:+ ":" +:+ json_quote (ip_VersionID i)
  +:+ "," +:+ json_quote "FileID" +:+ ":" +:+ Itoa (ip_FileID i)
  +:+ "," +:+ json_quote "Java" +:+ ":" +:+ Itoa (ip_Java i) +:+ "}" +:+ x.
Proof.
  unfold identity_json. cbn [Marshal map Join]. by rewrite !append_assoc.
Qed.

(** Marshalled identities are equal only if the identities are, whatever follows. *)
Lemma identity_text_inj i j x y :
  valid_identity i -> valid_identity j ->
  Marshal (identity_json i) +:+ x = Marshal (identity_json j) +:+ y -> i = j /\ x = y.
Proof.
  intros (Hi1 & Hi2 & Hi3) (Hj1 & Hj2 & Hj3) E. rewrite !identity_text in E.
  do 3 apply (inj (append _)) in E. apply json_quote_inj_app in E as [E1 E]; [|done..].
  do 3 apply (inj (append _)) in E. apply json_quote_inj_app in E as [E2 E]; [|done..].
  do 3 apply (inj (append _)) in E. apply json_quote_inj_app in E as [E3 E]; [|done..].
  do 3 apply (inj (append _)) in E. apply Itoa_inj_sep in E as [E4 E]; [|done..].
  change (String "," ?s) with ("," +:+ s) in E.
  do 3 apply (inj (append _)) in E. apply Itoa_inj_sep in E as [E5 E]; [|done..].
  injection E as E. destruct i, j; cbn in *. by subst.
Qed.
(** The array of entries the configuration digest covers. *)
Definition valid_entry (e : string * identityPack) : Prop :=
  valid_utf8 (fst e) = true /\ valid_identity (snd e).

Lemma entry_text e x :
  Marshal (entry_json e) +:+ x =
  "{" +:+ json_quote "ID" +:+ ":" +:+ json_quote (fst e)
  +:+ "," +:+ json_quote "Pack" +:+ ":" +:+ Marshal (identity_json (snd e)) +:+ "}" +:+ x.
Proof.
  unfold entry_json. cbn [map Join Marshal fst snd]. by rewrite !append_assoc.
Qed.

Lemma entry_text_inj e f x y :
  valid_entry e -> valid_entry f ->
  Marshal (entry_json e) +:+ x = Marshal (entry_json f) +:+ y -> e = f /\ x = y.
Proof.
  intros [He1 He2] [Hf1 Hf2] E. rewrite !entry_text in E.
  do 3 apply (inj (append _)) in E. apply json_quote_inj_app in E as [E1 E]; [|done..].
  do 3 apply (inj (append _)) in E. apply identity_text_inj in E as [E2 E]; [|done..].
  injection E as E. destruct e, f; cbn in *. by subst.
Qed.

Lemma Join_cons s l sep : Join (s :: l) sep = s +:+ (if bool_decide (l = []) then "" else sep +:+ Join l sep).
Proof. by destruct l; cbn; rewrite ?append_nil_r. Qed.

Lemma entries_text_inj l k :
  Forall valid_entry l -> Forall valid_entry k ->
  Join (map (fun e => Marshal (entry_json e)) l) "," +:+ "]"
  = Join (map (fun e => Marshal (entry_json e)) k) "," +:+ "]" -> l = k.
Proof.
  assert (forall e x y, Marshal (entry_json e) +:+ x <> String "]" y) as Hne.
  { intros e x y. rewrite entry_text. discriminate. }
  intros Hl. revert k. induction Hl as [|e l He Hl IH]; intros [|f k] Hk E; [done|..].
  - cbn [map] in E. rewrite Join_cons, append_assoc in E. symmetry in E. by apply Hne in E.
  - cbn [map] in E. rewrite Join_cons, append_assoc in E. by apply Hne in E.
  - apply Forall_cons in Hk as [Hf Hk]. cbn [map] in E. rewrite !Join_cons, !append_assoc in E.
    apply entry_text_inj in E as [-> E]; [|done..]. f_equal.
    destruct l as [|e' l], k as [|f' k]; try done. apply IH; [done|].
    cbn [map bool_decide] in E. rewrite !bool_decide_eq_false_2 in E by done.
    rewrite !append_assoc in E. by apply (inj (append _)) in E.
Qed.

Definition identities (c : Config) : gmap string identityPack := identity_of <$> Packs c.

Lemma identity_entries_eq c :
  identity_entries (Packs c)
  = omap (fun id => pair id <$> identities c !! id) (sorted_keys (identities c)).
Proof.
  unfold identity_entries, identities. rewrite sorted_keys_fmap.
  induction (sorted_keys (Packs c)) as [|id l IH]; [done|]. cbn. rewrite IH, lookup_fmap.
  by destruct (Packs c !! id).
Qed.

Lemma elem_of_identity_entries c id i :
  (id, i) ∈ identity_entries (Packs c) <-> identities c !! id = Some i.
Proof.
  rewrite identity_entries_eq, elem_of_sorted_entries. split.
  - intros (k & a & Hk & [= -> ->]). done.
  - intros Hi. by exists id, i.
Qed.

(** The strings of a configuration decoded from YAML are valid UTF-8. *)
Definition valid_strings (c : Config) : Prop :=
  forall id p, Packs c !! id = Some p -> valid_entry (id, identity_of p).

Lemma valid_entries c : valid_strings c -> Forall valid_entry (identity_entries (Packs c)).
Proof.
  intros Hc. apply Forall_forall. intros [id i] Hi%elem_of_identity_entries.
  unfold identities in Hi. rewrite lookup_fmap in Hi. apply fmap_Some in Hi as (p & Hp & ->).
  by apply Hc.
Qed.

Definition digest (s : string) : string := sha256_hex (bytes_of_string s).

(** The configuration digest covers the immutable fields and nothing else: it
    is unchanged when only other fields change (heap, machine size, exclusions,
    names, storage), and two configurations with the same digest lock the same
    identities under the same IDs, or the two texts that were hashed collide. *)
Theorem IdentityDigest_identities c d :
  valid_strings c -> valid_strings d ->
  (identities c = identities d -> IdentityDigest c = IdentityDigest d)
  /\ (IdentityDigest c = IdentityDigest d ->
      identities c = identities d \/ collision digest (identities_text c) (identities_text d)).
Proof.
  intros Hc Hd. split.
  - intros E. unfold IdentityDigest, identities_text. by rewrite !identity_entries_eq, E.
  - unfold IdentityDigest. intros E. destruct (decide (identities_text c = identities_text d)) as [Exy|Hne];
      [|right; by split].
    left. unfold identities_text in Exy. cbn [Marshal] in Exy. rewrite !map_map in Exy. apply (inj (append "[")) in Exy.
    apply entries_text_inj in Exy; [|by apply valid_entries..].
    apply map_eq. intros id. apply option_eq. intros i.
    by rewrite <- !elem_of_identity_entries, Exy.
Qed.
(** ** Properties of validation *)
Section ValidateProperties.
Context `{GoUnicode}.

Lemma existsb_none {A} (p : A -> bool) l : (forall x, x ∈ l -> p x = false) -> existsb p l = false.
Proof. intros Hp. apply existsb_false, Forall_forall. exact Hp. Qed.

Lemma bad_pattern_false x : bad_pattern x = false <->
  TrimSpace x <> "" /\ ContainsAny x (String (chr 44) (String (chr 13) newline)) = false.
Proof. unfold bad_pattern. rewrite orb_false_iff, bool_decide_eq_false. done. Qed.

Lemma headroom_wraps m machine : 0 < m < 2 ^ 63 -> 0 < machine ->
  (machine <? int64 (m + 256)) = false <-> m + 256 <= machine \/ 2 ^ 63 <= m + 256.
Proof.
  intros Hm Hma. rewrite Z.ltb_ge. destruct (decide (m + 256 < 2 ^ 63)) as [Hs|Hs].
  - unfold int64. rewrite swrap_id; change (2 ^ (64 - 1)) with (2 ^ 63); lia.
  - assert (int64 (m + 256) = m + 256 - 2 ^ 64) as ->; [|lia].
    unfold int64, swrap. change (2 ^ (64 - 1)) with (2 ^ 63).
    rewrite <- (Z.mod_unique (m + 256 + 2 ^ 63) (2 ^ 64) 1 (m + 256 + 2 ^ 63 - 2 ^ 64)); lia.
Qed.

Lemma pack_problems_checked cap id p : pack_problems cap id p = [] -> checked_pack p.
Proof.
  intros Hp. pose proof (pack_problems_nil cap id p Hp) as Hv. unfold pack_problems in Hp. no_problems.
  split.
  - destruct (decide (2 ^ 63 <= MemoryMB p + 256)); [by right|left].
    apply (vp_headroom _ _ _ Hv). lia.
  - intros x Hx. apply bad_pattern_false.
    match goal with H : existsb bad_pattern _ = false |- _ => by apply (existsb_elem _ _ H) end.
Qed.

Lemma checked_pack_problems cap id p : MemoryMB p < 2 ^ 63 ->
  valid_pack cap id p -> checked_pack p -> pack_problems cap id p = [].
Proof.
  intros Hm [Hid [Hn1 Hn2] Hj Hmem [[Hma1 Hma2] Hdiv] _ Hcpu Hprov] [Hh He]. unfold pack_problems.
  assert (Z.rem (MachineMemoryMB p) 256 = 0) as Hrem by (apply Z.rem_divide; [lia|done]).
  assert (existsb bad_pattern (ModrinthExcludeFiles p) = false) as ->.
  { apply existsb_none. intros x Hx. by apply bad_pattern_false, He. }
  apply (headroom_wraps (MemoryMB p) (MachineMemoryMB p)) in Hh as ->; [|lia..].
  rewrite Hid, Hrem, !(bool_decide_eq_false_2 (_ = "")), !(proj2 (Z.leb_gt _ _)), !(proj2 (Z.ltb_ge _ _)) by (done || lia).
  destruct Hj as [-> | ->]; cbn [negb andb orb when app Z.eqb Pos.eqb];
    destruct Hprov as [(-> & Hv & ->)|(-> & Hf & -> & ->)];
    rewrite ?bool_decide_eq_true_2, ?(bool_decide_eq_false_2 (VersionID p = "")),
      ?(bool_decide_eq_false_2 ("curseforge" = "modrinth")) by done; cbn [negb andb orb when app];
    try done; by rewrite (proj2 (Z.leb_gt (FileID p) 0)) by lia.
Qed.

Lemma config_problems_checked `{MapRange} c : config_problems c = [] -> checked_config c.
Proof.
  intros Hp. pose proof (config_problems_nil c Hp) as Hv. unfold config_problems in Hp. no_problems.
  match goal with H : concat _ = [] |- _ => rewrite concat_map_nil in H; rename H into Hpacks end.
  match goal with H : runtime_problems _ = [] |- _ => rename H into Hr end.
  match goal with H : storage_problems _ = [] |- _ => rename H into Hs end.
  constructor; [done| | |].
  - unfold runtime_problems in Hr. no_problems.
    match goal with H : existsb _ [ListenAddress _; _; _] = false |- _ => cbn in H; bools end. done.
  - unfold storage_problems in Hs. repeat case_bool_decide; no_problems; auto 10.
  - intros id p Hl. apply (pack_problems_checked (CapacityCfg c) id), (Hpacks (id, p)). by apply elem_of_range.
Qed.

Lemma checked_config_problems `{MapRange} c : (forall id p, Packs c !! id = Some p -> MemoryMB p < 2 ^ 63) ->
  checked_config c -> config_problems c = [].
Proof.
  intros Hm [[Hs [Hd1 Hd2] Hl [Hc1 Hc2] Hdur [Hl1 Hl2] _ Hp] (Ha1 & Ha2 & Ha3) Hst Hk].
  unfold config_problems. rewrite Hs.
  assert (existsb (fun p => negb (dnsLabel p)) (SplitByte (chr 46) (Domain c)) = false) as ->.
  { apply existsb_none. intros x Hx. by rewrite Hl. }
  assert (concat (map (fun '(id, p) => pack_problems (CapacityCfg c) id p) (range (Packs c))) = []) as ->.
  { apply concat_map_nil. intros [id p] Hx%elem_of_range. apply checked_pack_problems; eauto. }
  rewrite (bool_decide_eq_false_2 (Domain c = "")), !(proj2 (Z.ltb_ge _ _)), !(proj2 (Z.leb_gt _ _)) by (done || lia).
  assert (runtime_problems (RuntimeCfg c) = []) as ->.
  { unfold runtime_problems. rewrite !(proj2 (Z.leb_gt _ _)) by lia.
    rewrite (existsb_none (fun d => d <=? 0)), (existsb_none (fun s => bool_decide (s = ""))); [done|..].
    - intros x Hx. apply bool_decide_eq_false_2. rewrite !elem_of_cons, elem_of_nil in Hx. naive_solver.
    - intros d Hd. rewrite Forall_forall in Hdur. apply Hdur in Hd. lia. }
  assert (storage_problems (Storage c) = []) as ->; [|done].
  unfold storage_problems. destruct Hst as [(-> & Hr & ->)|[(-> & He & Hb)|(-> & Hr)]];
    repeat (rewrite ?bool_decide_eq_true_2, ?bool_decide_eq_false_2 by done; cbn [when app orb]); done.
Qed.

Lemma Validate_valid `{MapRange} c c' :
  Validate c = (Ok tt, c') -> c' = set_domain c (normalize_domain (Domain c)) /\ valid_config c'.
Proof.
  unfold Validate. destruct (config_problems _) eqn:E; [|done].
  intros [= <-]. split; [done|]. by apply config_problems_nil.
Qed.

(** C21: what [Validate] accepts.  It normalizes the domain, and it accepts exactly the
    configurations that then have all of: schema 1; a domain of at most 253 characters made
    of DNS labels; a positive capacity, positive durations and connection limits; the three
    addresses; one of the three storage drivers with what it needs, and no eviction with a
    filesystem store; and packs whose ID is a DNS label, with a name, a project, Java 17 or
    21, a machine that fits the capacity in steps of 256 MB, exactly one provider version,
    exclusion patterns that are not blank and hold no comma or line end, and 256 MB of the
    machine beside the Java heap - or a heap within 256 MB of the largest [int], for which
    the sum wraps around and the last check says nothing ([headroom_check_wraps]). *)
Theorem Validate_sound `{MapRange} c c' :
  (Validate c = (Ok tt, c') ->
     c' = set_domain c (normalize_domain (Domain c)) /\ checked_config c')
  /\ ((forall id p, Packs c !! id = Some p -> MemoryMB p < 2 ^ 63) ->
     c' = set_domain c (normalize_domain (Domain c)) -> checked_config c' -> Validate c = (Ok tt, c')).
Proof.
  unfold Validate. split.
  - destruct (config_problems _) eqn:E; [|done]. intros [= <-]. split; [done|]. by apply config_problems_checked.
  - intros Hm -> Hc. by rewrite checked_config_problems.
Qed.

(** The verdict and the error text do not depend on the order in which Go
    walks the map of packs. *)
Theorem Validate_order_independent (R1 R2 : MapRange) c :
  @Validate _ R1 c = @Validate _ R2 c.
Proof.
  unfold Validate. set (c1 := set_domain _ _).
  assert (@config_problems _ R1 c1 ≡ₚ @config_problems _ R2 c1) as P.
  { unfold config_problems. repeat apply Permutation_app_head.
    rewrite <- !flat_map_concat_map. apply Permutation_flat_map. by rewrite !range_perm. }
  apply SortStrings_perm in P as Ps.
  destruct (@config_problems _ R1 c1), (@config_problems _ R2 c1); try done.
  - by apply Permutation_nil_cons in P.
  - symmetry in P. by apply Permutation_nil_cons in P.
  - by rewrite Ps.
Qed.

(** The headroom check adds 256 in a machine integer: for a heap within 256 of
    the largest [int] the sum wraps and the check passes, so a pack whose heap
    exceeds its machine by far is reported free of problems. *)
Theorem headroom_check_wraps :
  let p := mkPack "Big" "" "modrinth" "p" "v" 0 17 (2 ^ 63 - 1) 1024 1 [] in
  pack_problems (mkCapacity 4096 4) "big" p = [] /\ MachineMemoryMB p < MemoryMB p.
Proof. split; reflexivity. Qed.
End ValidateProperties.

(** ** Witnesses *)

(** The configuration of the package's own tests. *)
Definition alpha_pack : Pack :=
  mkPack "Alpha" "" "modrinth" "p" "v" 0 17 2048 3072 2 [].
Definition example_config : Config :=
  mkConfig 1 "mc.example.com"
    (mkRuntime Second Minute Second Second Second Second Second 2 3 ":1" "127.0.0.1:2" "127.0.0.1:3")
    (mkCapacity 4096 4)
    (mkStorageConfig "filesystem" false "/tmp/b" (mkS3Config "" "" "" "" None) "")
    {[ "alpha" := alpha_pack ]}.

Lemma example_config_accepted :
  @Validate plain_unicode map_order example_config = (Ok tt, example_config).
Proof. vm_compute. reflexivity. Qed.

Lemma Validate_sound_witness :
  @Validate plain_unicode map_order example_config = (Ok tt, example_config)
  /\ @checked_config plain_unicode example_config.
Proof.
  split; [exact example_config_accepted|].
  exact (proj2 (proj1 (@Validate_sound plain_unicode map_order example_config example_config)
    example_config_accepted)).
Defined.

Lemma example_config_valid : valid_config example_config.
Proof.
  eapply (@config_problems_nil plain_unicode map_order). vm_compute. reflexivity.
Qed.

Lemma PackForHost_exact_witness :
  valid_config example_config /\
  @PackForHost plain_unicode example_config "ALPHA.mc.example.com:25565" = Some ("alpha", alpha_pack).
Proof.
  split; [exact example_config_valid|].
  apply (@PackForHost_exact plain_unicode example_config "ALPHA.mc.example.com:25565" "alpha" alpha_pack).
  - exact example_config_valid.
  - split; vm_compute; reflexivity.
Defined.

Lemma host_name_variants_witness :
  @host_name plain_unicode "Alpha.MC.example.com." = "alpha.mc.example.com"
  /\ @host_name plain_unicode "Alpha.MC.example.com:25565" = "alpha.mc.example.com".
Proof.
  apply (@host_name_variants plain_unicode "Alpha.MC.example.com" "25565"); vm_compute; reflexivity.
Defined.

Lemma IdentityDigest_identities_witness :
  valid_strings example_config /\ IdentityDigest example_config = IdentityDigest (set_domain example_config "x").
Proof.
  assert (valid_strings example_config) as Hv.
  { intros id p. cbn. intros [<- <-]%lookup_singleton_Some. by repeat split. }
  split; [exact Hv|].
  apply (IdentityDigest_identities example_config (set_domain example_config "x")); [exact Hv..|reflexivity].
Defined.
