(* ===== verification/Lock.v ===== *)
(** * The lock file and its resolver ([internal/config/lock.go])

    The pinned identities of the packs: validation, the checks against a
    configuration and against an earlier lock, and the generation of a lock from
    the answers of the two providers, whose services are parameters. *)
From Stdlib Require Import String Ascii.
From S2P Require Import Prelude GoStrings GoJson GoSha256 Config.

(** ** Data *)

Record LockedPack := mkLockedPack {
  lp_Provider : string; lp_ProjectID : string; lp_VersionID : string; lp_FileID : Z;
  Slug : string; Minecraft : string; Loader : string; lp_Java : Z;
  ArtifactHash : string; lp_IdentityDigest : string }.

Record LockFile := mkLockFile {
  lock_Schema : Z; ConfigDigest : string; lock_Packs : gmap string LockedPack }.

(** The entry a Go map yields for an absent key. *)
Definition zero_LockedPack : LockedPack := mkLockedPack "" "" "" 0 "" "" "" 0 "" "".

Definition locked_identity (p : LockedPack) : identityPack :=
  mkIdentityPack (lp_Provider p) (lp_ProjectID p) (lp_VersionID p) (lp_FileID p) (lp_Java p).

(** [packIdentityDigest]. *)
Definition identity_digest (i : identityPack) : string :=
  sha256_hex (bytes_of_string (Marshal (identity_json i))).
Definition packIdentityDigest (p : Pack) : string := identity_digest (identity_of p).

(** ** Checks *)

(** A loop that returns the first error of its body. *)
Fixpoint first_error {A} (f : A -> result unit) (l : list A) : result unit :=
  match l with
  | [] => Ok tt
  | x :: l' => match f x with Ok _ => first_error f l' | Err e => Err e end
  end.

Section Checks.
Context `{GoUnicode} `{MapRange}.

Definition Validate_pack (e : string * LockedPack) : result unit :=
  let '(id, p) := e in
  if bool_decide (lp_IdentityDigest p = "") || bool_decide (lp_ProjectID p = "")
     || (negb (bool_decide (lp_Provider p = "modrinth"))
         && negb (bool_decide (lp_Provider p = "curseforge")))
  then Err (Errorf ("invalid locked pack " +:+ Quote id))
  else if negb (bool_decide (lp_IdentityDigest p = identity_digest (locked_identity p)))
  then Err (Errorf ("locked pack " +:+ Quote id +:+ " identity digest is invalid"))
  else Ok tt.

Definition Validate (l : LockFile) : result unit :=
  if negb (lock_Schema l =? 1) then Err (Errorf "lock schema must be 1")
  else if negb (string_len (ConfigDigest l) =? 64) then Err (Errorf "invalid config digest")
  else first_error Validate_pack (range (lock_Packs l)).

Definition CheckImmutable (previous next : LockFile) : result unit :=
  first_error (fun '(id, old) =>
    match lock_Packs next !! id with
    | None => Err (Errorf ("locked pack " +:+ Quote id +:+ " cannot be removed"))
    | Some current =>
        if bool_decide (lp_IdentityDigest old = lp_IdentityDigest current) then Ok tt
        else Err (Errorf ("locked pack " +:+ Quote id
               +:+ " immutable identity changed; add a new ID instead"))
    end) (range (lock_Packs previous)).

Definition Matches (l : LockFile) (c : Config) : result unit :=
  if negb (bool_decide (ConfigDigest l = IdentityDigest c)) then
    Err (Errorf "packs.lock.json does not match immutable fields in packs.yaml; run hostpackd lock")
  else if negb (bool_decide (size (lock_Packs l) = size (Packs c))) then
    Err (Errorf "locked pack count differs from config")
  else first_error (fun '(id, p) =>
    match lock_Packs l !! id with
    | None => Err (Errorf ("pack " +:+ Quote id +:+ " is missing from lock"))
    | Some lp =>
        if negb (bool_decide (lp_Provider lp = Provider p))
           || negb (bool_decide (lp_ProjectID lp = ProjectID p))
           || negb (bool_decide (lp_VersionID lp = VersionID p))
           || negb (lp_FileID lp =? FileID p) || negb (lp_Java lp =? Java p)
        then Err (Errorf ("pack " +:+ Quote id +:+ " immutable fields differ from lock"))
        else Ok tt
    end) (range (Packs c)).
End Checks.

(** ** The resolver *)

(** What a request to a provider gives: a status, its text, and the body, decoded
    as JSON or not JSON. *)
Record Response := mkResponse { StatusCode : Z; Status : string; Body : result json }.

Record modrinthFile := mkModrinthFile { Primary : bool; Hashes : gmap string string }.
Record modrinthVersion := mkModrinthVersion {
  mv_ProjectID : string; mv_GameVersions : list string; mv_Loaders : list string;
  mv_Files : list modrinthFile }.
Record curseProject := mkCurseProject { cp_ID : Z; cp_Slug : string }.
Record curseHash := mkCurseHash { ch_Value : string; ch_Algo : Z }.
Record curseFile := mkCurseFile {
  cf_ID : Z; cf_ModID : Z; cf_Hashes : list curseHash; cf_GameVersions : list string }.

Definition dec_modrinthFile : option json -> result modrinthFile := dec_object (fun l =>
  p ← dec_bool (member "primary" l); h ← dec_string_map (member "hashes" l);
  Ok (mkModrinthFile p h)).
Definition dec_modrinthVersion (j : json) : result modrinthVersion := dec_object (fun l =>
  _ ← dec_string (member "id" l);
  p ← dec_string (member "project_id" l);
  g ← dec_list dec_string (member "game_versions" l);
  lo ← dec_list dec_string (member "loaders" l);
  f ← dec_list dec_modrinthFile (member "Files" l);
  Ok (mkModrinthVersion p g lo f)) (Some j).
Definition dec_curseProject (j : json) : result curseProject := dec_object (fun l =>
  dec_object (fun d =>
    i ← dec_int (member "ID" d); s ← dec_string (member "Slug" d); Ok (mkCurseProject i s))
    (member "Data" l)) (Some j).
Definition dec_curseHash : option json -> result curseHash := dec_object (fun l =>
  v ← dec_string (member "Value" l); a ← dec_int (member "Algo" l); Ok (mkCurseHash v a)).
Definition dec_curseFile (j : json) : result curseFile := dec_object (fun l =>
  dec_object (fun d =>
    i ← dec_int (member "ID" d); m ← dec_int (member "ModID" d);
    h ← dec_list dec_curseHash (member "Hashes" d);
    g ← dec_list dec_string (member "GameVersions" d);
    Ok (mkCurseFile i m h g)) (member "Data" l)) (Some j).

(** The loop over the files of a Modrinth version. *)
Fixpoint modrinth_hash (files : list modrinthFile) (hash : string) : string :=
  match files with
  | [] => hash
  | f :: files' =>
      let hash' :=
        if Primary f || bool_decide (hash = "") then
          let h512 := default "" (Hashes f !! "sha512") in
          let h1 := default "" (Hashes f !! "sha1") in
          if negb (bool_decide (h512 = "")) then "sha512:" +:+ h512
          else if negb (bool_decide (h1 = "")) then "sha1:" +:+ h1
          else hash
        else hash in
      if Primary f then hash' else modrinth_hash files' hash'
  end.

Section Resolver.
Context `{GoUnicode}.
(** The providers' services, the verdict of [net/url] on a URL, and the API key. *)
Context (http : string -> Response + error) (url_error : string -> option error).
Context (CurseForgeKey ModrinthBase CurseForgeBase : string).

Definition get (url : string) (key : bool) : result json :=
  match url_error url with
  | Some e => Err e
  | None =>
      if key && bool_decide (CurseForgeKey = "") then Err (Errorf "CF_API_KEY is required")
      else match http url with
      | inr e => Err e
      | inl resp =>
          if negb (Z.quot (StatusCode resp) 100 =? 2)
          then Err (Errorf ("provider returned " +:+ Status resp))
          else Body resp
      end
  end.

Definition resolveModrinth (p : Pack) : result LockedPack :=
  j ← get (ModrinthBase +:+ "/version/" +:+ VersionID p) false;
  v ← dec_modrinthVersion j;
  if negb (bool_decide (mv_ProjectID v = ProjectID p)) then
    Err (Errorf ("version belongs to project " +:+ mv_ProjectID v +:+ ", not " +:+ ProjectID p))
  else
    let hash := modrinth_hash (mv_Files v) "" in
    if bool_decide (hash = "") then Err (Errorf "version has no usable file hash")
    else Ok (mkLockedPack "modrinth" (ProjectID p) (VersionID p) 0 ""
               (default "" (head (mv_GameVersions v))) (default "" (head (mv_Loaders v)))
               0 hash "").

(** The loop over the hashes of a CurseForge file. *)
Fixpoint curse_hash (hashes : list curseHash) (hash : string) : string :=
  match hashes with
  | [] => hash
  | h :: hashes' =>
      if ch_Algo h =? 1 then "sha1:" +:+ ToLower (ch_Value h)
      else if ch_Algo h =? 2 then curse_hash hashes' ("md5:" +:+ ToLower (ch_Value h))
      else curse_hash hashes' hash
  end.

(** The loop over its game versions: the Minecraft version and the loader. *)
Definition curse_versions (versions : list string) : string * string :=
  foldl (fun '(mc, loader) v =>
    let mc' := if (1 <=? CountByte (chr 46) v) && bool_decide (mc = "") then v else mc in
    let lv := ToLower v in
    (mc', if existsb (fun n => bool_decide (lv = n)) ["forge"; "fabric"; "neoforge"; "quilt"]
          then lv else loader)) ("", "") versions.

Definition resolveCurseForge (p : Pack) : result LockedPack :=
  let url := CurseForgeBase +:+ "/mods/" +:+ ProjectID p in
  j ← get url true;
  project ← dec_curseProject j;
  if negb (bool_decide (Itoa (cp_ID project) = ProjectID p)) then Err (Errorf "project id mismatch")
  else
    j ← get (url +:+ "/files/" +:+ Itoa (FileID p)) true;
    file ← dec_curseFile j;
    if negb (cf_ModID file =? cp_ID project) || negb (cf_ID file =? FileID p)
    then Err (Errorf "file does not belong to configured project")
    else
      let hash := curse_hash (cf_Hashes file) "" in
      if bool_decide (hash = "") then Err (Errorf "file has no usable hash")
      else
        let '(mc, loader) := curse_versions (cf_GameVersions file) in
        Ok (mkLockedPack "curseforge" (ProjectID p) "" (FileID p) (cp_Slug project) mc loader 0
              hash "").

(** One round of the loop of [Generate]. *)
Definition resolve (p : Pack) : result LockedPack :=
  lp ← (if bool_decide (Provider p = "modrinth") then resolveModrinth p else resolveCurseForge p);
  Ok (mkLockedPack (lp_Provider lp) (lp_ProjectID lp) (lp_VersionID lp) (lp_FileID lp) (Slug lp)
        (Minecraft lp) (Loader lp) (Java p) (ArtifactHash lp) (packIdentityDigest p)).

Fixpoint resolve_all (ids : list string) (packs : gmap string Pack)
    (locked : gmap string LockedPack) : result (gmap string LockedPack) :=
  match ids with
  | [] => Ok locked
  | id :: ids' =>
      match packs !! id with
      | None => resolve_all ids' packs locked
      | Some p =>
          lp ← wrap_err ("resolve pack " +:+ Quote id) (resolve p);
          resolve_all ids' packs (<[id := lp]> locked)
      end
  end.

Definition Generate (c : Config) : result LockFile :=
  locked ← resolve_all (sorted_keys (Packs c)) (Packs c) ∅;
  Ok (mkLockFile 1 (IdentityDigest c) locked).
End Resolver.

(** ** What the checks establish *)

Lemma first_error_ok {A} (f : A -> result unit) l :
  first_error f l = Ok tt <-> forall x, x ∈ l -> f x = Ok tt.
Proof.
  induction l as [|x l IH]; cbn; [set_solver|]. destruct (f x) as [[]|e] eqn:E.
  - rewrite IH. split; [intros H y [->|Hy]%elem_of_cons; auto|set_solver].
  - split; [done|]. intros H. rewrite (H x) in E by set_solver. done.
Qed.

Lemma negb_decide_false (P : Prop) `{Decision P} : negb (bool_decide P) = false -> P.
Proof. intros E%negb_false_iff. by apply bool_decide_eq_true in E. Qed.

(** What [packIdentityDigest] hashes. *)
Abbreviation hashed i := (Marshal (identity_json i)).

(** Equal digests: equal identities, or their two texts collide. *)
Lemma identity_digest_inj i j :
  valid_identity i -> valid_identity j -> identity_digest i = identity_digest j ->
  i = j \/ collision digest (hashed i) (hashed j).
Proof.
  intros Hi Hj E. destruct (decide (Marshal (identity_json i) = Marshal (identity_json j))) as [Em|Hne].
  - left. eapply (identity_text_inj i j "" ""); [done..|]. by rewrite Em.
  - right. by split.
Qed.

Section CheckLemmas.
Context `{GoUnicode} `{MapRange}.

Lemma Validate_pack_ok id p :
  Validate_pack (id, p) = Ok tt ->
  lp_IdentityDigest p = identity_digest (locked_identity p) /\ lp_ProjectID p <> ""
  /\ (lp_Provider p = "modrinth" \/ lp_Provider p = "curseforge").
Proof.
  unfold Validate_pack. intros E. repeat case_match; try done.
  repeat match goal with H : negb _ = false |- _ => apply negb_decide_false in H end. bools.
  split_and!; [done..|].
  destruct (decide (lp_Provider p = "modrinth")) as [|Hm]; [by left|right].
  destruct (decide (lp_Provider p = "curseforge")) as [|Hc]; [done|].
  by rewrite !bool_decide_eq_false_2 in * by done.
Qed.

Lemma Validate_ok l id p :
  Validate l = Ok tt -> lock_Packs l !! id = Some p ->
  lp_IdentityDigest p = identity_digest (locked_identity p).
Proof.
  unfold Validate. intros E Hl. repeat case_match; try done.
  rewrite first_error_ok in E. specialize (E (id, p)). rewrite elem_of_range in E.
  by apply Validate_pack_ok in E as [? _].
Qed.

Lemma Matches_pack l c id p :
  Matches l c = Ok tt -> Packs c !! id = Some p ->
  exists lp, lock_Packs l !! id = Some lp /\ locked_identity lp = identity_of p.
Proof.
  unfold Matches. intros E Hp. do 2 (case_match; [done|]).
  rewrite first_error_ok in E. specialize (E (id, p)). rewrite elem_of_range in E.
  specialize (E Hp). cbn in E. destruct (lock_Packs l !! id) as [lp|]; [|done].
  exists lp. split; [done|]. case_match; [done|]. bools.
  unfold locked_identity, identity_of. by f_equal; bools.
Qed.

Lemma Matches_dom l c : Matches l c = Ok tt -> dom (lock_Packs l) = dom (Packs c).
Proof.
  intros E. symmetry. apply set_subseteq_size_eq.
  - intros id. rewrite !elem_of_dom. intros [p Hp].
    destruct (Matches_pack l c id p E Hp) as (lp & -> & _). eauto.
  - rewrite !size_dom. unfold Matches in E. case_match; [done|].
    case_match; [done|]. apply negb_decide_false in H2. lia.
Qed.

Lemma CheckImmutable_pack previous next id p :
  CheckImmutable previous next = Ok tt -> lock_Packs previous !! id = Some p ->
  exists q, lock_Packs next !! id = Some q /\ lp_IdentityDigest q = lp_IdentityDigest p.
Proof.
  unfold CheckImmutable. rewrite first_error_ok. intros E Hp.
  specialize (E (id, p)). rewrite elem_of_range in E. specialize (E Hp). cbn in E.
  destruct (lock_Packs next !! id) as [q|]; [|done]. exists q. split; [done|].
  case_bool_decide; [done|done].
Qed.
End CheckLemmas.

(** ** Properties *)
Section Properties.
Context `{GoUnicode} `{MapRange}.

(** A lock that is valid and matches the configuration pins it exactly: the
    same IDs, the same immutable fields, and for each pack the digest of the
    configured identity, which is the digest the lifecycle records for the pack. *)
Theorem lock_pins_config l c :
  Validate l = Ok tt -> Matches l c = Ok tt ->
  (locked_identity <$> lock_Packs l = identities c)
  /\ forall id p, Packs c !! id = Some p ->
     exists lp, lock_Packs l !! id = Some lp /\ lp_IdentityDigest lp = packIdentityDigest p.
Proof.
  intros Hv Hm. split.
  - apply map_eq. intros id. unfold identities. rewrite !lookup_fmap.
    destruct (Packs c !! id) as [p|] eqn:Hp.
    + destruct (Matches_pack l c id p Hm Hp) as (lp & -> & E). cbn. by rewrite E.
    + assert (lock_Packs l !! id = None) as ->; [|done].
      apply not_elem_of_dom. rewrite (Matches_dom l c Hm). by apply not_elem_of_dom.
  - intros id p Hp. destruct (Matches_pack l c id p Hm Hp) as (lp & Hl & E).
    exists lp. split; [done|]. rewrite (Validate_ok l id lp Hv Hl). unfold packIdentityDigest.
    by rewrite E.
Qed.

(** One accepted update of the committed lock file. *)
Definition lock_update (old new : LockFile) : Prop :=
  Validate new = Ok tt /\ CheckImmutable old new = Ok tt.

Lemma lock_updates_digest l l' id p :
  rtc lock_update l l' -> lock_Packs l !! id = Some p ->
  exists q, lock_Packs l' !! id = Some q /\ lp_IdentityDigest q = lp_IdentityDigest p.
Proof.
  intros Hs. revert p. induction Hs as [l|l1 l2 l3 [_ Hc] _ IH]; intros p Hp; [eauto|].
  destruct (CheckImmutable_pack _ _ _ _ Hc Hp) as (q & Hq & E).
  destruct (IH q Hq) as (r & Hr & E'). exists r. split; congruence.
Qed.

Definition valid_lock_strings (l : LockFile) : Prop :=
  forall id p, lock_Packs l !! id = Some p -> valid_identity (locked_identity p).

(** C19: immutability over the whole history of a lock file.  However many updates
    were accepted, a pack that was ever locked is still there, with the same identity
    digest, and with the same provider, project, version, file and Java, unless the text of
    its identity then and the text of its identity now are two different texts with the
    same SHA-256. *)
Theorem lock_history_immutable l l' id p :
  Validate l = Ok tt -> valid_lock_strings l -> valid_lock_strings l' ->
  rtc lock_update l l' -> lock_Packs l !! id = Some p ->
  exists q, lock_Packs l' !! id = Some q /\ lp_IdentityDigest q = lp_IdentityDigest p
    /\ (locked_identity q = locked_identity p
        \/ collision digest (hashed (locked_identity q)) (hashed (locked_identity p))).
Proof.
  intros Hv Hs Hs' Hr Hp. destruct (lock_updates_digest l l' id p Hr Hp) as (q & Hq & E).
  exists q. split; [done|]. split; [done|]. apply identity_digest_inj; [by eapply Hs'|by eapply Hs|].
  assert (Validate l' = Ok tt) as Hv'.
  { apply rtc_inv_r in Hr as [<-|(l2 & _ & [? _])]; done. }
  by rewrite <- (Validate_ok l' id q Hv' Hq), <- (Validate_ok l id p Hv Hp).
Qed.
End Properties.

(** ** Generation *)
Section Generation.
Context `{GoUnicode} (http : string -> Response + error) (url_error : string -> option error).
Context (key modrinth_base curse_base : string).
Abbreviation resolve := (resolve http url_error key modrinth_base curse_base).
Abbreviation resolve_all := (resolve_all http url_error key modrinth_base curse_base).
Abbreviation Generate := (Generate http url_error key modrinth_base curse_base).

(** What a resolved entry says about its pack. *)
Definition resolved (p : Pack) (lp : LockedPack) : Prop :=
  (Provider p = "modrinth" /\ lp_Provider lp = "modrinth" /\ lp_VersionID lp = VersionID p
     /\ lp_FileID lp = 0
   \/ Provider p <> "modrinth" /\ lp_Provider lp = "curseforge" /\ lp_VersionID lp = ""
     /\ lp_FileID lp = FileID p)
  /\ lp_ProjectID lp = ProjectID p /\ lp_Java lp = Java p /\ ArtifactHash lp <> ""
  /\ lp_IdentityDigest lp = packIdentityDigest p.

Lemma result_bind_ok {A B} (r : result A) (f : A -> result B) b :
  r ≫= f = Ok b -> exists a, r = Ok a /\ f a = Ok b.
Proof. destruct r; [cbn; eauto|discriminate]. Qed.

Lemma resolveModrinth_ok p lp :
  resolveModrinth http url_error key modrinth_base p = Ok lp ->
  lp_Provider lp = "modrinth" /\ lp_VersionID lp = VersionID p /\ lp_FileID lp = 0
  /\ lp_ProjectID lp = ProjectID p /\ ArtifactHash lp <> "".
Proof.
  unfold resolveModrinth. intros E. apply result_bind_ok in E as (j & _ & E).
  apply result_bind_ok in E as (v & _ & E). case_match; [done|].
  case_bool_decide; [done|]. injection E as <-. done.
Qed.

Lemma resolveCurseForge_ok p lp :
  resolveCurseForge http url_error key curse_base p = Ok lp ->
  lp_Provider lp = "curseforge" /\ lp_VersionID lp = "" /\ lp_FileID lp = FileID p
  /\ lp_ProjectID lp = ProjectID p /\ ArtifactHash lp <> "".
Proof.
  unfold resolveCurseForge. intros E. apply result_bind_ok in E as (j & _ & E).
  apply result_bind_ok in E as (v & _ & E). case_match; [done|].
  apply result_bind_ok in E as (j2 & _ & E). apply result_bind_ok in E as (f & _ & E).
  case_match; [done|]. case_bool_decide; [done|].
  destruct (curse_versions _) as [mc lo]. injection E as <-. done.
Qed.

Lemma resolve_ok p lp : resolve p = Ok lp -> resolved p lp.
Proof.
  unfold resolve. intros E. apply result_bind_ok in E as (q & Hq & E). injection E as <-.
  unfold resolved. cbn. case_bool_decide as Hp.
  - apply resolveModrinth_ok in Hq as (? & ? & ? & ? & ?). split_and!; auto.
  - apply resolveCurseForge_ok in Hq as (? & ? & ? & ? & ?). split_and!; auto.
Qed.

Lemma resolve_all_ok ids packs locked m :
  resolve_all ids packs locked = Ok m ->
  (forall id p lp, packs !! id = Some p -> locked !! id = Some lp -> resolved p lp) ->
  (forall id, is_Some (locked !! id) -> is_Some (packs !! id)) ->
  (forall id, is_Some (m !! id) -> is_Some (packs !! id))
  /\ (forall id p, packs !! id = Some p -> id ∈ ids \/ is_Some (locked !! id) ->
      exists lp, m !! id = Some lp /\ resolved p lp).
Proof.
  revert locked. induction ids as [|i ids IH]; intros locked E Hl Hd; cbn in E.
  - injection E as <-. split; [done|]. intros id p Hp [Hin|[lp Hlp]]; [set_solver|eauto].
  - destruct (packs !! i) as [q|] eqn:Hq.
    + apply result_bind_ok in E as (lp & Hr & E).
      destruct (resolve q) as [lp'|] eqn:Hres; [|done]. injection Hr as ->.
      apply resolve_ok in Hres. apply IH in E as [Hm1 Hm2]; [split; [done|]|..].
      * intros id p Hp Hin. apply Hm2; [done|]. destruct (decide (id = i)) as [->|].
        { right. rewrite lookup_insert_eq. eauto. }
        rewrite lookup_insert_ne by done. set_solver.
      * intros id p lp0 Hp. rewrite lookup_insert. case_decide; [|by apply Hl].
        intros [= <-]. subst. by simplify_eq.
      * intros id. rewrite lookup_insert. case_decide; [subst; eauto|apply Hd].
    + apply IH in E as [Hm1 Hm2]; [|done..]. split; [done|]. intros id p Hp Hin.
      apply Hm2; [done|]. set_solver.
Qed.

Lemma resolved_locked_identity cap id p lp :
  valid_pack cap id p -> resolved p lp -> locked_identity lp = identity_of p.
Proof.
  intros Hp ([(H1 & H2 & H3 & H4)|(H1 & H2 & H3 & H4)] & H5 & H6 & _);
    destruct (vp_provider _ _ _ Hp) as [(? & ? & ?)|(? & ? & ? & _)]; try congruence;
    unfold locked_identity, identity_of; f_equal; congruence.
Qed.

Lemma IdentityDigest_length c : string_len (IdentityDigest c) = 64.
Proof. unfold IdentityDigest, string_len. by rewrite length_sha256_hex. Qed.

Lemma packIdentityDigest_nonempty p : packIdentityDigest p <> "".
Proof.
  intros E%(f_equal String.length). unfold packIdentityDigest, identity_digest in E.
  by rewrite length_sha256_hex in E.
Qed.

Lemma Validate_pack_resolved cap id p lp :
  valid_pack cap id p -> resolved p lp -> Validate_pack (id, lp) = Ok tt.
Proof.
  intros Hv Hr. unfold Validate_pack. rewrite (resolved_locked_identity _ _ _ _ Hv Hr).
  destruct Hr as (Hprov & HID & _ & _ & Hdig).
  rewrite HID, Hdig, (bool_decide_eq_false_2 (packIdentityDigest p = ""))
    by apply packIdentityDigest_nonempty.
  rewrite (bool_decide_eq_false_2 (ProjectID p = "")) by apply (vp_named _ _ _ Hv).
  rewrite (bool_decide_eq_true_2 (packIdentityDigest p = _)) by done.
  destruct Hprov as [(_ & -> & _)|(_ & -> & _)]; reflexivity.
Qed.

(** The map [Generate] fills has an entry for each pack and no other. *)
Lemma Generate_packs c m :
  resolve_all (sorted_keys (Packs c)) (Packs c) ∅ = Ok m ->
  dom m = dom (Packs c)
  /\ forall id lp, m !! id = Some lp -> exists p, Packs c !! id = Some p /\ resolved p lp.
Proof.
  intros E. apply resolve_all_ok in E as [Hdom Hin];
    [|intros ? ? ?; by rewrite lookup_empty|intros ?; rewrite lookup_empty; by intros []].
  assert (forall id p, Packs c !! id = Some p -> exists lp, m !! id = Some lp /\ resolved p lp) as Hm.
  { intros id p Hp. apply Hin; [done|]. left. apply elem_of_sorted_keys. eauto. }
  split.
  - apply set_eq. intros id. rewrite !elem_of_dom. split; [apply Hdom|].
    intros [p Hp]. destruct (Hm id p Hp) as (lp & -> & _). eauto.
  - intros id lp Hlp. destruct (Hdom id) as [p Hp]; [eauto|]. exists p. split; [done|].
    destruct (Hm id p Hp) as (lp' & Hlp' & Hr). by simplify_eq.
Qed.

Lemma Generate_spec `{MapRange} c l :
  valid_config c -> Generate c = Ok l ->
  Validate l = Ok tt /\ Matches l c = Ok tt
  /\ forall id lp, lock_Packs l !! id = Some lp -> ArtifactHash lp <> "".
Proof.
  intros Hc E. apply result_bind_ok in E as (m & E & [= <-]).
  apply Generate_packs in E as [Hdom Hm]. split_and!.
  - unfold Validate. cbn [lock_Schema ConfigDigest lock_Packs]. rewrite IdentityDigest_length.
    apply first_error_ok. intros [id lp] Hlp%elem_of_range.
    destruct (Hm id lp Hlp) as (p & Hp & Hr).
    by eapply Validate_pack_resolved; [apply (vc_packs _ Hc)|].
  - unfold Matches. cbn [ConfigDigest lock_Packs].
    rewrite (bool_decide_eq_true_2 (_ = IdentityDigest c)) by done.
    rewrite bool_decide_eq_true_2 by (by rewrite <- !size_dom, Hdom). cbn [negb].
    apply first_error_ok. intros [id p] Hp%elem_of_range.
    destruct (m !! id) as [lp|] eqn:Hlp; cycle 1.
    { apply not_elem_of_dom in Hlp. rewrite Hdom in Hlp. contradict Hlp. apply elem_of_dom. eauto. }
    destruct (Hm id lp Hlp) as (p' & Hp' & Hr). simplify_eq.
    pose proof (resolved_locked_identity _ _ _ _ (vc_packs _ Hc _ _ Hp) Hr) as Ei.
    injection Ei as -> -> -> -> ->. by rewrite !bool_decide_eq_true_2, !Z.eqb_refl.
  - intros id lp Hlp. by destruct (Hm id lp Hlp) as (p & _ & _ & _ & _ & ? & _).
Qed.

(** What [hostpackd lock] writes passes its own checks: for a validated
    configuration, a generated lock is valid, matches the configuration, and every
    entry carries an artifact hash, whatever the providers answered. *)
Theorem Generate_valid `{MapRange} c l :
  valid_config c -> Generate c = Ok l ->
  Validate l = Ok tt /\ Matches l c = Ok tt
  /\ forall id lp, lock_Packs l !! id = Some lp -> ArtifactHash lp <> "".
Proof. apply Generate_spec. Qed.
End Generation.

(** ** Witnesses: the committed lock file *)

(** [config/packs.yaml] and [config/packs.lock.json]. *)
Definition sfs_pack : Pack :=
  mkPack "Standard Fabric Server 1.21.1" "" "modrinth" "r5ygbOIe" "FCnyrYJ4" 0 21 1536 2048 2 [].
Definition cobblemon_pack : Pack :=
  mkPack "Cobblemon Official NeoForge 1.7.3" "https://modrinth.com/modpack/cobblemon-neoforge"
    "modrinth" "mHMxXbIu" "VJ9Jur2k" 0 21 3072 4096 2
    ["lambdynamiclights"; "enhanced_attack_indicator"; "wakes"].
Definition repository_config : Config :=
  mkConfig 1 "137-66-9-53.sslip.io"
    (mkRuntime (25 * Second) (20 * Minute) (30 * Second) (5 * Second) (20 * Minute)
       (10 * Second) (5 * Minute) 128 30 ":25565" "127.0.0.1:25566" ":8080")
    (mkCapacity 8192 4)
    (mkStorageConfig "s3" true ""
       (mkS3Config "https://fly.storage.tigris.dev" "mchostpack-urz-worlds-v2" "hostpack/worlds" "auto" None) "")
    {[ "sfs" := sfs_pack; "cobblemon" := cobblemon_pack ]}.
Definition sfs_locked : LockedPack :=
  mkLockedPack "modrinth" "r5ygbOIe" "FCnyrYJ4" 0 "" "1.21.1" "fabric" 21
         "sha512:89965c7feb9c6741f584e0d179e3e6f6a201c4b7c7f8188d2f91940715788a382e247abe47459649d62911bdf7c13df701d86e2b344ed95b4c52ea1ffbd80f67"
         "2bbab2217125bc9ea8c168aedbc8cdd60e33d1bee6d66d0dbacb01d172d1e7f0".
Definition repository_lock : LockFile :=
  mkLockFile 1 "b54b04efe84ecbdd0a6eea4b0b06cb76cd726b9e1183b9bf34ce59c0df4b346b"
    {[ "cobblemon" := mkLockedPack "modrinth" "mHMxXbIu" "VJ9Jur2k" 0 "" "1.21.1" "neoforge" 21
         "sha512:7a8f9b38c835fc0eab97e1a3c2d98218490215f8eaeb702a44bf55da238545a241578b40cb2f7d616f95c5bba9293b60048ca5995a00a993c424eec85a49bf8c"
         "5ba8f68826eb7d3dc51f3351fe73ea728ea165f844308026f7629f7980ee2b7f";
       "sfs" := sfs_locked ]}.

(** The digests in the committed file are the digests of the model. *)
Example repository_lock_valid :
  @Validate plain_unicode map_order repository_lock = Ok tt
  /\ @Matches plain_unicode map_order repository_lock repository_config = Ok tt.
Proof. split; vm_compute; reflexivity. Qed.

Lemma lock_pins_config_witness :
  @Validate plain_unicode map_order repository_lock = Ok tt
  /\ exists lp, lock_Packs repository_lock !! "sfs" = Some lp
       /\ lp_IdentityDigest lp = packIdentityDigest sfs_pack.
Proof.
  split; [exact (proj1 repository_lock_valid)|].
  destruct (@lock_pins_config plain_unicode map_order repository_lock repository_config
    (proj1 repository_lock_valid) (proj2 repository_lock_valid)) as [_ Hp].
  refine (Hp "sfs" sfs_pack _). vm_compute. reflexivity.
Defined.

Lemma repository_lock_strings : valid_lock_strings repository_lock.
Proof.
  intros id p Hp. unfold repository_lock in Hp. cbv beta iota delta [lock_Packs] in Hp.
  apply lookup_insert_Some in Hp as [[_ <-]|[_ Hp]]; [repeat split|].
  apply lookup_singleton_Some in Hp as [_ <-]. repeat split.
Qed.

Lemma repository_lock_update : @lock_update plain_unicode map_order repository_lock repository_lock.
Proof. split; [exact (proj1 repository_lock_valid)|]. vm_compute. reflexivity. Qed.

Lemma lock_history_immutable_witness :
  @lock_update plain_unicode map_order repository_lock repository_lock /\
  exists q, lock_Packs repository_lock !! "sfs" = Some q
    /\ lp_IdentityDigest q = lp_IdentityDigest sfs_locked
    /\ (locked_identity q = locked_identity sfs_locked
        \/ collision digest (hashed (locked_identity q)) (hashed (locked_identity sfs_locked))).
Proof.
  split; [exact repository_lock_update|].
  refine (@lock_history_immutable plain_unicode map_order repository_lock repository_lock "sfs"
    sfs_locked (proj1 repository_lock_valid) repository_lock_strings repository_lock_strings
    (rtc_once _ _ repository_lock_update) _).
  vm_compute. reflexivity.
Defined.

(** The answer of the provider in the package's own test. *)
Definition test_provider (url : string) : Response + error :=
  inl (mkResponse 200 "200 OK" (Ok (JObj
    [("id", JStr "version-id"); ("project_id", JStr "p");
     ("game_versions", JArr [JStr "1.21.1"]); ("loaders", JArr [JStr "fabric"]);
     ("files", JArr [JObj [("primary", JBool true);
                           ("hashes", JObj [("sha512", JStr "abc123")])]])]))).

Lemma Generate_valid_witness :
  exists l, @Generate plain_unicode test_provider (fun _ => None) "" "https://api.modrinth.com/v2"
      "https://api.curseforge.com/v1" example_config = Ok l
    /\ @Validate plain_unicode map_order l = Ok tt
    /\ @Matches plain_unicode map_order l example_config = Ok tt.
Proof.
  eexists. split; [vm_compute; reflexivity|].
  edestruct (@Generate_valid plain_unicode test_provider (fun _ => None) ""
    "https://api.modrinth.com/v2" "https://api.curseforge.com/v1" map_order example_config)
    as (Hv & Hm & _).
  - exact example_config_valid.
  - vm_compute. reflexivity.
  - split; [exact Hv|exact Hm].
Defined.
