(* ===== verification/LockFile.v ===== *)
(** * The files of the registry ([internal/config/config.go], [internal/config/lock.go])

    [packs.yaml] and [packs.lock.json] on the file system: [config.Load],
    [config.LoadLock] and [LockFile.Marshal], and that a lock written by one is read
    back by the other.  The YAML decoder is a third-party package, a parameter. *)
From Stdlib Require Import String Ascii.
From S2P Require Import Prelude GoStrings GoJson JsonText GoSha256 Filepath Fs Config Lock.

(** ** Maps as JSON objects *)

(** The entries of a map in the order [json.Marshal] writes them. *)
Definition sorted_entries {A} (m : gmap string A) : list (string * A) :=
  omap (fun id => (fun x => (id, x)) <$> m !! id) (sorted_keys m).
Definition map_json {A} (enc : A -> json) (m : gmap string A) : json :=
  JObj (map (fun '(k, x) => (k, enc x)) (sorted_entries m)).
Definition dec_map {A} (d : option json -> result A) (j : option json) : result (gmap string A) :=
  dec_object (foldl (fun acc kv => m ← acc; x ← d (Some (snd kv)); Ok (<[fst kv := x]> m)) (Ok ∅)) j.

(** [omitempty] on an integer. *)
Definition omit_zero (name : string) (z : Z) : list (string * json) :=
  if z =? 0 then [] else [(name, JInt z)].

(** ** The lock *)

Definition LockedPack_json (p : LockedPack) : json :=
  JObj ([("provider", JStr (lp_Provider p)); ("projectId", JStr (lp_ProjectID p))]
        ++ omit_empty "versionId" (lp_VersionID p) ++ omit_zero "fileId" (lp_FileID p)
        ++ omit_empty "slug" (Slug p) ++ omit_empty "minecraftVersion" (Minecraft p)
        ++ omit_empty "loader" (Loader p)
        ++ [("java", JInt (lp_Java p)); ("artifactHash", JStr (ArtifactHash p));
            ("identityDigest", JStr (lp_IdentityDigest p))]).
Definition LockFile_json (l : LockFile) : json :=
  JObj [("schema", JInt (lock_Schema l)); ("configDigest", JStr (ConfigDigest l));
        ("packs", map_json LockedPack_json (lock_Packs l))].
(** [LockFile.Marshal]. *)
Definition lock_text (l : LockFile) : string := MarshalIndent (LockFile_json l).

Definition dec_LockedPack : option json -> result LockedPack := dec_object (fun l =>
  pr ← dec_string (member "provider" l); pj ← dec_string (member "projectId" l);
  v ← dec_string (member "versionId" l); f ← dec_int (member "fileId" l);
  s ← dec_string (member "slug" l); mc ← dec_string (member "minecraftVersion" l);
  ld ← dec_string (member "loader" l); j ← dec_int (member "java" l);
  h ← dec_string (member "artifactHash" l); d ← dec_string (member "identityDigest" l);
  Ok (mkLockedPack pr pj v f s mc ld j h d)).
Definition dec_LockFile (j : json) : result LockFile := dec_object (fun l =>
  s ← dec_int (member "schema" l); d ← dec_string (member "configDigest" l);
  p ← dec_map dec_LockedPack (member "packs" l);
  Ok (mkLockFile s d p)) (Some j).

Section Files.
Context {GU : GoUnicode} {MR : MapRange}.
(** [yaml.NewDecoder] with [KnownFields] and [Decode] into a [Config]. *)
Context (decode_yaml : string -> result Config).

Definition LoadConfig (p : path) : M fs Config :=
  b ← ReadFile p;
  cfg ← lift_result (wrap_err "decode config" (decode_yaml (string_of_bytes b)));
  let '(r, cfg) := Config.Validate cfg in
  lift_result r;; mret cfg.

(** What [LoadLock] makes of the bytes of the file. *)
Definition parse_lock (b : list byte) : result LockFile :=
  l ← wrap_err "decode lock" (j ← Unmarshal (string_of_bytes b); dec_LockFile j);
  _ ← Lock.Validate l; Ok l.
Definition LoadLock (p : path) : M fs LockFile :=
  b ← ReadFile p; lift_result (parse_lock b).
End Files.

(** ** Lemmas *)

Lemma sorted_entries_perm {A} (m : gmap string A) : sorted_entries m ≡ₚ map_to_list m.
Proof.
  unfold sorted_entries. transitivity (omap (fun id => (fun x => (id, x)) <$> m !! id) (map_to_list m).*1).
  { by rewrite sorted_keys_perm. }
  assert (forall l, (forall k x, (k, x) ∈ l -> m !! k = Some x) ->
    omap (fun id => (fun x => (id, x)) <$> m !! id) l.*1 = l) as Hl; cycle 1.
  { rewrite Hl; [done|]. intros k x. apply elem_of_map_to_list. }
  induction l as [|[k x] l IH]; intros Hin; [done|]. cbn. rewrite (Hin k x) by left. cbn.
  f_equal. apply IH. intros k' x' Hk. apply Hin. by right.
Qed.

Lemma foldl_insert_perm {A} (l : list (string * A)) : NoDup l.*1 ->
  foldl (fun m kv => <[fst kv := snd kv]> m) ∅ l = (list_to_map l : gmap string A).
Proof.
  intros Hl. assert (forall m, foldl (fun (m : gmap string A) kv => <[fst kv := snd kv]> m) m l = list_to_map l ∪ m) as E;
    [|rewrite E; apply map_union_empty].
  induction l as [|[k x] l IH]; intros m; [cbn; by rewrite (left_id_L ∅ (∪))|].
  cbn in *. apply NoDup_cons in Hl as [Hk Hl]. rewrite IH by done.
  rewrite <- insert_union_l. apply map_eq. intros i. destruct (decide (i = k)) as [->|Hne].
  - rewrite lookup_insert_eq. rewrite lookup_union_r, lookup_insert_eq; [done|].
    by apply not_elem_of_list_to_map_1.
  - rewrite lookup_insert_ne by done. by rewrite !lookup_union, lookup_insert_ne.
Qed.

Lemma dec_map_json {A} (d : option json -> result A) enc (m : gmap string A) :
  (forall k x, m !! k = Some x -> d (Some (enc x)) = Ok x) -> dec_map d (Some (map_json enc m)) = Ok m.
Proof.
  intros Hd. unfold map_json, dec_map, dec_object.
  assert (forall (l : list (string * A)) (acc : gmap string A), (forall k x, (k, x) ∈ l -> d (Some (enc x)) = Ok x) ->
    foldl (fun acc kv => m ← acc; x ← d (Some (snd kv)); Ok (<[fst kv := x]> m)) (Ok acc)
      (map (fun '(k, x) => (k, enc x)) l) = Ok (foldl (fun m kv => <[fst kv := snd kv]> m) acc l)) as Hf.
  { induction l as [|[k x] l IH]; intros acc Hin; [done|]. cbn. unfold mbind, result_bind at 2 3.
    rewrite (Hin k x) by left. apply IH. intros k' x' Hk. apply (Hin k'). by right. }
  rewrite Hf.
  - f_equal. rewrite foldl_insert_perm; cycle 1.
    { rewrite sorted_entries_perm. apply NoDup_fst_map_to_list. }
    rewrite <- (list_to_map_to_list m) at 2. apply list_to_map_proper; [|apply sorted_entries_perm].
    rewrite sorted_entries_perm. apply NoDup_fst_map_to_list.
  - intros k x Hx. rewrite sorted_entries_perm in Hx. apply elem_of_map_to_list in Hx. by eapply Hd.
Qed.

Lemma sorted_entries_lookup {A} (m : gmap string A) k x : (k, x) ∈ sorted_entries m <-> m !! k = Some x.
Proof. by rewrite sorted_entries_perm, elem_of_map_to_list. Qed.

Lemma member_omit_zero n k z :
  member n (omit_zero k z) = if bool_decide (fold_name k = fold_name n) && negb (z =? 0) then Some (JInt z) else None.
Proof.
  unfold omit_zero. destruct (z =? 0); [by rewrite andb_false_r|]. by rewrite member_one, andb_true_r.
Qed.
Lemma dec_int_int64 z : int64 z = z -> dec_int (Some (JInt z)) = Ok z.
Proof. intros Hz. cbn. by rewrite Hz, Z.eqb_refl. Qed.

(** Text that is valid UTF-8 and integers of 64 bits: what a Go program holds after
    reading a file or an answer. *)
Record locked_text (id : string) (p : LockedPack) : Prop := {
  lt_id : valid_utf8 id = true;
  lt_strings : Forall (fun s => valid_utf8 s = true)
    [lp_Provider p; lp_ProjectID p; lp_VersionID p; Slug p; Minecraft p; Loader p; ArtifactHash p; lp_IdentityDigest p];
  lt_file : int64 (lp_FileID p) = lp_FileID p;
  lt_java : int64 (lp_Java p) = lp_Java p }.
Record lock_text_ok (l : LockFile) : Prop := {
  lo_schema : int64 (lock_Schema l) = lock_Schema l;
  lo_digest : valid_utf8 (ConfigDigest l) = true;
  lo_packs : forall id p, lock_Packs l !! id = Some p -> locked_text id p }.

(** Read one field of a locked pack. *)
Ltac locked_field :=
  match goal with L := _ |- _ => subst L end; member_simpl; rewrite ?member_omit_zero; member_simpl;
  repeat match goal with |- context [member ?n []] => change (member n []) with (@None json) end;
  repeat (case_bool_decide; subst; cbn [negb]; cbv iota);
  repeat match goal with |- context [?z =? 0] => destruct (Z.eqb_spec z 0); subst; cbn [negb]; cbv iota end;
  first [done|by apply dec_int_int64].

Lemma dec_LockedPack_json id p : locked_text id p -> dec_LockedPack (Some (LockedPack_json p)) = Ok p.
Proof.
  intros [_ _ Hf Hj]. destruct p as [pr pj v f s mc ld j h d]. cbn [lp_FileID lp_Java] in *.
  unfold dec_LockedPack, LockedPack_json, dec_object.
  cbn [lp_Provider lp_ProjectID lp_VersionID lp_FileID Slug Minecraft Loader lp_Java ArtifactHash lp_IdentityDigest].
  match goal with |- context [member "provider" ?l] => set (L := l) end.
  assert (dec_string (member "provider" L) = Ok pr) as -> by locked_field.
  assert (dec_string (member "projectId" L) = Ok pj) as -> by locked_field.
  assert (dec_string (member "versionId" L) = Ok v) as -> by locked_field.
  assert (dec_int (member "fileId" L) = Ok f) as -> by locked_field.
  assert (dec_string (member "slug" L) = Ok s) as -> by locked_field.
  assert (dec_string (member "minecraftVersion" L) = Ok mc) as -> by locked_field.
  assert (dec_string (member "loader" L) = Ok ld) as -> by locked_field.
  assert (dec_int (member "java" L) = Ok j) as -> by locked_field.
  assert (dec_string (member "artifactHash" L) = Ok h) as -> by locked_field.
  assert (dec_string (member "identityDigest" L) = Ok d) as -> by locked_field.
  done.
Qed.

Lemma dec_LockFile_json l : lock_text_ok l -> dec_LockFile (LockFile_json l) = Ok l.
Proof.
  intros [Hs _ Hp]. unfold dec_LockFile, LockFile_json, dec_object.
  set (P := map_json LockedPack_json (lock_Packs l)). member_simpl. cbv iota.
  repeat match goal with |- context [member ?n []] => change (member n []) with (@None json) end. cbv iota.
  rewrite dec_int_int64 by done. unfold mbind at 1. cbn [result_bind dec_string]. unfold mbind at 1. cbn [result_bind].
  unfold P. rewrite dec_map_json; [by destruct l|]. intros k x Hx. by eapply dec_LockedPack_json, Hp.
Qed.

(** ** The file, written and read *)

Lemma json_ok_locked id p : locked_text id p -> json_ok (LockedPack_json p) = true.
Proof.
  intros [_ Hs _ _]. unfold LockedPack_json. repeat (apply Forall_cons in Hs as [? Hs]).
  assert (forall n v, valid_utf8 n = true -> valid_utf8 v = true ->
    forallb (fun '(k, v) => valid_utf8 k && json_ok v) (omit_empty n v) = true) as Ho.
  { intros n v Hn Hv. unfold omit_empty. case_bool_decide; [done|]. cbn. by rewrite Hn, Hv. }
  assert (forall n z, valid_utf8 n = true ->
    forallb (fun '(k, v) => valid_utf8 k && json_ok v) (omit_zero n z) = true) as Hz.
  { intros n z Hn. unfold omit_zero. destruct (z =? 0); [done|]. cbn. by rewrite Hn. }
  cbn [json_ok]. repeat (rewrite ?forallb_app; cbn [app forallb json_ok]).
  rewrite !Ho, Hz by done. by repeat match goal with H : valid_utf8 _ = true |- _ => rewrite H; clear H end.
Qed.

Lemma json_ok_map {A} (enc : A -> json) (m : gmap string A) :
  (forall k x, m !! k = Some x -> valid_utf8 k = true /\ json_ok (enc x) = true) -> json_ok (map_json enc m) = true.
Proof.
  intros Hm. unfold map_json. cbn [json_ok]. apply forallb_forall. intros [k v] Hin%in_map_iff.
  destruct Hin as ([k' x] & [= -> <-] & Hx%list_elem_of_In%sorted_entries_lookup).
  by destruct (Hm _ _ Hx) as [-> ->].
Qed.

Lemma json_ok_lock l : lock_text_ok l -> json_ok (LockFile_json l) = true.
Proof.
  intros [_ Hd Hp]. unfold LockFile_json. cbn [json_ok forallb]. rewrite Hd.
  rewrite json_ok_map; [done|]. intros k x Hx. split; [by eapply lt_id, Hp|by eapply json_ok_locked, Hp].
Qed.

(** A text and the newline behind it. *)
Lemma Unmarshal_newline j : json_ok j = true -> Unmarshal (MarshalIndent j +:+ newline) = Ok j.
Proof. intros Hj. unfold Unmarshal, MarshalIndent. by rewrite (@parse_print_text indented j newline Hj eq_refl). Qed.

(** The bytes [hostpackd lock] writes for a lock. *)
Definition lock_bytes (l : LockFile) : list byte := bytes_of_string (lock_text l +:+ newline).

Lemma parse_lock_bytes {GU : GoUnicode} {MR : MapRange} l :
  lock_text_ok l -> Lock.Validate l = Ok tt -> parse_lock (lock_bytes l) = Ok l.
Proof.
  intros Hl Hv. unfold parse_lock, lock_bytes, lock_text. rewrite string_of_bytes_of_string.
  rewrite Unmarshal_newline by by apply json_ok_lock. cbn [mbind result_bind]. rewrite dec_LockFile_json by done.
  cbn. by rewrite Hv.
Qed.

Lemma parse_lock_valid {GU : GoUnicode} {MR : MapRange} b l : parse_lock b = Ok l -> Lock.Validate l = Ok tt.
Proof.
  unfold parse_lock. intros E. apply result_bind_ok in E as (l' & _ & E).
  apply result_bind_ok in E as ([] & Hv & [= ->]). done.
Qed.

(** A file that is there and is no lock is not taken for a missing one. *)
Definition not_missing {A} (r : result A) : Prop := forall e, r = Err e -> errors_is e ErrNotExist = false.
Lemma not_missing_bind {A B} (r : result A) (f : A -> result B) :
  not_missing r -> (forall a, not_missing (f a)) -> not_missing (r ≫= f).
Proof. intros Hr Hf e. destruct r as [a|e']; cbn; [apply Hf|]. intros [= <-]. by apply Hr. Qed.
Lemma not_missing_ok {A} (a : A) : not_missing (Ok a).
Proof. by intros e. Qed.
Lemma not_missing_text {A} s : not_missing (Err (Errorf s) : result A).
Proof. by intros e [= <-]. Qed.
Lemma not_missing_string j : not_missing (dec_string j).
Proof. destruct j as [[]|]; apply not_missing_text || apply not_missing_ok. Qed.
Lemma not_missing_int j : not_missing (dec_int j).
Proof. destruct j as [[]|]; try apply not_missing_text || apply not_missing_ok. cbn. case_match; apply not_missing_text || apply not_missing_ok. Qed.
Lemma not_missing_object {A} (d : list (string * json) -> result A) j : (forall l, not_missing (d l)) -> not_missing (dec_object d j).
Proof. intros Hd. destruct j as [[]|]; try apply not_missing_text; apply Hd. Qed.
Lemma not_missing_first {A} (f : A -> result unit) l : (forall x, not_missing (f x)) -> not_missing (first_error f l).
Proof.
  intros Hf. induction l as [|x l IH]; [apply not_missing_ok|]. cbn. specialize (Hf x).
  destruct (f x); [apply IH|exact Hf].
Qed.
Create HintDb missing.
#[local] Hint Resolve not_missing_bind not_missing_ok not_missing_text not_missing_string not_missing_int
  not_missing_object not_missing_first : missing.

Lemma parse_lock_not_missing {GU : GoUnicode} {MR : MapRange} b : not_missing (parse_lock b).
Proof.
  apply not_missing_bind; [|intros l; apply not_missing_bind; [|auto with missing]].
  - assert (not_missing (j ← Unmarshal (string_of_bytes b); dec_LockFile j)) as H.
    { apply not_missing_bind.
      - unfold Unmarshal. destruct (parse_value _ _) as [[]|]; [case_bool_decide|]; auto with missing.
        all: apply not_missing_text.
      - intros j. apply not_missing_object. intros l. apply not_missing_bind; [auto with missing|]. intros x.
        apply not_missing_bind; [auto with missing|]. intros y. apply not_missing_bind; [|auto with missing].
        apply not_missing_object. clear. intros l. assert (not_missing (Ok (∅ : gmap string LockedPack))) as H by auto with missing.
        revert H. generalize (Ok (∅ : gmap string LockedPack)). induction l as [|kv l IH]; intros acc H; [exact H|].
        cbn [foldl]. apply IH, not_missing_bind; [exact H|]. intros m. apply not_missing_bind; [|auto with missing].
        apply not_missing_object. intros l'. repeat (apply not_missing_bind; [auto with missing|intros ?]). auto with missing. }
    intros e. destruct (_ ≫= _) as [|e']; [done|]. cbn. intros [= <-]. cbn. by apply H.
  - unfold Lock.Validate. repeat case_match; auto with missing. apply not_missing_first. intros [id p].
    unfold Validate_pack. repeat case_match; auto with missing.
Qed.

(** *** The committed file *)

(** [config/packs.lock.json], as it is in the repository, with ['] for the double quote. *)
Definition committed_lock : string := "{
  'schema': 1,
  'configDigest': 'b54b04efe84ecbdd0a6eea4b0b06cb76cd726b9e1183b9bf34ce59c0df4b346b',
  'packs': {
    'cobblemon': {
      'provider': 'modrinth',
      'projectId': 'mHMxXbIu',
      'versionId': 'VJ9Jur2k',
      'minecraftVersion': '1.21.1',
      'loader': 'neoforge',
      'java': 21,
      'artifactHash': 'sha512:7a8f9b38c835fc0eab97e1a3c2d98218490215f8eaeb702a44bf55da238545a241578b40cb2f7d616f95c5bba9293b60048ca5995a00a993c424eec85a49bf8c',
      'identityDigest': '5ba8f68826eb7d3dc51f3351fe73ea728ea165f844308026f7629f7980ee2b7f'
    },
    'sfs': {
      'provider': 'modrinth',
      'projectId': 'r5ygbOIe',
      'versionId': 'FCnyrYJ4',
      'minecraftVersion': '1.21.1',
      'loader': 'fabric',
      'java': 21,
      'artifactHash': 'sha512:89965c7feb9c6741f584e0d179e3e6f6a201c4b7c7f8188d2f91940715788a382e247abe47459649d62911bdf7c13df701d86e2b344ed95b4c52ea1ffbd80f67',
      'identityDigest': '2bbab2217125bc9ea8c168aedbc8cdd60e33d1bee6d66d0dbacb01d172d1e7f0'
    }
  }
}
".
Definition unquoted_file (s : string) : string := string_map (fun c => if code c =? 39 then chr 34 else c) s.

(** The printer gives the committed file byte for byte, and the reader accepts it. *)
Example committed_lock_bytes : lock_text repository_lock +:+ newline = unquoted_file committed_lock.
Proof. vm_compute. reflexivity. Qed.
Example committed_lock_read :
  @parse_lock plain_unicode map_order (bytes_of_string (unquoted_file committed_lock)) = Ok repository_lock.
Proof. vm_compute. reflexivity. Qed.

(** ** A generated lock is text *)

(** A decoder whose results satisfy [P] on documents of valid text. *)
Definition doc_ok (j : option json) : Prop := match j with Some j => json_ok j = true | None => True end.
Definition yields {A} (P : A -> Prop) (d : option json -> result A) : Prop := forall j a, doc_ok j -> d j = Ok a -> P a.
Definition text (s : string) : Prop := valid_utf8 s = true.

Lemma doc_ok_member n l : json_ok (JObj l) = true -> doc_ok (member n l).
Proof.
  intros Hl. unfold member. destruct (last _) as [[k j]|] eqn:E; [|done]. cbn.
  apply last_Some_elem_of, list_elem_of_In, filter_In in E as [E _].
  cbn [json_ok] in Hl. rewrite forallb_forall in Hl. specialize (Hl _ E). cbn in Hl. by bools.
Qed.
Lemma yields_string : yields text dec_string.
Proof. intros j x Hj. destruct j as [[]|]; cbn in *; try discriminate; intros [= <-]; done. Qed.
Lemma yields_object {A} (P : A -> Prop) d :
  (forall l, json_ok (JObj l) = true -> forall a, d l = Ok a -> P a) -> yields P (dec_object d).
Proof. intros Hd j a Hj. destruct j as [[]|]; cbn [dec_object]; try done; apply Hd; done. Qed.
Lemma yields_list {A} (P : A -> Prop) d : yields P d -> yields (Forall P) (dec_list d).
Proof.
  intros Hd j a Hj. destruct j as [[]|]; cbn [dec_list]; try done; try (intros [= <-]; constructor).
  revert a Hj. cbn [doc_ok json_ok]. induction l as [|x l IH]; cbn; intros a; [intros _ [= <-]; constructor|].
  intros [Hx Hl]%andb_true_iff E. apply result_bind_ok in E as (b & Eb & E). apply result_bind_ok in E as (c & Ec & [= <-]).
  constructor; [exact (Hd (Some x) b Hx Eb)|by apply IH].
Qed.
Lemma yields_string_map : yields (fun m => forall k s, m !! k = Some s -> text s) dec_string_map.
Proof.
  apply yields_object. intros l Hl.
  assert (forall acc : gmap string string, (forall k s, acc !! k = Some s -> text s) -> forall a,
    foldl (fun acc kv => m ← acc; s ← dec_string (Some (snd kv)); Ok (<[fst kv := s]> m)) (Ok acc) l = Ok a ->
    forall k s, a !! k = Some s -> text s) as Hf; [|by intros a; apply (Hf ∅)].
  cbn [json_ok] in Hl. induction l as [|[k v] l IH]; intros acc Ha a; [by intros [= <-]|].
  cbn [forallb] in Hl. bools. cbn [foldl fst snd]. unfold mbind at 2 3. cbn [result_bind].
  destruct (dec_string (Some v)) as [s|e] eqn:E; cycle 1.
  { unfold mbind. cbn [result_bind]. intros Hx. exfalso. clear -Hx. induction l; [done|by apply IHl]. }
  intros Hx. eapply IH; [done| |exact Hx]. intros k' s'. rewrite lookup_insert_Some. intros [[<- <-]|[_ Hk]]; [|by eapply Ha].
  by apply (yields_string (Some v)).
Qed.

Lemma text_app_ascii p s : all_ascii p = true -> text s -> text (p +:+ s).
Proof.
  unfold all_ascii, text. induction p as [|c p IH]; cbn [string_forallb]; [done|]. intros [Hc Hp]%andb_true_iff Hs.
  rewrite append_cons. cbn [valid_utf8]. rewrite Hc. by apply IH.
Qed.
Lemma text_head l : Forall text l -> text (default "" (head l)).
Proof. by destruct 1. Qed.

(** What the tables of [unicode] promise: lower case is valid text, whatever it is of. *)
Class LowerText {GU : GoUnicode} := lower_text : forall s, text (unicode_lower s).
Lemma text_ToLower `{LowerText} s : text (ToLower s).
Proof.
  unfold ToLower. destruct (all_ascii s) eqn:E; [|apply lower_text]. apply ascii_valid.
  revert E. unfold all_ascii. induction s as [|c s IH]; [done|]. cbn. intros [Hc Hs]%andb_true_iff.
  rewrite IH by done. destruct c as [[] [] [] [] [] [] [] []]; try discriminate Hc; reflexivity.
Qed.

Lemma modrinth_hash_text files h :
  Forall (fun f => forall k s, Hashes f !! k = Some s -> text s) files -> text h -> text (modrinth_hash files h).
Proof.
  intros Hf. revert h. induction Hf as [|f files Hx _ IH]; intros h Hh; [done|]. cbn [modrinth_hash].
  assert (forall k, text (default "" (Hashes f !! k))) as Hk.
  { intros k. destruct (Hashes f !! k) eqn:E; [by eapply Hx|done]. }
  set (h' := if Primary f || _ then _ else h). assert (text h') as Hh'; [|destruct (Primary f); auto].
  unfold h'. repeat case_match; try done; by apply text_app_ascii.
Qed.
Lemma curse_hash_text `{LowerText} l h : text h -> text (curse_hash l h).
Proof.
  revert h. induction l as [|x l IH]; intros h Hh; [done|]. cbn [curse_hash]. repeat case_match.
  - by apply text_app_ascii, text_ToLower.
  - by apply IH, text_app_ascii, text_ToLower.
  - by apply IH.
Qed.
Lemma curse_versions_text `{LowerText} l : Forall text l ->
  text (fst (curse_versions l)) /\ text (snd (curse_versions l)).
Proof.
  intros Hl. unfold curse_versions. assert (forall a, text (fst a) /\ text (snd a) ->
    let r := foldl (fun '(mc, loader) v =>
      let mc' := if (1 <=? CountByte (chr 46) v) && bool_decide (mc = "") then v else mc in
      let lv := ToLower v in
      (mc', if existsb (fun n => bool_decide (lv = n)) ["forge"; "fabric"; "neoforge"; "quilt"]
            then lv else loader)) a l in text (fst r) /\ text (snd r)) as Hf; [|by apply (Hf ("", ""))].
  induction Hl as [|v l Hv _ IH]; intros [mc lo] [Hm Ho]; [done|]. cbn [foldl]. apply IH. cbn [fst snd] in *.
  split; [by destruct (_ && _)|]. destruct (existsb _ _); [apply text_ToLower|done].
Qed.

(** The four texts of an entry that come from the providers. *)
Definition provider_texts (lp : LockedPack) : Prop := Forall text [Slug lp; Minecraft lp; Loader lp; ArtifactHash lp].

Section Generated.
Context {GU : GoUnicode} {LT : LowerText} (http : string -> Response + error) (url_error : string -> option error).
Context (key modrinth_base curse_base : string).
(** [encoding/json] makes every decoded string valid text. *)
Definition decoded_bodies : Prop := forall url r j, http url = inl r -> Body r = Ok j -> json_ok j = true.
Context (Hbody : decoded_bodies).

Lemma get_ok url k j : get http url_error key url k = Ok j -> json_ok j = true.
Proof.
  unfold get. destruct (url_error url); [done|]. destruct (k && _); [done|].
  destruct (http url) as [r|] eqn:E; [|done]. destruct (negb _); [done|]. by eapply Hbody.
Qed.

Ltac decoded := repeat match goal with
  | E : _ ≫= _ = Ok _ |- _ => apply result_bind_ok in E as (? & ? & E)
  | E : Ok _ = Ok _ |- _ => injection E as <-
  end.

Lemma yields_modrinthFile : yields (fun f => forall k s, Hashes f !! k = Some s -> text s) dec_modrinthFile.
Proof.
  apply yields_object. intros l Hl a E. decoded. cbn [Hashes].
  eapply yields_string_map; [|eassumption]. by apply doc_ok_member.
Qed.

Definition version_texts (v : modrinthVersion) : Prop :=
  Forall text (mv_GameVersions v) /\ Forall text (mv_Loaders v)
  /\ Forall (fun f => forall k s, Hashes f !! k = Some s -> text s) (mv_Files v).

Lemma dec_modrinthVersion_text j v : json_ok j = true -> dec_modrinthVersion j = Ok v -> version_texts v.
Proof.
  intros Hj Ev. refine (yields_object version_texts _ _ (Some j) v Hj Ev). intros l Hl a E. decoded.
  unfold version_texts. cbn [mv_GameVersions mv_Loaders mv_Files]. split_and!;
    [eapply (yields_list _ _ yields_string)|eapply (yields_list _ _ yields_string)
    |eapply (yields_list _ _ yields_modrinthFile)]; try eassumption; by apply doc_ok_member.
Qed.

Lemma resolveModrinth_text p lp : resolveModrinth http url_error key modrinth_base p = Ok lp -> provider_texts lp.
Proof.
  unfold resolveModrinth. intros E. apply result_bind_ok in E as (j & Ej & E). apply get_ok in Ej.
  apply result_bind_ok in E as (v & Ev & E). apply dec_modrinthVersion_text in Ev as (Hg & Hl & Hf); [|done].
  case_match; [done|]. case_bool_decide; [done|]. injection E as <-.
  unfold provider_texts. repeat constructor; cbn; [by apply text_head..|by apply modrinth_hash_text].
Qed.

Lemma dec_curseProject_text j v : json_ok j = true -> dec_curseProject j = Ok v -> text (cp_Slug v).
Proof.
  intros Hj Ev. refine (yields_object (fun v => text (cp_Slug v)) _ _ (Some j) v Hj Ev). intros l Hl a.
  apply (yields_object (fun v => text (cp_Slug v))); [|by apply doc_ok_member].
  intros d Hd b E. decoded. cbn. eapply yields_string; [|eassumption]. by apply doc_ok_member.
Qed.
Lemma dec_curseFile_text j v : json_ok j = true -> dec_curseFile j = Ok v -> Forall text (cf_GameVersions v).
Proof.
  intros Hj Ev. refine (yields_object (fun v => Forall text (cf_GameVersions v)) _ _ (Some j) v Hj Ev). intros l Hl a.
  apply (yields_object (fun v => Forall text (cf_GameVersions v))); [|by apply doc_ok_member].
  intros d Hd b E. decoded. cbn. eapply (yields_list _ _ yields_string); [|eassumption]. by apply doc_ok_member.
Qed.

Lemma resolveCurseForge_text p lp : resolveCurseForge http url_error key curse_base p = Ok lp -> provider_texts lp.
Proof.
  unfold resolveCurseForge. intros E. apply result_bind_ok in E as (j & Ej & E). apply get_ok in Ej.
  apply result_bind_ok in E as (v & Ev & E). apply dec_curseProject_text in Ev; [|done]. case_match; [done|].
  apply result_bind_ok in E as (j2 & Ej2 & E). apply get_ok in Ej2.
  apply result_bind_ok in E as (f & Ef & E). apply dec_curseFile_text in Ef; [|done].
  case_match; [done|]. case_bool_decide; [done|].
  destruct (curse_versions_text _ Ef) as [Hm Hl]. destruct (curse_versions _) as [mc lo]. injection E as <-.
  unfold provider_texts. repeat constructor; cbn; [done..|]. by apply curse_hash_text.
Qed.

(** The configuration's own text and integers, as its decoder gives them. *)
Definition config_text (c : Config) : Prop := forall id p, Packs c !! id = Some p ->
  Forall text [id; Provider p; ProjectID p; VersionID p] /\ int64 (FileID p) = FileID p /\ int64 (Java p) = Java p.

Lemma resolve_text p lp : resolve http url_error key modrinth_base curse_base p = Ok lp -> provider_texts lp.
Proof.
  unfold resolve. intros E. apply result_bind_ok in E as (q & Hq & [= <-]). unfold provider_texts. cbn.
  case_bool_decide; [by eapply resolveModrinth_text|by eapply resolveCurseForge_text].
Qed.

Lemma resolve_all_text ids packs locked m :
  resolve_all http url_error key modrinth_base curse_base ids packs locked = Ok m ->
  map_Forall (fun _ => provider_texts) locked -> map_Forall (fun _ => provider_texts) m.
Proof.
  revert locked. induction ids as [|i ids IH]; intros locked E Hl; cbn in E; [by injection E as <-|].
  destruct (packs !! i) as [p|]; [|by eapply IH].
  apply result_bind_ok in E as (lp & Hr & E). eapply IH; [exact E|]. apply map_Forall_insert_2; [|done].
  destruct (resolve _ _ _ _ _ p) as [q|] eqn:Eq; [|done]. injection Hr as <-. by eapply resolve_text.
Qed.

Lemma Generate_text c l : config_text c -> Generate http url_error key modrinth_base curse_base c = Ok l -> lock_text_ok l.
Proof.
  intros Hc E. apply result_bind_ok in E as (m & E & [= <-]).
  pose proof (resolve_all_text _ _ _ _ E) as Ht. apply Generate_packs in E as [_ Hm].
  split; [done|apply ascii_valid, sha256_hex_ascii|]. cbn [lock_Packs]. intros id lp Hlp.
  destruct (Hm id lp Hlp) as (p & Hp & Hprov & Hpid & EJ & _ & Hdig).
  destruct (Hc id p Hp) as (Hs & Hf & Hj). repeat (apply Forall_cons in Hs as [? Hs]).
  pose proof (Ht (map_Forall_empty _) id lp Hlp) as Htx. cbv beta in Htx.
  unfold provider_texts in Htx. repeat (apply Forall_cons in Htx as [? Htx]).
  assert (text (lp_IdentityDigest lp)) as Hd by (rewrite Hdig; apply ascii_valid, sha256_hex_ascii).
  destruct Hprov as [(_ & E1 & E2 & E3)|(_ & E1 & E2 & E3)].
  - split; [done| |by rewrite E3|by rewrite EJ]. rewrite E1, E2, Hpid. by repeat constructor.
  - split; [done| |by rewrite E3|by rewrite EJ]. rewrite E1, E2, Hpid. by repeat constructor.
Qed.
End Generated.
