(* ===== verification/Instance.v ===== *)
(** * The identity of an instance ([ensureInstanceIdentity] in [internal/runtime/manager.go])

    Every start of a pack, before its process is launched, compares the identity the
    registry locks with the one recorded next to the instance, and records it the first
    time.  Here the calls are made on the file system one by one, and the record is shown
    to be written once and to decide every later start. *)
From Stdlib Require Import String Ascii.
From S2P Require Import Prelude GoStrings GoJson JsonText Filepath Fs Config Lock LockFile.

(** ** Definitions *)

(** The digest in the bytes of a [pack.lock.json], as decoded into the struct [prior]. *)
Definition prior_digest (b : list byte) : result string :=
  j ← Unmarshal (string_of_bytes b);
  dec_object (fun l => dec_string (member "identityDigest" l)) (Some j).

Definition identity_bytes (locked : LockedPack) : list byte :=
  bytes_of_string (MarshalIndent (LockedPack_json locked)).

Definition ErrIdentity : error := Errorf "instance pack identity differs from packs.lock.json".

Definition ensureInstanceIdentity (root : path) (locked : LockedPack) : M fs unit :=
  let path := root ++ ["pack.lock.json"] in
  r ← attempt (ReadFile path);
  match r with
  | Ok b =>
      match prior_digest b with
      | Ok d => if bool_decide (d <> lp_IdentityDigest locked) then throw ErrIdentity else mret tt
      | Err _ => throw ErrIdentity
      end
  | Err err =>
      if negb (errors_is err ErrNotExist) then throw err
      else
        MkdirAll 488 root;;
        tmp ← CreateTemp root ".pack-lock-";
        commit_temp tmp path (WriteFile tmp (identity_bytes locked);; SyncFile tmp) (mret tt)
  end.

(** ** Lemmas *)

Lemma prior_digest_bytes id locked :
  locked_text id locked -> prior_digest (identity_bytes locked) = Ok (lp_IdentityDigest locked).
Proof.
  intros Ht. unfold prior_digest, identity_bytes.
  rewrite string_of_bytes_of_string, Unmarshal_MarshalIndent by by eapply json_ok_locked.
  pose proof (dec_LockedPack_json id locked Ht) as Hd. revert Hd.
  unfold dec_LockedPack, LockedPack_json, dec_object, mbind, result_bind. intros Hd.
  repeat match type of Hd with match ?x with _ => _ end = _ => destruct x eqn:?; [|done] end.
  injection Hd as <-. done.
Qed.

(** The record is only looked at when there is one. *)
Lemma ensure_recorded root locked s m b :
  nodes s !! (root ++ ["pack.lock.json"]) = Some (FFile m b) -> real_faults s ->
  nodes (snd (ensureInstanceIdentity root locked s)) = nodes s
  /\ (fst (ensureInstanceIdentity root locked s) = Ok tt -> prior_digest b = Ok (lp_IdentityDigest locked))
  /\ (prior_digest b = Ok (lp_IdentityDigest locked) -> fs_faults s = [] ->
      fst (ensureInstanceIdentity root locked s) = Ok tt).
Proof.
  intros Hb Hs. unfold ensureInstanceIdentity. set (P := root ++ _) in *.
  assert (P <> []) as HP by by destruct root.
  pose proof (ReadFile_nodes P s) as Hn. pose proof (ReadFile_there P s m b HP Hs Hb) as Hr.
  assert (fs_faults s = [] -> fst (ReadFile P s) = Ok b) as Hf.
  { destruct s as [nm fl]. cbn. intros ->. rewrite ReadFile_fst by done. cbn in Hb. by rewrite Hb. }
  unfold mbind, M_bind, attempt. destruct (ReadFile P s) as [r s1]. cbn [fst snd] in *. split; [|split].
  - destruct Hr as [->|(e & -> & He)]; [|by rewrite He].
    destruct (prior_digest b); [|done]. by case_bool_decide.
  - destruct Hr as [->|(e & -> & He)]; [|by rewrite He].
    destruct (prior_digest b); [|done]. case_bool_decide as E; [done|]. intros _. by f_equal.
  - intros Hd Hfl. rewrite (Hf Hfl), Hd. rewrite bool_decide_eq_false_2; naive_solver.
Qed.

(** What the first start leaves, wherever a call fails. *)
Lemma ensure_cases root locked s :
  let P := root ++ ["pack.lock.json"] in
  let '(r, s') := ensureInstanceIdentity root locked s in
  (nodes s' !! P = nodes s !! P /\ (is_ok r = true -> exists m b, nodes s !! P = Some (FFile m b)))
  \/ nodes s' !! P = Some (FFile 384 (identity_bytes locked)).
Proof.
  intros P. unfold ensureInstanceIdentity. fold P.
  pose proof (ReadFile_nodes P s) as Hn. pose proof (ReadFile_ok P s) as Hok.
  unfold mbind at 1, M_bind at 1, attempt at 1. destruct (ReadFile P s) as [[b|e] s1]; cbn [snd] in Hn.
  - destruct (Hok b s1 eq_refl) as [m Hm].
    destruct (prior_digest b); [case_bool_decide|]; cbn; left; rewrite Hn; eauto.
  - destruct (negb (errors_is e ErrNotExist)); [cbn; left; by rewrite Hn|].
    pose proof (replace_file_cases 488 root "pack.lock.json" ".pack-lock-"
      (fun t => WriteFile t (identity_bytes locked);; SyncFile t) (mret tt) 384 (identity_bytes locked) s1 eq_refl) as H.
    cbv zeta in H. fold P in H. destruct ((MkdirAll 488 root;; _) s1) as [r s'].
    destruct H as [[Hr H]|H]; [..|left; rewrite H, Hn; split; [done|by rewrite Hr]|by right].
    + intros t Ht. apply keeps_bind; [by apply keeps_WriteFile|]. intros _. apply keeps_Sync.
    + intros t. apply fills_Write_Sync.
    + apply keeps_ret.
Qed.

(** ** Properties *)

(** C25: the identity of an instance is decided once.  Whatever calls of a start fail
    and wherever the machine stops, [pack.lock.json] is as it was or holds the whole
    record of the locked pack, and a record that is there is never changed.  Once a
    check has passed, every later check on that record, in any state of the disk,
    passes only for a pack with the same identity digest, and it does pass for one
    when no call fails: a registry that locks another provider project for the id is
    refused before its server is launched on the old world. *)
Theorem instance_identity_pinned root id locked s :
  locked_text id locked -> real_faults s ->
  let P := root ++ ["pack.lock.json"] in
  let '(r, s') := ensureInstanceIdentity root locked s in
  (nodes s' !! P = nodes s !! P \/ nodes s' !! P = Some (FFile 384 (identity_bytes locked)))
  /\ (forall m b, nodes s !! P = Some (FFile m b) -> nodes s' = nodes s)
  /\ (r = Ok tt -> forall later s2, real_faults s2 -> nodes s2 !! P = nodes s' !! P ->
       (fst (ensureInstanceIdentity root later s2) = Ok tt ->
          lp_IdentityDigest later = lp_IdentityDigest locked)
       /\ (lp_IdentityDigest later = lp_IdentityDigest locked -> fs_faults s2 = [] ->
          fst (ensureInstanceIdentity root later s2) = Ok tt)).
Proof.
  intros Ht Hs P. pose proof (ensure_cases root locked s) as Hc. cbv zeta in Hc. fold P in Hc.
  pose proof (fun m b Hb => ensure_recorded root locked s m b Hb Hs) as Hrec. fold P in Hrec.
  destruct (ensureInstanceIdentity root locked s) as [r s']. cbn [fst snd] in Hrec.
  split_and!; [destruct Hc as [[? _]|?]; auto|by intros m b Hb; apply (Hrec m b Hb)|].
  intros -> later s2 Hs2 Hn.
  assert (exists m b, nodes s2 !! P = Some (FFile m b) /\ prior_digest b = Ok (lp_IdentityDigest locked))
    as (m & b & Hb & Hd).
  { rewrite Hn. destruct Hc as [[E Hb]|E].
    - destruct (Hb eq_refl) as (m & b & Hm). destruct (Hrec m b Hm) as (_ & Hd & _).
      exists m, b. rewrite E. auto.
    - rewrite E. eexists _, _. split; [done|]. by eapply prior_digest_bytes. }
  destruct (ensure_recorded root later s2 m b Hb Hs2) as (_ & H1 & H2). rewrite Hd in H1, H2.
  split; [intros Hr; specialize (H1 Hr); congruence|]. intros E. apply H2. congruence.
Qed.

Definition example_locked : LockedPack :=
  mkLockedPack "modrinth" "mHMxXbIu" "VJ9Jur2k" 0 "" "1.21.1" "neoforge" 21 "sha512:7a8f" "5ba8f688".
Lemma example_locked_text : locked_text "cobblemon" example_locked.
Proof. split; try reflexivity. repeat constructor. Qed.

(** A first start, and then one with a registry that locks another project. *)
Lemma instance_identity_pinned_witness :
  let root := ["state"; "instances"; "cobblemon"] in
  let s := Fs ∅ [] in
  let '(r, s') := ensureInstanceIdentity root example_locked s in
  r = Ok tt /\
  (fst (ensureInstanceIdentity root
     (mkLockedPack "modrinth" "other" "VJ9Jur2k" 0 "" "1.21.1" "neoforge" 21 "sha512:7a8f" "feed") s') = Ok tt ->
   "feed" = "5ba8f688")%string.
Proof.
  pose proof (instance_identity_pinned ["state"; "instances"; "cobblemon"] "cobblemon" example_locked
    (Fs ∅ []) example_locked_text ltac:(by constructor)) as H.
  cbv zeta in H |- *. destruct (ensureInstanceIdentity _ example_locked (Fs ∅ [])) as [r s'] eqn:E.
  vm_compute in E. injection E as <- Es. split; [reflexivity|].
  destruct H as (_ & _ & H). destruct (H eq_refl
     (mkLockedPack "modrinth" "other" "VJ9Jur2k" 0 "" "1.21.1" "neoforge" 21 "sha512:7a8f" "feed") s'
     ltac:(rewrite <- Es; constructor) eq_refl) as [H1 _]. exact H1.
Defined.
