(* ===== verification/FlyMachine.v ===== *)
(** * The Fly Machine client ([internal/flymachine/client.go])

    Reading the machine's configuration and submitting a resource change before a pack
    starts.  The HTTP transport and the parser of URLs are parameters; the JSON of the
    configuration is decoded and encoded byte for byte, so that a change of three fields
    is shown to leave the rest of the machine alone. *)
From Stdlib Require Import String Ascii.
From Stdlib Require Import SpecFloat.
From S2P Require Import Prelude GoStrings GoJson JsonText GoFloat Config.

(** ** The HTTP messages *)

Record Request := mkRequest {
  Method : string; URL : string; Header : list (string * string); req_Body : option string }.
(** A response whose body may break off. *)
Record Response := mkResponse { StatusCode : Z; Status : string; resp_Body : reader }.

(** [io.LimitReader]. *)
Definition LimitReader (n : Z) (b : list byte) : list byte :=
  if Z.of_nat (length b) <=? n then b else take (Z.to_nat n) b.

(** [url.PathEscape]. *)
Definition path_char (c : ascii) : bool :=
  between 97 122 c || between 65 90 c || between 48 57 c || byte_in "-_.~$&+:=@" c.
Definition upper_hex (z : Z) : ascii := chr (if z <? 10 then 48 + z else 55 + z).
Fixpoint PathEscape (s : string) : string :=
  match s with
  | "" => ""
  | String c s' =>
      if path_char c then String c (PathEscape s')
      else String (chr 37) (String (upper_hex (code c / 16)) (String (upper_hex (code c mod 16)) (PathEscape s')))
  end.

(** ** The client *)

Record Client := mkClient { baseURL : string; app : string; machineID : string; token : string }.
Definition defaultAPIBase : string := "https://api.machines.dev".

Section Client.
Context `{GoUnicode}.
(** [url.Parse], as the scheme and the host it finds; [http.NewRequest]'s verdict on a URL. *)
Context (url_parse : string -> result (string * string)) (url_error : string -> option error).

Definition New (baseURL app machineID token : string) : result Client :=
  let baseURL := TrimRight (TrimSpace baseURL) "/" in
  if bool_decide (baseURL = "") || bool_decide (TrimSpace app = "")
     || bool_decide (TrimSpace machineID = "") || bool_decide (TrimSpace token = "")
  then Err (Errorf "Fly resize requires API base, app, Machine ID, and token")
  else
    let invalid := Err (Errorf ("invalid Fly Machines API base " +:+ Quote baseURL)) in
    match url_parse baseURL with
    | Err _ => invalid
    | Ok (scheme, host) =>
        if bool_decide (scheme = "") || bool_decide (host = "") then invalid
        else Ok (mkClient baseURL (TrimSpace app) (TrimSpace machineID) (TrimSpace token))
    end.

(** [FromEnv]: no client outside Fly. *)
Definition FromEnv (Getenv : string -> string) : result (option Client) :=
  let machineID := TrimSpace (Getenv "FLY_MACHINE_ID") in
  if bool_decide (machineID = "") then Ok None
  else
    let app := TrimSpace (Getenv "HOSTPACK_FLY_APP") in
    let app := if bool_decide (app = "") then TrimSpace (Getenv "FLY_APP_NAME") else app in
    let token := TrimSpace (Getenv "HOSTPACK_FLY_API_TOKEN") in
    if bool_decide (app = "") || bool_decide (token = "")
    then Err (Errorf "HOSTPACK_FLY_APP and HOSTPACK_FLY_API_TOKEN are required for per-pack Fly sizing")
    else
      let baseURL := TrimSpace (Getenv "HOSTPACK_FLY_API_BASE") in
      let baseURL := if bool_decide (baseURL = "") then defaultAPIBase else baseURL in
      Some <$> New baseURL app machineID token.

Definition endpoint (c : Client) : string :=
  baseURL c +:+ "/v1/apps/" +:+ PathEscape (app c) +:+ "/machines/" +:+ PathEscape (machineID c).

Definition request (c : Client) (method : string) (body : option string) : result Request :=
  match url_error (endpoint c) with
  | Some e => Err e
  | None =>
      Ok (mkRequest method (endpoint c)
            ([("Authorization", "Bearer " +:+ token c); ("Accept", "application/json");
              ("User-Agent", "hostpackd/1")]
             ++ match body with Some _ => [("Content-Type", "application/json")] | None => [] end) body)
  end.

Definition responseError (action : string) (resp : Response) : error :=
  let detail := TrimSpace (string_of_bytes (LimitReader 4096 (rd_data (resp_Body resp)))) in
  let detail := if bool_decide (detail = "") then Status resp else detail in
  Errorf (action +:+ ": " +:+ Status resp +:+ ": " +:+ detail).

(** A JSON number that is a whole [int]. *)
Definition integer (v : option any) : option Z :=
  match v with
  | Some (AFloat f) => if SFeqb f (of_Z (to_int f)) then Some (to_int f) else None
  | _ => None
  end.

(** The decoder of [machineResponse]: a second member of the name is decoded into the
    map of the first. *)
Definition machine_config (j : json) : result (option (list (string * any))) :=
  match j with
  | JNull => Ok None
  | JObj l =>
      foldl (fun acc kv =>
        cfg ← acc;
        if bool_decide (fold_name (fst kv) = "config") then
          match snd kv with
          | JNull => Ok None
          | JObj m => Some <$> set_members any_of_json m (default [] cfg)
          | _ => type_error
          end
        else Ok cfg) (Ok None) l
  | _ => type_error
  end.

(** The Fly API: what a request does to it, and its answer. *)
Context {Svc : Type} (Do : Request -> M Svc Response).

Definition success (resp : Response) : bool := Z.quot (StatusCode resp) 100 =? 2.

(** Sending a request and insisting on success. *)
Definition send (action : string) (req : Request) : M Svc Response := fun s =>
  match Do req s with
  | (Err e, s') => (Err (Wrapf action e), s')
  | (Ok resp, s') => if success resp then (Ok resp, s') else (Err (responseError action resp), s')
  end.

Definition read_action : string := "read Fly Machine resources".
Definition update_action : string := "update Fly Machine resources".

Definition get (c : Client) : M Svc (list (string * any)) :=
  req ← lift_result (request c "GET" None);
  resp ← send read_action req;
  let body := string_of_bytes (LimitReader (Z.shiftl 4 20) (rd_data (resp_Body resp))) in
  cfg ← lift_result (wrap_err "decode Fly Machine resources" (j ← Decode body; machine_config j));
  match cfg with
  | None => throw (Errorf "Fly Machine response has no config")
  | Some cfg => mret cfg
  end.

Definition Check_api (c : Client) : M Svc unit := _ ← get c; mret tt.

(** The resources of a configuration: the guest, and what the pack asks for. *)
Definition guest_of (cfg : list (string * any)) : option (list (string * any)) :=
  match map_get "guest" cfg with Some (AMap guest) => Some guest | _ => None end.
Definition resized (pack : Pack) (guest : list (string * any)) : list (string * any) :=
  map_set "cpu_kind" (AStr "shared")
    (map_set "cpus" (AInt (MachineCPUs pack)) (map_set "memory_mb" (AInt (MachineMemoryMB pack)) guest)).
Definition payload (cfg : list (string * any)) : json :=
  JObj [("config", json_of_any (AMap cfg)); ("skip_launch", JBool false)].

Definition Ensure (c : Client) (pack : Pack) : M Svc bool :=
  cfg ← get c;
  match guest_of cfg with
  | None => throw (Errorf "Fly Machine config has no guest resources")
  | Some guest =>
      match integer (map_get "memory_mb" guest), integer (map_get "cpus" guest), map_get "cpu_kind" guest with
      | Some memory, Some cpus, Some (AStr cpuKind) =>
          if (memory =? MachineMemoryMB pack) && (cpus =? MachineCPUs pack) && bool_decide (cpuKind = "shared")
          then mret false
          else
            let cfg := map_set "guest" (AMap (resized pack guest)) cfg in
            req ← lift_result (request c "POST" (Some (Marshal (payload cfg))));
            _ ← send update_action req;
            mret true
      | _, _, _ => throw (Errorf "Fly Machine guest resources are malformed")
      end
  end.
End Client.

(** ** Properties *)

Section Properties.
Context `{GoUnicode} (url_error : string -> option error) {Svc : Type} (Do : Request -> M Svc Response).
Abbreviation get := (get url_error Do).
Abbreviation Ensure := (Ensure url_error Do).

(** A configuration with the resources of the pack. *)
Definition sized (pack : Pack) (cfg : list (string * any)) : Prop :=
  exists guest, guest_of cfg = Some guest
    /\ integer (map_get "memory_mb" guest) = Some (MachineMemoryMB pack)
    /\ integer (map_get "cpus" guest) = Some (MachineCPUs pack)
    /\ map_get "cpu_kind" guest = Some (AStr "shared").

(** A configuration that differs from another in the three fields only. *)
Definition same_but_size (cfg cfg' : list (string * any)) : Prop :=
  (forall k, k <> "guest" -> map_get k cfg' = map_get k cfg)
  /\ exists guest guest', guest_of cfg = Some guest /\ guest_of cfg' = Some guest'
     /\ forall k, k ∉ ["memory_mb"; "cpus"; "cpu_kind"] -> map_get k guest' = map_get k guest.

Lemma resized_spec pack cfg guest :
  guest_of cfg = Some guest ->
  let cfg' := map_set "guest" (AMap (resized pack guest)) cfg in
  guest_of cfg' = Some (resized pack guest) /\ same_but_size cfg cfg'
  /\ map_get "memory_mb" (resized pack guest) = Some (AInt (MachineMemoryMB pack))
  /\ map_get "cpus" (resized pack guest) = Some (AInt (MachineCPUs pack))
  /\ map_get "cpu_kind" (resized pack guest) = Some (AStr "shared").
Proof.
  intros Hg cfg'. assert (guest_of cfg' = Some (resized pack guest)) as Hg'
    by (unfold guest_of, cfg'; by rewrite map_get_set).
  split; [done|]. split; [|split_and!].
  - split; [intros k Hk; by apply map_get_set_ne|]. exists guest, (resized pack guest). split_and!; [done..|].
    intros k Hk. rewrite !not_elem_of_cons in Hk. destruct Hk as (? & ? & ? & _).
    unfold resized. by rewrite !map_get_set_ne.
  - unfold resized. by rewrite 2!map_get_set_ne, map_get_set.
  - unfold resized. by rewrite map_get_set_ne, map_get_set.
  - unfold resized. by rewrite map_get_set.
Qed.

Lemma lift_result_ok {S A} (r : result A) (s : S) a s' : lift_result r s = (Ok a, s') -> r = Ok a /\ s' = s.
Proof. unfold lift_result. intros [= -> <-]. done. Qed.

Lemma send_ok action req s resp s' :
  send Do action req s = (Ok resp, s') -> Do req s = (Ok resp, s') /\ success resp = true.
Proof.
  unfold send. destruct (Do req s) as [[r|e] s1]; [|done]. destruct (success r) eqn:E; [|done].
  by intros [= <- <-].
Qed.

(** What a run of [Ensure] that succeeds did. *)
Lemma Ensure_ok c pack s changed s' :
  Ensure c pack s = (Ok changed, s') ->
  exists cfg s1 guest, get c s = (Ok cfg, s1) /\ guest_of cfg = Some guest /\
    if changed then
      exists req resp, let cfg' := map_set "guest" (AMap (resized pack guest)) cfg in
        request url_error c "POST" (Some (Marshal (payload cfg'))) = Ok req
        /\ Do req s1 = (Ok resp, s') /\ success resp = true /\ ~ sized pack cfg
    else s' = s1 /\ sized pack cfg.
Proof.
  unfold FlyMachine.Ensure. intros E. unbind E as cfg s1 Hget.
  destruct (guest_of cfg) as [guest|] eqn:Hg; [|done].
  destruct (integer (map_get "memory_mb" guest)) as [memory|] eqn:Em; [|done].
  destruct (integer (map_get "cpus" guest)) as [cpus|] eqn:Ec; [|done].
  destruct (map_get "cpu_kind" guest) as [[| | | |kind| |]|] eqn:Ek; try done.
  exists cfg, s1, guest. split; [done|]. split; [done|].
  destruct (_ && _) eqn:Es.
  - injection E as <- <-. bools. split; [done|]. exists guest. rewrite Em, Ec, Ek. subst. done.
  - unbind E as req s2 Hreq. apply lift_result_ok in Hreq as [Hreq ->].
    unbind E as resp s3 Hresp. apply send_ok in Hresp as [Hdo Hsucc]. injection E as <- <-.
    exists req, resp. split_and!; try done. intros (g & Hg' & Hm & Hc & Hk). rewrite Hg in Hg'.
    injection Hg' as <-. rewrite Em in Hm. rewrite Ec in Hc. rewrite Ek in Hk.
    injection Hm as ->. injection Hc as ->. injection Hk as ->.
    by rewrite !Z.eqb_refl, bool_decide_eq_true_2 in Es.
Qed.

(** What [Ensure] reports.  It returns true only when the machine did not have the
    pack's resources and the API accepted one update of it, whose configuration differs
    from the one read in the memory, the number and the kind of the guest's CPUs alone;
    it returns false only when the machine has the resources, and then it sent nothing
    but the read.  In particular the daemon, which launches the server on false and
    waits to be rebooted on true, never launches a pack on a machine of another size. *)
Theorem Ensure_reports c pack s changed s' :
  Ensure c pack s = (Ok changed, s') ->
  exists cfg s1, get c s = (Ok cfg, s1) /\
    if changed then
      ~ sized pack cfg /\ exists req resp cfg',
        same_but_size cfg cfg' /\ Method req = "POST" /\ URL req = endpoint c
        /\ req_Body req = Some (Marshal (payload cfg'))
        /\ Do req s1 = (Ok resp, s') /\ success resp = true
    else s' = s1 /\ sized pack cfg.
Proof.
  intros E. apply Ensure_ok in E as (cfg & s1 & guest & Hget & Hg & E). exists cfg, s1. split; [done|].
  destruct changed; [|done]. destruct E as (req & resp & Hreq & Hdo & Hs & Hn). split; [done|].
  exists req, resp, (map_set "guest" (AMap (resized pack guest)) cfg).
  unfold request in Hreq. destruct (url_error (endpoint c)); [done|]. injection Hreq as <-.
  destruct (resized_spec pack cfg guest Hg) as (_ & Hsame & _). done.
Qed.

(** What the Fly API documents: a configuration that was accepted is the one that is
    read from then on. *)
Class FlyLaws := {
  update_stored c post body resp s s1 get_req :
    request url_error c "POST" (Some body) = Ok post ->
    Do post s = (Ok resp, s1) -> success resp = true ->
    request url_error c "GET" None = Ok get_req ->
    exists resp' s2, Do get_req s1 = (Ok resp', s2) /\ success resp' = true
      /\ (j ← Decode (string_of_bytes (LimitReader (Z.shiftl 4 20) (rd_data (resp_Body resp')))); machine_config j)
         = (j ← Decode body; machine_config j) }.

Lemma integer_of_Z z : - 2 ^ 52 < z < 2 ^ 52 -> integer (Some (AFloat (of_Z z))) = Some z.
Proof.
  intros Hz. destruct (of_Z_exact z Hz) as (E & _ & F). unfold integer. rewrite E.
  assert (SFeqb (of_Z z) (of_Z z) = true) as ->; [|done].
  unfold SFeqb, SFcompare. destruct (of_Z z) as [| | |[] m e]; try done;
    by rewrite Z.compare_refl, Pos.compare_cont_refl.
Qed.

Lemma payload_config cfg :
  any_ok (AMap cfg) = true ->
  (j ← Decode (Marshal (payload cfg)); machine_config j)
  = Ok (Some (map (fun '(k, x) => (k, reread x)) cfg)).
Proof.
  intros Hc. destruct (any_json _ Hc) as [Hj Hr].
  rewrite Decode_Marshal; [|cbn [payload json_ok forallb]; rewrite Hj; done].
  cbn [mbind result_bind payload machine_config foldl fst snd].
  change (bool_decide (fold_name "config" = fold_name "config")) with true.
  cbn [json_of_any] in *. cbn [any_of_json] in Hr.
  destruct (set_members any_of_json _ []) as [m|e] eqn:Em; [|done]. cbn in Hr. injection Hr as <-.
  cbn [mbind result_bind default]. cbn [id]. unfold default. cbn. rewrite Em. done.
Qed.

(** C39: resizing settles.  Once [Ensure] has changed the machine, a second call - the
    one of the daemon the reboot starts - finds the size it wants and asks for nothing,
    so a start is not rebooted for ever; and everything else of the configuration, as the
    decoder reads it, is what the first call read.  The decoder has no schema and takes
    every number for a [float64]: so the values compared are the rounded ones, and a number
    that no [float64] holds comes back changed by the update ([large_number_rounded]).  Of
    the configuration that was read it is assumed that its maps are in order, its strings
    are UTF-8 and the text of each of its floats is read back as that float ([any_ok]). *)
Theorem Ensure_settles `{!FlyLaws} c pack s cfg s0 s1 :
  get c s = (Ok cfg, s0) -> any_ok (AMap cfg) = true ->
  MachineMemoryMB pack < 2 ^ 52 -> MachineCPUs pack < 2 ^ 52 ->
  0 < MachineMemoryMB pack -> 0 < MachineCPUs pack ->
  Ensure c pack s = (Ok true, s1) ->
  exists cfg' s2, get c s1 = (Ok cfg', s2) /\ Ensure c pack s1 = (Ok false, s2)
    /\ same_but_size (map (fun '(k, x) => (k, reread x)) cfg) cfg'.
Proof.
  intros Hget0 Hok Hm Hc Hm0 Hc0 E. apply Ensure_ok in E as (cfg0 & s0' & guest & Hget & Hg & E).
  rewrite Hget0 in Hget. injection Hget as <- <-.
  destruct E as (post & resp & Hreq & Hdo & Hs & _).
  destruct (resized_spec pack cfg guest Hg) as (Hg' & Hsame & Km & Kc & Kk).
  set (cfg1 := map_set "guest" (AMap (resized pack guest)) cfg) in *.
  assert (any_ok (AMap cfg1) = true) as Hok1.
  { apply any_ok_set; [done| |done]. unfold resized. unfold guest_of in Hg.
    destruct (map_get "guest" cfg) as [x|] eqn:Ex; [|done]. destruct x; try done. injection Hg as ->.
    pose proof (any_ok_get _ _ _ Hok Ex). repeat apply any_ok_set; try done; cbn; lia. }
  assert (exists req, request url_error c "GET" None = Ok req) as [req Hreq2].
  { unfold request in *. destruct (url_error (endpoint c)); [done|eauto]. }
  destruct (update_stored c post _ resp s0 s1 req Hreq Hdo Hs Hreq2) as (resp' & s2 & Hdo2 & Hs2 & Hcfg).
  rewrite payload_config in Hcfg by done. set (cfg2 := map _ cfg1) in *.
  assert (get c s1 = (Ok cfg2, s2)) as Hget2.
  { unfold FlyMachine.get. erewrite M_bind_ok; [|unfold lift_result; by rewrite Hreq2]. cbv beta.
    erewrite M_bind_ok; [|unfold send; rewrite Hdo2, Hs2; done]. cbv beta zeta.
    rewrite Hcfg. done. }
  exists cfg2, s2. split; [done|].
  assert (guest_of cfg2 = Some (map (fun '(k, x) => (k, reread x)) (resized pack guest))) as Hg2.
  { unfold guest_of, cfg2. rewrite map_get_map. unfold guest_of in Hg'.
    destruct (map_get "guest" cfg1) as [x|] eqn:Ex; [|done]. destruct x; try done. by injection Hg' as ->. }
  split.
  - unfold FlyMachine.Ensure. erewrite M_bind_ok; [|exact Hget2]. cbv beta.
    rewrite Hg2, !map_get_map, Km, Kc, Kk. cbn [fmap option_fmap option_map reread].
    rewrite !integer_of_Z by lia. by rewrite !Z.eqb_refl, bool_decide_eq_true_2.
  - destruct Hsame as (Hk & g & g' & Ga & Gb & Hkg). rewrite Hg in Ga. rewrite Hg' in Gb.
    injection Ga as <-. injection Gb as <-. split.
    + intros k Hne. unfold cfg2. by rewrite !map_get_map, Hk.
    + exists (map (fun '(k, x) => (k, reread x)) guest), (map (fun '(k, x) => (k, reread x)) (resized pack guest)).
      split; [|split; [exact Hg2|]].
      * unfold guest_of. rewrite map_get_map. unfold guest_of in Hg.
        destruct (map_get "guest" cfg) as [x|]; [|done]. destruct x; try done. by injection Hg as ->.
      * intros k Hne. by rewrite !map_get_map, Hkg.
Qed.
End Properties.

(** ** Witnesses: an API that keeps one configuration *)

(** A transport that answers a read by the stored body and stores the configuration of an
    update. *)
Definition fly_store (req : Request) : M string Response := fun s =>
  match req_Body req with
  | None => (Ok (mkResponse 200 "200 OK" (bytes_reader (bytes_of_string s))), s)
  | Some body =>
      if string_len body <=? 4194304
      then (Ok (mkResponse 200 "200 OK" (bytes_reader [])), body)
      else (Ok (mkResponse 413 "413" (bytes_reader [])), s)
  end.

Definition any_url (url : string) : option error := None.

Lemma LimitReader_id n b : Z.of_nat (length b) <= n -> LimitReader n b = b.
Proof. intros Hn. unfold LimitReader. by rewrite (proj2 (Z.leb_le _ _)). Qed.

#[export] Instance fly_store_laws : @FlyLaws any_url _ fly_store.
Proof.
  constructor. intros c post body resp s s1 req [= <-] Hdo Hs [= <-]. unfold fly_store in *. cbn [req_Body] in *.
  destruct (string_len body <=? 4194304) eqn:E; [|by injection Hdo as <- <-].
  injection Hdo as <- <-. do 2 eexists. split; [done|]. split; [done|]. cbn [resp_Body rd_data bytes_reader].
  rewrite LimitReader_id; [by rewrite string_of_bytes_of_string|].
  rewrite bytes_of_string_length. bools. unfold string_len in E. exact E.
Qed.

Definition ex_client : Client := mkClient "https://api.machines.dev" "hostpack" "e784" "secret".
(** A machine of 2 GB with two volumes' worth of settings the client does not know. *)
Definition ex_machine : string :=
  Marshal (JObj [("id", JStr "e784"); ("config", JObj
    [("env", JObj [("TZ", JStr "UTC")]);
     ("guest", JObj [("cpu_kind", JStr "shared"); ("cpus", JInt 2); ("memory_mb", JInt 2048)]);
     ("metrics", JObj [("port", JInt 9091); ("sample", JNum "0.25")])])]).
Definition ex_cfg : list (string * any) :=
  match fst (@get plain_unicode any_url _ fly_store ex_client ex_machine) with Ok cfg => cfg | Err _ => [] end.
Definition ex_big_pack : Pack := mkPack "Alpha" "https://modrinth.com" "modrinth" "AABB" "v1" 0 21 6144 8192 4 [].

(** A resize of the guest rounds a number elsewhere in the configuration. *)
Definition serial_machine (serial : json) : string :=
  Marshal (JObj [("config", JObj
    [("guest", JObj [("cpu_kind", JStr "shared"); ("cpus", JInt 2); ("memory_mb", JInt 2048)]);
     ("serial", serial)])]).
Theorem large_number_rounded :
  @Ensure plain_unicode any_url _ fly_store ex_client ex_big_pack (serial_machine (JInt 9007199254740993))
  = (Ok true, Marshal (JObj [("config", JObj
      [("guest", JObj [("cpu_kind", JStr "shared"); ("cpus", JInt 4); ("memory_mb", JInt 8192)]);
       ("serial", JInt 9007199254740992)]); ("skip_launch", JBool false)])).
Proof. vm_compute. reflexivity. Qed.

Lemma Ensure_reports_witness :
  exists s', @Ensure plain_unicode any_url _ fly_store ex_client ex_big_pack ex_machine = (Ok true, s') /\
    exists cfg s1, @get plain_unicode any_url _ fly_store ex_client ex_machine = (Ok cfg, s1) /\ ~ sized ex_big_pack cfg.
Proof.
  assert (exists s', @Ensure plain_unicode any_url _ fly_store ex_client ex_big_pack ex_machine = (Ok true, s')) as [s' E]
    by (eexists; vm_compute; reflexivity).
  exists s'. split; [exact E|].
  destruct (@Ensure_reports plain_unicode any_url _ fly_store ex_client ex_big_pack ex_machine true s' E) as (cfg & s1 & Hg & Hn & _).
  exists cfg, s1. split; [exact Hg|exact Hn].
Defined.

Lemma Ensure_settles_witness :
  exists s1, @Ensure plain_unicode any_url _ fly_store ex_client ex_big_pack ex_machine = (Ok true, s1) /\
    exists cfg' s2, @get plain_unicode any_url _ fly_store ex_client s1 = (Ok cfg', s2)
      /\ @Ensure plain_unicode any_url _ fly_store ex_client ex_big_pack s1 = (Ok false, s2).
Proof.
  assert (exists s1, @Ensure plain_unicode any_url _ fly_store ex_client ex_big_pack ex_machine = (Ok true, s1)) as [s1 E]
    by (eexists; vm_compute; reflexivity).
  exists s1. split; [exact E|].
  assert (@get plain_unicode any_url _ fly_store ex_client ex_machine = (Ok ex_cfg, ex_machine)) as Hg
    by (vm_compute; reflexivity).
  assert (any_ok (AMap ex_cfg) = true) as Hok by (vm_compute; reflexivity).
  destruct (@Ensure_settles plain_unicode any_url _ fly_store _ ex_client ex_big_pack ex_machine ex_cfg ex_machine s1
    Hg Hok eq_refl eq_refl eq_refl eq_refl E) as (cfg' & s2 & H1 & H2 & _).
  exists cfg', s2. split; [exact H1|exact H2].
Defined.
