(* ===== verification/Rcon.v ===== *)
(** * The RCON client ([internal/rcon/client.go])

    Packets of the Source RCON protocol over a TCP connection: a little-endian
    length, an identifier, a kind, a body and two NUL bytes. *)
From Stdlib Require Import String Ascii.
From coqutil Require Import Word.LittleEndianList.
From S2P Require Import Prelude GoStrings.

Record Client := mkClient { Address : string; Password : string; Timeout : Z }.

(** [binary.Write] and [binary.Read] of an [int32] in little endian. *)
Definition le32 (z : Z) : list byte := le_split 4 z.
Definition ReadInt32LE : M reader Z := b ← ReadFull 4; mret (int32 (le_combine b)).

Definition NUL : string := String (chr 0) "".

Definition packet_body (id kind : Z) (body : string) : list byte :=
  le32 id ++ le32 kind ++ bytes_of_string body ++ [byte.of_Z 0; byte.of_Z 0].

Definition writePacket (id kind : Z) (body : string) : M writer unit :=
  let p := packet_body id kind body in
  Write (le32 (int32 (Z.of_nat (length p))));; Write p.

Definition readPacket : M reader (Z * Z * string) :=
  n ← ReadInt32LE;
  if (n <? 10) || (4 * 2 ^ 20 <? n)
  then throw (Errorf ("invalid rcon packet length " +:+ Itoa n))
  else
    b ← ReadFull (Z.to_nat n);
    mret (int32 (le_combine (take 4 b)), int32 (le_combine (take 4 (drop 4 b))),
          TrimRight (string_of_bytes (drop 8 b)) NUL).

(** [Command] on the connection the dialer opened; [dial] is its verdict. *)
Definition Command (c : Client) (dial : option error) (command : string) : M conn string :=
  match dial with
  | Some e => throw e
  | None =>
      on_out (writePacket 1 3 (Password c));;
      '(id, _, _) ← on_in readPacket;
      if id =? -1 then throw (Errorf "rcon authentication failed")
      else
        on_out (writePacket 2 2 command);;
        '(id, _, body) ← on_in readPacket;
        if negb (id =? 2) then throw (Errorf ("unexpected rcon response id " +:+ Itoa id))
        else mret body
  end.

(** ** Lemmas *)

Definition int32_range (z : Z) : Prop := - 2 ^ 31 <= z < 2 ^ 31.

Lemma length_le32 z : length (le32 z) = 4%nat.
Proof. apply length_le_split. Qed.

Lemma int32_le32 z : int32_range z -> int32 (le_combine (le32 z)) = z.
Proof.
  intros Hz. unfold le32. rewrite le_combine_split. unfold int32, swrap.
  change (2 ^ (Z.of_nat 4 * 8)) with (2 ^ 32). rewrite Zplus_mod_idemp_l.
  apply (swrap_id 32); [done|exact Hz].
Qed.

Lemma ReadInt32LE_le32 z rest e :
  int32_range z -> ReadInt32LE (Reader (le32 z ++ rest) e) = (Ok z, Reader rest e).
Proof.
  intros Hz. unfold ReadInt32LE. run ReadFull_app; [|apply length_le32].
  by rewrite int32_le32.
Qed.

Lemma length_packet_body id kind body :
  Z.of_nat (length (packet_body id kind body)) = 10 + string_len body.
Proof.
  unfold packet_body, string_len. rewrite !length_app, !length_le32, bytes_of_string_length.
  cbn. lia.
Qed.

Lemma trim_right_all p s t :
  string_forallb p t = true -> trim_right p (s +:+ t) = trim_right p s.
Proof.
  intros Ht. induction s as [|c s IH]; rewrite ?append_nil_l, ?append_cons.
  - induction t as [|c t IH]; [done|]. cbn in Ht |- *. bools. by rewrite IH, H.
  - cbn. by rewrite IH.
Qed.

(** The bytes of one packet. *)
Definition packet (id kind : Z) (body : string) : list byte :=
  le32 (10 + string_len body) ++ packet_body id kind body.

(** A body the length limit of the reader lets through. *)
Definition body_fits (body : string) : Prop := 10 + string_len body <= 4 * 2 ^ 20.

Lemma writePacket_buffer id kind body out :
  body_fits body ->
  writePacket id kind body (Writer out []) = (Ok tt, Writer (out ++ packet id kind body) []).
Proof.
  intros Hb. unfold writePacket. run Write_buffer. rewrite Write_buffer.
  rewrite length_packet_body. unfold int32. rewrite swrap_id; [|done|].
  - by rewrite <- app_assoc.
  - unfold body_fits, string_len in *. lia.
Qed.

Lemma readPacket_packet id kind body rest e :
  int32_range id -> int32_range kind -> body_fits body ->
  readPacket (Reader (packet id kind body ++ rest) e)
  = (Ok (id, kind, TrimRight body NUL), Reader rest e).
Proof.
  intros Hi Hk Hb. unfold readPacket, packet. rewrite <- app_assoc.
  assert (0 <= string_len body) by (unfold string_len; lia).
  run ReadInt32LE_le32; cycle 1.
  { unfold int32_range, body_fits in *. lia. }
  unfold body_fits in Hb. rewrite (proj2 (Z.ltb_ge _ 10)), (proj2 (Z.ltb_ge (4 * 2 ^ 20) _)) by lia.
  cbn [orb]. run ReadFull_app; cycle 1.
  { rewrite <- length_packet_body with (id := id) (kind := kind). lia. }
  unfold packet_body. do 2 f_equal.
  assert (forall l, take 4 (le32 id ++ l) = le32 id) as -> by (intros; by apply take_app_length').
  assert (forall l, drop 4 (le32 id ++ l) = l) as -> by (intros; by apply drop_app_length').
  rewrite take_app_length' by done. rewrite !int32_le32 by done. f_equal.
  rewrite app_assoc, drop_app_length' by done.
  rewrite string_of_bytes_app, string_of_bytes_of_string. unfold TrimRight.
  by rewrite trim_right_all.
Qed.

(** ** Properties *)

(** Packets round trip.  What [writePacket] sends, [readPacket] reads back:
    the identifier, the kind and the body without trailing NULs, consuming exactly
    the packet, for every body the 4 MiB limit admits and every 32-bit identifier
    and kind. *)
Theorem packet_roundtrip id kind body rest e :
  int32_range id -> int32_range kind -> body_fits body ->
  exists out, writePacket id kind body empty_buffer = (Ok tt, Writer out [])
    /\ readPacket (Reader (out ++ rest) e) = (Ok (id, kind, TrimRight body NUL), Reader rest e).
Proof.
  intros Hi Hk Hb. exists (packet id kind body).
  split; [by apply writePacket_buffer|by apply readPacket_packet].
Qed.

Lemma packet_roundtrip_witness :
  int32_range (-1) /\ exists out, writePacket (-1) 2 "save-all flush" empty_buffer = (Ok tt, Writer out [])
    /\ readPacket (Reader (out ++ []) ErrEOF)
       = (Ok (-1, 2, TrimRight "save-all flush" NUL), Reader [] ErrEOF).
Proof.
  split; [split; [vm_compute; discriminate|reflexivity]|].
  apply packet_roundtrip; [split; [vm_compute; discriminate|reflexivity]..|vm_compute; discriminate].
Defined.

(** C40: a command against a server that answers packet by packet.  The password is
    sent first; if the answer has the identifier -1 the call fails and the command
    is never sent; otherwise the command is sent, and the body of the second
    answer is returned exactly when that answer carries the identifier 2. *)
Theorem Command_exchange c command a ka ba b kb bb rest e :
  body_fits (Password c) -> body_fits command ->
  Forall int32_range [a; ka; b; kb] -> body_fits ba -> body_fits bb ->
  Command c None command
    (Conn (Reader (packet a ka ba ++ packet b kb bb ++ rest) e) empty_buffer)
  = if a =? -1 then
      (Err (Errorf "rcon authentication failed"),
       Conn (Reader (packet b kb bb ++ rest) e) (Writer (packet 1 3 (Password c)) []))
    else
      (if b =? 2 then Ok (TrimRight bb NUL)
       else Err (Errorf ("unexpected rcon response id " +:+ Itoa b)),
       Conn (Reader rest e)
         (Writer (packet 1 3 (Password c) ++ packet 2 2 command) [])).
Proof.
  intros Hp Hc Hr Hba Hbb. rewrite !Forall_cons in Hr. destruct Hr as (Ha & Hka & Hb & Hkb & _).
  assert (forall kind id body r out, body_fits body ->
    on_out (writePacket id kind body) (Conn r (Writer out []))
    = (Ok tt, Conn r (Writer (out ++ packet id kind body) []))) as Hw.
  { intros. unfold on_out; cbn [c_out c_in]. by rewrite writePacket_buffer. }
  unfold Command, empty_buffer. run Hw. run on_in_ok; [|by apply readPacket_packet].
  cbv iota beta. destruct (a =? -1); [done|]. run Hw. run on_in_ok; [|by apply readPacket_packet].
  cbv iota beta. by destruct (b =? 2).
Qed.

Lemma Command_exchange_witness :
  body_fits "secret" /\
  Command (mkClient "127.0.0.1:25575" "secret" 0) None "stop"
    (Conn (Reader (packet 1 2 "" ++ packet 2 0 "Stopping" ++ []) ErrEOF) empty_buffer)
  = (Ok (TrimRight "Stopping" NUL),
     Conn (Reader [] ErrEOF) (Writer (packet 1 3 "secret" ++ packet 2 2 "stop") [])).
Proof.
  split; [vm_compute; discriminate|].
  assert (body_fits "secret") as Hp by (vm_compute; discriminate).
  assert (body_fits "stop") as Hc by (vm_compute; discriminate).
  assert (body_fits "") as He by (vm_compute; discriminate).
  assert (body_fits "Stopping") as Hs by (vm_compute; discriminate).
  assert (Forall int32_range [1; 2; 2; 0]) as Hr by (repeat constructor; vm_compute; discriminate).
  rewrite (Command_exchange (mkClient "127.0.0.1:25575" "secret" 0) "stop" 1 2 "" 2 0 "Stopping"
             [] ErrEOF Hp Hc Hr He Hs).
  reflexivity.
Defined.
