(* ===== verification/StateFile.v ===== *)
(** * The persisted state ([internal/runtime/state.go])

    The phases and the state of the lifecycle, the file it is kept in, and what
    survives a failure or a crash while it is written.  A crash is a run in which,
    from some call on, every call fails. *)
From Stdlib Require Import String Ascii.
From S2P Require Import Prelude GoStrings GoJson JsonText Filepath Fs.

(** ** Data *)

(** The constants of [Phase], and any other string: [active.json] can hold one. *)
Inductive Phase :=
  | Idle | Resizing | Loading | Ready | Draining | Saving | Recovering | Failed
  | OtherPhase (text : string).

#[global] Instance Phase_eq_dec : EqDecision Phase.
Proof. solve_decision. Defined.

Definition phase_text (p : Phase) : string :=
  match p with
  | Idle => "IDLE" | Resizing => "RESIZING" | Loading => "LOADING" | Ready => "READY"
  | Draining => "DRAINING" | Saving => "SAVING" | Recovering => "RECOVERING"
  | Failed => "FAILED" | OtherPhase s => s
  end.
Definition phase_of (s : string) : Phase :=
  match find (fun p => bool_decide (phase_text p = s))
          [Idle; Resizing; Loading; Ready; Draining; Saving; Recovering; Failed] with
  | Some p => p
  | None => OtherPhase s
  end.

Record State := mkState {
  st_Phase : Phase; ActiveID : string; PackLockDigest : string; Generation : Z;
  EmptySince : option Z; BackupPending : bool; LastError : string; UpdatedAt : Z }.

#[global] Instance State_eq_dec : EqDecision State.
Proof. solve_decision. Defined.

(** The zero value [State{}], and [State{Phase: p}]. *)
Definition zero_State : State := mkState (OtherPhase "") "" "" 0 None false "" zero_time.
Definition phase_State (p : Phase) : State := mkState p "" "" 0 None false "" zero_time.

Definition set_Phase (p : Phase) (s : State) : State :=
  mkState p (ActiveID s) (PackLockDigest s) (Generation s) (EmptySince s) (BackupPending s)
    (LastError s) (UpdatedAt s).
Definition set_ActiveID (i : string) (s : State) : State :=
  mkState (st_Phase s) i (PackLockDigest s) (Generation s) (EmptySince s) (BackupPending s)
    (LastError s) (UpdatedAt s).
Definition set_Generation (g : Z) (s : State) : State :=
  mkState (st_Phase s) (ActiveID s) (PackLockDigest s) g (EmptySince s) (BackupPending s)
    (LastError s) (UpdatedAt s).
Definition set_EmptySince (e : option Z) (s : State) : State :=
  mkState (st_Phase s) (ActiveID s) (PackLockDigest s) (Generation s) e (BackupPending s)
    (LastError s) (UpdatedAt s).
Definition set_BackupPending (b : bool) (s : State) : State :=
  mkState (st_Phase s) (ActiveID s) (PackLockDigest s) (Generation s) (EmptySince s) b
    (LastError s) (UpdatedAt s).
Definition set_LastError (e : string) (s : State) : State :=
  mkState (st_Phase s) (ActiveID s) (PackLockDigest s) (Generation s) (EmptySince s)
    (BackupPending s) e (UpdatedAt s).
Definition set_UpdatedAt (t : Z) (s : State) : State :=
  mkState (st_Phase s) (ActiveID s) (PackLockDigest s) (Generation s) (EmptySince s)
    (BackupPending s) (LastError s) t.

(** ** The file *)
Section StateFile.
Context `{GoTime}.

(** The JSON of a state: the struct tags of [State], empty fields omitted. *)
Definition state_json (s : State) : result json :=
  empty ← (match EmptySince s with
    | None => Ok []
    | Some t => j ← json_time t; Ok [("emptySince", j)]
    end : result (list (string * json)));
  updated ← json_time (UpdatedAt s);
  Ok (JObj ([("phase", JStr (phase_text (st_Phase s)))]
            ++ omit_empty "activeId" (ActiveID s)
            ++ omit_empty "packLockDigest" (PackLockDigest s)
            ++ [("generation", JInt (Generation s))]
            ++ empty
            ++ [("backupPending", JBool (BackupPending s))]
            ++ omit_empty "lastError" (LastError s)
            ++ [("updatedAt", updated)])).

Definition dec_State (j : json) : result State := dec_object (fun l =>
  p ← dec_string (member "phase" l); i ← dec_string (member "activeId" l);
  d ← dec_string (member "packLockDigest" l); g ← dec_uint64 (member "generation" l);
  e ← dec_time_ptr (member "emptySince" l); b ← dec_bool (member "backupPending" l);
  x ← dec_string (member "lastError" l); u ← dec_time (member "updatedAt" l);
  Ok (mkState (phase_of p) i d g e b x u)) (Some j).

(** The bytes [json.MarshalIndent] gives for a state. *)
Definition state_bytes (s : State) : result (list byte) :=
  j ← state_json s; Ok (bytes_of_string (MarshalIndent j)).

Definition Load (p : path) : M fs State :=
  b ← attempt (ReadFile p);
  match b with
  | Err e => if errors_is e ErrNotExist then mret (phase_State Idle) else throw e
  | Ok b =>
      j ← lift_result (Unmarshal (string_of_bytes b));
      st ← lift_result (dec_State j);
      mret (if bool_decide (st_Phase st = OtherPhase "") then set_Phase Idle st else st)
  end.

(** [Save] at the time [now]; the last step opens the directory and syncs it. *)
Definition Save (p : path) (now : Z) (st : State) : M fs unit :=
  b ← lift_result (state_bytes (set_UpdatedAt now st));
  MkdirAll 488 (parent p);;
  tmp ← CreateTemp (parent p) ".active-";
  commit_temp tmp p (WriteFile tmp b;; SyncFile tmp)
    (Stat (parent p);; SyncFile (parent p)).
End StateFile.

(** [NewManager] puts the file at [runtime/active.json]. *)
Definition active_file (stateRoot : path) : path := stateRoot ++ ["runtime"; "active.json"].

(** ** Lemmas *)
Section Lemmas.
Context `{GoTime}.

(** A state a daemon can hold: valid text, a 64-bit generation, and no phase that
    only looks like a constant. *)
Record state_ok (st : State) : Prop := {
  so_phase : phase_of (phase_text (st_Phase st)) = st_Phase st;
  so_phase_text : valid_utf8 (phase_text (st_Phase st)) = true;
  so_active : valid_utf8 (ActiveID st) = true;
  so_digest : valid_utf8 (PackLockDigest st) = true;
  so_error : valid_utf8 (LastError st) = true;
  so_generation : 0 <= Generation st < 2 ^ 64 }.

Lemma json_time_ok t j : json_time t = Ok j ->
  json_ok j = true /\ (forall x, j = JStr x -> parse_time x = Some t) /\ exists x, j = JStr x.
Proof.
  unfold json_time. destruct (time_text t) as [x|] eqn:E; [|done]. intros [= <-].
  split_and!; [by apply (time_text_valid t)| |eauto]. intros y [= <-]. by apply parse_time_text.
Qed.

(** Read one field: [Hm] is what is known of the members that may be absent. *)
Ltac field Hm :=
  match goal with L := _ |- _ => subst L end; member_simpl; rewrite ?Hm; member_simpl;
  repeat match goal with |- context [member ?n []] => change (member n []) with (@None json) end;
  cbv iota; repeat (case_bool_decide; subst; cbn [negb]; cbv iota); done.

(** The decoder reads the tree of a state back. *)
Lemma dec_state_json st j : state_ok st -> state_json st = Ok j ->
  dec_State j = Ok st /\ json_ok j = true.
Proof.
  intros [Hp Hpt Ha Hd He Hg] E. unfold state_json in E.
  destruct st as [ph ai pd g es bp le ua]. cbn [st_Phase ActiveID PackLockDigest Generation
    EmptySince BackupPending LastError UpdatedAt] in *.
  set (emp := match es with Some _ => _ | None => _ end) in E.
  destruct emp as [empty|] eqn:Eemp; [|done]. cbn [mbind result_bind] in E.
  destruct (json_time ua) as [upd|] eqn:Eu; [|done]. cbn [mbind result_bind] in E.
  apply json_time_ok in Eu as (Hu & Hpu & [xu ->]). specialize (Hpu xu eq_refl).
  injection E as <-.
  assert (exists x, (es = None /\ empty = []) \/ (exists t, es = Some t
    /\ empty = [("emptySince", JStr x)] /\ parse_time x = Some t /\ valid_utf8 x = true)) as [x Hes].
  { subst emp. destruct es as [t|]; [|injection Eemp as <-; exists ""; by left].
    destruct (json_time t) as [jt|] eqn:Et; [|done]. injection Eemp as <-.
    apply json_time_ok in Et as (Ht & Hpt' & [x ->]). exists x. right. exists t. auto. }
  split.
  - unfold dec_State, dec_object. cbv beta iota.
    assert (forall n, member n empty = if bool_decide (fold_name "emptySince" = fold_name n)
      then match es with Some _ => Some (JStr x) | None => None end else None) as Hm.
    { intros n. destruct Hes as [[-> ->]|(t & -> & -> & _)]; [by case_bool_decide|].
      by rewrite member_one. }
    assert (dec_time_ptr (match es with Some _ => Some (JStr x) | None => None end) = Ok es) as He'.
    { destruct Hes as [[-> ->]|(t & -> & -> & Hx & _)]; [done|]. cbn. by rewrite Hx. }
    match goal with |- context [member "phase" ?l] => set (L := l) end.
    assert (dec_string (member "phase" L) = Ok (phase_text ph)) as -> by field Hm.
    assert (dec_string (member "activeId" L) = Ok ai) as -> by field Hm.
    assert (dec_string (member "packLockDigest" L) = Ok pd) as -> by field Hm.
    assert (dec_uint64 (member "generation" L) = Ok g) as ->.
    { rewrite <- (dec_uint64_range g Hg). field Hm. }
    assert (dec_time_ptr (member "emptySince" L) = Ok es) as -> by (rewrite <- He'; destruct es; field Hm).
    assert (dec_bool (member "backupPending" L) = Ok bp) as -> by field Hm.
    assert (dec_string (member "lastError" L) = Ok le) as -> by field Hm.
    assert (dec_time (member "updatedAt" L) = Ok ua) as ->.
    { transitivity (dec_time (Some (JStr xu))); [field Hm|]. cbn. by rewrite Hpu. }
    cbn [mbind result_bind]. by rewrite Hp.
  - cbn [json_ok] in Hu.
    assert (forall n v, valid_utf8 n = true -> valid_utf8 v = true ->
      forallb (fun '(k, v) => valid_utf8 k && json_ok v) (omit_empty n v) = true) as Ho.
    { intros n v Hn Hv. unfold omit_empty. case_bool_decide; [done|]. cbn. by rewrite Hn, Hv. }
    assert (forallb (fun '(k, v) => valid_utf8 k && json_ok v) empty = true) as Hemp.
    { destruct Hes as [[_ ->]|(t & _ & -> & _ & Hx)]; [done|]. cbn. by rewrite Hx. }
    cbn [json_ok]. repeat (rewrite ?forallb_app; cbn [app forallb json_ok]).
    by rewrite !Ho, Hemp, Hpt, Hu by done.
Qed.

(** The bytes of a state, read back. *)
Lemma state_bytes_load st b : state_ok st -> state_bytes st = Ok b ->
  exists j, Unmarshal (string_of_bytes b) = Ok j /\ dec_State j = Ok st.
Proof.
  unfold state_bytes. intros Hst E. destruct (state_json st) as [j|] eqn:Ej; [|done].
  injection E as <-. apply dec_state_json in Ej as [Hd Hj]; [|done]. exists j.
  by rewrite string_of_bytes_of_string, Unmarshal_MarshalIndent.
Qed.

Lemma state_ok_updated st t : state_ok st -> state_ok (set_UpdatedAt t st).
Proof. by intros []. Qed.

(** What [Load] finds in a file, when the disk works. *)
Definition loads (p : path) (s : fs) : result State := fst (Load p (Fs (nodes s) [])).

Lemma Load_eq p s : fst (Load p s) =
  match fst (ReadFile p s) with
  | Err e => if errors_is e ErrNotExist then Ok (phase_State Idle) else Err e
  | Ok b =>
      st ← (j ← Unmarshal (string_of_bytes b); dec_State j);
      Ok (if bool_decide (st_Phase st = OtherPhase "") then set_Phase Idle st else st)
  end.
Proof.
  unfold Load, attempt, mbind, M_bind, result_bind. destruct (ReadFile p s) as [[b|e] s1];
    cbv beta iota delta [fst lift_result].
  - destruct (Unmarshal (string_of_bytes b)) as [j|]; [|done]. by destruct (dec_State j).
  - by destruct (errors_is e ErrNotExist).
Qed.

Lemma loads_bytes p s mode b st : p <> [] ->
  nodes s !! p = Some (FFile mode b) -> state_ok st -> st_Phase st <> OtherPhase "" ->
  state_bytes st = Ok b -> loads p s = Ok st.
Proof.
  intros Hp Hn Hst Hph Hb. destruct (state_bytes_load st b Hst Hb) as (j & Hj & Hd).
  unfold loads. rewrite Load_eq, ReadFile_fst by done. cbn [nodes]. rewrite Hn. cbn [fst].
  rewrite Hj. unfold mbind, result_bind. rewrite Hd. by rewrite bool_decide_eq_false_2.
Qed.

Lemma loads_same p s s' : p <> [] -> nodes s' !! p = nodes s !! p -> loads p s' = loads p s.
Proof.
  intros Hp E. unfold loads. rewrite !Load_eq, !ReadFile_fst by done. cbn [nodes]. by rewrite E.
Qed.

(** [Save] leaves the file as it was or complete. *)
Lemma Save_cases dir name now st s :
  HasPrefix name ".active-" = false ->
  let p := dir ++ [name] in
  let '(r, s') := Save p now st s in
  (is_ok r = false /\ nodes s' !! p = nodes s !! p)
  \/ exists b, state_bytes (set_UpdatedAt now st) = Ok b /\ nodes s' !! p = Some (FFile 384 b).
Proof.
  intros Hname p. unfold Save. assert (parent p = dir) as -> by apply removelast_last.
  destruct (state_bytes (set_UpdatedAt now st)) as [b|e]; [|by left].
  erewrite M_bind_ok by done.
  pose proof (replace_file_cases 488 dir name ".active-" (fun t => WriteFile t b;; SyncFile t)
    (Stat dir;; SyncFile dir) 384 b s Hname) as Hr. cbv zeta in Hr. fold p in Hr.
  destruct ((MkdirAll 488 dir;; _) s) as [r s'].
  destruct Hr as [Hr|Hr]; [..|by left|by right; exists b].
  - intros t Ht. apply keeps_bind; [by apply keeps_WriteFile|]. intros _. apply keeps_Sync.
  - intros t. apply fills_Write_Sync.
  - apply keeps_bind; [|intros _; apply keeps_Sync]. apply keeps_simple. intros s4. by case_match.
Qed.
End Lemmas.

(** ** Properties *)

(** C15: saving is atomic.  Wherever a call of [Save] fails or the machine stops, what
    a later [Load] finds is what it found before, or the state that was being
    saved, with the time of the save; and it is the latter when [Save] returned no
    error. *)
Theorem Save_atomic `{GoTime} root now st s :
  state_ok st -> st_Phase st <> OtherPhase "" ->
  let p := active_file root in
  let '(r, s') := Save p now st s in
  (loads p s' = loads p s /\ is_ok r = false) \/ loads p s' = Ok (set_UpdatedAt now st).
Proof.
  intros Hst Hph p. unfold active_file in p.
  pose proof (Save_cases (root ++ ["runtime"]) "active.json" now st s eq_refl) as Hs.
  rewrite <- app_assoc in Hs. cbn [app] in Hs. fold p in Hs.
  destruct (Save p now st s) as [r s']. destruct Hs as [[Hr Hs]|(b & Hb & Hs)].
  - left. split; [apply loads_same; [unfold p; by destruct root|done]|done].
  - right. eapply loads_bytes; [unfold p; by destruct root|exact Hs|by apply state_ok_updated|done|done].
Qed.

Definition example_state : State :=
  mkState Ready "atm9" "5ba8f688" 7 (Some 1700000000000000000) false "" zero_time.

Lemma example_state_ok : state_ok example_state.
Proof. split; try reflexivity. cbn. lia. Qed.

(** Here the disk fills up in the middle of the write. *)
Lemma Save_atomic_witness :
  let s := Fs ∅ [None; None; Some (Fault (Errorf "no space left on device") 10)] in
  let '(r, s') := @Save decimal_time (active_file ["state"]) 5 example_state s in
  is_ok r = false /\
  ((@loads decimal_time (active_file ["state"]) s' = @loads decimal_time (active_file ["state"]) s
    /\ is_ok r = false)
   \/ @loads decimal_time (active_file ["state"]) s' = Ok (set_UpdatedAt 5 example_state)).
Proof.
  pose proof (@Save_atomic decimal_time ["state"] 5 example_state
    (Fs ∅ [None; None; Some (Fault (Errorf "no space left on device") 10)]) example_state_ok
    ltac:(discriminate)) as H.
  vm_compute in H |- *. split; [reflexivity|exact H].
Defined.
