(* ===== verification/Lifecycle.v ===== *)
(** * The lifecycle: what the manager does while it holds its lock
    ([internal/runtime/manager.go])

    The fields of [Manager] and, one definition for each, the critical sections of
    its methods: the code between a [m.mu.Lock()] and the matching [Unlock()], as a
    function of the manager's fields and the clock.  [Manager.v] puts them together
    into the goroutines of the daemon. *)
From Stdlib Require Import String Ascii.
From S2P Require Import Prelude GoStrings GoJson JsonText Config Lock StateFile.

(** ** The manager *)

(** The mutable fields of [Manager]: the state, the process (a process identifier),
    the flags, whether the [done] channel is closed; and, behind [stateFile], the
    state [active.json] holds and the saves that will fail ([true]). *)
Record mgr := mkMgr {
  m_state : State; m_process : option nat; expectedStop : bool; lastActivity : Z;
  loginSeen : bool; done_closed : bool; m_disk : option (result State); m_faults : list bool }.

Definition set_state (s : State) (m : mgr) : mgr :=
  mkMgr s (m_process m) (expectedStop m) (lastActivity m) (loginSeen m) (done_closed m)
    (m_disk m) (m_faults m).
Definition set_process (p : option nat) (m : mgr) : mgr :=
  mkMgr (m_state m) p (expectedStop m) (lastActivity m) (loginSeen m) (done_closed m)
    (m_disk m) (m_faults m).
Definition set_expectedStop (b : bool) (m : mgr) : mgr :=
  mkMgr (m_state m) (m_process m) b (lastActivity m) (loginSeen m) (done_closed m)
    (m_disk m) (m_faults m).
Definition set_activity (t : Z) (m : mgr) : mgr :=
  mkMgr (m_state m) (m_process m) (expectedStop m) t (loginSeen m) (done_closed m)
    (m_disk m) (m_faults m).
Definition set_loginSeen (b : bool) (m : mgr) : mgr :=
  mkMgr (m_state m) (m_process m) (expectedStop m) (lastActivity m) b (done_closed m)
    (m_disk m) (m_faults m).
Definition on_state (f : State -> State) (m : mgr) : mgr := set_state (f (m_state m)) m.

Definition phase (m : mgr) : Phase := st_Phase (m_state m).
Definition active (m : mgr) : string := ActiveID (m_state m).

(** [_ = m.stateFile.Save(m.state)]: a failed save is ignored. *)
Definition save (now : Z) (m : mgr) : mgr :=
  match m_faults m with
  | true :: l =>
      mkMgr (m_state m) (m_process m) (expectedStop m) (lastActivity m) (loginSeen m)
        (done_closed m) (m_disk m) l
  | l =>
      mkMgr (m_state m) (m_process m) (expectedStop m) (lastActivity m) (loginSeen m)
        (done_closed m) (Some (Ok (set_UpdatedAt now (m_state m)))) (tail l)
  end.

(** Change the state and save it: the shape of most critical sections. *)
Definition update (now : Z) (f : State -> State) (m : mgr) : mgr := save now (on_state f m).

(** [signalDone]. *)
Definition signalDone (m : mgr) : mgr :=
  mkMgr (m_state m) (m_process m) (expectedStop m) (lastActivity m) (loginSeen m) true
    (m_disk m) (m_faults m).

(** ** The critical sections *)
Section Sections.
Context (cfg : Config) (lock : LockFile).

(** The zero [Pack] a map lookup gives for an unknown ID has an empty name. *)
Definition display_name (id : string) : string :=
  match Packs cfg !! id with Some p => DisplayName p | None => "" end.
Definition locked_digest (id : string) : string :=
  lp_IdentityDigest (default zero_LockedPack (lock_Packs lock !! id)).

(** [State{Phase: Loading, ActiveID: id, PackLockDigest: ...}]. *)
Definition loading_State (id : string) : State :=
  mkState Loading id (locked_digest id) 0 None false "" zero_time.

(** The part of [NewManager] that touches the state: what [Load] gave, and whether the
    active pack is started again. *)
Definition NewManager (now : Z) (loaded : result State) (disk : option (result State))
    (faults : list bool) : mgr * option string :=
  let st := match loaded with Ok s => s | Err _ => zero_State end in
  let m := mkMgr st None false now false false disk faults in
  if negb (bool_decide (st_Phase st = Idle)) && negb (bool_decide (ActiveID st = ""))
  then (update now (set_Phase Recovering) m, Some (ActiveID st))
  else (m, None).

(** [Touch]. *)
Definition Touch (now : Z) (m : mgr) : mgr := set_activity now m.

(** What [Ensure] does after its critical section. *)
Inductive ensure_next :=
  | StartAndWait                 (* [go m.start(id, false); return m.waitReady(id)] *)
  | WaitReady                    (* [return m.waitReady(id)] *)
  | Answer (ok : bool) (message : string)
  | SwitchAndAnswer (message : string).   (* [go m.switchTo(id)] *)

Definition Ensure_section (now : Z) (id : string) (m0 : mgr) : mgr * ensure_next :=
  let m := set_activity now (set_loginSeen true m0) in
  if bool_decide (phase m = Idle) then
    (update now (fun _ => loading_State id) m, StartAndWait)
  else if bool_decide (active m = id) && bool_decide (phase m = Ready) then
    (m, Answer true "")
  else if bool_decide (active m = id)
       && (bool_decide (phase m = Loading) || bool_decide (phase m = Recovering)) then
    (m, WaitReady)
  else if bool_decide (phase m = Failed) && bool_decide (active m = id)
       && bool_decide (m_process m = None) then
    (update now (fun s => set_LastError "" (set_Phase Loading s)) m, StartAndWait)
  else
    let empty_long := match EmptySince (m_state m) with
      | Some e => EmptyBeforeSwitch (RuntimeCfg cfg) <=? now - e
      | None => false end in
    if bool_decide (phase m = Ready) && empty_long then
      (m, SwitchAndAnswer ("Switching to " +:+ display_name id +:+ ". Please reconnect shortly."))
    else
      let name := match Packs cfg !! active m with Some p => DisplayName p | None => active m end in
      (m, Answer false (name +:+ " is currently " +:+ phase_text (phase m) +:+ ". "
             +:+ display_name id +:+ " cannot start yet.")).

(** One round of the loop of [waitReady]: an answer, or wait on. *)
Definition waitReady_poll (id : string) (m : mgr) : option (bool * string) :=
  if bool_decide (active m = id) && bool_decide (phase m = Ready) then Some (true, "")
  else if bool_decide (active m = id) && bool_decide (phase m = Resizing) then
    Some (false, display_name id +:+ " is resizing its Fly Machine. Please reconnect shortly.")
  else if bool_decide (phase m = Failed) then
    Some (false, "Failed to start " +:+ display_name id +:+ ": " +:+ LastError (m_state m))
  else None.
Definition waitReady_timeout (id : string) : bool * string :=
  (false, display_name id +:+ " is starting. Please reconnect shortly.").

(** [start]: before the resize, after it ([None]: another pack became active and the
    goroutine returns), before the launch, the attachment of the new process, and the
    switch to [Ready]. *)
Definition start_resize (now : Z) (id : string) (m : mgr) : option mgr :=
  if negb (bool_decide (active m = id)) then None else Some (update now (set_Phase Resizing) m).
Definition start_resized (now : Z) (id : string) (recovery : bool) (m : mgr) : option mgr :=
  if negb (bool_decide (active m = id)) then None
  else Some (update now (set_Phase (if recovery then Recovering else Loading)) m).
Definition start_record (now : Z) (head : option Z) (headErr : bool) (m : mgr) : mgr :=
  update now (fun s =>
    let s := match head with Some g => set_Generation g s | None => s end in
    if headErr then set_BackupPending true s else s) m.
Definition start_attach (id : string) (p : nat) (m : mgr) : option mgr :=
  if negb (bool_decide (active m = id)) then None
  else Some (set_expectedStop false (set_process (Some p) m)).
Definition start_ready (now : Z) (id : string) (m : mgr) : mgr :=
  if bool_decide (active m = id)
  then update now (fun s => set_LastError "" (set_Phase Ready s)) m else m.

(** [waitProcess] once [Wait] has returned; [err] is the text of its error. *)
Definition waitProcess_section (now : Z) (p : nat) (err : string) (m : mgr) : mgr :=
  if negb (bool_decide (m_process m = Some p)) then m
  else
    let m := set_process None m in
    if expectedStop m then set_expectedStop false m
    else update now (fun s => set_LastError ("minecraft exited: " +:+ err) (set_Phase Failed s)) m.

Definition fail (now : Z) (id : string) (err : error) (m : mgr) : mgr :=
  update now (fun s => set_LastError (error_text err) (set_ActiveID id (set_Phase Failed s))) m.

(** [switchTo]: the check ([None]: nothing to do), and the new state after the old
    pack is saved. *)
Definition switch_enter (now : Z) (id : string) (m : mgr) : option mgr :=
  if negb (bool_decide (phase m = Ready)) || bool_decide (active m = id) then None
  else Some (update now (set_Phase Draining) m).
Definition switch_load (now : Z) (id : string) (m : mgr) : mgr :=
  update now (fun _ => loading_State id) m.

(** [stopAndBackup]: its first section also reads the pack and the process; the
    sections around the RCON [stop]; the outcomes of the backup. *)
Definition stop_enter (now : Z) (m : mgr) : mgr * string * option nat :=
  (update now (set_Phase Saving) m, active m, m_process m).
Definition stop_expect (b : bool) (m : mgr) : mgr := set_expectedStop b m.
Definition stop_backup_failed (now : Z) (err : error) (m : mgr) : mgr :=
  update now (fun s => set_LastError ("backup pending: " +:+ error_text err)
                         (set_BackupPending true s)) m.
Definition stop_backed_up (now : Z) (generation : Z) (m : mgr) : mgr :=
  update now (fun s => set_LastError "" (set_BackupPending false (set_Generation generation s))) m.

(** [Shutdown]: [None] when there is nothing to stop; and its last section. *)
Definition shutdown_enter (now : Z) (m : mgr) : option mgr :=
  if bool_decide (phase m = Idle) || bool_decide (m_process m = None) then None
  else Some (update now (set_Phase Draining) m).
Definition become_idle (now : Z) (m : mgr) : mgr := update now (fun _ => phase_State Idle) m.

(** [tick]: what the first section decides, the section after the status query
    ([Err]: the query failed) with the decision to stop, and the section of the
    goroutine that stops an idle pack. *)
Inductive tick_next := TickExit | TickSkip | TickQuery (id : string).
Definition tick_enter (now : Z) (m : mgr) : tick_next :=
  if bool_decide (phase m = Idle) && negb (loginSeen m)
     && (StatusIdleExit (RuntimeCfg cfg) <=? now - lastActivity m) then TickExit
  else if bool_decide (phase m = Ready) then TickQuery (active m) else TickSkip.
Definition tick_query (now : Z) (players : result Z) (m : mgr) : mgr * bool :=
  match players with
  | Err _ => (update now (set_EmptySince None) m, false)
  | Ok n =>
      let m := update now (fun s =>
        if 0 <? n then set_EmptySince None s
        else match EmptySince s with
             | None => set_EmptySince (Some now) s
             | Some _ => s end) m in
      (m, match EmptySince (m_state m) with
          | Some e => IdleBeforeStop (RuntimeCfg cfg) <=? now - e
          | None => false end)
  end.
Definition idle_enter (now : Z) (m : mgr) : option mgr :=
  if negb (bool_decide (phase m = Ready)) then None
  else Some (update now (set_Phase Draining) m).
End Sections.

(** ** Reading the fields behind a save *)

Create Rewrite HintDb lifecycle.

Lemma save_state now m : m_state (save now m) = m_state m.
Proof. unfold save. by destruct (m_faults m) as [|[] l]. Qed.
Lemma save_process now m : m_process (save now m) = m_process m.
Proof. unfold save. by destruct (m_faults m) as [|[] l]. Qed.
Lemma save_expectedStop now m : expectedStop (save now m) = expectedStop m.
Proof. unfold save. by destruct (m_faults m) as [|[] l]. Qed.
Lemma update_state now f m : m_state (update now f m) = f (m_state m).
Proof. unfold update. by rewrite save_state. Qed.
Lemma update_process now f m : m_process (update now f m) = m_process m.
Proof. unfold update. by rewrite save_process. Qed.
Lemma update_phase now f m : phase (update now f m) = st_Phase (f (m_state m)).
Proof. unfold phase. by rewrite update_state. Qed.
Lemma update_active now f m : active (update now f m) = ActiveID (f (m_state m)).
Proof. unfold active. by rewrite update_state. Qed.
#[export] Hint Rewrite save_state save_process save_expectedStop update_state update_process
  update_phase update_active : lifecycle.
