(* ===== verification/Manager.v ===== *)
(** * The manager's goroutines ([internal/runtime/manager.go])

    The daemon as a transition system: the manager's fields, the goroutines that
    work on them, and the world they act on (the instance directories, the backup
    store, the running processes).  A step is an event: a goroutine runs to its
    next call or critical section, with the outcome of the call it was in; a player
    arrives; a process exits; time passes; the machine crashes and boots.  [exec]
    computes the next configuration, so that runs can be evaluated. *)
From Stdlib Require Import String Ascii.
From S2P Require Import Prelude GoStrings GoJson JsonText Config Lock StateFile Lifecycle.

(** ** The world *)

(** What a [server] directory or an archive holds: the world of a pack, as the
    number of its last change, or what is left of one after an incomplete removal
    or upload. *)
Inductive content := World (version : nat) | Torn.
#[global] Instance content_eq_dec : EqDecision content.
Proof. solve_decision. Defined.

(** The backups of a pack: the archives and the manifests by generation.  Equal
    contents stand for equal sizes and SHA-256 digests. *)
Record remote := mkRemote { archives : gmap Z content; manifests : gmap Z content }.
Definition no_backups : remote := mkRemote ∅ ∅.

Definition complete (r : remote) (g : Z) : bool :=
  match manifests r !! g, archives r !! g with
  | Some c, Some c' => bool_decide (c = c') && (0 <? g)
  | _, _ => false
  end.
(** [Head]: the highest complete generation. *)
Definition head_of (r : remote) : option (Z * content) :=
  let g := foldr Z.max 0 (List.filter (complete r) (map fst (map_to_list (manifests r)))) in
  (fun c => (g, c)) <$> (if complete r g then archives r !! g else None).

(** [latest] is what the players of a pack saw last; no code reads it. *)
Record world := mkWorld {
  local : gmap string content; remotes : gmap string remote; procs : gmap nat string;
  next_pid : nat; now : Z; latest : gmap string nat }.

Definition backups (id : string) (w : world) : remote := default no_backups (remotes w !! id).
Definition head (id : string) (w : world) : option (Z * content) := head_of (backups id w).

Definition set_local (l : gmap string content) (w : world) : world :=
  mkWorld l (remotes w) (procs w) (next_pid w) (now w) (latest w).
Definition set_backups (id : string) (r : remote) (w : world) : world :=
  mkWorld (local w) (<[id := r]> (remotes w)) (procs w) (next_pid w) (now w) (latest w).
Definition set_procs (p : gmap nat string) (w : world) : world :=
  mkWorld (local w) (remotes w) p (next_pid w) (now w) (latest w).
Definition set_now (t : Z) (w : world) : world :=
  mkWorld (local w) (remotes w) (procs w) (next_pid w) t (latest w).

(** A new world, where there is none. *)
Definition create_world (id : string) (v : nat) (w : world) : world :=
  match local w !! id with
  | Some _ => w
  | None =>
      mkWorld (<[id := World v]> (local w)) (remotes w) (procs w) (next_pid w) (now w)
        (match latest w !! id with Some _ => latest w | None => <[id := v]> (latest w) end)
  end.
(** Players change the world of a running pack; what they build on a damaged world
    does not make it whole. *)
Definition play (id : string) (v : nat) (w : world) : world :=
  match local w !! id with
  | Some (World _) =>
      mkWorld (<[id := World v]> (local w)) (remotes w) (procs w) (next_pid w) (now w)
        (<[id := v]> (latest w))
  | _ => w
  end.
Definition launch (id : string) (w : world) : world :=
  mkWorld (local w) (remotes w) (<[next_pid w := id]> (procs w)) (S (next_pid w)) (now w) (latest w).

(** ** The goroutines *)

(** Where [start] is: before the lookup of the pack, in the call of the sizer,
    behind it, at the check of the instance, in [Restore], in the identity check,
    before the section behind it, in the launcher, before the attachment, in the
    polling loop, before [Ready]. *)
Inductive start_pc :=
  | SLookup | SSizer | SSized | SStat | SRestore (g : Z)
  | SIdentity (head : option Z) (headErr : bool) | SRecord (head : option Z) (headErr : bool)
  | SLaunch | SAttach (p : nat) | SPoll (p : nat) (deadline : Z) | SReady.

(** Where [stopAndBackup] is: its sections and calls in order; from [BHead] to
    [BVerify] it is in [Commit]. *)
Inductive stop_pc :=
  | BEnter | BSaveAll (p : nat) | BExpect (p : nat) | BStop (p : nat) | BUnexpect (e : error)
  | BWaitExit (p : nat) (deadline : Z) | BCheck (p : nat) | BGeneration
  | BHead (expected : Z) | BArchive (expected : Z) | BManifest (gen : Z) (c : content)
  | BVerify (gen : Z) (c : content) | BFailed (e : error) | BRecord (gen : Z) | BEvict.

(** Who called [stopAndBackup]: [switchTo], the idle stop of [tick] (for the pack
    [tick] saw), or [Shutdown], which may have returned when its context expired. *)
Inductive stop_cont := KSwitch (id : string) | KIdle (id : string) | KShutdown (expired : bool).

Inductive thread :=
  | TStart (id : string) (recovery : bool) (pc : start_pc)
  | TWait (p : nat)
  | TSwitch (id : string)              (* [switchTo] before its first section *)
  | TIdle (id : string)                (* the goroutine of [tick] before its first section *)
  | TStop (k : stop_cont) (id : string) (pc : stop_pc)
  | TSwitched (id : string)            (* [switchTo] behind a good backup *)
  | TIdled                             (* the goroutine of [tick] behind a good backup *)
  | TShutdownDone                      (* [Shutdown] behind a good backup *)
  | TFail (id : string) (e : error) (signal : bool)
  | TSignal
  | TWaitReady (id : string) (deadline : Z) (wake : option Z)
  | TTick (id : string)                (* [tick] in its status query *)
  | TAnswered (ok : bool) (message : string).

Record conf := mkConf {
  cm : mgr; cw : world; threads : gmap nat thread; next_tid : nat }.

(** What a call came to. *)
Inductive outcome :=
  | Fine
  | Fails (e : error)
  | Partly (e : error)                 (* a failure that left half of the work *)
  | Resized                            (* the sizer changed the machine *)
  | Players (n : Z)                    (* a status answer *)
  | Launched (v : nat)                 (* the process runs; [v]: the world it generates *)
  | NotLaunched (v : nat) (e : error)  (* the directory was made, the launch failed *)
  | Closed                             (* the manager's context is done *)
  | Stale (g : option Z).              (* [Head] missed backups: the generation it reports *)

(** What [Head] reports when it returns no error: the newest complete backup, or, since it
    passes over a generation whose files it cannot open or read, any complete one, or
    none. *)
Definition head_answer (id : string) (o : outcome) (w : world) : option (option (Z * content)) :=
  match o with
  | Fine => Some (head id w)
  | Stale None => Some None
  | Stale (Some g) =>
      if complete (backups id w) g then (fun c => Some (g, c)) <$> archives (backups id w) !! g else None
  | _ => None
  end.

Inductive event :=
  | EvEnsure (id : string) | EvTouch | EvTick | EvShutdown | EvExpire (tid : nat)
  | EvStep (tid : nat) (o : outcome)
  | EvExit (p : nat) | EvPlay (p : nat) (v : nat) | EvAdvance (dt : Z)
  | EvCrash.

Section Exec.
Context (cfg : Config) (lock : LockFile).
(** Whether [NewManager] got a sizer. *)
Context (sizer : bool).

(** The result of a step: the manager, the world, what the goroutine becomes (or that
    it ends), and the goroutines it starts. *)
Definition stepped : Type := mgr * world * option thread * list thread.
Definition goto (t : thread) (m : mgr) (w : world) : option stepped := Some (m, w, Some t, []).
Definition ends (m : mgr) (w : world) : option stepped := Some (m, w, None, []).

(** *** [start] *)
Definition start_step (id : string) (recovery : bool) (pc : start_pc) (o : outcome)
    (m : mgr) (w : world) : option stepped :=
  let at_pc pc := TStart id recovery pc in
  let failed e m w := goto (TFail id e false) m w in
  match pc with
  | SLookup =>
      match Packs cfg !! id with
      | None => failed (Errorf "pack removed from config") m w
      | Some _ =>
          if sizer then
            match start_resize (now w) id m with
            | None => ends m w
            | Some m' => goto (at_pc SSizer) m' w
            end
          else goto (at_pc SStat) m w
      end
  | SSizer =>
      match o with
      | Fails e => failed (Wrapf "resize Fly Machine" e) m w
      | Resized => ends m w
      | Fine => goto (at_pc SSized) m w
      | _ => None
      end
  | SSized =>
      match start_resized (now w) id recovery m with
      | None => ends m w
      | Some m' => goto (at_pc SStat) m' w
      end
  | SStat =>
      (* [os.Stat] and [Head]: [Partly] is a failure of the former *)
      match o, local w !! id with
      | Partly e, _ => failed e m w
      | Fails e, None => failed (Wrapf "check backup before first start" e) m w
      | Fails e, Some _ => goto (at_pc (SIdentity None true)) m w
      | _, None =>
          h ← head_answer id o w;
          match h with
          | Some (g, _) => goto (at_pc (SRestore g)) m w
          | None => goto (at_pc (SIdentity None false)) m w
          end
      | _, Some _ => h ← head_answer id o w; goto (at_pc (SIdentity (fst <$> h) false)) m w
      end
  | SRestore g =>
      match o with
      | Fails e => failed (Wrapf "restore" e) m w
      | _ =>
          (* [Restore] asks for the head again *)
          h ← head_answer id o w;
          match h, local w !! id with
          | None, _ => failed (Wrapf "restore" ErrNotExist) m w
          | Some _, Some _ => failed (Wrapf "restore" (Errorf "restore destination already exists")) m w
          | Some (_, c), None =>
              goto (at_pc (SIdentity (Some g) false)) m (set_local (<[id := c]> (local w)) w)
          end
      end
  | SIdentity h he =>
      match o with
      | Fails e => failed e m w
      | Fine => goto (at_pc (SRecord h he)) m w
      | _ => None
      end
  | SRecord h he => goto (at_pc SLaunch) (start_record (now w) h he m) w
  | SLaunch =>
      match o with
      | Launched v => goto (at_pc (SAttach (next_pid w))) m (launch id (create_world id v w))
      | NotLaunched v e => failed e m (create_world id v w)
      | Fails e => failed e m w
      | _ => None
      end
  | SAttach p =>
      match start_attach id p m with
      | None => ends m w
      | Some m' =>
          Some (m', w, Some (at_pc (SPoll p (now w + StartupTimeout (RuntimeCfg cfg)))), [TWait p])
      end
  | SPoll p deadline =>
      if now w <? deadline then
        match o with
        | Players _ => goto (at_pc SReady) m w
        | Fails _ => goto (at_pc pc) m w
        | Closed => ends m w
        | _ => None
        end
      else failed (Errorf "minecraft did not become ready") m w
  | SReady => ends (start_ready (now w) id m) w
  end.

(** *** [stopAndBackup] *)

(** The caller of [stopAndBackup] takes its result. *)
Definition finish (k : stop_cont) (r : option error) (m : mgr) (w : world) : option stepped :=
  match k, r with
  | KSwitch _, Some e => goto (TFail (active m) e true) m w
  | KSwitch next, None => goto (TSwitched next) m w
  | KIdle id, Some e => goto (TFail id e true) m w
  | KIdle _, None => goto TIdled m w
  | KShutdown _, Some _ => ends m w
  | KShutdown expired, None => if expired then ends m w else goto TShutdownDone m w
  end.

Definition next_generation (expected : Z) : Z := uint64 (expected + 1).

Definition put_archive (g : Z) (c : content) (r : remote) : remote :=
  mkRemote (<[g := c]> (archives r)) (manifests r).
Definition put_manifest (g : Z) (c : content) (r : remote) : remote :=
  mkRemote (archives r) (<[g := c]> (manifests r)).

(** [Commit], call by call: the check of the head, the upload of the archive (which
    walks the directory as it is then), the upload of the manifest, the
    verification. *)
Definition commit_step (id : string) (pc : stop_pc) (o : outcome) (w : world)
    : option (world * stop_pc) :=
  match pc with
  | BHead expected =>
      match o with
      | Fails e => Some (w, BFailed e)
      | _ =>
          h ← head_answer id o w;
          match h with
          | Some (g, _) =>
              if g =? expected then Some (w, BArchive expected) else Some (w, BFailed ErrGenerationConflict)
          | None =>
              if expected =? 0 then Some (w, BArchive expected) else Some (w, BFailed ErrGenerationConflict)
          end
      end
  | BArchive expected =>
      (* without a directory the walk fails before a byte is sent *)
      let gen := next_generation expected in
      match o, local w !! id with
      | Fails e, _ => Some (w, BFailed (Wrapf "upload backup archive" e))
      | Partly e, Some _ =>
          Some (set_backups id (put_archive gen Torn (backups id w)) w,
                BFailed (Wrapf "upload backup archive" e))
      | Fine, None => Some (w, BFailed (Wrapf "create backup archive" ErrNotExist))
      | Fine, Some c =>
          Some (set_backups id (put_archive gen c (backups id w)) w, BManifest gen c)
      | _, _ => None
      end
  | BManifest gen c =>
      match o with
      | Fails e => Some (w, BFailed e)
      | Fine => Some (set_backups id (put_manifest gen c (backups id w)) w, BVerify gen c)
      | _ => None
      end
  | BVerify gen c =>
      match o with
      | Fails e => Some (w, BFailed (Wrapf "verify backup generation" e))
      | _ =>
          h ← head_answer id o w;
          if bool_decide (h = Some (gen, c)) then Some (w, BRecord gen)
          else Some (w, BFailed (Errorf ("backup generation " +:+ Itoa gen +:+ " could not be verified")))
      end
  | _ => None
  end.

Definition stop_step (k : stop_cont) (id : string) (pc : stop_pc) (o : outcome)
    (m : mgr) (w : world) : option stepped :=
  let at_pc pc := TStop k id pc in
  match pc with
  | BEnter =>
      let '(m', id', proc) := stop_enter (now w) m in
      goto (TStop k id' (match proc with Some p => BSaveAll p | None => BGeneration end)) m' w
  | BSaveAll p =>
      match o with
      | Fails e => finish k (Some (Wrapf "save-all" e)) m w
      | Fine => goto (at_pc (BExpect p)) m w
      | _ => None
      end
  | BExpect p => goto (at_pc (BStop p)) (stop_expect true m) w
  | BStop p =>
      match o with
      | Fails e => goto (at_pc (BUnexpect e)) m w
      | Fine => goto (at_pc (BWaitExit p (now w + ShutdownTimeout (RuntimeCfg cfg)))) m w
      | _ => None
      end
  | BUnexpect e => finish k (Some (Wrapf "stop" e)) (stop_expect false m) w
  | BWaitExit p deadline =>
      if (now w <? deadline) && negb (bool_decide (m_process m = None))
      then goto (at_pc pc) m w else goto (at_pc (BCheck p)) m w
  | BCheck p =>
      if negb (bool_decide (m_process m = None))
      then finish k (Some (Errorf "minecraft did not stop in time")) m w
      else goto (at_pc BGeneration) m w
  | BGeneration => goto (at_pc (BHead (Generation (m_state m)))) m w
  | BFailed e => finish k (Some (Wrapf "backup" e)) (stop_backup_failed (now w) e m) w
  | BRecord gen =>
      let m' := stop_backed_up (now w) gen m in
      if EvictAfterBackup (Storage cfg) then goto (at_pc BEvict) m' w else finish k None m' w
  | BEvict =>
      match o with
      | Fine => finish k None m (set_local (delete id (local w)) w)
      | Partly _ =>
          goto (at_pc pc) m
            (set_local (match local w !! id with
                        | Some _ => <[id := Torn]> (local w) | None => local w end) w)
      | Fails e => finish k (Some (Wrapf ("evict verified local pack " +:+ id) e)) m w
      | _ => None
      end
  | _ => '(w', pc') ← commit_step id pc o w; goto (at_pc pc') m w'
  end.

(** *** The other goroutines *)

Definition poll_interval : Z := 250 * 10 ^ 6.

Definition thread_step (t : thread) (o : outcome) (m : mgr) (w : world) : option stepped :=
  match t with
  | TStart id recovery pc => start_step id recovery pc o m w
  | TStop k id pc => stop_step k id pc o m w
  | TWait p =>
      match procs w !! p with
      | Some _ => None
      | None =>
          ends (waitProcess_section (now w) p
                  (match o with Fails e => error_text e | _ => "<nil>" end) m) w
      end
  | TSwitch id =>
      match switch_enter (now w) id m with
      | None => ends m w
      | Some m' => goto (TStop (KSwitch id) "" BEnter) m' w
      end
  | TIdle id =>
      match idle_enter (now w) m with
      | None => ends m w
      | Some m' => goto (TStop (KIdle id) "" BEnter) m' w
      end
  | TSwitched id => goto (TStart id false SLookup) (switch_load lock (now w) id m) w
  | TIdled => goto TSignal (become_idle (now w) m) w
  | TShutdownDone => ends (become_idle (now w) m) w
  | TFail id e signal =>
      let m' := fail (now w) id e m in if signal then goto TSignal m' w else ends m' w
  | TSignal => ends (signalDone m) w
  | TWaitReady id deadline None =>
      if now w <? deadline then goto (TWaitReady id deadline (Some (now w + poll_interval))) m w
      else let '(ok, msg) := waitReady_timeout cfg id in goto (TAnswered ok msg) m w
  | TWaitReady id deadline (Some wake) =>
      if now w <? wake then None
      else match waitReady_poll cfg id m with
           | Some (ok, msg) => goto (TAnswered ok msg) m w
           | None => goto (TWaitReady id deadline None) m w
           end
  | TTick id =>
      match (match o with Players n => Some (Ok n) | Fails e => Some (Err e) | _ => None end) with
      | None => None
      | Some players =>
          let '(m', stop) := tick_query cfg (now w) players m in
          Some (m', w, if stop then Some (TIdle id) else None, [])
      end
  | TAnswered _ _ => None
  end.

(** ** Configurations *)

Fixpoint spawn (ts : list thread) (n : nat) (th : gmap nat thread) : nat * gmap nat thread :=
  match ts with
  | [] => (n, th)
  | t :: ts' => spawn ts' (S n) (<[n := t]> th)
  end.

Definition with_threads (ts : list thread) (m : mgr) (w : world) (c : conf) : conf :=
  let '(n, th) := spawn ts (next_tid c) (threads c) in mkConf m w th n.

(** What [Load] gives [NewManager] of [active.json]: of a missing file the idle state, of
    one it cannot read or parse an error. *)
Definition as_loaded (s : State) : State :=
  if bool_decide (st_Phase s = OtherPhase "") then set_Phase Idle s else s.
Definition reload (disk : option (result State)) : result State :=
  match disk with
  | None => Ok (phase_State Idle)
  | Some (Ok s) => Ok (as_loaded s)
  | Some (Err e) => Err e
  end.

(** A daemon that starts: over what a previous one left. *)
Definition boot (loaded : result State) (disk : option (result State)) (faults : list bool) (w : world) : conf :=
  let '(m, restart) := NewManager (now w) loaded disk faults in
  with_threads (match restart with Some id => [TStart id true SLookup] | None => [] end)
    m (set_procs ∅ w) (mkConf m w ∅ 0).

Definition exec (c : conf) (e : event) : option conf :=
  let m := cm c in let w := cw c in
  match e with
  | EvEnsure id =>
      let '(m', next) := Ensure_section cfg lock (now w) id m in
      let wait := TWaitReady id (now w + StartupWait (RuntimeCfg cfg)) None in
      Some (with_threads
        (match next with
         | StartAndWait => [TStart id false SLookup; wait]
         | WaitReady => [wait]
         | Answer ok msg => [TAnswered ok msg]
         | SwitchAndAnswer msg => [TSwitch id; TAnswered false msg]
         end) m' w c)
  | EvTouch => Some (mkConf (Touch (now w) m) w (threads c) (next_tid c))
  | EvTick =>
      match tick_enter cfg (now w) m with
      | TickExit => Some (mkConf (signalDone m) w (threads c) (next_tid c))
      | TickSkip => Some c
      | TickQuery id => Some (with_threads [TTick id] m w c)
      end
  | EvShutdown =>
      match shutdown_enter (now w) m with
      | None => Some c
      | Some m' => Some (with_threads [TStop (KShutdown false) "" BEnter] m' w c)
      end
  | EvExpire i =>
      match threads c !! i with
      | Some (TStop (KShutdown _) id pc) =>
          Some (mkConf m w (<[i := TStop (KShutdown true) id pc]> (threads c)) (next_tid c))
      | _ => None
      end
  | EvStep i o =>
      t ← threads c !! i;
      '(m', w', t', ts) ← thread_step t o m w;
      let th := match t' with Some t' => <[i := t']> (threads c) | None => delete i (threads c) end in
      Some (with_threads ts m' w' (mkConf m' w' th (next_tid c)))
  | EvExit p => Some (mkConf m (set_procs (delete p (procs w)) w) (threads c) (next_tid c))
  | EvPlay p v =>
      id ← procs w !! p; Some (mkConf m (play id v w) (threads c) (next_tid c))
  | EvAdvance dt =>
      if 0 <=? dt then Some (mkConf m (set_now (now w + dt) w) (threads c) (next_tid c)) else None
  | EvCrash => Some (boot (reload (m_disk m)) (m_disk m) (m_faults m) w)
  end.

Fixpoint run (c : conf) (es : list event) : option conf :=
  match es with
  | [] => Some c
  | e :: es' => c' ← exec c e; run c' es'
  end.
End Exec.
