(* ===== verification/ManagerSafety.v ===== *)
(** * What the lifecycle guarantees

    Invariants of the transition system of [Manager.v].  A run is orderly when no
    start is retried and no shutdown accepted while another start or stop is under
    way, and when the machine does not crash in the middle of a removal: in
    orderly runs at most one Minecraft process is alive, and no world is lost unless
    [Head] silently misses a backup where a world depends on it ([trusted]). *)
From Stdlib Require Import String Ascii.
From S2P Require Import Prelude GoStrings GoJson JsonText Config Lock StateFile Lifecycle Manager.

(** ** Starts and stops under way *)

Definition is_worker (t : thread) : bool :=
  match t with
  | TStart _ _ _ | TStop _ _ _ | TSwitched _ | TIdled | TShutdownDone | TFail _ _ _ => true
  | _ => false
  end.
Definition idle_threads (th : gmap nat thread) : bool :=
  forallb (fun it => negb (is_worker (snd it))) (map_to_list th).
Definition intact (w : world) : bool :=
  forallb (fun ic => negb (bool_decide (snd ic = Torn))) (map_to_list (local w)).

Section Safety.
Context (cfg : Config) (lock : LockFile) (sizer : bool).

Definition retries (id : string) (m : mgr) : bool :=
  bool_decide (phase m = Failed) && bool_decide (active m = id) && bool_decide (m_process m = None).

Definition orderly (c : conf) (e : event) : bool :=
  match e with
  | EvEnsure id => if retries id (cm c) then idle_threads (threads c) else true
  | EvShutdown =>
      match shutdown_enter (now (cw c)) (cm c) with
      | Some _ => idle_threads (threads c) | None => true end
  | EvCrash => intact (cw c)
  | EvStep i (Fails _) =>
      match threads c !! i with
      | Some (TStop _ id BEvict) => negb (bool_decide (local (cw c) !! id = Some Torn))
      | _ => true
      end
  | _ => true
  end.

(** An orderly step, and the configurations orderly runs reach. *)
Definition step (c c' : conf) : Prop :=
  exists e, orderly c e = true /\ exec cfg lock sizer c e = Some c'.

(** [Head] can miss a backup without an error.  What it reports is trusted where a world
    depends on it: when a start finds no directory, in the restore, and in the
    verification before the directory may be removed.  At the other calls, the head of a
    start over a directory and the check of a commit, it may report anything. *)
Definition trusted (c : conf) (e : event) : bool :=
  match e with
  | EvStep i (Stale _) =>
      match threads c !! i with
      | Some (TStart id _ SStat) => negb (bool_decide (local (cw c) !! id = None))
      | Some (TStart _ _ (SRestore _)) | Some (TStop _ _ (BVerify _ _)) => false
      | _ => true
      end
  | _ => true
  end.
Definition trusted_step (c c' : conf) : Prop :=
  exists e, orderly c e = true /\ trusted c e = true /\ exec cfg lock sizer c e = Some c'.

(** ** The invariant *)

Section Invariant.
(** Whether what [Head] reports is trusted so far: the part of the invariant that is about
    the worlds depends on it, the part about the processes does not. *)
Context (G : Prop).

(** The process a start has launched and not attached yet. *)
Definition held (o : option thread) : option nat :=
  match o with Some (TStart _ _ (SAttach p)) => Some p | _ => None end.
Definition evicting (o : option thread) (id : string) : Prop :=
  exists k, o = Some (TStop k id BEvict).
Definition backed_up (id : string) (w : world) : Prop :=
  exists g v, head id w = Some (g, World v) /\ latest w !! id = Some v.

Definition start_inv (id : string) (pc : start_pc) (m : mgr) (w : world) : Prop :=
  active m = id
  /\ (match pc with SPoll _ _ | SReady => True | _ => m_process m = None end)
  /\ (match pc with
      | SIdentity _ _ | SRecord _ _ | SLaunch => G -> local w !! id = None -> head id w = None
      | _ => True end).
Definition stop_inv (id : string) (pc : stop_pc) (m : mgr) (w : world) : Prop :=
  match pc with
  | BGeneration | BHead _ | BArchive _ => m_process m = None
  | BManifest _ c | BVerify _ c =>
      m_process m = None /\ (G -> exists v, c = World v /\ local w !! id = Some c)
  | BRecord _ => m_process m = None
      /\ (G -> backed_up id w /\ exists v, local w !! id = Some (World v))
  | BEvict => m_process m = None /\ (G -> backed_up id w)
  | _ => True
  end.
Definition thread_inv (t : thread) (m : mgr) (w : world) : Prop :=
  match t with
  | TStart id _ pc => start_inv id pc m w
  | TStop _ id pc => stop_inv id pc m w
  | TSwitched _ | TIdled | TShutdownDone => m_process m = None
  | _ => True
  end.

Definition data_inv (o : option thread) (w : world) (id : string) : Prop :=
  match local w !! id with
  | Some (World v) => latest w !! id = Some v
  | Some Torn => evicting o id
  | None => match latest w !! id with
            | Some v => exists g, head id w = Some (g, World v)
            | None => head id w = None end
  end.

(** [o] is the start or stop under way. *)
Record core (o : option thread) (m : mgr) (w : world) : Prop := {
  c_procs : forall p id, procs w !! p = Some id -> m_process m = Some p \/ held o = Some p;
  c_idle : phase m = Idle -> m_process m = None;
  c_busy : forall t, o = Some t -> phase m <> Idle /\ phase m <> Ready /\ thread_inv t m w;
  c_data : G -> forall id, data_inv o w id }.

Definition workers (th : gmap nat thread) (o : option (nat * thread)) : Prop :=
  match o with
  | None => forall i t, th !! i = Some t -> is_worker t = false
  | Some (i, t) => th !! i = Some t /\ is_worker t = true
      /\ forall j t', th !! j = Some t' -> is_worker t' = true -> j = i
  end.
Record inv (c : conf) : Prop := {
  i_tids : forall i, is_Some (threads c !! i) -> (i < next_tid c)%nat;
  i_core : exists o, workers (threads c) o /\ core (snd <$> o) (cm c) (cw c) }.

(** *** Single threads *)

Definition as_worker (t : option thread) : option thread :=
  match t with Some t => if is_worker t then Some t else None | None => None end.

(** What changes of the manager's fields keep the invariant of the others. *)
Lemma thread_inv_frame t m m' w :
  active m' = active m -> (m_process m = None -> m_process m' = None) ->
  thread_inv t m w -> thread_inv t m' w.
Proof.
  intros Ha Hp. destruct t as [id r pc| | | |k id pc| | | | | | | |]; cbn; auto.
  - unfold start_inv. rewrite Ha. intros (? & ? & ?). split_and!; [done| |done]. destruct pc; auto.
  - unfold stop_inv. destruct pc; auto; intros [? ?]; auto.
Qed.

Lemma data_inv_none o w id : data_inv o w id -> (forall k, o <> Some (TStop k id BEvict)) ->
  forall o', data_inv o' w id.
Proof.
  unfold data_inv, evicting. intros H Ho o'. destruct (local w !! id) as [[]|]; [done| |done].
  destruct H as [k ->]. by destruct (Ho k).
Qed.

Lemma core_same_world o o' m m' w :
  core o m w ->
  (forall p, m_process m = Some p -> m_process m' = Some p \/ held o' = Some p) ->
  (forall p, held o = Some p -> m_process m' = Some p \/ held o' = Some p) ->
  (phase m' = Idle -> m_process m' = None) ->
  (forall t, o' = Some t -> phase m' <> Idle /\ phase m' <> Ready /\ thread_inv t m' w) ->
  (forall id, evicting o id -> evicting o' id \/ local w !! id <> Some Torn) ->
  core o' m' w.
Proof.
  intros [Hp Hi Hb Hd] H1 H2 H3 H4 H5. split; [|done|done|].
  - intros p id Hpid. destruct (Hp p id Hpid); eauto.
  - intros g id. specialize (Hd g id). unfold data_inv in *.
    destruct (local w !! id) as [[]|] eqn:E; [done| |done]. by destruct (H5 id Hd).
Qed.

(** The start or stop under way goes on or ends, the world stays. *)
Lemma core_start_to id r pc m w o' m' :
  core (Some (TStart id r pc)) m w ->
  m_process m' = m_process m ->
  (forall p, pc <> SAttach p) ->
  (phase m' = Idle -> m_process m' = None) ->
  (forall t, o' = Some t -> phase m' <> Idle /\ phase m' <> Ready /\ thread_inv t m' w) ->
  core o' m' w.
Proof.
  intros Hc Hp Hpc Hi Hb. eapply core_same_world; [exact Hc|..|done|done|].
  - intros p. rewrite Hp. auto.
  - intros p. destruct pc; cbn; try done. intros [= ->]. by destruct (Hpc p).
  - by intros id' [k [=]].
Qed.

Lemma core_fail id r pc m w e b :
  core (Some (TStart id r pc)) m w -> (forall p, pc <> SAttach p) -> core (Some (TFail id e b)) m w.
Proof.
  intros Hc Hpc. destruct (c_busy _ _ _ Hc _ eq_refl) as (Hi & Hr & _).
  eapply core_start_to; [exact Hc|done|done|done|]. by intros t [= <-].
Qed.

Lemma launch_fields id w : local (launch id w) = local w /\ remotes (launch id w) = remotes w
  /\ latest (launch id w) = latest w.
Proof. done. Qed.

(** A new world appears only where there is none and no backup. *)
Lemma create_world_data o id v w :
  (forall id, data_inv o w id) -> (local w !! id = None -> head id w = None) ->
  forall id', data_inv o (create_world id v w) id'.
Proof.
  intros Hd Hh id'. unfold create_world. destruct (local w !! id) eqn:E; [done|].
  unfold data_inv, head, backups. cbn. destruct (decide (id' = id)) as [->|Hne].
  - rewrite lookup_insert_eq. specialize (Hd id). unfold data_inv in Hd. rewrite E in Hd.
    specialize (Hh eq_refl). destruct (latest w !! id) as [u|] eqn:El.
    + destruct Hd as [g Hg]. congruence.
    + by rewrite lookup_insert_eq.
  - rewrite lookup_insert_ne by done. specialize (Hd id'). unfold data_inv, head, backups in Hd.
    destruct (latest w !! id); [done|]. by rewrite lookup_insert_ne by done.
Qed.

Lemma create_world_head id v w id' : head id' (create_world id v w) = head id' w.
Proof. unfold create_world. by destruct (local w !! id). Qed.
Lemma create_world_procs id v w : procs (create_world id v w) = procs w.
Proof. unfold create_world. by destruct (local w !! id). Qed.

Lemma create_world_next_pid id v w : next_pid (create_world id v w) = next_pid w.
Proof. unfold create_world. by destruct (local w !! id). Qed.

Lemma restore_data o id g c w :
  (forall id, data_inv o w id) -> local w !! id = None -> head id w = Some (g, c) ->
  forall id', data_inv o (set_local (<[id := c]> (local w)) w) id'.
Proof.
  intros Hd Hl Hh id'. unfold data_inv, head, backups. cbn. destruct (decide (id' = id)) as [->|Hne].
  - rewrite lookup_insert_eq. specialize (Hd id). unfold data_inv in Hd. rewrite Hl in Hd.
    destruct (latest w !! id) as [v|] eqn:El; [|congruence]. destruct Hd as [g' Hg].
    rewrite Hh in Hg. by injection Hg as -> ->.
  - rewrite lookup_insert_ne by done. apply Hd.
Qed.

(** The result of a step, when it is known. *)
Ltac result H :=
  match type of H with
  | Some (_, _, _, _) = Some (_, _, _, _) => injection H as <- <- <- <-
  | goto _ _ _ = Some _ => unfold goto in H; injection H as <- <- <- <-
  | ends _ _ = Some _ => unfold ends in H; injection H as <- <- <- <-
  end;
  split; [|by repeat constructor].
(** A start goes on in the same world. *)
Ltac goes_on Hc :=
  eapply core_start_to; [exact Hc|autorewrite with lifecycle; done|done
    |autorewrite with lifecycle; try done; auto|];
  intros ? [= <-]; autorewrite with lifecycle; split_and!; try done;
  cbn; unfold start_inv; autorewrite with lifecycle; auto.

Lemma core_world_change o o' m w w' :
  core o m w -> procs w' = procs w -> held o' = held o ->
  (forall t, o' = Some t -> o <> None /\ thread_inv t m w') ->
  (G -> forall id, data_inv o' w' id) ->
  core o' m w'.
Proof.
  intros [Hp Hi Hb Hd] Hprocs Hh Ht Hd'. split; [|done| |done].
  - intros p id. rewrite Hprocs, Hh. apply Hp.
  - intros t Et. destruct (Ht t Et) as [Ho Hti]. destruct o as [t0|]; [|done].
    destruct (Hb t0 eq_refl) as (? & ? & _). done.
Qed.

Lemma start_data id r pc m w : core (Some (TStart id r pc)) m w ->
  G -> forall o' id', data_inv o' w id'.
Proof. intros Hc g o' id'. eapply data_inv_none; [apply (c_data _ _ _ Hc g)|done]. Qed.

(** A trusted answer, given that nothing failed, is the head. *)
Lemma head_answer_exact id o w h :
  (G -> forall g, o <> Stale g) -> head_answer id o w = Some h -> G -> h = head id w.
Proof. intros Ho H g. destruct o; cbn in H; try done; [by injection H|by destruct (Ho g g0)]. Qed.

Lemma start_step_core id r pc o m w m' w' t' ts :
  core (Some (TStart id r pc)) m w ->
  (G -> match pc with SRestore _ => True | SStat => local w !! id = None | _ => False end ->
    forall g, o <> Stale g) ->
  start_step cfg sizer id r pc o m w = Some (m', w', t', ts) ->
  core (as_worker t') m' w' /\ Forall (fun t => is_worker t = false) ts.
Proof.
  intros Hc Htr H. destruct (c_busy _ _ _ Hc _ eq_refl) as (Hi & Hr & Ha & Hp & Hx).
  assert (forall e b, (forall p, pc <> SAttach p) -> core (Some (TFail id e b)) m w) as Hf
    by (intros; by eapply core_fail).
  pose proof (start_data _ _ _ _ _ Hc) as Hd.
  destruct pc as [| | | |g|h he|h he| |q|q deadline|]; cbn in H, Hp, Hx.
  - (* SLookup *) destruct (Packs cfg !! id); [|result H; by apply Hf].
    destruct sizer; [|result H; goes_on Hc].
    unfold start_resize in H. rewrite Ha, bool_decide_eq_true_2 in H by done. cbn in H.
    result H. goes_on Hc.
  - (* SSizer *) destruct o; try done; result H; cbn [as_worker is_worker];
      first [by apply Hf|goes_on Hc].
  - (* SSized *) unfold start_resized in H. rewrite Ha, bool_decide_eq_true_2 in H by done. cbn in H.
    result H. destruct r; goes_on Hc.
  - (* SStat *)
    assert (forall o, match o, local w !! id with
        | Partly e, _ => goto (TFail id e false) m w
        | Fails e, None => goto (TFail id (Wrapf "check backup before first start" e) false) m w
        | Fails e, Some _ => goto (TStart id r (SIdentity None true)) m w
        | _, _ => None end = Some (m', w', t', ts) ->
      core (as_worker t') m' w' /\ Forall (fun t => is_worker t = false) ts) as Hfail.
    { intros []; destruct (local w !! id) as [c|] eqn:El; try done; intros H0; result H0;
        first [by apply Hf|goes_on Hc]. split_and!; [done..|congruence]. }
    assert (forall h, (G -> h = head id w \/ local w !! id <> None) ->
      match local w !! id, h with
      | None, Some (g, _) => goto (TStart id r (SRestore g)) m w
      | None, None => goto (TStart id r (SIdentity None false)) m w
      | Some _, _ => goto (TStart id r (SIdentity (fst <$> h) false)) m w
      end = Some (m', w', t', ts) ->
      core (as_worker t') m' w' /\ Forall (fun t => is_worker t = false) ts) as Hgood.
    { intros h Hh. destruct (local w !! id) as [c|] eqn:El; [|destruct h as [[g c]|]]; intros H0;
        result H0; goes_on Hc; (split_and!; [done..|]); intros g ?; [congruence|].
      by destruct (Hh g) as [<-|]. }
    destruct o as [|e|e| | | | | |g]; try (by apply (Hfail (Fails e))); try (by apply (Hfail (Partly e)));
      [apply (Hgood (head id w)); [by left|]; revert H; cbn; by destruct (local w !! id), (head id w) as [[]|]|..];
      try (by destruct (local w !! id)).
    destruct (head_answer id (Stale g) w) as [h|] eqn:Eh.
    + apply (Hgood h); [|revert H; by destruct (local w !! id), h as [[]|]].
      intros G0. right. intros El. by destruct (Htr G0 El g).
    + by destruct (local w !! id).
  - (* SRestore *)
    assert (forall h, (G -> h = head id w) ->
      match h, local w !! id with
      | None, _ => goto (TFail id (Wrapf "restore" ErrNotExist) false) m w
      | Some _, Some _ =>
          goto (TFail id (Wrapf "restore" (Errorf "restore destination already exists")) false) m w
      | Some (_, c), None => goto (TStart id r (SIdentity (Some g) false)) m (set_local (<[id := c]> (local w)) w)
      end = Some (m', w', t', ts) ->
      core (as_worker t') m' w' /\ Forall (fun t => is_worker t = false) ts) as Hgood.
    { intros [[g' c]|] Hh H0; [|result H0; by apply Hf].
      destruct (local w !! id) as [c'|] eqn:El; result H0; [by apply Hf|].
      eapply core_world_change; [exact Hc|done|done| |].
      - intros t [= <-]. split; [done|]. split_and!; [done..|]. cbn. by rewrite lookup_insert_eq.
      - intros G0. eapply restore_data; [by intros; apply Hd|done|by rewrite <- (Hh G0)]. }
    destruct (head_answer id o w) as [h|] eqn:Eh.
    + pose proof (head_answer_exact id o w h (fun g => Htr g I) Eh) as Hh.
      destruct o; try discriminate Eh; by apply (Hgood h).
    + destruct o; try discriminate. result H. clear Htr. by apply Hf.
  - (* SIdentity *) destruct o; try done; result H; first [by apply Hf|goes_on Hc].
  - (* SRecord *) result H. unfold start_record. destruct h, he; goes_on Hc.
  - (* SLaunch *) destruct o as [|e|e| |n|v|v e| |]; try done; result H.
    + by apply Hf.
    + cbn [as_worker is_worker]. split; cbn.
      * intros p id'. rewrite create_world_procs, create_world_next_pid, lookup_insert.
        case_decide as Hpid; [intros _; right; by rewrite Hpid|]. intros Hq.
        destruct (c_procs _ _ _ Hc p id' Hq) as [?|?]; [congruence|done].
      * done.
      * intros t [= <-]. split_and!; try done.
      * intros g id'. unfold data_inv. cbn. apply (create_world_data _ id v w); [intros; by apply Hd|by apply Hx].
    + eapply core_world_change; [exact Hc|by rewrite create_world_procs|done|by intros t [= <-]|].
      intros g. apply create_world_data; [intros; by apply Hd|by apply Hx].
  - (* SAttach *) unfold start_attach in H. rewrite Ha, bool_decide_eq_true_2 in H by done. cbn in H.
    result H. split; cbn.
    + intros q' id' Hq. left. destruct (c_procs _ _ _ Hc q' id' Hq) as [E|E]; [congruence|].
      cbn in E. done.
    + intros E. by destruct Hi.
    + intros t [= <-]. split_and!; try done.
    + intros g id'. by apply Hd.
  - (* SPoll *) destruct (_ <? _); [destruct o; try done|]; result H; first [by apply Hf|goes_on Hc].
    all: try (intros E; by destruct Hi).
  - (* SReady *) result H. unfold start_ready. case_bool_decide; [|done].
    eapply core_start_to; [exact Hc|by rewrite update_process|done| |done].
    by rewrite update_phase.
Qed.

Lemma core_finish k r m w m' w' t' ts :
  (forall p id, procs w !! p = Some id -> m_process m = Some p) ->
  phase m <> Idle -> phase m <> Ready -> (r = None -> m_process m = None) ->
  (G -> forall o id, data_inv o w id) ->
  finish k r m w = Some (m', w', t', ts) ->
  core (as_worker t') m' w' /\ Forall (fun t => is_worker t = false) ts.
Proof.
  intros Hp Hi Hr Hn Hd H.
  assert (forall t, thread_inv t m w -> core (Some t) m w) as Ht.
  { intros t Hti. split; [eauto|done| |auto]. by intros t0 [= <-]. }
  destruct k as [id|id|ex], r as [e|]; cbn in H; [..|destruct ex]; result H;
    first [apply Ht; cbn; auto; fail|split; [eauto|done|done|auto]].
Qed.

Lemma set_backups_data o id r w :
  local w !! id <> None -> (forall id, data_inv o w id) ->
  forall id', data_inv o (set_backups id r w) id'.
Proof.
  intros Hl Hd id'. specialize (Hd id'). unfold data_inv, head, backups in *. cbn.
  destruct (decide (id' = id)) as [->|Hne].
  - by destruct (local w !! id).
  - by rewrite lookup_insert_ne.
Qed.

Lemma stop_data k id pc m w : core (Some (TStop k id pc)) m w -> pc <> BEvict ->
  G -> forall o' id', data_inv o' w id'.
Proof.
  intros Hc Hpc g o' id'. eapply data_inv_none; [apply (c_data _ _ _ Hc g)|].
  intros k' [= _ _ E]. done.
Qed.

Lemma core_stop_to k id pc pc' id' m w m' :
  core (Some (TStop k id pc)) m w -> pc <> BEvict -> m_process m' = m_process m ->
  phase m' <> Idle -> phase m' <> Ready -> stop_inv id' pc' m' w ->
  core (Some (TStop k id' pc')) m' w.
Proof.
  intros Hc Hpc Hp Hi Hr Hs. split; [|done| |].
  - intros p i Hpi. rewrite Hp. left. destruct (c_procs _ _ _ Hc p i Hpi); [done|discriminate].
  - by intros t [= <-].
  - intros g i. by eapply stop_data.
Qed.

Lemma commit_step_core k id pc o m w w' pc' :
  core (Some (TStop k id pc)) m w ->
  (G -> match pc with BVerify _ _ => forall g, o <> Stale g | _ => True end) ->
  commit_step id pc o w = Some (w', pc') ->
  core (Some (TStop k id pc')) m w'.
Proof.
  intros Hc Htr H. destruct (c_busy _ _ _ Hc _ eq_refl) as (Hi & Hr & Hs). cbn in Hs.
  assert (pc <> BEvict) as Hpc by (destruct pc; done).
  assert (forall pc', stop_inv id pc' m w -> core (Some (TStop k id pc')) m w) as Hto
    by (intros; by eapply core_stop_to).
  assert (forall r pc', local w !! id <> None -> stop_inv id pc' m (set_backups id r w) ->
    core (Some (TStop k id pc')) m (set_backups id r w)) as Hput.
  { intros r pc0 Hl Hpc0. eapply core_world_change; [exact Hc|done|done| |].
    - intros t [= <-]. done.
    - intros g. apply set_backups_data; [done|]. by eapply stop_data. }
  destruct pc; try done; cbn in H, Hs.
  - (* BHead *)
    destruct o; try discriminate; try (injection H as <- <-; by apply Hto);
      (destruct (head_answer id _ w) as [[[g0 c0]|]|]; [..|discriminate]); cbn in H;
      case_match; injection H as <- <-; by apply Hto.
  - (* BArchive *) destruct o; try done; destruct (local w !! id) as [c|] eqn:El; try done;
      injection H as <- <-; try (by apply Hto); apply Hput; rewrite ?El; try done.
    cbn. split; [done|]. intros g. rewrite El. destruct c as [v|]; [eauto|].
    pose proof (c_data _ _ _ Hc g id) as Hd. unfold data_inv in Hd. rewrite El in Hd.
    by destruct Hd as [k' [=]].
  - (* BManifest *) destruct Hs as (Hm & Hs).
    destruct o; try done; injection H as <- <-; [|by apply Hto].
    eapply core_world_change; [exact Hc|done|done| |].
    + intros t [= <-]. done.
    + intros g. destruct (Hs g) as (v & -> & Hl). apply set_backups_data; [by rewrite Hl|].
      by eapply stop_data.
  - (* BVerify *) destruct Hs as (Hm & Hs).
    destruct o; try discriminate; try (injection H as <- <-; by apply Hto);
      (destruct (head_answer id _ w) as [h|] eqn:Eh; [|discriminate]); cbn in H;
      (case_bool_decide as E; injection H as <- <-; apply Hto; [|done]); cbn;
      (split; [done|]); intros G0; destruct (Hs G0) as (v & -> & Hl);
      pose proof (c_data _ _ _ Hc G0 id) as Hd; unfold data_inv in Hd; rewrite Hl in Hd;
      pose proof (head_answer_exact id _ w h Htr Eh G0) as Eh';
      (split; [|eauto]); exists gen, v; split; congruence.
Qed.

Lemma stop_step_core k id pc o m w m' w' t' ts :
  core (Some (TStop k id pc)) m w ->
  (forall e, o = Fails e -> pc = BEvict -> local w !! id <> Some Torn) ->
  (G -> match pc with BVerify _ _ => forall g, o <> Stale g | _ => True end) ->
  stop_step cfg k id pc o m w = Some (m', w', t', ts) ->
  core (as_worker t') m' w' /\ Forall (fun t => is_worker t = false) ts.
Proof.
  intros Hc Ho Htr H. destruct (c_busy _ _ _ Hc _ eq_refl) as (Hi & Hr & Hs). cbn in Hs.
  assert (forall p i, procs w !! p = Some i -> m_process m = Some p) as Hp.
  { intros p i Hpi. destruct (c_procs _ _ _ Hc p i Hpi); [done|discriminate]. }
  assert (pc <> BEvict -> G -> forall o id, data_inv o w id) as Hd by (intros; by eapply stop_data).
  assert (forall pc' m', pc <> BEvict -> m_process m' = m_process m -> phase m' = phase m ->
    stop_inv id pc' m' w -> core (Some (TStop k id pc')) m' w) as Hto.
  { intros pc' m0 ? ? E ?. eapply core_stop_to; [exact Hc|done..| | |done]; by rewrite E. }
  assert (forall e m0, pc <> BEvict -> m_process m0 = m_process m -> phase m0 = phase m ->
    finish k (Some e) m0 w = Some (m', w', t', ts) ->
    core (as_worker t') m' w' /\ Forall (fun t => is_worker t = false) ts) as Hfin.
  { intros e m0 Hpc Em Ep. apply core_finish; [by rewrite Em|by rewrite Ep|by rewrite Ep|done|auto]. }
  destruct pc; cbn in Hs; cbn [stop_step] in H;
    try (match type of H with context [commit_step ?i ?pc ?o ?w] =>
           destruct (commit_step i pc o w) as [[w1 pc1]|] eqn:E end; [|discriminate];
         cbn in H; result H; eapply commit_step_core; [exact Hc|exact Htr|exact E]).
  - (* BEnter *) unfold stop_enter in H. result H. eapply core_stop_to; [exact Hc|done|..];
      autorewrite with lifecycle; try done.
    destruct (m_process m) eqn:E; [done|]. cbn. by rewrite update_process.
  - (* BSaveAll *) destruct o; try done; [result H; by apply Hto|by eapply Hfin].
  - (* BExpect *) result H. by apply Hto.
  - (* BStop *) destruct o; try done; result H; by apply Hto.
  - (* BUnexpect *) by eapply Hfin; [..|exact H].
  - (* BWaitExit *) case_match; result H; by apply Hto.
  - (* BCheck *) case_bool_decide; cbn in H; [result H|by eapply Hfin]. by apply Hto.
  - (* BGeneration *) result H. by apply Hto.
  - (* BFailed *) eapply Hfin; [done|..|exact H]; unfold stop_backup_failed;
      by autorewrite with lifecycle.
  - (* BRecord *) destruct Hs as (Hm & Hb).
    destruct (EvictAfterBackup (Storage cfg)).
    + result H. unfold stop_backed_up. eapply core_stop_to; [exact Hc|done|..];
        autorewrite with lifecycle; try done. cbn. rewrite update_process. split; [done|]. by intros []%Hb.
    + eapply core_finish; [..|exact H]; unfold stop_backed_up; autorewrite with lifecycle; eauto.
  - (* BEvict *) destruct Hs as (Hm & Hb). destruct o as [|e|e| | | | | |]; try done.
    + eapply core_finish; [..|exact H]; try done. intros G0 o i. destruct (Hb G0) as (g & v & Hh & Hv).
      unfold data_inv, head, backups. cbn. destruct (decide (i = id)) as [->|Hne].
      * rewrite lookup_delete_eq, Hv. eauto.
      * rewrite lookup_delete_ne by done. eapply data_inv_none; [apply (c_data _ _ _ Hc G0 i)|].
        intros k' [= _ E]. done.
    + eapply core_finish; [..|exact H]; try done. intros G0 o i.
      pose proof (c_data _ _ _ Hc G0 i) as Hdi. unfold data_inv in *.
      destruct (local w !! i) as [[]|] eqn:El; [done| |done]. destruct Hdi as [k' [= _ E]].
      subst i. by destruct (Ho e eq_refl eq_refl).
    + result H. eapply core_world_change; [exact Hc|done|done| |].
      * intros t [= <-]. split; [done|]. cbn. unfold backed_up, head, backups. cbn. eauto.
      * intros G0 i. pose proof (c_data _ _ _ Hc G0 i) as Hdi. unfold data_inv, head, backups in *. cbn.
        destruct (local w !! id) as [c|] eqn:El; [|done].
        destruct (decide (i = id)) as [->|Hne]; [rewrite lookup_insert_eq; by exists k|].
        by rewrite lookup_insert_ne.
Qed.

(** A call whose answer a world depends on. *)
Definition decisive (t : thread) (w : world) : Prop :=
  match t with
  | TStart id _ SStat => local w !! id = None
  | TStart _ _ (SRestore _) | TStop _ _ (BVerify _ _) => True
  | _ => False
  end.

Lemma worker_step_core t o m w m' w' t' ts :
  is_worker t = true -> core (Some t) m w ->
  (forall e k id, o = Fails e -> t = TStop k id BEvict -> local w !! id <> Some Torn) ->
  (G -> decisive t w -> forall g, o <> Stale g) ->
  thread_step cfg lock sizer t o m w = Some (m', w', t', ts) ->
  core (as_worker t') m' w' /\ Forall (fun t => is_worker t = false) ts.
Proof.
  intros Hw Hc Ho Htr H. destruct (c_busy _ _ _ Hc _ eq_refl) as (Hi & Hr & Ht).
  assert (held (Some t) = None -> forall p i, procs w !! p = Some i -> m_process m = Some p) as Hp.
  { intros Hh p i Hpi. destruct (c_procs _ _ _ Hc p i Hpi) as [?|E]; [done|]. congruence. }
  assert ((forall k id, t <> TStop k id BEvict) -> G -> forall o id, data_inv o w id) as Hd.
  { intros Hne G0 o0 id. eapply data_inv_none; [apply (c_data _ _ _ Hc G0)|]. intros k [= E]. by eapply Hne. }
  destruct t; try discriminate; cbn [thread_step] in H.
  - eapply start_step_core; [exact Hc| |exact H]. intros G0 Hpc. apply Htr; [done|]. by destruct pc.
  - eapply stop_step_core; [exact Hc| | |exact H].
    + intros e Ee ->. by eapply Ho.
    + intros G0. destruct pc; try done. by apply Htr.
  - result H. cbn in Ht. split; unfold switch_load; autorewrite with lifecycle; try done;
      try (by eauto).
    intros t [= <-]. autorewrite with lifecycle. split_and!; try done. cbn. unfold start_inv.
    by autorewrite with lifecycle.
  - result H. cbn in Ht. split; unfold become_idle; autorewrite with lifecycle; try done; by eauto.
  - result H. cbn in Ht. split; unfold become_idle; autorewrite with lifecycle; try done; by eauto.
  - destruct signal; result H; split; unfold fail; autorewrite with lifecycle; try done; by eauto.
Qed.

(** A step of a thread that is no start or stop. *)
Lemma core_manager o m m' w :
  core o m w -> active m' = active m -> m_process m' = m_process m -> phase m' = phase m ->
  core o m' w.
Proof.
  intros [Hp Hi Hb Hd] Ea Ep Eph. split; [by rewrite Ep|by rewrite Ep, Eph| |done].
  intros t Et. destruct (Hb t Et) as (? & ? & ?). rewrite Eph. split_and!; [done..|].
  eapply thread_inv_frame; [exact Ea|by rewrite Ep|done].
Qed.

Lemma waitProcess_core o m w p t err :
  core o m w -> procs w !! p = None -> core o (waitProcess_section t p err m) w.
Proof.
  intros Hc Hp. unfold waitProcess_section. case_bool_decide as E; [|done]. cbn.
  destruct Hc as [Hpr Hi Hb Hd].
  assert (forall q i, procs w !! q = Some i -> held o = Some q) as Hpr'.
  { intros q i Hq. destruct (Hpr q i Hq); congruence. }
  destruct (expectedStop m).
  - split; [by eauto|done| |done]. intros t0 Et. destruct (Hb t0 Et) as (? & ? & ?).
    split_and!; [done..|]. by eapply thread_inv_frame; [..|done].
  - split; autorewrite with lifecycle; [by eauto|done| |done].
    intros t0 Et. destruct (Hb t0 Et) as (? & ? & ?). split_and!; [done..|].
    eapply thread_inv_frame; [..|done]; by autorewrite with lifecycle.
Qed.

Lemma core_enter m w k f :
  core None m w -> st_Phase (f (m_state m)) = Draining ->
  core (Some (TStop k "" BEnter)) (update (now w) f m) w.
Proof.
  intros [Hp Hi Hb Hd] Hf. split; autorewrite with lifecycle; rewrite ?Hf; try done.
  - by intros t [= <-].
  - intros G0 i. by eapply data_inv_none; [apply Hd|].
Qed.

Lemma core_no_worker o m w : core o m w -> phase m = Ready \/ phase m = Idle -> o = None.
Proof.
  intros Hc Hph. destruct o as [t|]; [|done]. destruct (c_busy _ _ _ Hc t eq_refl) as (? & ? & _).
  by destruct Hph.
Qed.

Lemma bystander_step_core t o m w m' w' t' ts ow :
  is_worker t = false -> core ow m w ->
  thread_step cfg lock sizer t o m w = Some (m', w', t', ts) ->
  Forall (fun t => is_worker t = false) ts
  /\ ((as_worker t' = None /\ core ow m' w') \/ (ow = None /\ core (as_worker t') m' w')).
Proof.
  intros Hw Hc H. destruct t; try discriminate; cbn [thread_step] in H.
  - (* TWait *) destruct (procs w !! p) eqn:E; [done|]. unfold ends in H. injection H as <- <- <- <-.
    split; [done|]. left. split; [done|]. by apply waitProcess_core.
  - (* TSwitch *) unfold switch_enter in H. case_match eqn:E; [|].
    + destruct (_ || _) eqn:Eb in E; [discriminate|]. injection E as <-. bools.
      injection H as <- <- <- <-. split; [done|]. right.
      assert (ow = None) as -> by (eapply core_no_worker; [done|by left]). split; [done|].
      by apply core_enter.
    + injection H as <- <- <- <-. split; [done|]. by left.
  - (* TIdle *) unfold idle_enter in H. case_match eqn:E; [|].
    + destruct (negb _) eqn:Eb in E; [discriminate|]. injection E as <-. bools.
      injection H as <- <- <- <-. split; [done|]. right.
      assert (ow = None) as -> by (eapply core_no_worker; [done|by left]). split; [done|].
      by apply core_enter.
    + injection H as <- <- <- <-. split; [done|]. by left.
  - (* TSignal *) injection H as <- <- <- <-. split; [done|]. left. split; [done|].
    by eapply core_manager.
  - (* TWaitReady *) destruct wake as [wake|].
    + destruct (_ <? _); [done|]. destruct (waitReady_poll cfg id m) as [[]|];
        injection H as <- <- <- <-; (split; [done|by left]).
    + destruct (_ <? _); injection H as <- <- <- <-; (split; [done|by left]).
  - (* TTick *) destruct o; try done; cbn in H.
    + injection H as <- <- <- <-. split; [done|]. left. split; [done|].
      eapply core_manager; [exact Hc|..]; by autorewrite with lifecycle.
    + injection H as <- <- <- <-. split; [done|]. left. split; [by case_match|].
      eapply core_manager; [exact Hc|..]; autorewrite with lifecycle; try done;
        unfold phase, active; repeat case_match; done.
Qed.

(** *** The table of goroutines *)

Definition bystanders (ts : list thread) : Prop := Forall (fun t => is_worker t = false) ts.

Lemma spawn_spec ts n th :
  fst (spawn ts n th) = (n + length ts)%nat /\
  forall i, snd (spawn ts n th) !! i =
    if decide (n <= i)%nat then match ts !! (i - n)%nat with Some t => Some t | None => th !! i end
    else th !! i.
Proof.
  revert n th. induction ts as [|t ts IH]; intros n th; cbn.
  - split; [lia|]. intros i. rewrite lookup_nil. by case_decide.
  - destruct (IH (S n) (<[n := t]> th)) as [E1 E2]. split; [rewrite E1; lia|]. intros i.
    rewrite E2. repeat case_decide; try lia.
    + replace (i - n)%nat with (S (i - S n))%nat by lia. cbn.
      destruct (ts !! (i - S n)%nat); [done|]. by rewrite lookup_insert_ne by lia.
    + assert (i = n) as -> by lia. by rewrite Nat.sub_diag, lookup_insert_eq.
    + by rewrite lookup_insert_ne by lia.
Qed.

(** Every key is below the next one. *)
Definition bounded (n : nat) (th : gmap nat thread) : Prop := forall i, is_Some (th !! i) -> (i < n)%nat.

Lemma spawn_bounded ts n th : bounded n th -> bounded (fst (spawn ts n th)) (snd (spawn ts n th)).
Proof.
  intros Hb i. destruct (spawn_spec ts n th) as [-> ->]. case_decide.
  - destruct (ts !! (i - n)%nat) as [t|] eqn:E.
    + apply lookup_lt_Some in E. lia.
    + intros Hi%Hb. lia.
  - intros Hi%Hb. lia.
Qed.

Lemma spawn_lookup ts n th i t :
  snd (spawn ts n th) !! i = Some t -> th !! i = Some t \/ t ∈ ts.
Proof.
  destruct (spawn_spec ts n th) as [_ ->]. case_decide; [|auto].
  destruct (ts !! (i - n)%nat) as [t'|] eqn:E; [|auto]. intros [= ->].
  right. by apply list_elem_of_lookup_2 in E.
Qed.

Lemma spawn_old ts n th i t :
  bounded n th -> th !! i = Some t -> snd (spawn ts n th) !! i = Some t.
Proof.
  intros Hb Hi. destruct (spawn_spec ts n th) as [_ ->]. case_decide; [|done].
  specialize (Hb i (ex_intro _ t Hi)). lia.
Qed.

Lemma workers_spawn ts n th o :
  bounded n th -> bystanders ts -> workers th o -> workers (snd (spawn ts n th)) o.
Proof.
  intros Hb Hts Hw. unfold bystanders in Hts. rewrite Forall_forall in Hts.
  destruct o as [[i t]|]; cbn in *.
  - destruct Hw as (Hi & Ht & Hu). split_and!; [by apply spawn_old|done|].
    intros j t' [Hj|Hj]%spawn_lookup Hw'; [by eapply Hu|]. apply Hts in Hj. congruence.
  - intros j t' [Hj|Hj]%spawn_lookup; [by eapply Hw|by apply Hts].
Qed.

Lemma workers_spawn_new t ts n th :
  bounded n th -> bystanders ts -> is_worker t = true -> workers th None ->
  workers (snd (spawn (t :: ts) n th)) (Some (n, t)).
Proof.
  intros Hb Hts Ht Hw. unfold bystanders in Hts. rewrite Forall_forall in Hts. cbn in Hw |- *.
  destruct (spawn_spec ts (S n) (<[n := t]> th)) as [_ E]. split_and!; [|done|].
  - rewrite E. case_decide; [lia|]. by rewrite lookup_insert_eq.
  - intros j t'. rewrite E. case_decide.
    + destruct (ts !! (j - S n)%nat) as [t0|] eqn:Ej.
      * intros [= ->]. apply list_elem_of_lookup_2, Hts in Ej. congruence.
      * rewrite lookup_insert_ne by lia. intros Hj. apply Hw in Hj. congruence.
    + rewrite lookup_insert. case_decide; [auto|]. intros Hj. apply Hw in Hj. congruence.
Qed.

(** Replace or end the thread [i]. *)
Definition become (i : nat) (t' : option thread) (th : gmap nat thread) : gmap nat thread :=
  match t' with Some t' => <[i := t']> th | None => delete i th end.

Lemma become_lookup i t' th j : become i t' th !! j = if decide (i = j) then t' else th !! j.
Proof.
  unfold become. destruct t'; case_decide; subst;
    by rewrite ?lookup_insert_eq, ?lookup_delete_eq, ?lookup_insert_ne, ?lookup_delete_ne by done.
Qed.

Lemma become_bounded i t' n th : (i < n)%nat -> bounded n th -> bounded n (become i t' th).
Proof.
  intros Hi Hb j. rewrite become_lookup. case_decide; [subst; done|apply Hb].
Qed.

Definition worker_at (i : nat) (t : option thread) : option (nat * thread) :=
  (fun t => (i, t)) <$> as_worker t.

Lemma workers_become_worker i t t' th :
  workers th (Some (i, t)) -> workers (become i t' th) (worker_at i t').
Proof.
  intros (Hi & Ht & Hu). unfold worker_at, as_worker.
  assert (forall j t0, become i t' th !! j = Some t0 -> is_worker t0 = true -> j = i /\ t' = Some t0) as H.
  { intros j t0. rewrite become_lookup. case_decide; [subst; auto|]. intros Hj Hw.
    by specialize (Hu j t0 Hj Hw). }
  destruct t' as [t'|]; [destruct (is_worker t') eqn:E|]; cbn.
  - split_and!; [by rewrite lookup_insert_eq|done|]. intros j t0 Hj Hw. by destruct (H j t0 Hj Hw).
  - intros j t0 Hj. destruct (is_worker t0) eqn:Ew; [|done].
    destruct (H j t0 Hj Ew) as [_ [= ->]]. congruence.
  - intros j t0 Hj. destruct (is_worker t0) eqn:Ew; [|done]. by destruct (H j t0 Hj Ew).
Qed.

Lemma workers_become_bystander i t t' th o :
  th !! i = Some t -> is_worker t = false -> as_worker t' = None -> workers th o ->
  workers (become i t' th) o.
Proof.
  intros Hi Ht Ht' Hw.
  assert (forall t0, t' = Some t0 -> is_worker t0 = false) as Hb.
  { intros t0 ->. cbn in Ht'. by destruct (is_worker t0). }
  destruct o as [[k tk]|]; cbn in *.
  - destruct Hw as (Hk & Htk & Hu). split_and!; [|done|].
    + rewrite become_lookup. case_decide; [subst; congruence|done].
    + intros j t0. rewrite become_lookup. case_decide; [|apply Hu]. intros Hj%Hb. congruence.
  - intros j t0. rewrite become_lookup. case_decide; [apply Hb|apply Hw].
Qed.

Lemma workers_become_new i t t' th :
  th !! i = Some t -> is_worker t = false -> workers th None ->
  workers (become i t' th) (worker_at i t').
Proof.
  intros Hi Ht Hw. cbn in Hw. unfold worker_at, as_worker.
  destruct t' as [t'|]; [destruct (is_worker t') eqn:E|]; cbn.
  - split_and!; [by rewrite lookup_insert_eq|done|]. intros j t0. rewrite lookup_insert.
    case_decide; [auto|]. intros Hj%Hw. congruence.
  - intros j t0. rewrite lookup_insert. case_decide; [|apply Hw]. by intros [= <-].
  - intros j t0. rewrite lookup_delete. case_decide; [done|apply Hw].
Qed.

Lemma worker_at_core i t' m w : core (as_worker t') m w -> core (snd <$> worker_at i t') m w.
Proof. unfold worker_at. by destruct (as_worker t'). Qed.

(** *** Steps of the daemon *)

Lemma idle_threads_spec th : idle_threads th = true -> workers th None.
Proof.
  unfold idle_threads. rewrite forallb_forall. intros H i t Hi. cbn.
  specialize (H (i, t)). rewrite <- list_elem_of_In, elem_of_map_to_list in H.
  specialize (H Hi). cbn in H. by apply negb_true_iff in H.
Qed.

Lemma workers_idle th o : workers th o -> idle_threads th = true -> o = None.
Proof.
  intros Hw Hi%idle_threads_spec. destruct o as [[i t]|]; [|done]. destruct Hw as (E & Ht & _).
  apply Hi in E. congruence.
Qed.

Lemma inv_with_threads m w c ts o :
  bounded (next_tid c) (threads c) -> bystanders ts -> workers (threads c) o ->
  core (snd <$> o) m w -> inv (with_threads ts m w c).
Proof.
  intros Hb Hts Hw Hc. unfold with_threads.
  pose proof (spawn_bounded ts _ _ Hb) as Hb'. pose proof (workers_spawn ts _ _ o Hb Hts Hw) as Hw'.
  destruct (spawn ts (next_tid c) (threads c)) as [n th]. cbn in *. split; cbn; [done|]. by exists o.
Qed.

Lemma inv_with_worker m w c t ts :
  bounded (next_tid c) (threads c) -> bystanders ts -> is_worker t = true ->
  workers (threads c) None -> core (Some t) m w -> inv (with_threads (t :: ts) m w c).
Proof.
  intros Hb Hts Ht Hw Hc. unfold with_threads.
  pose proof (spawn_bounded (t :: ts) _ _ Hb) as Hb'.
  pose proof (workers_spawn_new t ts _ _ Hb Hts Ht Hw) as Hw'.
  destruct (spawn (t :: ts) (next_tid c) (threads c)) as [n th]. cbn in *.
  split; cbn; [done|]. exists (Some (next_tid c, t)). done.
Qed.

Lemma core_starts id m w f :
  core None m w -> m_process m = None -> st_Phase (f (m_state m)) = Loading ->
  ActiveID (f (m_state m)) = id ->
  core (Some (TStart id false SLookup)) (update (now w) f m) w.
Proof.
  intros [Hp Hi Hb Hd] Hm Hf Ha. split; rewrite ?update_process, ?update_phase, ?Hf; try done.
  - intros t [= <-]. split_and!; [done..|]. cbn. unfold start_inv.
    by rewrite update_process, update_active.
  - intros G0 i. by eapply data_inv_none; [apply Hd|].
Qed.

Lemma core_touched o id m w t :
  core o m w -> core o (set_activity t (set_loginSeen id m)) w.
Proof. intros Hc. by eapply core_manager. Qed.

Lemma inv_Ensure c id :
  inv c -> orderly c (EvEnsure id) = true ->
  forall c', exec cfg lock sizer c (EvEnsure id) = Some c' -> inv c'.
Proof.
  intros [Hb (o & Hw & Hc)] Ho c' H. cbn [exec orderly] in *.
  apply (core_touched _ true _ _ (now (cw c))) in Hc. unfold Ensure_section in H.
  set (m := set_activity (now (cw c)) (set_loginSeen true (cm c))) in *.
  assert (forall ts m', bystanders ts -> m' = m -> inv (with_threads ts m' (cw c) c)) as Hsame.
  { intros ts m' Hts ->. by eapply inv_with_threads. }
  case_bool_decide as Eidle.
  { injection H as <-. assert (snd <$> o = None) as E by (eapply core_no_worker; [done|by right]).
    destruct o; [done|]. apply inv_with_worker; [done|by repeat constructor|done|done|].
    apply core_starts; [done|by apply (c_idle _ _ _ Hc)|done|done]. }
  destruct (bool_decide (active m = id) && bool_decide (phase m = Ready));
    [injection H as <-; apply Hsame; [by repeat constructor|done]|].
  destruct (bool_decide (active m = id)
    && (bool_decide (phase m = Loading) || bool_decide (phase m = Recovering)));
    [injection H as <-; apply Hsame; [by repeat constructor|done]|].
  destruct (bool_decide (phase m = Failed) && bool_decide (active m = id)
    && bool_decide (m_process m = None)) eqn:Eretry.
  { change (retries id (cm c)) with (retries id m) in Ho. unfold retries in Ho.
    rewrite Eretry in Ho. assert (o = None) as -> by eauto using workers_idle.
    injection H as <-. bools. apply inv_with_worker; [done|by repeat constructor|done|done|].
    by apply core_starts. }
  destruct (bool_decide (phase m = Ready) && _); injection H as <-;
    (apply Hsame; [by repeat constructor|done]).
Qed.

Lemma core_play o m w p id v : core o m w -> procs w !! p = Some id -> core o m (play id v w).
Proof.
  intros Hc Hp. pose proof Hc as [Hpr Hi Hb Hd]. unfold play.
  destruct (local w !! id) as [[u|]|] eqn:El; try done.
  split; cbn; [done|done| |].
  - intros t Et. destruct (Hb t Et) as (H1 & H2 & Ht). split_and!; [done..|].
    assert (m_process m = None -> held o = None -> False) as Hno.
    { intros Em Eh. destruct (Hpr p id Hp); congruence. }
    subst o. destruct t as [id0 r pc| | | |k id0 pc| | | | | | | |]; cbn in *; try done.
    + destruct Ht as (Ha & Hm & Hl). split_and!; [done..|]. cbn. unfold head, backups in *.
      destruct pc; try done; rewrite lookup_insert; case_decide; try done.
    + destruct pc; cbn in *; try done; try (by destruct Ht as [Ht _]; destruct (Hno Ht eq_refl)).
  - intros G0 i. specialize (Hd G0 i). unfold data_inv, head, backups in *. cbn.
    destruct (decide (i = id)) as [->|Hne]; [by rewrite !lookup_insert_eq|].
    by rewrite !lookup_insert_ne by done.
Qed.

Lemma core_set_now o m w t : core o m w -> core o m (set_now t w).
Proof.
  intros [Hp Hi Hb Hd]. split; [done|done| |done]. intros t0 Et. by destruct (Hb t0 Et).
Qed.

Lemma core_exit o m w p : core o m w -> core o m (set_procs (delete p (procs w)) w).
Proof.
  intros [Hp Hi Hb Hd]. split; [|done| |done].
  - intros q id. cbn. rewrite lookup_delete. case_decide; [done|]. apply Hp.
  - intros t0 Et. by destruct (Hb t0 Et).
Qed.

(** The worlds a daemon may be booted over: every directory holds the last world of
    its pack, or the last world is the newest backup. *)
Definition sound_world (w : world) : Prop := forall id, data_inv None w id.

Lemma boot_inv loaded disk faults w : (G -> sound_world w) -> inv (boot loaded disk faults w).
Proof.
  intros Hd. unfold boot, NewManager.
  set (st := match loaded with Ok s => s | Err _ => zero_State end).
  assert (core None (mkMgr st None false (now w) false false disk faults) (set_procs ∅ w)) as Hc.
  { split; [|done|done|done]. intros p id. cbn. by rewrite lookup_empty. }
  destruct (negb (bool_decide (st_Phase st = Idle)) && negb (bool_decide (ActiveID st = ""))) eqn:E.
  - apply inv_with_worker; [intros i; cbn; rewrite lookup_empty; by intros []|constructor|done|done|].
    split.
    + intros p id. cbn. by rewrite lookup_empty.
    + by rewrite update_phase.
    + intros t [= <-]. rewrite update_phase. split_and!; [done..|]. cbn. unfold start_inv.
      by rewrite update_process, update_active.
    + intros G0 i. by apply (data_inv_none None w i (Hd G0 i)).
  - eapply (inv_with_threads _ _ _ _ None); [intros i; cbn; rewrite lookup_empty; by intros []|constructor|done|done].
Qed.

Lemma intact_sound c : inv c -> intact (cw c) = true -> G -> sound_world (cw c).
Proof.
  intros [_ (o & _ & Hc)] Hi G0 id. pose proof (c_data _ _ _ Hc G0 id) as Hd.
  unfold data_inv in *. destruct (local (cw c) !! id) as [[]|] eqn:E; [done| |done].
  unfold intact in Hi. rewrite forallb_forall in Hi. specialize (Hi (id, Torn)).
  rewrite <- list_elem_of_In, elem_of_map_to_list in Hi. by specialize (Hi E).
Qed.

Lemma inv_thread_step c i o c' :
  inv c -> orderly c (EvStep i o) = true -> (G -> trusted c (EvStep i o) = true) ->
  exec cfg lock sizer c (EvStep i o) = Some c' -> inv c'.
Proof.
  intros [Hb (ow & Hw & Hc)] Ho Htr H. cbn [exec orderly trusted] in *.
  destruct (threads c !! i) as [t|] eqn:Et; [|done]. cbn in H.
  destruct (thread_step cfg lock sizer t o (cm c) (cw c)) as [[[[m' w'] t'] ts]|] eqn:Es; [|done].
  cbn in H. injection H as <-. fold (become i t' (threads c)).
  assert (i < next_tid c)%nat as Hi by (apply Hb; eauto).
  assert (bounded (next_tid c) (become i t' (threads c))) as Hb' by by apply become_bounded.
  destruct (is_worker t) eqn:Ewt.
  - assert (ow = Some (i, t)) as ->.
    { destruct ow as [[j t0]|]; cbn in Hw; [|apply Hw in Et; congruence].
      destruct Hw as (Hj & _ & Hu). pose proof (Hu i t Et Ewt) as ->. congruence. }
    destruct (worker_step_core t o (cm c) (cw c) m' w' t' ts Ewt Hc) as [Hc' Hts]; [| |done|].
    { intros e k id -> ->. cbn in Ho. bools. done. }
    { intros G0 Hdec g ->. specialize (Htr G0). destruct t as [? ? []| | | |? ? []| | | | | | | |]; try done.
      cbn in Htr, Hdec. bools. done. }
    eapply (inv_with_threads _ _ _ _ (worker_at i t')); [done|done| |by apply worker_at_core].
    by eapply workers_become_worker.
  - destruct (bystander_step_core t o (cm c) (cw c) m' w' t' ts _ Ewt Hc Es) as [Hts [[Ht' Hc']|[Hn Hc']]].
    + eapply inv_with_threads; [done|done| |done]. by eapply workers_become_bystander.
    + destruct ow; [done|].
      eapply (inv_with_threads _ _ _ _ (worker_at i t')); [done|done| |by apply worker_at_core].
      by eapply workers_become_new.
Qed.

Lemma inv_exec c e c' :
  inv c -> orderly c e = true -> (G -> trusted c e = true) -> exec cfg lock sizer c e = Some c' -> inv c'.
Proof.
  intros Hinv Ho Htr H. pose proof Hinv as [Hb (o & Hw & Hc)].
  assert (forall m w, core (snd <$> o) m w -> inv (mkConf m w (threads c) (next_tid c))) as Hsame.
  { intros m w Hmw. split; [done|]. by exists o. }
  destruct e as [id| | | |i|i oc|p|p v|dt|]; cbn [exec] in H.
  - by eapply inv_Ensure.
  - injection H as <-. apply Hsame. by eapply core_manager.
  - destruct (tick_enter _ _ _); injection H as <-.
    + apply Hsame. by eapply core_manager.
    + done.
    + eapply inv_with_threads; [done|by repeat constructor|done|done].
  - cbn in Ho. destruct (shutdown_enter (now (cw c)) (cm c)) as [m'|] eqn:E; injection H as <-; [|done].
    assert (o = None) as -> by eauto using workers_idle. unfold shutdown_enter in E. case_match; [done|].
    injection E as <-. apply inv_with_worker; [done|by repeat constructor|done|done|].
    by apply core_enter.
  - destruct (threads c !! i) as [[]|] eqn:Et; try done. destruct k; try done. injection H as <-.
    assert (o = Some (i, TStop (KShutdown expired) id pc)) as ->.
    { destruct o as [[j t0]|]; cbn in Hw; [|by apply Hw in Et].
      destruct Hw as (Hj & _ & Hu). pose proof (Hu i _ Et eq_refl) as ->. congruence. }
    split; cbn; [intros j; rewrite lookup_insert; case_decide; [subst; eauto|apply Hb]|].
    exists (Some (i, TStop (KShutdown true) id pc)). split.
    + apply (workers_become_worker i _ (Some (TStop (KShutdown true) id pc))) in Hw. done.
    + destruct Hc as [Hp Hi Hbz Hd]. split; [done|done| |].
      * intros t [= <-]. by destruct (Hbz _ eq_refl).
      * intros G0 id'. specialize (Hd G0 id'). unfold data_inv in *.
        destruct (local (cw c) !! id') as [[]|]; [done| |done]. destruct Hd as [k [= _ <- ->]].
        by exists (KShutdown true).
  - by eapply inv_thread_step.
  - injection H as <-. apply Hsame. by apply core_exit.
  - destruct (procs (cw c) !! p) as [id|] eqn:E; [|done]. injection H as <-. apply Hsame.
    by eapply core_play.
  - case_match; [|done]. injection H as <-. apply Hsame. by apply core_set_now.
  - injection H as <-. apply boot_inv. by apply intact_sound.
Qed.

End Invariant.

Lemma inv_step c c' : inv False c -> step c c' -> inv False c'.
Proof. intros Hc (e & Ho & H). by eapply inv_exec. Qed.

Lemma reachable_inv c c' : inv False c -> rtc step c c' -> inv False c'.
Proof. intros Hi Hr. induction Hr; [done|]. eauto using inv_step. Qed.

Lemma reachable_trusted c c' : inv True c -> rtc trusted_step c c' -> inv True c'.
Proof.
  intros Hi Hr. induction Hr as [|c1 c2 c3 (e & Ho & Htr & H) _ IH]; [done|]. apply IH. by eapply inv_exec.
Qed.

(** Runs that are checked to be orderly. *)
Fixpoint orderly_run (c : conf) (es : list event) : option conf :=
  match es with
  | [] => Some c
  | e :: es' =>
      if orderly c e then c' ← exec cfg lock sizer c e; orderly_run c' es' else None
  end.

Fixpoint trusted_run (c : conf) (es : list event) : option conf :=
  match es with
  | [] => Some c
  | e :: es' =>
      if orderly c e && trusted c e then c' ← exec cfg lock sizer c e; trusted_run c' es' else None
  end.

Lemma trusted_run_steps c es c' : trusted_run c es = Some c' -> rtc trusted_step c c'.
Proof.
  revert c. induction es as [|e es IH]; intros c; cbn; [by intros [= ->]|].
  destruct (orderly c e && trusted c e) eqn:Eo; [|done]. apply andb_true_iff in Eo as [Eo Et].
  destruct (exec cfg lock sizer c e) as [c1|] eqn:E; [|done]. cbn. intros Hr.
  eapply rtc_l; [by exists e|]. by apply IH.
Qed.

Lemma orderly_run_steps c es c' : orderly_run c es = Some c' -> rtc step c c'.
Proof.
  revert c. induction es as [|e es IH]; intros c; cbn; [by intros [= ->]|].
  destruct (orderly c e) eqn:Eo; [|done].
  destruct (exec cfg lock sizer c e) as [c1|] eqn:E; [|done]. cbn. intros Hr.
  eapply rtc_l; [by exists e|]. by apply IH.
Qed.

(** ** Properties *)

(** C1: one process at a time.  In every orderly run of a daemon, over whatever
    state file, directories and backups it was booted and whatever the backup store
    answers, at most one Minecraft process is alive, and it is the one the manager knows
    or the one a start is about to hand over. *)
Theorem single_process loaded disk faults w c :
  rtc step (boot loaded disk faults w) c ->
  (size (procs (cw c)) <= 1)%nat
  /\ forall p id, procs (cw c) !! p = Some id ->
     m_process (cm c) = Some p
     \/ exists i pack r, threads c !! i = Some (TStart pack r (SAttach p)).
Proof.
  intros Hr. assert (inv False c) as [_ (o & Ho & Hc)].
  { eapply reachable_inv; [by apply (boot_inv False loaded disk faults w)|done]. }
  pose proof (c_procs _ _ _ _ Hc) as Hp. split.
  - assert (exists q, forall p id, procs (cw c) !! p = Some id -> p = q) as [q Hq].
    { destruct (held (snd <$> o)) as [h|] eqn:Eh.
      - exists h. intros p id Hpid. destruct (Hp p id Hpid) as [Hm|Hm]; [|congruence].
        destruct o as [[i t]|]; [|done]. destruct (c_busy _ _ _ _ Hc t eq_refl) as (_ & _ & Ht).
        cbn in Eh. destruct t as [pack r pc| | | | | | | | | | | |]; try done.
        destruct pc; try done. destruct Ht as (_ & Hn & _). congruence.
      - exists (default 0%nat (m_process (cm c))). intros p id Hpid.
        destruct (Hp p id Hpid) as [->|?]; [done|congruence]. }
    rewrite <- size_dom. rewrite <- (size_singleton (C := gset nat) q). apply subseteq_size.
    intros p Hpd. apply elem_of_dom in Hpd as [id Hpid]. rewrite (Hq p id Hpid). by apply elem_of_singleton.
  - intros p id Hpid. destruct (Hp p id Hpid) as [?|Hh]; [by left|right].
    destruct o as [[i t]|]; [|done]. destruct Ho as (Hi & _ & _). cbn in Hh.
    destruct t as [pack r pc| | | | | | | | | | | |]; try done. destruct pc; try done.
    injection Hh as ->. eauto.
Qed.

(** C2: no world is lost.  In every orderly run from a sound world, what the players of a
    pack saw last is in its directory, or is the newest complete backup of the pack: a
    directory is removed only behind a verified backup of exactly its contents, and a
    missing one is restored before the pack starts.  The run is one in which [Head], when
    it reports no error, reports the newest complete backup at three calls: when a start
    finds no directory, in the restore, and in the verification that allows the eviction.
    (It passes over a generation it cannot open and can then report an older one, or none:
    [stale_head_loses_world] is an orderly run in which the first of these calls misses
    the backup, and the world is lost.)  At its other calls it may report whatever it
    likes, and every call may fail. *)
Theorem no_world_lost loaded disk faults w c id v :
  sound_world w -> rtc trusted_step (boot loaded disk faults w) c ->
  latest (cw c) !! id = Some v ->
  local (cw c) !! id = Some (World v) \/ exists g, head id (cw c) = Some (g, World v).
Proof.
  intros Hw Hr Hv. assert (inv True c) as [_ (o & Ho & Hc)].
  { eapply reachable_trusted; [by apply (boot_inv True loaded disk faults w)|done]. }
  pose proof (c_data _ _ _ _ Hc I id) as Hd. unfold data_inv in Hd. rewrite Hv in Hd.
  destruct (local (cw c) !! id) as [[u|]|]; [left; congruence| |by right]. right.
  destruct Hd as [k Ek]. destruct (c_busy _ _ _ _ Hc _ Ek) as (_ & _ & _ & Hb).
  destruct (Hb I) as (g & u & Hh & Hu). exists g. congruence.
Qed.
End Safety.

(** ** A run *)

(** No packs on disk, no backups. *)
Definition empty_world : world := mkWorld ∅ ∅ ∅ 0 0 ∅.

Lemma empty_world_sound : sound_world empty_world.
Proof. intros id. unfold data_inv, head, backups. cbn. by rewrite !lookup_empty. Qed.

Definition fresh_daemon : conf := boot (Ok (phase_State Idle)) None [] empty_world.

(** The goroutine [i] takes [n] steps whose calls go well. *)
Definition fine (i n : nat) : list event := repeat (EvStep i Fine) n.

(** A player starts the pack [sfs] (goroutine 0) and waits (goroutine 1); the process is
    watched by goroutine 2. *)
Definition start_events : list event :=
  EvEnsure "sfs" :: fine 0 6 ++ [EvStep 0 (Launched 1); EvStep 0 Fine; EvAdvance (60 * Second);
    EvStep 0 (Players 0); EvStep 0 Fine; EvPlay 0 2].
(** The server stays empty; goroutine 4 stops and saves it. *)
Definition stop_events : list event :=
  [EvTick; EvStep 3 (Players 0); EvAdvance (20 * Minute); EvTick; EvStep 4 (Players 0)]
  ++ fine 4 5 ++ [EvExit 0; EvStep 2 Fine] ++ fine 4 10.

Definition stopped_daemon : option conf :=
  orderly_run repository_config repository_lock true fresh_daemon (start_events ++ stop_events).

(** The pack was saved, verified and evicted; the daemon is idle and about to exit. *)
Example stopped_daemon_result : exists c, stopped_daemon = Some c
  /\ phase (cm c) = Idle /\ local (cw c) !! "sfs" = None
  /\ head "sfs" (cw c) = Some (1, World 2) /\ latest (cw c) !! "sfs" = Some 2%nat
  /\ threads c !! 4%nat = Some TSignal.
Proof. eexists. split; [vm_compute; reflexivity|]. vm_compute. repeat split. Qed.

(** What was computed for the run, for the theorems to start from. *)
Definition final_daemon : conf := default fresh_daemon stopped_daemon.

Lemma final_daemon_reached : rtc (step repository_config repository_lock true) fresh_daemon final_daemon.
Proof. apply orderly_run_steps with (es := start_events ++ stop_events). vm_compute. reflexivity. Qed.

Lemma final_daemon_trusted : rtc (trusted_step repository_config repository_lock true) fresh_daemon final_daemon.
Proof. apply trusted_run_steps with (es := start_events ++ stop_events). vm_compute. reflexivity. Qed.

Lemma final_daemon_latest : latest (cw final_daemon) !! "sfs" = Some 2%nat.
Proof. vm_compute. reflexivity. Qed.

Lemma single_process_witness : (size (procs (cw final_daemon)) <= 1)%nat.
Proof.
  exact (proj1 (single_process repository_config repository_lock true (Ok (phase_State Idle)) None []
    empty_world final_daemon final_daemon_reached)).
Defined.

Lemma no_world_lost_witness :
  latest (cw final_daemon) !! "sfs" = Some 2%nat /\
  (local (cw final_daemon) !! "sfs" = Some (World 2)
   \/ exists g, head "sfs" (cw final_daemon) = Some (g, World 2)).
Proof.
  split; [exact final_daemon_latest|].
  exact (no_world_lost repository_config repository_lock true (Ok (phase_State Idle)) None []
    empty_world final_daemon "sfs" 2 empty_world_sound final_daemon_trusted final_daemon_latest).
Defined.
