(* ===== verification/ManagerRecovery.v ===== *)
(** * Recovery, waiting players and idle servers

    Properties of the transition system of [Manager.v] that hold in every run,
    orderly or not: what is on disk is the state, so that a crash is followed by a
    recovery of the same pack; what [Ensure] answers; how long it can wait; when a
    pack is taken for idle; and what an unreadable state file does. *)
From Stdlib Require Import String Ascii.
From S2P Require Import Prelude GoStrings GoJson JsonText Config Lock StateFile Lifecycle Manager ManagerSafety.

Section Recovery.
Context (cfg : Config) (lock : LockFile) (sizer : bool).
Abbreviation exec := (exec cfg lock sizer).
Abbreviation run := (run cfg lock sizer).
Abbreviation thread_step := (thread_step cfg lock sizer).

(** ** The state on disk *)

(** A state but for the time of its last save, which only the file records. *)
Definition forget (s : State) : State := set_UpdatedAt 0 s.

(** What a step makes of the file: it is saved with the new state, the save fails and is
    dropped, or nothing is saved and the state stays. *)
Inductive saves (m m' : mgr) : Prop :=
  | saves_none : m_state m' = m_state m -> m_disk m' = m_disk m -> m_faults m' = m_faults m -> saves m m'
  | saves_done t : m_disk m' = Some (Ok (set_UpdatedAt t (m_state m'))) ->
      m_faults m' = m_faults m \/ m_faults m = false :: m_faults m' -> saves m m'
  | saves_lost : m_disk m' = m_disk m -> m_faults m = true :: m_faults m' -> saves m m'.

(** A section may change fields that are not saved before it saves the state. *)
Lemma update_saves now f m m0 :
  m_disk m0 = m_disk m -> m_faults m0 = m_faults m -> saves m (update now f m0).
Proof.
  unfold update, save, on_state, set_state. cbn. intros Hd Hf.
  destruct (m_faults m0) as [|[] l] eqn:E; cbn.
  - apply (saves_done _ _ now); [done|left; cbn; congruence].
  - apply saves_lost; cbn; congruence.
  - apply (saves_done _ _ now); [done|right; cbn; congruence].
Qed.

Ltac saved := first [assumption | by apply update_saves | by apply saves_none].

Lemma start_step_saves id r pc o m w m' w' t' ts :
  start_step cfg sizer id r pc o m w = Some (m', w', t', ts) -> saves m m'.
Proof.
  intros H. destruct pc; cbn in H; unfold start_resize, start_resized, start_attach, mbind, option_bind in H;
    repeat (case_match; try discriminate);
    repeat match goal with E : (if _ then None else _) = _ |- _ => case_match; try discriminate end;
    simplify_eq; unfold goto, ends in *; simplify_eq; try saved.
  unfold start_ready. case_match; saved.
Qed.

Lemma finish_manager k r m w m' w' t' ts :
  finish k r m w = Some (m', w', t', ts) -> m' = m.
Proof. destruct k as [| |[]], r; cbn; unfold goto, ends; by intros [= -> _ _ _]. Qed.

Lemma stop_step_saves k id pc o m w m' w' t' ts :
  stop_step cfg k id pc o m w = Some (m', w', t', ts) -> saves m m'.
Proof.
  intros H.
  assert (forall pc', (mbind (M := option) (fun '(w', pc') => goto (TStop k id pc') m w')
    (commit_step id pc' o w)) = Some (m', w', t', ts) -> saves m m') as Hcommit.
  { intros pc'. destruct (commit_step id pc' o w) as [[w1 pc1]|]; [|done]. cbn. unfold goto.
    intros [= <- _ _ _]. saved. }
  destruct pc; cbn [stop_step] in H; try (by eapply Hcommit); unfold stop_enter, goto in H;
    repeat (case_match; try discriminate); simplify_eq; try saved;
    apply finish_manager in H; subst m'; saved.
Qed.

Lemma thread_step_saves t o m w m' w' t' ts :
  thread_step t o m w = Some (m', w', t', ts) -> saves m m'.
Proof.
  intros H. destruct t; cbn [Manager.thread_step] in H.
  - by eapply start_step_saves.
  - destruct (procs w !! p); [done|]. unfold ends in H. simplify_eq.
    unfold waitProcess_section. case_match; [saved|]. case_match; saved.
  - unfold switch_enter in H. case_match eqn:E; unfold goto, ends in H; simplify_eq; [|saved].
    destruct (_ || _) in E; simplify_eq. saved.
  - unfold idle_enter in H. case_match eqn:E; unfold goto, ends in H; simplify_eq; [|saved].
    destruct (negb _) in E; simplify_eq. saved.
  - by eapply stop_step_saves.
  - unfold goto in H. simplify_eq. saved.
  - unfold goto in H. simplify_eq. saved.
  - unfold ends in H. simplify_eq. saved.
  - destruct signal; unfold goto, ends in H; simplify_eq; saved.
  - unfold ends in H. simplify_eq. saved.
  - destruct wake; unfold goto in H; repeat (case_match; try discriminate); simplify_eq; saved.
  - destruct o; try done; cbn in H; simplify_eq; saved.
  - done.
Qed.

Lemma cm_with_threads ts m w c : cm (with_threads ts m w c) = m /\ cw (with_threads ts m w c) = w.
Proof. unfold with_threads. by destruct (spawn _ _ _). Qed.

(** The file holds the state, as far as it can be read back. *)
Definition current (m : mgr) : Prop :=
  match reload (m_disk m) with
  | Ok s => forget s = forget (as_loaded (m_state m))
  | Err _ => m_state m = zero_State
  end.

Lemma as_loaded_idemp s : as_loaded (as_loaded s) = as_loaded s.
Proof.
  unfold as_loaded. destruct (bool_decide (st_Phase s = OtherPhase "")) eqn:E; [done|by rewrite E].
Qed.

Lemma loaded_current disk m : m_disk m = disk ->
  m_state m = match reload disk with Ok s => s | Err _ => zero_State end -> current m.
Proof.
  unfold current. intros -> ->. destruct disk as [[s|e]|]; [|done..]. cbn. by rewrite as_loaded_idemp.
Qed.

Lemma forget_saved t s : forget (as_loaded (set_UpdatedAt t s)) = forget (as_loaded s).
Proof.
  unfold as_loaded. change (st_Phase (set_UpdatedAt t s)) with (st_Phase s). by destruct (bool_decide _).
Qed.

Lemma saves_current m m' : saves m m' -> m_faults m' = m_faults m \/ m_faults m = false :: m_faults m' ->
  current m -> current m'.
Proof.
  unfold current. intros [Hs Hd Hf|t Hd _|Hd Hf] Hff Hc; [by rewrite Hd, Hs|rewrite Hd; cbn|].
  - apply forget_saved.
  - destruct Hff as [E|E]; rewrite Hf in E; [|done]. exfalso.
    apply (f_equal length) in E. cbn in E. lia.
Qed.

(** Every event is a save or none, from the manager as it is, or as the next boot
    makes it of the file. *)
Lemma exec_saves c e c' : exec c e = Some c' ->
  exists m, m_disk m = m_disk (cm c) /\ m_faults m = m_faults (cm c)
    /\ (current (cm c) -> current m) /\ saves m (cm c').
Proof.
  intros H. assert (saves (cm c) (cm c') -> exists m, m_disk m = m_disk (cm c)
    /\ m_faults m = m_faults (cm c) /\ (current (cm c) -> current m) /\ saves m (cm c')) as Hsame by eauto.
  destruct e as [id| | | |i|i oc|p|p v|dt|]; cbn [Manager.exec] in H.
  - destruct (Ensure_section _ _ _ _ _) as [m' next] eqn:E. injection H as <-. apply Hsame.
    rewrite (proj1 (cm_with_threads _ _ _ _)). unfold Ensure_section in E.
    repeat case_match; simplify_eq; saved.
  - simplify_eq. apply Hsame. saved.
  - destruct (tick_enter _ _ _); simplify_eq; apply Hsame; [saved..|].
    rewrite (proj1 (cm_with_threads _ _ _ _)). saved.
  - unfold shutdown_enter in H. destruct (_ || _); simplify_eq; apply Hsame; [saved|].
    rewrite (proj1 (cm_with_threads _ _ _ _)). saved.
  - repeat (case_match; try discriminate). simplify_eq. apply Hsame. saved.
  - destruct (threads c !! i) as [t|]; [|done]. cbn in H.
    destruct (thread_step t oc (cm c) (cw c)) as [[[[m' w'] t'] ts]|] eqn:E; [|done]. cbn in H.
    injection H as <-. apply Hsame. rewrite (proj1 (cm_with_threads _ _ _ _)). by eapply thread_step_saves.
  - simplify_eq. apply Hsame. saved.
  - destruct (procs (cw c) !! p); [|done]. cbn in H. simplify_eq. apply Hsame. saved.
  - case_match; [|done]. simplify_eq. apply Hsame. saved.
  - injection H as <-. unfold boot, NewManager.
    set (m := mkMgr _ None false _ false false (m_disk (cm c)) (m_faults (cm c))).
    exists m. split_and!; [done..| |].
    + intros _. by eapply loaded_current.
    + destruct (negb _ && negb _); rewrite (proj1 (cm_with_threads _ _ _ _)); saved.
Qed.

Lemma run_app c es1 es2 c1 : run c es1 = Some c1 -> run c (es1 ++ es2) = run c1 es2.
Proof.
  revert c. induction es1 as [|e es1 IH]; intros c; cbn; [by intros [= ->]|].
  destruct (exec c e) as [c2|]; [|done]. cbn. apply IH.
Qed.
Lemma run_snoc c es e c' : run c (es ++ [e]) = Some c' ->
  exists c1, run c es = Some c1 /\ exec c1 e = Some c'.
Proof.
  revert c. induction es as [|e0 es IH]; intros c; cbn.
  - destruct (exec c e) as [c1|] eqn:E; [|done]. intros [= ->]. by exists c.
  - destruct (exec c e0) as [c1|]; [|done]. cbn. apply IH.
Qed.

(** Where the state on disk is from, behind [n] failed saves. *)
Definition saved_from (b : conf) (loaded : result State) (disk : option (result State))
    (faults : list bool) (es : list event) (c : conf) (n : nat) : Prop :=
  ((m_disk (cm c) = disk /\ faults = replicate n true ++ m_faults (cm c))
   \/ exists es1 es2 c1 t, es = es1 ++ es2 /\ run b es1 = Some c1
      /\ m_disk (cm c) = Some (Ok (set_UpdatedAt t (m_state (cm c1))))
      /\ m_faults (cm c1) = replicate n true ++ m_faults (cm c))
  /\ (n = 0%nat -> loaded = reload disk -> current (cm c)).

Lemma replicate_true_snoc n l : replicate n true ++ true :: l = replicate (S n) true ++ l.
Proof. induction n as [|n IH]; [done|]. cbn in *. by rewrite IH. Qed.

(** How a save or none moves it. *)
Lemma saved_from_step b loaded disk faults es1 es m c c' n :
  run b es = Some c' ->
  m_disk m = m_disk (cm c) -> m_faults m = m_faults (cm c) -> saves m (cm c') ->
  (current (cm c) -> current m) -> (exists e, es = es1 ++ e) ->
  saved_from b loaded disk faults es1 c n -> exists n', saved_from b loaded disk faults es c' n'.
Proof.
  intros Hr Hd Hf Hs Hc [e ->] [Hfrom Hcur]. pose proof Hs as [Es Ed Ef|t Ed Ef|Ed Ef].
  - exists n. split.
    + destruct Hfrom as [[H1 H2]|(l1 & l2 & c1 & t & -> & H1 & H2 & H3)]; [left; split; congruence|].
      right. exists l1, (l2 ++ e), c1, t. rewrite app_assoc. split_and!; [done..| |]; congruence.
    + intros -> Hl. eapply saves_current; [exact Hs|by left|auto].
  - exists 0%nat. split.
    + right. exists (es1 ++ e), [], c', t. rewrite app_nil_r. by split_and!.
    + intros _ _. unfold current. rewrite Ed. cbn. apply forget_saved.
  - exists (S n). split; [|done]. rewrite Hf in Ef.
    destruct Hfrom as [[H1 H2]|(l1 & l2 & c1 & t & -> & H1 & H2 & H3)].
    + left. split; [congruence|]. by rewrite <- replicate_true_snoc, <- Ef.
    + right. exists l1, (l2 ++ e), c1, t. rewrite app_assoc, <- replicate_true_snoc, <- Ef.
      split_and!; [done..| |done]. congruence.
Qed.

Lemma run_saved_from loaded disk faults w es c :
  run (boot loaded disk faults w) es = Some c ->
  exists n, saved_from (boot loaded disk faults w) loaded disk faults es c n.
Proof.
  revert c. induction es as [|e es IH] using rev_ind; intros c Hr.
  - set (m0 := mkMgr (match loaded with Ok s => s | Err _ => zero_State end) None false (now w)
      false false disk faults).
    apply (saved_from_step _ loaded disk faults [] [] m0 (mkConf m0 w ∅ 0) c 0); try done.
    + cbn in Hr. injection Hr as <-. unfold boot, NewManager.
      destruct (negb _ && negb _); rewrite (proj1 (cm_with_threads _ _ _ _)); saved.
    + by exists [].
    + split; [by left|]. intros _ ->. by eapply loaded_current.
  - destruct (run_snoc _ _ _ _ Hr) as (c1 & H1 & He). destruct (IH _ H1) as [n Hn].
    destruct (exec_saves _ _ _ He) as (m & Hd & Hf & Hc & Hs).
    eapply saved_from_step; [exact Hr|exact Hd|exact Hf|exact Hs|exact Hc|by exists [e]|exact Hn].
Qed.

(** The daemon that boots over a file. *)
Definition recovers (found : result State) (c : conf) : Prop :=
  m_process (cm c) = None /\
  match found with
  | Ok s =>
      let active_pack := negb (bool_decide (st_Phase s = Idle)) && negb (bool_decide (ActiveID s = "")) in
      m_state (cm c) = (if active_pack then set_Phase Recovering s else s)
      /\ threads c = (if active_pack then {[ 0%nat := TStart (ActiveID s) true SLookup ]} else ∅)
  | Err _ => m_state (cm c) = zero_State /\ threads c = ∅
  end.

Lemma recovers_active s c : st_Phase s <> Idle -> ActiveID s <> "" -> recovers (Ok s) c ->
  phase (cm c) = Recovering /\ threads c = {[ 0%nat := TStart (ActiveID s) true SLookup ]}.
Proof.
  intros Hp Ha [_ H]. cbn in H. rewrite !bool_decide_eq_false_2 in H by done. cbn in H.
  destruct H as [E ->]. unfold phase. by rewrite E.
Qed.

(** C7: crash recovery.  Whatever the daemon was booted over, wherever in a run the
    machine dies, and whichever saves failed (the code drops their errors): the daemon
    that boots next goes on from the state on disk; a pack that was active in it is in
    phase RECOVERING, with its generation and pending backup, and its recovery is the only
    goroutine; an idle state comes back idle, and an unreadable file leaves the zero
    state and no goroutine.  And the state on disk is the one of the last save that
    did not fail, or what the first boot found if every save failed: the states the
    daemon was in since are lost exactly by the [n] failed saves, and with none, it is
    the current state. *)
Theorem crash_recovery loaded disk faults w es c c' :
  run (boot loaded disk faults w) es = Some c -> exec c EvCrash = Some c' ->
  recovers (reload (m_disk (cm c))) c'
  /\ exists n,
    ((m_disk (cm c) = disk /\ faults = replicate n true ++ m_faults (cm c))
     \/ exists es1 es2 c1 t, es = es1 ++ es2 /\ run (boot loaded disk faults w) es1 = Some c1
        /\ m_disk (cm c) = Some (Ok (set_UpdatedAt t (m_state (cm c1))))
        /\ m_faults (cm c1) = replicate n true ++ m_faults (cm c))
    /\ (n = 0%nat -> loaded = reload disk ->
        match reload (m_disk (cm c)) with
        | Ok s => forget s = forget (as_loaded (m_state (cm c)))
        | Err _ => m_state (cm c) = zero_State
        end).
Proof.
  intros Hr H. split; [|by apply run_saved_from].
  cbn [Manager.exec] in H. injection H as <-. unfold boot, NewManager, recovers.
  destruct (reload (m_disk (cm c))) as [s|e]; [|done].
  destruct (negb _ && negb _); rewrite (proj1 (cm_with_threads _ _ _ _));
    [by rewrite update_state, update_process|done].
Qed.

(** *** What the other goroutines leave alone *)

Lemma create_world_now id v w : now (create_world id v w) = now w.
Proof. unfold create_world. by destruct (local w !! id). Qed.

Lemma finish_world k r m w m' w' t' ts : finish k r m w = Some (m', w', t', ts) -> w' = w.
Proof. destruct k as [| |[]], r; cbn; unfold goto, ends; by intros [= _ -> _ _]. Qed.

Lemma commit_step_now id pc o w w' pc' : commit_step id pc o w = Some (w', pc') -> now w' = now w.
Proof.
  intros H. destruct pc; cbn in H; unfold mbind, option_bind in H;
    repeat (case_match; try discriminate); by simplify_eq.
Qed.

(** No step of a goroutine takes time. *)
Lemma thread_step_now t o m w m' w' t' ts :
  thread_step t o m w = Some (m', w', t', ts) -> now w' = now w.
Proof.
  intros H. destruct t as [id r pc| | | |k id pc| | | | | | | |]; cbn [Manager.thread_step] in H.
  - destruct pc; cbn [start_step] in H; unfold goto, ends, mbind, option_bind in H;
      repeat (case_match; try discriminate); simplify_eq; try done; cbn; by rewrite create_world_now.
  - unfold ends in H. repeat (case_match; try discriminate); by simplify_eq.
  - unfold goto, ends in H. repeat (case_match; try discriminate); by simplify_eq.
  - unfold goto, ends in H. repeat (case_match; try discriminate); by simplify_eq.
  - destruct pc; cbn [stop_step] in H;
      try (match type of H with context [commit_step ?i ?pc ?o ?w] =>
             destruct (commit_step i pc o w) as [[w1 pc1]|] eqn:E end; [|discriminate];
           cbn in H; unfold goto in H; simplify_eq; by eapply commit_step_now);
      unfold stop_enter, goto in H; repeat (case_match; try discriminate); simplify_eq; try done;
      apply finish_world in H; by subst w'.
  - unfold goto in H. by simplify_eq.
  - unfold goto in H. by simplify_eq.
  - unfold ends in H. by simplify_eq.
  - unfold goto, ends in H. repeat (case_match; try discriminate); by simplify_eq.
  - unfold ends in H. by simplify_eq.
  - unfold goto in H. repeat (case_match; try discriminate); by simplify_eq.
  - repeat (case_match; try discriminate); by simplify_eq.
  - done.
Qed.

Lemma with_threads_bounded ts m w c :
  bounded (next_tid c) (threads c) -> bounded (next_tid (with_threads ts m w c)) (threads (with_threads ts m w c)).
Proof.
  intros Hb. unfold with_threads. pose proof (spawn_bounded ts _ _ Hb) as H.
  by destruct (spawn ts (next_tid c) (threads c)).
Qed.
Lemma with_threads_old ts m w c i t :
  bounded (next_tid c) (threads c) -> threads c !! i = Some t -> threads (with_threads ts m w c) !! i = Some t.
Proof.
  intros Hb Hi. unfold with_threads. pose proof (spawn_old ts _ _ i t Hb Hi) as H.
  by destruct (spawn ts (next_tid c) (threads c)).
Qed.

(** A goroutine that is no start or stop changes only by its own steps, and the clock
    does not go back. *)
Lemma exec_frame c e c' :
  bounded (next_tid c) (threads c) -> exec c e = Some c' -> e <> EvCrash ->
  bounded (next_tid c') (threads c') /\ now (cw c) <= now (cw c')
  /\ forall i t, threads c !! i = Some t -> is_worker t = false -> (forall o, e <> EvStep i o) ->
     threads c' !! i = Some t.
Proof.
  intros Hb H Hne. destruct e as [id| | | |j|j oc|p|p v|dt|]; cbn [Manager.exec] in H; [..|done].
  - destruct (Ensure_section _ _ _ _ _) as [m' next]. injection H as <-.
    rewrite (proj2 (cm_with_threads _ _ _ _)). split_and!; [by apply with_threads_bounded|lia|].
    intros. by apply with_threads_old.
  - injection H as <-. split_and!; [done|cbn; lia|done].
  - destruct (tick_enter _ _ _); injection H as <-; [split_and!; [done|cbn; lia|done]..|].
    rewrite (proj2 (cm_with_threads _ _ _ _)). split_and!; [by apply with_threads_bounded|lia|].
    intros. by apply with_threads_old.
  - destruct (shutdown_enter _ _); injection H as <-; [|split_and!; [done|lia|done]].
    rewrite (proj2 (cm_with_threads _ _ _ _)). split_and!; [by apply with_threads_bounded|lia|].
    intros. by apply with_threads_old.
  - destruct (threads c !! j) as [[]|] eqn:E; try done. destruct k; try done. injection H as <-.
    split_and!; [|cbn; lia|].
    + cbn. intros i. rewrite lookup_insert. case_decide; [subst; intros _; apply Hb; eauto|apply Hb].
    + cbn. intros i t Hi Hw _. rewrite lookup_insert_ne; [done|]. intros ->. rewrite E in Hi. by simplify_eq.
  - destruct (threads c !! j) as [t|] eqn:E; [|done]. cbn in H.
    destruct (thread_step t oc (cm c) (cw c)) as [[[[m' w'] t'] ts]|] eqn:Es; [|done]. cbn in H.
    injection H as <-. rewrite (proj2 (cm_with_threads _ _ _ _)).
    fold (become j t' (threads c)). assert (bounded (next_tid c) (become j t' (threads c))) as Hb'.
    { apply become_bounded; [apply Hb; eauto|done]. }
    split_and!; [by apply with_threads_bounded|by rewrite (thread_step_now _ _ _ _ _ _ _ _ Es)|].
    intros i t0 Hi _ Hoc. apply with_threads_old; [done|]. cbn. rewrite become_lookup.
    case_decide as Eij; [subst; by destruct (Hoc oc)|done].
  - injection H as <-. split_and!; [done|cbn; lia|done].
  - destruct (procs (cw c) !! p); [|done]. injection H as <-. split_and!; [done| |done].
    cbn. unfold play. repeat case_match; cbn; lia.
  - destruct (0 <=? dt) eqn:E; [|done]. bools. injection H as <-. split_and!; [done|cbn; lia|done].
Qed.

Lemma boot_bounded loaded disk faults w :
  bounded (next_tid (boot loaded disk faults w)) (threads (boot loaded disk faults w)).
Proof.
  unfold boot. destruct (NewManager _ _ _ _) as [m r]. apply with_threads_bounded.
  intros i. cbn. rewrite lookup_empty. by intros [].
Qed.

Lemma is_crash e : e = EvCrash \/ e <> EvCrash.
Proof. by destruct e; [right..|left]. Qed.

Lemma run_bounded loaded disk faults w es c :
  run (boot loaded disk faults w) es = Some c -> bounded (next_tid c) (threads c).
Proof.
  revert c. induction es as [|e es IH] using rev_ind; intros c.
  - intros [= <-]. apply boot_bounded.
  - intros (c1 & H1 & He)%run_snoc. destruct (is_crash e) as [->|Hne].
    + cbn in He. injection He as <-. apply boot_bounded.
    + by apply (exec_frame c1 e c (IH _ H1) He Hne).
Qed.

(** ** Waiting players *)

(** The rounds a player's call of [waitReady] can still make at the time [now]. *)
Definition rounds (deadline now : Z) : nat := Z.to_nat ((deadline - now) / poll_interval + 1).
Definition wait_measure (t : thread) (now : Z) : nat :=
  match t with
  | TWaitReady _ deadline None => 2 * rounds deadline now + 1
  | TWaitReady _ deadline (Some wake) => 2 * rounds deadline wake + 2
  | _ => 0
  end.

Lemma rounds_mono deadline t t' : t <= t' -> (rounds deadline t' <= rounds deadline t)%nat.
Proof.
  intros H. unfold rounds.
  pose proof (Z.div_le_mono (deadline - t') (deadline - t) poll_interval). unfold poll_interval in *. lia.
Qed.

Lemma rounds_step deadline t : t < deadline ->
  (rounds deadline (t + poll_interval) < rounds deadline t)%nat.
Proof.
  intros H. unfold rounds.
  replace (deadline - (t + poll_interval)) with (deadline - t + (-1) * poll_interval) by lia.
  rewrite Z.div_add by done. pose proof (Z.div_pos (deadline - t) poll_interval). unfold poll_interval in *. lia.
Qed.

Lemma waitReady_poll_true id m ok msg :
  waitReady_poll cfg id m = Some (ok, msg) -> ok = true <-> active m = id /\ phase m = Ready.
Proof.
  unfold waitReady_poll. destruct (bool_decide (active m = id)) eqn:E1,
    (bool_decide (phase m = Ready)) eqn:E2; cbn [andb]; bools; [by intros [= <- _]|..];
    intros H; (assert (ok = false) as -> by (repeat case_match; by simplify_eq));
    (split; [done|by intros [? ?]]).
Qed.

(** A step of a waiting call: it answers, or goes on with less to do. *)
Lemma waitReady_step id deadline wake o m w :
  (forall k, wake = Some k -> k <= now w) ->
  exists t', thread_step (TWaitReady id deadline wake) o m w = Some (m, w, Some t', [])
  /\ ((exists ok msg, t' = TAnswered ok msg /\ (ok = true <-> wake <> None /\ active m = id /\ phase m = Ready))
      \/ exists wake', t' = TWaitReady id deadline wake'
         /\ (wait_measure t' (now w) < wait_measure (TWaitReady id deadline wake) (now w))%nat
         /\ forall k, wake' = Some k -> k < deadline + poll_interval /\ k <= now w + poll_interval).
Proof.
  intros Hk. cbn [Manager.thread_step]. destruct wake as [wake|].
  - specialize (Hk wake eq_refl). rewrite (proj2 (Z.ltb_ge (now w) wake)) by lia.
    destruct (waitReady_poll cfg id m) as [[ok msg]|] eqn:Ep; (eexists; split; [done|]).
    + left. do 2 eexists. split; [done|]. apply waitReady_poll_true in Ep. rewrite Ep.
      split; [intros [? ?]; by split_and!|by intros (_ & ? & ?)].
    + right. exists None. split; [done|]. split; [|done]. cbn [wait_measure].
      pose proof (rounds_mono deadline wake (now w)). lia.
  - unfold waitReady_timeout. destruct (now w <? deadline) eqn:E; bools; (eexists; split; [done|]).
    + right. eexists. split; [done|]. split; [|intros k [= <-]; lia]. cbn [wait_measure].
      pose proof (rounds_step deadline (now w)). lia.
    + left. do 2 eexists. split; [done|]. naive_solver.
Qed.

Lemma wait_measure_mono id deadline wake t t' : t <= t' ->
  (wait_measure (TWaitReady id deadline wake) t' <= wait_measure (TWaitReady id deadline wake) t)%nat.
Proof. intros H. destruct wake; [done|]. cbn. pose proof (rounds_mono deadline t t'). lia. Qed.

Definition is_step_of (i : nat) (e : event) : bool :=
  match e with EvStep j _ => (j =? i)%nat | _ => false end.
(** How often the goroutine [i] moved. *)
Definition steps_of (i : nat) (es : list event) : nat := length (List.filter (is_step_of i) es).

Lemma steps_of_snoc i es e : steps_of i (es ++ [e]) = (steps_of i es + if is_step_of i e then 1 else 0)%nat.
Proof. unfold steps_of. rewrite List.filter_app, length_app. cbn. by destruct (is_step_of i e). Qed.

Lemma not_step_of i e o : is_step_of i e = false -> e <> EvStep i o.
Proof. intros H ->. cbn in H. by rewrite Nat.eqb_refl in H. Qed.

(** The goroutine [i], which is no start or stop, moves. *)
Lemma exec_own_step c i o t t' :
  bounded (next_tid c) (threads c) -> threads c !! i = Some t ->
  thread_step t o (cm c) (cw c) = Some (cm c, cw c, Some t', []) ->
  exists c', exec c (EvStep i o) = Some c' /\ threads c' !! i = Some t' /\ cw c' = cw c.
Proof.
  intros Hb Hi Hs. eexists. cbn [Manager.exec]. rewrite Hi. cbn. rewrite Hs. cbn.
  split; [done|]. cbn. by rewrite lookup_insert_eq.
Qed.

(** The call of goroutine [i], which was [deadline]'s waiter in [c], has answered in the run
    [es]: at some step, with whether the pack was ready at it. *)
Definition wait_answered (c : conf) (i : nat) (id : string) (deadline : Z) (es : list event) (c' : conf) : Prop :=
  exists ok msg es1 o es2 c1 wake, threads c' !! i = Some (TAnswered ok msg)
    /\ es = es1 ++ EvStep i o :: es2 /\ run c es1 = Some c1
    /\ threads c1 !! i = Some (TWaitReady id deadline wake)
    /\ (ok = true <-> wake <> None /\ active (cm c1) = id /\ phase (cm c1) = Ready).
(** It still waits, with [left] steps to go at most. *)
Definition wait_goes_on (i : nat) (id : string) (deadline : Z) (left : nat) (c : conf) : Prop :=
  exists wake, threads c !! i = Some (TWaitReady id deadline wake)
    /\ (wait_measure (TWaitReady id deadline wake) (now (cw c)) <= left)%nat
    /\ (forall k, wake = Some k -> k < deadline + poll_interval /\ k <= now (cw c) + poll_interval).

Lemma wait_answered_snoc c i id deadline es c' e c'' :
  wait_answered c i id deadline es c' -> threads c'' !! i = threads c' !! i ->
  wait_answered c i id deadline (es ++ [e]) c''.
Proof.
  intros (ok & msg & es1 & o & es2 & c1 & wake & Ht & -> & H) E.
  exists ok, msg, es1, o, (es2 ++ [e]), c1, wake. rewrite E, <- app_assoc. split; [done|]. split; [done|exact H].
Qed.

(** A step of the call itself. *)
Lemma wait_moves c i id deadline es c1 o c' left :
  bounded (next_tid c1) (threads c1) -> run c es = Some c1 -> wait_goes_on i id deadline left c1 ->
  exec c1 (EvStep i o) = Some c' ->
  (0 < left)%nat
  /\ (wait_answered c i id deadline (es ++ [EvStep i o]) c' \/ wait_goes_on i id deadline (left - 1) c').
Proof.
  intros Hb Hr (wake & Ht & Hm & Hk) He.
  assert (forall k, wake = Some k -> k <= now (cw c1)) as Haw.
  { intros k ->. cbn [Manager.exec] in He. rewrite Ht in He. cbn in He.
    destruct (now (cw c1) <? k) eqn:E; [done|]. by bools. }
  assert (0 < wait_measure (TWaitReady id deadline wake) (now (cw c1)))%nat by (destruct wake; cbn; lia).
  split; [lia|]. destruct (waitReady_step id deadline wake o (cm c1) (cw c1) Haw) as (t' & Hs & Ht').
  destruct (exec_own_step c1 i o _ t' Hb Ht Hs) as (c2 & He2 & Hi2 & Hw2).
  rewrite He in He2. injection He2 as <-. destruct Ht' as [(ok & msg & -> & Hok)|(wake' & -> & Hm' & Hk')].
  - left. by exists ok, msg, es, o, [], c1, wake.
  - right. exists wake'. rewrite Hw2. split_and!; [done|lia|done].
Qed.

(** What the invariant is, at every point of the run. *)
Lemma wait_invariant c i id deadline left es c' :
  bounded (next_tid c) (threads c) -> wait_goes_on i id deadline left c ->
  ~ EvCrash ∈ es -> run c es = Some c' ->
  bounded (next_tid c') (threads c') /\ (steps_of i es <= left)%nat
  /\ (wait_answered c i id deadline es c' \/ wait_goes_on i id deadline (left - steps_of i es) c').
Proof.
  intros Hb0 H0 Hes. revert c'. induction es as [|e es IH] using rev_ind; intros c' Hrun.
  { injection Hrun as <-. cbn. rewrite Nat.sub_0_r. split_and!; [done|lia|by right]. }
  apply run_snoc in Hrun as (c1 & H1 & He). destruct (IH ltac:(set_solver) c1 H1) as (Hb1 & Hl & Hc1).
  destruct (exec_frame c1 e c' Hb1 He) as (Hb' & Hnow & Hframe); [set_solver|]. split; [done|].
  rewrite steps_of_snoc. destruct (is_step_of i e) eqn:Ee.
  - destruct e as [| | | | |j o| | | |]; try done. cbn in Ee. apply Nat.eqb_eq in Ee as ->.
    destruct Hc1 as [(ok & msg & es1 & o1 & es2 & c2 & wk & Ht & _)|Hw].
    { cbn [Manager.exec] in He. by rewrite Ht in He. }
    destruct (wait_moves c i id deadline es c1 o c' _ Hb1 H1 Hw He) as [Hpos Hc'].
    split; [lia|]. destruct Hc' as [Ha|Hw']; [by left|right]. by rewrite Nat.sub_add_distr.
  - rewrite Nat.add_0_r. split; [done|]. destruct Hc1 as [Ha|(wake & Ht & Hm & Hk)]; [left|right].
    + eapply wait_answered_snoc; [exact Ha|]. destruct Ha as (ok & msg & ? & ? & ? & ? & ? & Ht & _).
      rewrite Ht. apply Hframe; [done..|]. intros o. by apply not_step_of.
    + exists wake. split_and!.
      * apply Hframe; [done..|]. intros o. by apply not_step_of.
      * pose proof (wait_measure_mono id deadline wake _ _ Hnow). lia.
      * intros k Ek. destruct (Hk k Ek). lia.
Qed.

(** C13: [waitReady] returns.  Take a call of [Ensure] that begins to wait for [id] at some
    point of some run of the daemon, and let the daemon run on in any way: other
    goroutines, players, exits, time.  While the call waits it is never stuck: its next step
    is possible, whatever the manager's state, exactly from its wake time on, which is at
    most 250ms ahead and less than 250ms after the deadline.  And each of its steps, two to
    a poll, uses up one of the [2 * ((deadline - now) / 250ms + 1) + 1] it has (the deadline
    of a new call is [StartupWait] ahead), so that when they
    are used up it has answered.  What it answered is that the pack is ready exactly when
    it was so at the poll that answered, and at the deadline that it is not. *)
Theorem waitReady_terminates loaded disk faults w es0 c i id deadline es c' :
  run (boot loaded disk faults w) es0 = Some c ->
  threads c !! i = Some (TWaitReady id deadline None) ->
  ~ EvCrash ∈ es -> run c es = Some c' ->
  let bound := (2 * rounds deadline (now (cw c)) + 1)%nat in
  (steps_of i es <= bound)%nat
  /\ (wait_answered c i id deadline es c'
      \/ exists wake, threads c' !! i = Some (TWaitReady id deadline wake)
        /\ (steps_of i es < bound)%nat
        /\ (forall o, is_Some (exec c' (EvStep i o)) <-> forall k, wake = Some k -> k <= now (cw c'))
        /\ (forall k, wake = Some k -> k < deadline + poll_interval /\ k <= now (cw c') + poll_interval)).
Proof.
  intros Hr Hi Hes Hrun bound. pose proof (run_bounded _ _ _ _ _ _ Hr) as Hb0.
  destruct (wait_invariant c i id deadline bound es c' Hb0) as (Hb & Hl & Hw); [|done..|].
  { exists None. by split_and!. }
  split; [done|]. destruct Hw as [Ha|(wake & Ht & Hm & Hk)]; [by left|right]. exists wake.
  assert (0 < wait_measure (TWaitReady id deadline wake) (now (cw c')))%nat by (destruct wake; cbn; lia).
  split_and!; [done|lia| |done]. intros o. split.
  - intros [c2 He] k ->. cbn [Manager.exec] in He. rewrite Ht in He. cbn in He.
    destruct (now (cw c') <? k) eqn:E; [done|]. by bools.
  - intros Haw. destruct (waitReady_step id deadline wake o (cm c') (cw c') Haw) as (t' & Hs & _).
    destruct (exec_own_step c' i o _ t' Hb Ht Hs) as (c2 & -> & _). by eexists.
Qed.

(** ** Idle servers *)

Definition empty_answer (p : Z * result Z) : Prop := exists n, snd p = Ok n /\ n <= 0.

(** What the status query of [tick] came to. *)
Definition poll_result (o : outcome) : option (result Z) :=
  match o with Players n => Some (Ok n) | Fails e => Some (Err e) | _ => None end.

(** The polls of a run, each with its time: the steps of [tick]'s queries. *)
Definition poll_of (c : conf) (e : event) : list (Z * result Z) :=
  match e with
  | EvStep i o =>
      match threads c !! i, poll_result o with
      | Some (TTick _), Some r => [(now (cw c), r)]
      | _, _ => []
      end
  | _ => []
  end.
Fixpoint polls (c : conf) (es : list event) : list (Z * result Z) :=
  match es with
  | [] => []
  | e :: es' => poll_of c e ++ match exec c e with Some c' => polls c' es' | None => [] end
  end.

Lemma polls_snoc c es c1 e : run c es = Some c1 -> polls c (es ++ [e]) = polls c es ++ poll_of c1 e.
Proof.
  revert c. induction es as [|e0 es IH]; intros c; cbn.
  - intros [= <-]. destruct (exec c e); by rewrite app_nil_r.
  - destruct (exec c e0) as [c2|]; [|done]. cbn. intros H. by rewrite IH, app_assoc.
Qed.

Lemma tick_query_empty t r m :
  EmptySince (m_state (fst (tick_query cfg t r m)))
  = match r with
    | Err _ => None
    | Ok n => if 0 <? n then None
              else match EmptySince (m_state m) with Some e => Some e | None => Some t end
    end.
Proof.
  destruct r as [n|e]; cbn; rewrite update_state; [|done].
  destruct (0 <? n); [done|]. by destruct (EmptySince (m_state m)) eqn:E; cbn; rewrite ?E.
Qed.

(** *** Who else writes [EmptySince] *)

Definition keeps_empty (m m' : mgr) : Prop :=
  EmptySince (m_state m') = EmptySince (m_state m) \/ EmptySince (m_state m') = None.

Lemma update_keeps t f m m0 : m_state m0 = m_state m ->
  EmptySince (f (m_state m)) = EmptySince (m_state m) \/ EmptySince (f (m_state m)) = None ->
  keeps_empty m (update t f m0).
Proof. unfold keeps_empty. intros E. by rewrite update_state, E. Qed.

Ltac kept := first [by left | by (apply update_keeps; [done|left]) | by (apply update_keeps; [done|right])].

Lemma start_step_empty id r pc o m w m' w' t' ts :
  start_step cfg sizer id r pc o m w = Some (m', w', t', ts) -> keeps_empty m m'.
Proof.
  intros H. destruct pc; cbn in H; unfold start_resize, start_resized, start_attach, mbind, option_bind in H;
    repeat (case_match; try discriminate);
    repeat match goal with E : (if _ then None else _) = _ |- _ => case_match; try discriminate end;
    simplify_eq; unfold goto, ends in *; simplify_eq; try kept.
  - apply update_keeps; [done|]. left. by destruct head, headErr.
  - unfold start_ready. case_match; kept.
Qed.

Lemma stop_step_empty k id pc o m w m' w' t' ts :
  stop_step cfg k id pc o m w = Some (m', w', t', ts) -> keeps_empty m m'.
Proof.
  intros H.
  assert (forall pc', (mbind (M := option) (fun '(w', pc') => goto (TStop k id pc') m w')
    (commit_step id pc' o w)) = Some (m', w', t', ts) -> keeps_empty m m') as Hcommit.
  { intros pc'. destruct (commit_step id pc' o w) as [[w1 pc1]|]; [|done]. cbn. unfold goto.
    intros [= <- _ _ _]. kept. }
  destruct pc; cbn [stop_step] in H; try (by eapply Hcommit); unfold stop_enter, goto in H;
    repeat (case_match; try discriminate); simplify_eq; try kept;
    apply finish_manager in H; subst m'; kept.
Qed.

(** Only the queries of [tick] set it; everything else leaves it or clears it. *)
Lemma exec_empty c e c' : exec c e = Some c' -> e <> EvCrash -> poll_of c e = [] ->
  keeps_empty (cm c) (cm c').
Proof.
  intros H Hne Hp. destruct e as [id| | | |i|i oc|p|p v|dt|]; cbn [Manager.exec] in H; [..|done].
  - destruct (Ensure_section _ _ _ _ _) as [m' next] eqn:E. injection H as <-.
    rewrite (proj1 (cm_with_threads _ _ _ _)). unfold Ensure_section in E.
    repeat case_match; simplify_eq; kept.
  - simplify_eq. kept.
  - destruct (tick_enter _ _ _); simplify_eq; [kept..|]. rewrite (proj1 (cm_with_threads _ _ _ _)). kept.
  - unfold shutdown_enter in H. destruct (_ || _); simplify_eq; [kept|].
    rewrite (proj1 (cm_with_threads _ _ _ _)). kept.
  - repeat (case_match; try discriminate). simplify_eq. kept.
  - cbn in Hp. destruct (threads c !! i) as [t|]; [|done]. cbn in H.
    destruct (thread_step t oc (cm c) (cw c)) as [[[[m' w'] t'] ts]|] eqn:E; [|done]. cbn in H.
    injection H as <-. rewrite (proj1 (cm_with_threads _ _ _ _)).
    destruct t as [id r pc| | | |k id pc| | | | | | | |]; cbn [Manager.thread_step] in E;
      [by eapply start_step_empty| | | |by eapply stop_step_empty|..];
      try (destruct oc; discriminate);
      unfold goto, ends, switch_enter, idle_enter in E;
      repeat (case_match; try discriminate);
      repeat match goal with E : (if _ then None else _) = _ |- _ => case_match; try discriminate end;
      simplify_eq; unfold waitProcess_section; repeat case_match; kept.
  - simplify_eq. kept.
  - destruct (procs (cw c) !! p); [|done]. cbn in H. simplify_eq. kept.
  - case_match; [|done]. simplify_eq. kept.
Qed.

(** What [EmptySince = e] tells, when [ps] are the polls since the boot and [e0] is what the
    boot loaded. *)
Definition empty_since (e0 : option Z) (ps : list (Z * result Z)) (e : Z) : Prop :=
  (exists before r after, ps = before ++ (e, r) :: after /\ Forall empty_answer ((e, r) :: after))
  \/ (e0 = Some e /\ Forall empty_answer ps).

Lemma empty_since_snoc e0 ps e p : empty_since e0 ps e -> empty_answer p -> empty_since e0 (ps ++ [p]) e.
Proof.
  intros [(before & r & after & -> & Ha)|[-> Ha]] Hp; [left|right].
  - exists before, r, (after ++ [p]). split; [by rewrite <- app_assoc|].
    rewrite app_comm_cons. apply Forall_app. by split; [|constructor].
  - split; [done|]. apply Forall_app. by split; [|constructor].
Qed.

Lemma poll_step c i id o r c' :
  threads c !! i = Some (TTick id) -> poll_result o = Some r -> exec c (EvStep i o) = Some c' ->
  cm c' = fst (tick_query cfg (now (cw c)) r (cm c))
  /\ (threads c' !! i = Some (TIdle id) <-> snd (tick_query cfg (now (cw c)) r (cm c)) = true).
Proof.
  intros Ht Hr H. cbn [Manager.exec] in H. rewrite Ht in H. cbn [mbind option_bind Manager.thread_step] in H.
  unfold poll_result in Hr. rewrite Hr in H. destruct (tick_query _ _ _ _) as [m' stop]. cbn in H.
  injection H as <-. split; [done|]. cbn. destruct stop;
    rewrite ?lookup_insert_eq, ?lookup_delete_eq; done.
Qed.

(** What is kept at every step. *)
Lemma exec_empty_since e0 ps c ev c' :
  (forall e, EmptySince (m_state (cm c)) = Some e -> empty_since e0 ps e) ->
  exec c ev = Some c' -> ev <> EvCrash ->
  forall e, EmptySince (m_state (cm c')) = Some e -> empty_since e0 (ps ++ poll_of c ev) e.
Proof.
  intros Hc H Hne e He. destruct (poll_of c ev) as [|p l] eqn:Ep.
  - rewrite app_nil_r. destruct (exec_empty c ev c' H Hne Ep) as [E|E]; rewrite E in He; [by apply Hc|done].
  - destruct ev as [| | | | |i o| | | |]; try done. cbn in Ep.
    destruct (threads c !! i) as [t|] eqn:Et; [|done]. destruct t; try done.
    destruct (poll_result o) as [r|] eqn:Er; [|done]. injection Ep as <- <-.
    destruct (poll_step c i id o r c' Et Er H) as [E _]. rewrite E, tick_query_empty in He.
    destruct r as [n|]; [|done]. destruct (0 <? n) eqn:En; [done|]. bools.
    assert (empty_answer (now (cw c), Ok n)) as Hn by by exists n.
    destruct (EmptySince (m_state (cm c))) as [e'|] eqn:E0; injection He as <-.
    + by apply empty_since_snoc; [apply Hc|].
    + left. exists ps, (Ok n), []. by split; [|constructor].
Qed.

Definition loaded_empty (loaded : result State) : option Z :=
  match loaded with Ok s => EmptySince s | Err _ => None end.

Lemma boot_empty loaded disk faults w :
  EmptySince (m_state (cm (boot loaded disk faults w))) = loaded_empty loaded.
Proof.
  unfold boot, NewManager, loaded_empty. destruct (negb _ && negb _);
    rewrite (proj1 (cm_with_threads _ _ _ _)), ?update_state; by destruct loaded.
Qed.

Lemma run_empty_since loaded disk faults w es c e :
  ~ EvCrash ∈ es -> run (boot loaded disk faults w) es = Some c ->
  EmptySince (m_state (cm c)) = Some e ->
  empty_since (loaded_empty loaded) (polls (boot loaded disk faults w) es) e.
Proof.
  intros Hes. revert c e. induction es as [|ev es IH] using rev_ind; intros c e Hr He.
  - injection Hr as <-. rewrite boot_empty in He. by right.
  - apply run_snoc in Hr as (c1 & H1 & Hev). rewrite (polls_snoc _ _ _ _ H1).
    eapply exec_empty_since; [|exact Hev|set_solver|exact He]. intros e1. apply IH; [set_solver|done].
Qed.

(** C14: what stops a pack for being idle.  In any run of a daemon, from its boot, when a
    status query of [tick] decides to stop the pack, the query was answered with no player,
    and [EmptySince] holds a time at least [IdleBeforeStop] ago.  Either that is the time of
    an answered query of this daemon's life, and it and every query since, this one
    included, was answered and found no player (a query that fails counts as players);
    or it is the [EmptySince] of the state file the daemon was booted over, and every query
    of its life was answered and found none.  Between the queries the pack may have failed
    and been retried, and in the second case the time may lie before the boot: neither a
    retry nor a recovery starts the count again, which is how a recovered pack can be
    stopped at its first empty query ([recovered_pack_stopped_at_once]). *)
Theorem idle_stop_after_empty_polls loaded disk faults w es c i id o c' :
  ~ EvCrash ∈ es -> run (boot loaded disk faults w) es = Some c ->
  threads c !! i = Some (TTick id) -> exec c (EvStep i o) = Some c' ->
  threads c' !! i = Some (TIdle id) ->
  exists n e, o = Players n /\ n <= 0 /\ EmptySince (m_state (cm c')) = Some e
    /\ IdleBeforeStop (RuntimeCfg cfg) <= now (cw c) - e
    /\ let ps := polls (boot loaded disk faults w) es ++ [(now (cw c), Ok n)] in
       (exists before r after, ps = before ++ (e, r) :: after /\ Forall empty_answer ((e, r) :: after))
       \/ (loaded_empty loaded = Some e /\ Forall empty_answer ps).
Proof.
  intros Hes Hr Ht H Hidle. destruct (poll_result o) as [r|] eqn:Er; cycle 1.
  { cbn [Manager.exec] in H. rewrite Ht in H. cbn in H. unfold poll_result in Er. by rewrite Er in H. }
  destruct (poll_step c i id o r c' Ht Er H) as [E [Hs _]]. specialize (Hs Hidle).
  destruct o as [|e0| | |n| | | |]; try done; injection Er as <-; [done|].
  assert (run (boot loaded disk faults w) (es ++ [EvStep i (Players n)]) = Some c') as Hr'.
  { rewrite (run_app _ _ _ _ Hr). cbn [Manager.run]. by rewrite H. }
  assert (poll_of c (EvStep i (Players n)) = [(now (cw c), Ok n)]) as Ep by (cbn; by rewrite Ht).
  cbn [tick_query snd] in Hs. destruct (EmptySince (m_state (cm c'))) as [e|] eqn:Ee;
    rewrite E in Ee; cbn [tick_query fst] in Ee; rewrite Ee in Hs; [|done].
  exists n, e. bools. split_and!; [done| |done|done|].
  - pose proof (tick_query_empty (now (cw c)) (Ok n) (cm c)) as Hq. cbn [tick_query fst] in Hq.
    rewrite Ee in Hq. destruct (0 <? n) eqn:En; [done|]. by bools.
  - rewrite <- Ep, <- (polls_snoc _ _ _ _ Hr). apply (run_empty_since _ _ _ _ _ c'); [set_solver|done|].
    rewrite E. cbn [tick_query fst]. exact Ee.
Qed.

(** ** An unreadable state file *)

(** What [NewManager] leaves when [Load] fails: the zero state, in no phase at all. *)
Record wedged (c : conf) : Prop := {
  wd_phase : phase (cm c) = OtherPhase "";
  wd_process : m_process (cm c) = None;
  wd_done : done_closed (cm c) = false;
  wd_disk : exists e, m_disk (cm c) = Some (Err e);
  wd_procs : procs (cw c) = ∅;
  wd_threads : forall i t, threads c !! i = Some t -> exists ok msg, t = TAnswered ok msg /\ ok = false }.

Lemma boot_wedged e faults w : wedged (boot (Err e) (Some (Err e)) faults w).
Proof. split; cbn; eauto; done. Qed.

Lemma wedged_step c e c' : wedged c -> exec c e = Some c' -> wedged c'.
Proof.
  intros [Hp Hm Hd [x Hx] Hpr Ht] H. destruct e as [id| | | |i|i oc|p|p v|dt|]; cbn [Manager.exec] in H.
  - unfold Ensure_section in H.
    rewrite !(bool_decide_eq_false_2 (phase _ = _)) in H by (unfold phase in *; cbn; by rewrite Hp).
    cbn [andb orb] in H. rewrite !andb_false_r in H. injection H as <-.
    unfold with_threads. cbn [spawn]. split; cbn; eauto; try done. intros i t. rewrite lookup_insert.
    case_decide; [intros [= <-]; eauto|apply Ht].
  - injection H as <-. split; eauto; done.
  - unfold tick_enter in H. rewrite !(bool_decide_eq_false_2 (phase _ = _)) in H by (by rewrite Hp).
    cbn in H. injection H as <-. split; eauto; done.
  - unfold shutdown_enter in H. rewrite Hm, orb_true_r in H. injection H as <-. split; eauto; done.
  - destruct (threads c !! i) as [t|] eqn:E; [|done]. apply Ht in E as (ok & msg & -> & _). done.
  - destruct (threads c !! i) as [t|] eqn:E; [|done]. apply Ht in E as (ok & msg & -> & _). done.
  - injection H as <-. split; cbn; eauto; try done. rewrite Hpr. apply delete_empty.
  - rewrite Hpr, lookup_empty in H. done.
  - case_match; [|done]. injection H as <-. split; eauto; done.
  - injection H as <-. rewrite Hx. apply boot_wedged.
Qed.

(** An [active.json] that cannot be read wedges the daemon.  [NewManager] drops the
    error of [Load] and goes on with the zero state, whose phase is none of the
    eight: whatever happens, through any number of crashes and boots, no pack is ever
    started, every player is refused, no process runs, the idle exit never fires, and
    the file stays as it is. *)
Theorem unreadable_state_wedges e faults w es c :
  run (boot (Err e) (Some (Err e)) faults w) es = Some c -> wedged c.
Proof.
  pose proof (boot_wedged e faults w) as H0. revert H0.
  generalize (boot (Err e) (Some (Err e)) faults w) as c0. induction es as [|ev es IH]; intros c0 H0; cbn.
  - by intros [= <-].
  - destruct (exec c0 ev) as [c1|] eqn:E; [|done]. cbn. apply IH. by eapply wedged_step.
Qed.

(** ** A start that goes well *)

(** One goroutine on its own, call by call. *)
Fixpoint thread_run (t : thread) (os : list outcome) (m : mgr) (w : world)
    : option (mgr * world * option thread) :=
  match os with
  | [] => Some (m, w, Some t)
  | o :: os' =>
      '(m', w', t', _) ← thread_step t o m w;
      match t', os' with
      | Some t', _ => thread_run t' os' m' w'
      | None, [] => Some (m', w', None)
      | None, _ :: _ => None
      end
  end.

(** The calls of a start that go well: the sizer finds the machine right, a missing
    directory is restored if there is a backup, the launcher runs the process and
    the process answers a status query. *)
Definition good_calls (restores : bool) (v : nat) (players : Z) : list outcome :=
  (if sizer then [Fine; Fine; Fine] else [Fine]) ++ [Fine]
  ++ (if restores then [Fine] else []) ++ [Fine; Fine; Launched v; Fine; Players players; Fine].

Definition restores (id : string) (w : world) : bool :=
  match local w !! id, head id w with None, Some _ => true | _, _ => false end.

Lemma thread_run_cons t o os m w m' w' t' ts :
  thread_step t o m w = Some (m', w', Some t', ts) ->
  thread_run t (o :: os) m w = thread_run t' os m' w'.
Proof. intros E. cbn. by rewrite E. Qed.

(** From the attachment of the process on, and from the identity check on. *)
Lemma attach_to_ready id recovery p n m w :
  active m = id -> 0 < StartupTimeout (RuntimeCfg cfg) ->
  thread_run (TStart id recovery (SAttach p)) [Fine; Players n; Fine] m w
  = Some (start_ready (now w) id (set_expectedStop false (set_process (Some p) m)), w, None).
Proof.
  intros Ha Ht. cbn. unfold start_attach. rewrite (bool_decide_eq_true_2 (active m = id)) by done. cbn.
  by rewrite (proj2 (Z.ltb_lt (now w) _)) by lia.
Qed.

Lemma active_start_record now h he m : active (start_record now h he m) = active m.
Proof. unfold start_record. rewrite update_active. by destruct h, he. Qed.

Lemma identity_to_ready id recovery h he v n m w :
  active m = id -> 0 < StartupTimeout (RuntimeCfg cfg) ->
  exists m', thread_run (TStart id recovery (SIdentity h he))
      [Fine; Fine; Launched v; Fine; Players n; Fine] m w
    = Some (m', launch id (create_world id v w), None)
  /\ phase m' = Ready /\ active m' = id /\ LastError (m_state m') = ""
  /\ m_process m' = Some (next_pid w)
  /\ Generation (m_state m') = default (Generation (m_state m)) h.
Proof.
  intros Ha Ht. do 3 (erewrite thread_run_cons by reflexivity).
  rewrite attach_to_ready by (done || by rewrite active_start_record).
  eexists. split; [reflexivity|]. unfold start_ready.
  assert (active (set_expectedStop false (set_process (Some (next_pid w))
    (start_record (now w) h he m))) = id) as E by (rewrite <- Ha; apply active_start_record).
  rewrite bool_decide_eq_true_2 by exact E.
  rewrite update_phase, update_active, update_process, update_state.
  split_and!; [done|exact E|done|done|]. cbn. unfold start_record. rewrite update_state.
  by destruct h, he.
Qed.

(** The part of a good start behind the sizer. *)
Lemma stat_to_ready id recovery v n m w :
  active m = id -> 0 < StartupTimeout (RuntimeCfg cfg) ->
  exists m' w', thread_run (TStart id recovery SStat)
      (Fine :: (if restores id w then [Fine] else [])
       ++ [Fine; Fine; Launched v; Fine; Players n; Fine]) m w = Some (m', w', None)
    /\ phase m' = Ready /\ active m' = id /\ LastError (m_state m') = ""
    /\ m_process m' = Some (next_pid w) /\ procs w' !! next_pid w = Some id
    /\ Generation (m_state m') = default (Generation (m_state m)) (fst <$> head id w)
    /\ local w' !! id = Some (match local w !! id with
         | Some c => c
         | None => match head id w with Some (_, c) => c | None => World v end end).
Proof.
  intros Ha Ht.
  assert (forall h w1, next_pid w1 = next_pid w -> h = fst <$> head id w ->
    local (create_world id v w1) !! id = Some (match local w !! id with
         | Some c => c
         | None => match head id w with Some (_, c) => c | None => World v end end) ->
    exists m' w', thread_run (TStart id recovery (SIdentity h false))
        [Fine; Fine; Launched v; Fine; Players n; Fine] m w1 = Some (m', w', None)
    /\ phase m' = Ready /\ active m' = id /\ LastError (m_state m') = ""
    /\ m_process m' = Some (next_pid w) /\ procs w' !! next_pid w = Some id
    /\ Generation (m_state m') = default (Generation (m_state m)) (fst <$> head id w)
    /\ local w' !! id = Some (match local w !! id with
         | Some c => c
         | None => match head id w with Some (_, c) => c | None => World v end end)) as Hrest.
  { intros h w1 Hn Hh Hl. destruct (identity_to_ready id recovery h false v n m w1 Ha Ht)
      as (m' & E & H1 & H2 & H3 & H4 & H5).
    do 2 eexists. split; [exact E|]. rewrite H4, H5, Hn, Hh. split_and!; try done.
    cbn. by rewrite create_world_next_pid, Hn, lookup_insert_eq. }
  unfold restores. destruct (local w !! id) as [c|] eqn:El.
  - assert (local (create_world id v w) !! id = Some c) as E by (unfold create_world; by rewrite El).
    destruct (head id w) as [[g c']|] eqn:Eh;
      (erewrite thread_run_cons by (cbn; rewrite El, Eh; reflexivity)); by apply Hrest.
  - destruct (head id w) as [[g c']|] eqn:Eh;
      (erewrite thread_run_cons by (cbn; rewrite El, Eh; reflexivity)).
    + cbn [app]. erewrite thread_run_cons by (cbn; rewrite El, Eh; reflexivity).
      apply Hrest; [done|done|]. unfold create_world. cbn. rewrite lookup_insert_eq. cbn.
      by rewrite lookup_insert_eq.
    + apply Hrest; [done|done|]. unfold create_world. rewrite El. cbn. by rewrite lookup_insert_eq.
Qed.

(** C12: a start reaches READY.  When every call goes well, [start] of a configured
    pack ends with the pack ready, its process attached and running, no error, and
    the generation of the newest backup; the world it runs is the one on disk, else
    the one of the newest backup, else a new one; with a sizer or without, and for a
    recovery as for a player's start. *)
Theorem start_reaches_ready id p recovery v n m w :
  Packs cfg !! id = Some p -> active m = id -> 0 < StartupTimeout (RuntimeCfg cfg) ->
  exists m' w', thread_run (TStart id recovery SLookup) (good_calls (restores id w) v n) m w
      = Some (m', w', None)
    /\ phase m' = Ready /\ active m' = id /\ LastError (m_state m') = ""
    /\ m_process m' = Some (next_pid w) /\ procs w' !! next_pid w = Some id
    /\ Generation (m_state m') = default (Generation (m_state m)) (fst <$> head id w)
    /\ local w' !! id = Some (match local w !! id with
         | Some c => c
         | None => match head id w with Some (_, c) => c | None => World v end end).
Proof.
  intros Hp Ha Ht. unfold good_calls. destruct sizer eqn:Es; cbn [app].
  - erewrite thread_run_cons; cycle 1.
    { cbn. rewrite Hp, Es. unfold start_resize. rewrite bool_decide_eq_true_2 by done. reflexivity. }
    set (m1 := update (now w) (set_Phase Resizing) m).
    assert (active m1 = id) as Ha1 by (unfold m1; by rewrite update_active).
    assert (Generation (m_state m1) = Generation (m_state m)) as Hg1 by (unfold m1; by rewrite update_state).
    erewrite thread_run_cons by reflexivity.
    erewrite thread_run_cons; cycle 1.
    { cbn. unfold start_resized. rewrite bool_decide_eq_true_2 by done. reflexivity. }
    rewrite <- Hg1. set (m2 := update (now w) _ m1).
    assert (Generation (m_state m1) = Generation (m_state m2)) as Hg2 by (unfold m2; by rewrite update_state).
    rewrite Hg2. apply stat_to_ready; [|done]. unfold m2. by rewrite update_active.
  - erewrite thread_run_cons; [by apply stat_to_ready|]. cbn. by rewrite Hp, Es.
Qed.
End Recovery.

(** ** Witnesses *)

(** A daemon that was booted without a state file, and the pack it runs; the save of its
    last step, which made the pack ready, failed. *)
Definition ready_save_fails : list bool := [false; false; false; false; true].
Definition first_boot (faults : list bool) : conf := boot (reload None) None faults empty_world.
Definition running : conf :=
  default fresh_daemon (run repository_config repository_lock true (first_boot ready_save_fails) start_events).

Lemma running_reached :
  run repository_config repository_lock true (first_boot ready_save_fails) start_events = Some running.
Proof. vm_compute. reflexivity. Qed.

Definition crashed : conf :=
  default fresh_daemon (exec repository_config repository_lock true running EvCrash).
Lemma crashed_reached : exec repository_config repository_lock true running EvCrash = Some crashed.
Proof. vm_compute. reflexivity. Qed.

(** The file of the running daemon is one save behind. *)
Lemma running_file : phase (cm running) = Ready
  /\ exists s, reload (m_disk (cm running)) = Ok s /\ st_Phase s = Loading /\ ActiveID s = "sfs".
Proof. split; [vm_compute; reflexivity|]. eexists. split; [vm_compute; reflexivity|done]. Qed.

Lemma crash_recovery_witness :
  phase (cm running) = Ready /\ threads crashed = {[ 0%nat := TStart "sfs" true SLookup ]}
  /\ phase (cm crashed) = Recovering.
Proof.
  pose proof (crash_recovery repository_config repository_lock true (reload None) None ready_save_fails
    empty_world start_events running crashed running_reached crashed_reached) as [Hc _].
  destruct running_file as (Hp & s & Es & Eph & Ea). rewrite Es in Hc.
  apply recovers_active in Hc as [Hr Ht]; [|by rewrite Eph|by rewrite Ea].
  rewrite Ea in Ht. split; [exact Hp|]. split; [exact Ht|exact Hr].
Defined.

(** The player of the first start waits from the start of its goroutine on. *)
Definition waiting : conf :=
  default fresh_daemon (run repository_config repository_lock true (first_boot []) [EvEnsure "sfs"]).
Definition wait_events : list event :=
  [EvStep 1 Fine; EvAdvance (250 * 10 ^ 6); EvStep 1 Fine; EvStep 1 Fine].
Definition waited : conf :=
  default fresh_daemon (run repository_config repository_lock true waiting wait_events).

Lemma waiting_reached :
  run repository_config repository_lock true (first_boot []) [EvEnsure "sfs"] = Some waiting.
Proof. vm_compute. reflexivity. Qed.
Lemma waited_reached : run repository_config repository_lock true waiting wait_events = Some waited.
Proof. vm_compute. reflexivity. Qed.
Lemma waiting_thread : threads waiting !! 1%nat = Some (TWaitReady "sfs" (25 * Second) None).
Proof. vm_compute. reflexivity. Qed.

Lemma waitReady_terminates_witness :
  (steps_of 1 wait_events = 3)%nat
  /\ (steps_of 1 wait_events <= 2 * rounds (25 * Second) (now (cw waiting)) + 1)%nat.
Proof.
  split; [reflexivity|].
  refine (proj1 (waitReady_terminates repository_config repository_lock true (reload None) None []
    empty_world [EvEnsure "sfs"] waiting 1 "sfs" (25 * Second) wait_events waited
    waiting_reached waiting_thread _ waited_reached)).
  unfold wait_events. rewrite !elem_of_cons, elem_of_nil. naive_solver.
Defined.

(** Somebody plays, a query fails, and twenty-one empty minutes pass. *)
Definition idle_events : list event :=
  start_events ++ [EvTick; EvStep 3 (Players 2); EvTick; EvStep 4 (Players 0);
    EvAdvance (10 * Second); EvTick; EvStep 5 (Fails (Errorf "connection refused"));
    EvAdvance (10 * Second); EvTick; EvStep 6 (Players 0);
    EvAdvance (21 * Minute); EvTick].
Definition idling : conf :=
  default fresh_daemon (run repository_config repository_lock true (first_boot []) idle_events).
Definition idled : conf :=
  default fresh_daemon (exec repository_config repository_lock true idling (EvStep 7 (Players 0))).

Lemma idling_reached : run repository_config repository_lock true (first_boot []) idle_events = Some idling.
Proof. vm_compute. reflexivity. Qed.
Lemma idling_thread : threads idling !! 7%nat = Some (TTick "sfs").
Proof. vm_compute. reflexivity. Qed.
Lemma idled_reached :
  exec repository_config repository_lock true idling (EvStep 7 (Players 0)) = Some idled
  /\ threads idled !! 7%nat = Some (TIdle "sfs").
Proof. split; vm_compute; reflexivity. Qed.

Lemma idle_stop_after_empty_polls_witness :
  exists n e, Players 0 = Players n /\ n <= 0 /\ EmptySince (m_state (cm idled)) = Some e
    /\ IdleBeforeStop (RuntimeCfg repository_config) <= now (cw idling) - e.
Proof.
  destruct (idle_stop_after_empty_polls repository_config repository_lock true (reload None) None []
    empty_world idle_events idling 7 "sfs" (Players 0) idled) as (n & e & H1 & H2 & H3 & H4 & _).
  - unfold idle_events, start_events, fine. cbn [app repeat]. rewrite !elem_of_cons, elem_of_nil. naive_solver.
  - exact idling_reached.
  - exact idling_thread.
  - exact (proj1 idled_reached).
  - exact (proj2 idled_reached).
  - exists n, e. split; [exact H1|]. split; [exact H2|]. split; [exact H3|exact H4].
Defined.

Definition corrupt_events : list event := [EvEnsure "sfs"; EvAdvance (60 * Minute); EvTick; EvCrash; EvEnsure "sfs"].

Lemma unreadable_state_wedges_witness :
  exists c, run repository_config repository_lock true
      (boot (Err (Errorf "invalid JSON")) (Some (Err (Errorf "invalid JSON"))) [] empty_world) corrupt_events = Some c
    /\ wedged c.
Proof.
  assert (run repository_config repository_lock true
      (boot (Err (Errorf "invalid JSON")) (Some (Err (Errorf "invalid JSON"))) [] empty_world) corrupt_events
    = Some (default fresh_daemon (run repository_config repository_lock true
      (boot (Err (Errorf "invalid JSON")) (Some (Err (Errorf "invalid JSON"))) [] empty_world) corrupt_events))) as He
    by (vm_compute; reflexivity).
  eexists. split; [exact He|].
  by eapply (unreadable_state_wedges repository_config repository_lock true), He.
Defined.

Lemma start_reaches_ready_witness :
  exists m' w', thread_run repository_config repository_lock true
      (TStart "sfs" true SLookup) (good_calls true (restores "sfs" (cw final_daemon)) 9 0)
      (cm crashed) (cw final_daemon) = Some (m', w', None)
    /\ phase m' = Ready /\ local w' !! "sfs" = Some (World 2).
Proof.
  destruct (start_reaches_ready repository_config repository_lock true "sfs" sfs_pack true 9 0
    (cm crashed) (cw final_daemon)) as (m' & w' & E & Hp & _ & _ & _ & _ & _ & Hl).
  - vm_compute. reflexivity.
  - vm_compute. reflexivity.
  - vm_compute. reflexivity.
  - exists m', w'. split; [exact E|]. split; [exact Hp|]. rewrite Hl. vm_compute. reflexivity.
Defined.
