(* ===== verification/ManagerRaces.v ===== *)
(** * What goes wrong

    Runs of the daemon with the committed configuration.  The first three break what
    [ManagerSafety.v] proves of orderly runs: each shows that one part of the
    definition of an orderly run is needed, and is a scenario of the real daemon.  The
    fourth is an orderly run that shows why [no_world_lost] needs answers of [Head] that
    are trusted; the last is an orderly run too: the idle stop counts time from before a
    recovery. *)
From Stdlib Require Import String Ascii.
From S2P Require Import Prelude GoStrings GoJson JsonText Config Lock StateFile Lifecycle Manager ManagerSafety.

Abbreviation run := (run repository_config repository_lock true).

(** The first start of [sfs] (goroutine 0): its process 0 is watched by goroutine 2. *)
Definition launch_first : list event :=
  EvEnsure "sfs" :: fine 0 6 ++ [EvStep 0 (Launched 1); EvStep 0 Fine].

(** *** A stale start

    The process of the first start dies at once, and the start goes on polling until its
    deadline.  Just before the deadline the player tries again (goroutine 3); the
    old start then reports its failure, over the state of the new one, and the
    next try (goroutine 5) is taken for a retry of a failed pack. *)
Definition stale_start : list event :=
  launch_first
  ++ [EvExit 0; EvStep 2 (Fails (Errorf "exit status 1")); EvAdvance (20 * Minute);
      EvEnsure "sfs"; EvStep 0 Fine; EvStep 0 Fine; EvEnsure "sfs"]
  ++ fine 3 6 ++ [EvStep 3 (Launched 2); EvStep 3 Fine]
  ++ fine 5 6 ++ [EvStep 5 (Launched 3); EvStep 5 Fine].

(** Two Minecraft processes run on the directory of one pack; the manager knows one. *)
Theorem stale_start_two_processes :
  exists c, run fresh_daemon stale_start = Some c
    /\ procs (cw c) = {[ 1%nat := "sfs"; 2%nat := "sfs" ]} /\ m_process (cm c) = Some 2%nat.
Proof. eexists. split; [vm_compute; reflexivity|]. vm_compute. split; reflexivity. Qed.

(** *** A shutdown during the idle stop

    The server is idle and being stopped (goroutine 4) when the machine is told to
    stop (goroutine 5).  Both save, both wait for the process, both back up the same
    generation; the first evicts the directory while the second reads it. *)
Definition shutdown_overlap : list event :=
  start_events
  ++ [EvTick; EvStep 3 (Players 0); EvAdvance (20 * Minute); EvTick; EvStep 4 (Players 0)]
  ++ fine 4 5 ++ [EvShutdown] ++ fine 5 4
  ++ [EvExit 0; EvStep 2 Fine] ++ fine 4 4 ++ fine 5 4
  ++ fine 4 4 ++ [EvStep 4 (Partly (Errorf "still removing"))]
  ++ fine 5 2 ++ [EvStep 4 Fine] ++ fine 5 2.

(** The directory is gone and the newest backup, the only one, is a damaged copy that
    passed its verification. *)
Theorem shutdown_overlap_loses_world :
  exists c, run fresh_daemon shutdown_overlap = Some c
    /\ latest (cw c) !! "sfs" = Some 2%nat /\ local (cw c) !! "sfs" = None
    /\ head "sfs" (cw c) = Some (1, Torn)
    /\ archives (backups "sfs" (cw c)) = {[ 1 := Torn ]}.
Proof. eexists. split; [vm_compute; reflexivity|]. vm_compute. repeat split. Qed.

(** *** A crash during the eviction

    The machine dies while the verified directory is being removed.  The recovery
    finds a directory, does not compare it with the backup, and runs on what is left
    of it; the next stop saves that as the newest generation. *)
Definition crash_in_eviction : list event :=
  start_events
  ++ [EvTick; EvStep 3 (Players 0); EvAdvance (20 * Minute); EvTick; EvStep 4 (Players 0)]
  ++ fine 4 5 ++ [EvExit 0; EvStep 2 Fine] ++ fine 4 8
  ++ [EvStep 4 (Partly (Errorf "removing")); EvCrash]
  ++ fine 0 6 ++ [EvStep 0 (Launched 3); EvStep 0 Fine; EvStep 0 (Players 0); EvStep 0 Fine]
  ++ [EvShutdown] ++ fine 2 5 ++ [EvExit 1; EvStep 1 Fine] ++ fine 2 9.

Theorem crash_in_eviction_regresses :
  exists c, run fresh_daemon crash_in_eviction = Some c
    /\ latest (cw c) !! "sfs" = Some 2%nat /\ local (cw c) !! "sfs" = None
    /\ head "sfs" (cw c) = Some (2, Torn)
    /\ archives (backups "sfs" (cw c)) !! 1 = Some (World 2).
Proof. eexists. split; [vm_compute; reflexivity|]. vm_compute. repeat split. Qed.

(** *** A backup that [Head] does not see

    The world was saved, verified and evicted, and the machine stopped.  At the next start
    the manifest of the backup cannot be opened: [Head] passes over it and reports, without
    an error, that there is none, so the start generates a new world.  A player joins it, and
    the daemon is stopped: its backup, whose head check misses the backup as well, takes
    the generation of the old one. *)
Definition stale_head : list event :=
  start_events ++ stop_events
  ++ [EvStep 4 Fine; EvCrash; EvEnsure "sfs"] ++ fine 0 3
  ++ [EvStep 0 (Stale None)] ++ fine 0 2 ++ [EvStep 0 (Launched 7); EvStep 0 Fine;
      EvStep 0 (Players 0); EvStep 0 Fine; EvPlay 1 8].
Definition stale_head_backup : list event :=
  [EvShutdown] ++ fine 3 5 ++ [EvExit 1; EvStep 2 Fine] ++ fine 3 3
  ++ [EvStep 3 (Stale None)] ++ fine 3 4.

(** The players who come back are in a new world, [World 8], while the backup holds theirs,
    [World 2]; and once the daemon is stopped nothing holds theirs any more. *)
Theorem stale_head_loses_world :
  exists c c', ManagerSafety.orderly_run repository_config repository_lock true fresh_daemon stale_head = Some c
    /\ local (cw c) !! "sfs" = Some (World 8) /\ head "sfs" (cw c) = Some (1, World 2)
    /\ ManagerSafety.orderly_run repository_config repository_lock true c stale_head_backup = Some c'
    /\ local (cw c') !! "sfs" = Some (World 8) /\ archives (backups "sfs" (cw c')) = {[ 1 := World 8 ]}.
Proof.
  eexists. eexists. split; [vm_compute; reflexivity|]. split; [vm_compute; reflexivity|].
  split; [vm_compute; reflexivity|]. split; [vm_compute; reflexivity|]. vm_compute. split; reflexivity.
Qed.

(** *** An idle stop without an idle time

    The server is empty at one status query, the machine dies, and boots an hour later
    for a player who tries to join.  The recovery keeps [EmptySince]: when the pack is
    ready again, the first query that finds it empty stops it, before the player, who was
    told to reconnect, can. *)
Definition recovered_when_empty : list event :=
  start_events
  ++ [EvTick; EvStep 3 (Players 0); EvAdvance (60 * Minute); EvCrash; EvEnsure "sfs"]
  ++ fine 0 6 ++ [EvStep 0 (Launched 3); EvStep 0 Fine; EvAdvance (60 * Second);
      EvStep 1 Fine; EvStep 0 (Players 0); EvStep 0 Fine].

Abbreviation orderly_run := (orderly_run repository_config repository_lock true).
Definition recovered : conf := default fresh_daemon (orderly_run fresh_daemon recovered_when_empty).
Definition stopping : conf :=
  default fresh_daemon (orderly_run recovered [EvTick; EvStep 3 (Players 0); EvStep 3 Fine]).

(** The moment the pack is ready, its player having been told that it is starting, and
    what the next query leads to: the goroutine that stops the pack, without time passing. *)
Theorem recovered_pack_stopped_at_once :
  (orderly_run fresh_daemon recovered_when_empty = Some recovered
   /\ phase (cm recovered) = Ready
   /\ threads recovered !! 1%nat = Some (TAnswered false
        "Standard Fabric Server 1.21.1 is starting. Please reconnect shortly."))
  /\ orderly_run recovered [EvTick; EvStep 3 (Players 0); EvStep 3 Fine] = Some stopping
  /\ phase (cm stopping) = Draining /\ now (cw stopping) = now (cw recovered)
  /\ threads stopping !! 3%nat = Some (TStop (KIdle "sfs") "" BEnter).
Proof. split; [split; [|split]|split; [|split; [|split]]]; vm_compute; reflexivity. Qed.
