(* ===== verification/Router.v ===== *)
(** * The router ([internal/router/server.go])

    The rate limit by address, the accept loop with its bound on connections, and the
    handling of one player's connection: status answers, refusals, and the relay to the
    Minecraft server. *)
From Stdlib Require Import String Ascii.
From S2P Require Import Prelude GoStrings GoJson JsonText McProto Config StateFile.

(** ** The limiter *)

(** [Time.Sub]: the difference, clamped to a 64-bit duration. *)
Definition Sub (a b : Z) : Z := Z.max (- 2 ^ 63) (Z.min (2 ^ 63 - 1) (a - b)).

Record ipBucket := mkBucket { b_start : Z; b_count : Z }.
Definition zero_bucket : ipBucket := mkBucket zero_time 0.

Record ipLimiter := mkLimiter { l_limit : Z; l_ips : gmap string ipBucket }.
Definition newIPLimiter (limit : Z) : ipLimiter := mkLimiter limit ∅.

Definition allow (now : Z) (ip : string) (l : ipLimiter) : bool * ipLimiter :=
  let b := default zero_bucket (l_ips l !! ip) in
  let b := if Minute <=? Sub now (b_start b) then mkBucket now 0 else b in
  let b := if b_start b =? zero_time then mkBucket now (b_count b) else b in
  let b := mkBucket (b_start b) (int64 (b_count b + 1)) in
  let ips := <[ip := b]> (l_ips l) in
  let ips := filter (fun kv => (Sub now (b_start (snd kv)) <=? 2 * Minute) = true) ips in
  (b_count b <=? l_limit l, mkLimiter (l_limit l) ips).

(** A sequence of calls at their times; the verdict of each with its address. *)
Fixpoint allow_all (calls : list (Z * string)) (l : ipLimiter) : list (string * bool) * ipLimiter :=
  match calls with
  | [] => ([], l)
  | (now, ip) :: calls' =>
      let '(b, l1) := allow now ip l in
      let '(bs, l2) := allow_all calls' l1 in ((ip, b) :: bs, l2)
  end.

(** ** The accept loop *)

(** The connections being handled; an accepted connection is handled or closed. *)
Definition accept (max : Z) (active : Z) : bool * Z :=
  if active <? max then (true, active + 1) else (false, active).
Definition handled (active : Z) : Z := active - 1.

(** What [Serve] returns when [Accept] fails. *)
Definition serve_result (ctx_done manager_done : bool) (err : error) : result unit :=
  if ctx_done || manager_done then Ok tt else Err err.

(** ** One connection *)

(** The Minecraft server as the router meets it: the error of the dial, the faults of
    writing to it, what it sends, and how many bytes each direction copied when the
    other direction ended. *)
Record backend := mkBackend {
  bk_dial : option error; bk_writer : writer; bk_sends : list byte; bk_up : nat; bk_down : nat }.

(** What became of a connection: what the player was sent, what the Minecraft server
    was sent (if it was dialled), and the pack [Ensure] was called for. *)
Record outcome := mkOutcome {
  o_client : list byte; o_backend : option (list byte); o_ensured : option string }.

Section Handle.
Context `{GoUnicode}.
Context (cfg : Config).

Definition motd (st : State) (found : option (string * Pack)) : string :=
  match found with
  | None => "Unknown hostpack"
  | Some (id, pack) =>
      if bool_decide (ActiveID st = id) && bool_decide (st_Phase st = Ready)
      then DisplayName pack +:+ " is running"
      else if bool_decide (ActiveID st = id) then DisplayName pack +:+ " is " +:+ phase_text (st_Phase st)
      else if negb (bool_decide (ActiveID st = "")) then DisplayName pack +:+ " is sleeping; " +:+ ActiveID st +:+ " is active"
      else DisplayName pack +:+ " is sleeping — join to start"
  end.

(** The relay behind a successful dial: the frame, then both directions. *)
Definition relay (h : Handshake) (rest : reader) (bk : backend) : list byte * list byte :=
  match Write (Frame h) (bk_writer bk) with
  | (Err _, w) => ([], w_out w)
  | (Ok _, w) => (take (bk_down bk) (bk_sends bk), w_out w ++ take (bk_up bk) (rd_data rest))
  end.

(** [handle] behind the limiter; [ensure] is [Manager.Ensure]. *)
Definition handle_player (st : State) (ensure : string -> bool * string) (bk : backend) (c : conn) : outcome :=
  let sent (x : result unit * conn) := w_out (c_out (snd x)) in
  match ReadHandshake (c_in c) with
  | (Err _, _) => mkOutcome [] None None
  | (Ok hs, rest) =>
      let c1 := Conn rest (c_out c) in
      let found := PackForHost cfg (Host hs) in
      if NextState hs =? 1 then
        mkOutcome (sent (WriteStatus (Protocol hs) "Hostpack MVP" (motd st found) 0 0 c1)) None None
      else
        match found with
        | None => mkOutcome (sent (WriteLoginDisconnect "Unknown hostpack hostname." c1)) None None
        | Some (id, _) =>
            let '(ready, msg) := ensure id in
            if negb ready then mkOutcome (sent (WriteLoginDisconnect msg c1)) None (Some id)
            else
              match bk_dial bk with
              | Some _ =>
                  mkOutcome (sent (WriteLoginDisconnect "Server became unavailable. Please reconnect." c1))
                    None (Some id)
              | None =>
                  let '(down, up) := relay hs rest bk in mkOutcome (w_out (c_out c) ++ down) (Some up) (Some id)
              end
        end
  end.

Definition handle (now : Z) (remote : string) (st : State) (ensure : string -> bool * string)
    (bk : backend) (c : conn) (l : ipLimiter) : outcome * ipLimiter :=
  let '(ok, l') := allow now remote l in
  (if ok then handle_player st ensure bk c else mkOutcome [] None None, l').
End Handle.

(** ** The limiter's laws *)

Lemma Minute_small : 0 < Minute /\ 2 * Minute < 2 ^ 63.
Proof. unfold Minute, Second. lia. Qed.

Lemma Sub_ge now start m : 0 < m < 2 ^ 63 -> (m <=? Sub now start) = true <-> start + m <= now.
Proof. intros Hm. unfold Sub. rewrite Z.leb_le. lia. Qed.

(** The bucket that counts for a call at [now]. *)
Definition live (now : Z) (ip : string) (l : ipLimiter) : option ipBucket :=
  b ← l_ips l !! ip; if Minute <=? Sub now (b_start b) then None else Some b.

Lemma allow_live now ip l : 0 <= now ->
  fst (allow now ip l) = (int64 (b_count (default (mkBucket now 0) (live now ip l)) + 1) <=? l_limit l).
Proof.
  intros Hn. unfold allow, live. cbn [fst]. destruct Minute_small as [Hm1 Hm2].
  destruct (l_ips l !! ip) as [b|] eqn:E; cbn [default mbind option_bind from_option id].
  - destruct (Minute <=? Sub now (b_start b)); cbn [b_start b_count default from_option id].
    + destruct (now =? zero_time); done.
    + destruct (b_start b =? zero_time); done.
  - rewrite (proj2 (Sub_ge now (b_start zero_bucket) Minute ltac:(lia))); [|cbn; unfold zero_time, Minute, Second; lia].
    cbn [b_start b_count]. destruct (now =? zero_time); done.
Qed.

(** Buckets start at times the clock has shown. *)
Definition bucket_ok (now : Z) (l : ipLimiter) : Prop :=
  forall ip b, l_ips l !! ip = Some b -> 0 <= b_start b <= now.

Lemma allow_lookup now ip l ip' : 0 <= now -> bucket_ok now l ->
  l_ips (snd (allow now ip l)) !! ip' =
    if decide (ip' = ip)
    then let b := default (mkBucket now 0) (live now ip l) in Some (mkBucket (b_start b) (int64 (b_count b + 1)))
    else b ← l_ips l !! ip'; if Sub now (b_start b) <=? 2 * Minute then Some b else None.
Proof.
  intros Hn Hok. unfold allow. cbn [snd l_ips]. destruct Minute_small as [Hm1 Hm2].
  set (b1 := if Minute <=? _ then _ else _). set (b2 := if _ =? zero_time then _ else _).
  assert (b2 = default (mkBucket now 0) (live now ip l) /\ 0 <= now - b_start b2 < Minute) as [-> Hb2].
  { unfold b2, b1, live. destruct (l_ips l !! ip) as [b|] eqn:E; cbn [default mbind option_bind from_option id].
    - pose proof (Hok ip b E) as Hs.
      destruct (Minute <=? Sub now (b_start b)) eqn:Em; cbn [b_start b_count default from_option id].
      + rewrite (proj2 (Z.eqb_neq now zero_time)) by (unfold zero_time; lia). cbn [b_start]. split; [done|lia].
      + rewrite (proj2 (Z.eqb_neq (b_start b) zero_time)) by (unfold zero_time; lia). split; [done|].
        apply Z.leb_gt in Em. unfold Sub in Em. lia.
    - rewrite (proj2 (Sub_ge now (b_start zero_bucket) Minute ltac:(lia))); [|cbn; unfold zero_time, Minute, Second; lia].
      cbn [b_start b_count]. rewrite (proj2 (Z.eqb_neq now zero_time)) by (unfold zero_time; lia). cbn [b_start]. split; [done|lia]. }
  set (b := default _ _) in *. rewrite map_lookup_filter. case_decide as E.
  - subst ip'. rewrite lookup_insert_eq. cbn [mbind option_bind]. rewrite option_guard_True; [done|].
    cbn. apply Z.leb_le. unfold Sub. lia.
  - rewrite lookup_insert_ne by done. destruct (l_ips l !! ip') as [b'|]; [|done]. cbn [mbind option_bind].
    destruct (Sub now (b_start b') <=? 2 * Minute) eqn:Es.
    + by rewrite option_guard_True.
    + rewrite option_guard_False; [done|]. cbn. by rewrite Es.
Qed.

Lemma allow_bucket_ok now ip l t : 0 <= t <= now -> bucket_ok t l -> bucket_ok now (snd (allow now ip l)).
Proof.
  intros Ht Hok ip' b. assert (bucket_ok now l) as Hok' by (intros i b' Hb'; specialize (Hok i b' Hb'); lia).
  rewrite allow_lookup by (done || lia). case_decide.
  - unfold live. destruct (l_ips l !! ip) as [b0|] eqn:E; cbn [mbind option_bind].
    + specialize (Hok' ip b0 E). intros [= <-]. destruct (_ <=? _); cbn; lia.
    + intros [= <-]. cbn. lia.
  - destruct (l_ips l !! ip') as [b0|] eqn:E; [|done]. cbn. destruct (_ <=? _); [|done].
    intros [= <-]. by apply (Hok' ip').
Qed.

(** A call leaves the bucket of another address as it counts, and opens or fills its
    own. *)
Lemma live_allow_other now ip l ip' t :
  0 <= now <= t -> bucket_ok now l -> ip' <> ip -> live t ip' (snd (allow now ip l)) = live t ip' l.
Proof.
  intros Ht Hok Hne. unfold live at 1. rewrite allow_lookup, decide_False by (done || lia). unfold live.
  destruct (l_ips l !! ip') as [b|] eqn:E; [|done]. cbn. destruct Minute_small.
  specialize (Hok ip' b E). destruct (Sub now (b_start b) <=? 2 * Minute) eqn:E1; [done|]. cbn.
  rewrite (proj2 (Sub_ge t (b_start b) Minute ltac:(lia))); [done|]. bools. unfold Sub in E1. lia.
Qed.

Lemma live_allow_self now ip l t :
  0 <= now <= t -> bucket_ok now l ->
  let b := default (mkBucket now 0) (live now ip l) in
  live t ip (snd (allow now ip l))
  = if t <? b_start b + Minute then Some (mkBucket (b_start b) (int64 (b_count b + 1))) else None.
Proof.
  intros Ht Hok b. unfold live at 1. rewrite allow_lookup, decide_True by (done || lia). fold b. cbn.
  destruct Minute_small. destruct (Minute <=? Sub t (b_start b)) eqn:E.
  - apply (Sub_ge t (b_start b) Minute ltac:(lia)) in E. by rewrite (proj2 (Z.ltb_ge _ _)).
  - rewrite (proj2 (Z.ltb_lt _ _)); [done|]. destruct (Z.lt_ge_cases t (b_start b + Minute)) as [|Hge]; [done|].
    apply (Sub_ge t (b_start b) Minute ltac:(lia)) in Hge. congruence.
Qed.

Lemma allow_limit now ip l : l_limit (snd (allow now ip l)) = l_limit l.
Proof. done. Qed.

(** The times of a sequence of calls do not fall, from [t] on. *)
Fixpoint sorted_from (t : Z) (calls : list (Z * string)) : Prop :=
  match calls with [] => True | (now, _) :: calls' => t <= now /\ sorted_from now calls' end.

(** Two limiters an address cannot tell apart from [t] on. *)
Definition agree (t : Z) (ip : string) (l1 l2 : ipLimiter) : Prop :=
  l_limit l1 = l_limit l2 /\ forall t', t <= t' -> live t' ip l1 = live t' ip l2.

Lemma allow_agree t now ip l1 l2 :
  0 <= t <= now -> bucket_ok t l1 -> bucket_ok t l2 -> agree t ip l1 l2 ->
  fst (allow now ip l1) = fst (allow now ip l2) /\ agree now ip (snd (allow now ip l1)) (snd (allow now ip l2)).
Proof.
  intros Ht H1 H2 [El Ea].
  assert (bucket_ok now l1 /\ bucket_ok now l2) as [H1' H2'].
  { split; intros i b Hb; [specialize (H1 i b Hb)|specialize (H2 i b Hb)]; lia. }
  split; [rewrite !allow_live, El, Ea by lia; done|]. split; [by rewrite !allow_limit|].
  intros t' Ht'. rewrite !live_allow_self, Ea by (done || lia). done.
Qed.

Definition verdicts_of (ip : string) (r : list (string * bool)) : list (string * bool) :=
  List.filter (fun x => bool_decide (fst x = ip)) r.
Definition calls_of (ip : string) (calls : list (Z * string)) : list (Z * string) :=
  List.filter (fun x => bool_decide (snd x = ip)) calls.

Lemma allow_all_isolated calls : forall t ip l1 l2,
  0 <= t -> sorted_from t calls -> bucket_ok t l1 -> bucket_ok t l2 -> agree t ip l1 l2 ->
  verdicts_of ip (fst (allow_all calls l1)) = fst (allow_all (calls_of ip calls) l2).
Proof.
  induction calls as [|[now ip'] calls IH]; intros t ip l1 l2 Ht Hs H1 H2 Ha; [done|].
  destruct Hs as [Hle Hs]. cbn [allow_all calls_of List.filter snd].
  assert (bucket_ok now l1 /\ bucket_ok now l2) as [H1' H2'].
  { split; intros i b Hb; [specialize (H1 i b Hb)|specialize (H2 i b Hb)]; lia. }
  pose proof (allow_bucket_ok now ip' l1 t ltac:(lia) H1) as K1.
  pose proof (allow_bucket_ok now ip' l2 t ltac:(lia) H2) as K2.
  case_bool_decide as E.
  - subst ip'. destruct (allow_agree t now ip l1 l2 ltac:(lia) H1 H2 Ha) as [Ev Ha'].
    cbn [allow_all]. destruct (allow now ip l1) as [v1 l1'], (allow now ip l2) as [v2 l2']. cbn [fst snd] in *.
    specialize (IH now ip l1' l2' ltac:(lia) Hs K1 K2 Ha'). unfold calls_of in IH.
    destruct (allow_all calls l1') as [r1 m1], (allow_all (List.filter _ calls) l2') as [r2 m2].
    cbn [fst] in *. subst v2. unfold verdicts_of in *. cbn [List.filter fst].
    rewrite bool_decide_eq_true_2 by done. by rewrite IH.
  - assert (agree now ip (snd (allow now ip' l1)) l2) as Ha'.
    { destruct Ha as [El Ea]. split; [done|]. intros t' Ht'.
      rewrite live_allow_other by (done || lia). apply Ea. lia. }
    destruct (allow now ip' l1) as [v1 l1']. cbn [snd] in *.
    specialize (IH now ip l1' l2 ltac:(lia) Hs K1 H2' Ha'). unfold calls_of in IH.
    destruct (allow_all calls l1') as [r1 m1]. cbn [fst] in *. unfold verdicts_of in *. cbn [List.filter fst].
    rewrite bool_decide_eq_false_2 by done. exact IH.
Qed.

(** How many of the calls of an address were admitted. *)
Definition admitted (ip : string) (r : list (string * bool)) : Z :=
  Z.of_nat (length (List.filter (fun x => bool_decide (fst x = ip) && snd x) r)).

Definition counts_ok (k : Z) (l : ipLimiter) : Prop :=
  forall ip b, l_ips l !! ip = Some b -> 1 <= b_count b <= k.

Lemma live_count k ip l t : counts_ok k l -> 0 <= k ->
  0 <= match live t ip l with Some b => b_count b | None => 0 end <= k.
Proof.
  intros Hk Hk0. unfold live. destruct (l_ips l !! ip) as [b|] eqn:E; cbn; [|lia].
  specialize (Hk ip b E). destruct (_ <=? _); cbn; lia.
Qed.

Lemma allow_counts now ip l k : 0 <= now -> bucket_ok now l -> counts_ok k l -> 0 <= k < 2 ^ 63 - 1 ->
  counts_ok (k + 1) (snd (allow now ip l)).
Proof.
  intros Hn Hok Hk Hk1 ip' b. rewrite allow_lookup by done. case_decide.
  - pose proof (live_count k ip l now Hk ltac:(lia)) as Hc. intros [= <-]. cbn.
    destruct (live now ip l) as [b0|]; cbn; unfold int64; rewrite swrap_id by lia; lia.
  - destruct (l_ips l !! ip') as [b0|] eqn:E; [|done]. cbn. destruct (_ <=? _); [|done].
    intros [= <-]. specialize (Hk ip' b0 E). lia.
Qed.

(** Within the life of one bucket only what is left of the limit is admitted. *)
Lemma admitted_in_bucket calls : forall now ip l b k,
  0 <= now -> sorted_from now calls -> bucket_ok now l -> counts_ok k l ->
  0 <= k -> k + Z.of_nat (length calls) < 2 ^ 63 ->
  live now ip l = Some b -> Forall (fun c => fst c < b_start b + Minute) calls ->
  admitted ip (fst (allow_all calls l)) <= Z.max 0 (l_limit l - b_count b).
Proof.
  induction calls as [|[t ip'] calls IH]; intros now ip l b k Hn Hs Hok Hk Hk0 Hlen Hl Hw;
    [unfold admitted; cbn [allow_all fst List.filter length]; lia|].
  destruct Hs as [Hle Hs]. apply Forall_cons in Hw as [Ht Hw]. cbn [fst] in Ht. cbn [length] in Hlen.
  assert (bucket_ok t l) as Hok' by (intros i b' Hb'; specialize (Hok i b' Hb'); lia).
  pose proof (allow_bucket_ok t ip' l now ltac:(lia) Hok) as K1.
  pose proof (allow_counts t ip' l k ltac:(lia) Hok' Hk ltac:(lia)) as K2.
  assert (live t ip l = Some b) as Hlt.
  { unfold live in *. destruct (l_ips l !! ip) as [b0|]; [|done]. cbn in *.
    destruct (Minute <=? Sub now (b_start b0)) eqn:E; [done|]. injection Hl as ->.
    destruct (Minute <=? Sub t (b_start b)) eqn:E'; [|done]. destruct Minute_small.
    apply Sub_ge in E'; lia. }
  pose proof (live_count k ip l t Hk Hk0) as Hc. rewrite Hlt in Hc.
  cbn [allow_all]. unfold admitted. destruct (decide (ip' = ip)) as [->|Hne].
  - pose proof (allow_live t ip l ltac:(lia)) as Hv. rewrite Hlt in Hv. cbn [default from_option id] in Hv.
    assert (live t ip (snd (allow t ip l)) = Some (mkBucket (b_start b) (b_count b + 1))) as Hl'.
    { rewrite live_allow_self by (done || lia). rewrite Hlt. cbn [default from_option id].
      rewrite (proj2 (Z.ltb_lt _ _)) by lia. unfold int64. by rewrite swrap_id by lia. }
    unfold int64 in Hv. rewrite swrap_id in Hv by lia.
    destruct (allow t ip l) as [v l'] eqn:Ea. cbn [fst snd] in *.
    assert (l_limit l' = l_limit l) as El by (pose proof (allow_limit t ip l) as X; by rewrite Ea in X).
    specialize (IH t ip l' _ (k + 1) ltac:(lia) Hs K1 K2 ltac:(lia) ltac:(lia) Hl' Hw). unfold admitted in IH.
    destruct (allow_all calls l') as [r m]. cbn [fst b_count] in *. cbn [List.filter fst snd].
    rewrite bool_decide_eq_true_2 by done. cbn [andb]. rewrite El in IH.
    destruct v; cbn [length]; [symmetry in Hv; bools; lia|lia].
  - assert (live t ip (snd (allow t ip' l)) = Some b) as Hl'
      by (rewrite live_allow_other by (done || lia); done).
    pose proof (allow_limit t ip' l) as El. destruct (allow t ip' l) as [v l']. cbn [fst snd] in *.
    specialize (IH t ip l' b (k + 1) ltac:(lia) Hs K1 K2 ltac:(lia) ltac:(lia) Hl' Hw). unfold admitted in IH.
    destruct (allow_all calls l') as [r m]. cbn [List.filter fst snd] in *.
    rewrite bool_decide_eq_false_2 by done. cbn [andb]. by rewrite El in IH.
Qed.

Lemma admitted_in_window calls : forall now ip l t0 k,
  0 <= now -> sorted_from now calls -> bucket_ok now l -> counts_ok k l ->
  0 <= k -> k + Z.of_nat (length calls) < 2 ^ 63 -> 0 <= l_limit l ->
  Forall (fun c => t0 <= fst c < t0 + Minute) calls ->
  admitted ip (fst (allow_all calls l))
  <= l_limit l + match live now ip l with Some b => Z.max 0 (l_limit l - b_count b) | None => 0 end.
Proof.
  induction calls as [|[t ip'] calls IH]; intros now ip l t0 k Hn Hs Hok Hk Hk0 Hlen Hlim Hw;
    [unfold admitted; cbn [allow_all fst List.filter length]; destruct (live now ip l); lia|].
  destruct Hs as [Hle Hs]. apply Forall_cons in Hw as [Ht Hw]. cbn [fst] in Ht. cbn [length] in Hlen.
  assert (bucket_ok t l) as Hok' by (intros i b' Hb'; specialize (Hok i b' Hb'); lia).
  pose proof (allow_bucket_ok t ip' l now ltac:(lia) Hok) as K1.
  pose proof (allow_counts t ip' l k ltac:(lia) Hok' Hk ltac:(lia)) as K2.
  pose proof (live_count k ip l t Hk Hk0) as Hc.
  assert (live t ip l = live now ip l \/ live t ip l = None) as Hlt.
  { unfold live. destruct (l_ips l !! ip) as [b|]; [|by right]. cbn.
    destruct (Minute <=? Sub t (b_start b)) eqn:E; [by right|left].
    destruct (Minute <=? Sub now (b_start b)) eqn:E'; [|done]. destruct Minute_small.
    apply Sub_ge in E'; [|lia]. assert (b_start b + Minute <= t) as Hb by lia.
    apply (Sub_ge t (b_start b) Minute ltac:(lia)) in Hb. congruence. }
  set (old := match live now ip l with Some b => _ | None => _ end).
  assert (match live t ip l with Some b => Z.max 0 (l_limit l - b_count b) | None => 0 end <= old) as Hold.
  { unfold old. destruct Hlt as [->| ->]; [lia|]. destruct (live now ip l); lia. }
  clearbody old. cbn [allow_all]. unfold admitted. destruct (decide (ip' = ip)) as [->|Hne].
  - pose proof (allow_live t ip l ltac:(lia)) as Hv.
    pose proof (live_allow_self t ip l t ltac:(lia) Hok') as Hl'. cbv zeta in Hl'.
    destruct (allow t ip l) as [v l'] eqn:Ea. cbn [fst snd] in *.
    assert (l_limit l' = l_limit l) as El by (pose proof (allow_limit t ip l) as X; by rewrite Ea in X).
    destruct (live t ip l) as [b|] eqn:Eb; cbn [default from_option id b_start b_count] in *.
    + assert (t < b_start b + Minute) as Hb.
      { unfold live in Eb. destruct (l_ips l !! ip) as [b0|]; [|done]. cbn in Eb.
        destruct (Minute <=? Sub t (b_start b0)) eqn:E; [done|]. injection Eb as ->.
        destruct (Z.lt_ge_cases t (b_start b + Minute)) as [|Hge]; [done|]. destruct Minute_small.
        apply (Sub_ge t (b_start b) Minute ltac:(lia)) in Hge. congruence. }
      rewrite (proj2 (Z.ltb_lt _ _)) in Hl' by lia. unfold int64 in *. rewrite swrap_id in Hl', Hv by lia.
      specialize (IH t ip l' t0 (k + 1) ltac:(lia) Hs K1 K2 ltac:(lia) ltac:(lia) ltac:(lia) Hw).
      rewrite Hl' in IH. unfold admitted in IH. destruct (allow_all calls l') as [r m].
      cbn [fst b_count List.filter snd] in *. rewrite bool_decide_eq_true_2 by done. cbn [andb].
      rewrite El in IH. destruct v; cbn [length]; [symmetry in Hv; bools; lia|lia].
    + rewrite (proj2 (Z.ltb_lt _ _)) in Hl' by (destruct Minute_small; lia).
      unfold int64 in *. rewrite swrap_id in Hl', Hv by lia.
      assert (Forall (fun c => fst c < t + Minute) calls) as Hw'
        by (eapply Forall_impl; [exact Hw|]; cbn; intros; lia).
      pose proof (admitted_in_bucket calls t ip l' _ (k + 1) ltac:(lia) Hs K1 K2 ltac:(lia) ltac:(lia) Hl' Hw') as Hb.
      unfold admitted in Hb. destruct (allow_all calls l') as [r m].
      cbn [fst b_count List.filter snd] in *. rewrite bool_decide_eq_true_2 by done. cbn [andb].
      rewrite El in Hb. destruct v; cbn [length]; [symmetry in Hv; bools; lia|lia].
  - pose proof (allow_limit t ip' l) as El.
    pose proof (live_allow_other t ip' l ip t ltac:(lia) Hok' (not_eq_sym Hne)) as Hl'.
    destruct (allow t ip' l) as [v l']. cbn [fst snd] in *.
    specialize (IH t ip l' t0 (k + 1) ltac:(lia) Hs K1 K2 ltac:(lia) ltac:(lia) ltac:(lia) Hw).
    rewrite Hl' in IH. unfold admitted in IH. destruct (allow_all calls l') as [r m].
    cbn [List.filter fst snd] in *. rewrite bool_decide_eq_false_2 by done. cbn [andb]. rewrite El in IH. lia.
Qed.

Lemma new_bucket_ok limit now : bucket_ok now (newIPLimiter limit).
Proof. intros ip b Hb. cbn in Hb. by rewrite lookup_empty in Hb. Qed.

Lemma new_counts_ok limit k : counts_ok k (newIPLimiter limit).
Proof. intros ip b Hb. cbn in Hb. by rewrite lookup_empty in Hb. Qed.

(** The time of the last of a sequence of calls. *)
Definition last_time (t : Z) (calls : list (Z * string)) : Z :=
  List.fold_left (fun _ c => fst c) calls t.

Lemma allow_all_inv calls : forall now l k,
  0 <= now -> sorted_from now calls -> bucket_ok now l -> counts_ok k l ->
  0 <= k -> k + Z.of_nat (length calls) < 2 ^ 63 ->
  let l' := snd (allow_all calls l) in
  now <= last_time now calls /\ bucket_ok (last_time now calls) l'
  /\ counts_ok (k + Z.of_nat (length calls)) l' /\ l_limit l' = l_limit l.
Proof.
  induction calls as [|[t ip] calls IH]; intros now l k Hn Hs Hok Hk Hk0 Hlen.
  { cbn [allow_all snd last_time List.fold_left length]. rewrite Z.add_0_r. split_and!; (done || lia). }
  destruct Hs as [Hle Hs]. cbn [length] in Hlen.
  assert (bucket_ok t l) as Hok' by (intros i b' Hb'; specialize (Hok i b' Hb'); lia).
  pose proof (allow_bucket_ok t ip l now ltac:(lia) Hok) as K1.
  pose proof (allow_counts t ip l k ltac:(lia) Hok' Hk ltac:(lia)) as K2.
  cbn [allow_all last_time List.fold_left fst]. pose proof (allow_limit t ip l) as El.
  destruct (allow t ip l) as [v l1]. cbn [snd] in *.
  specialize (IH t l1 (k + 1) ltac:(lia) Hs K1 K2 ltac:(lia) ltac:(lia)). cbv zeta in IH.
  destruct (allow_all calls l1) as [r m]. cbn [snd length] in *.
  destruct IH as (I1 & I2 & I3 & I4). unfold last_time in *. split_and!; [lia|done| |congruence].
  replace (k + Z.of_nat (S (length calls))) with (k + 1 + Z.of_nat (length calls)) by lia. done.
Qed.

Lemma sorted_from_app a b : forall t, sorted_from t (a ++ b) <-> sorted_from t a /\ sorted_from (last_time t a) b.
Proof.
  induction a as [|[now ip] a IH]; intros t; cbn [app sorted_from]; [cbn; tauto|].
  rewrite IH. cbn. tauto.
Qed.

(** ** Properties *)

(** The rate limit, as it is enforced.  The limiter counts by fixed windows that
    begin with a first call, so the calls of an address in any stretch of one minute can
    spend what is left of one window and all of the next: after any history, at most
    twice the limit less one are admitted, whatever other addresses do and whatever the
    limiter forgets in between. *)
Theorem limiter_rate limit before window ip t0 :
  sorted_from 0 (before ++ window) -> Z.of_nat (length (before ++ window)) < 2 ^ 63 -> 1 <= limit ->
  Forall (fun c => t0 <= fst c < t0 + Minute) window ->
  admitted ip (fst (allow_all window (snd (allow_all before (newIPLimiter limit))))) <= 2 * limit - 1.
Proof.
  intros Hs Hlen Hl Hw. rewrite length_app in Hlen. apply sorted_from_app in Hs as [Hs1 Hs2].
  destruct (allow_all_inv before 0 (newIPLimiter limit) 0 ltac:(lia) Hs1 (new_bucket_ok _ _)
    (new_counts_ok _ _) ltac:(lia) ltac:(lia)) as (Ht & Hok & Hk & El).
  set (l := snd (allow_all before (newIPLimiter limit))) in *. cbn [l_limit newIPLimiter] in El.
  pose proof (admitted_in_window window (last_time 0 before) ip l t0 _ Ht Hs2 Hok Hk ltac:(lia) ltac:(lia)
    ltac:(lia) Hw) as Ha.
  rewrite El in Ha. unfold live in Ha. destruct (l_ips l !! ip) as [b|] eqn:E; cbn [mbind option_bind] in Ha; [|lia].
  specialize (Hk ip b E). destruct (_ <=? Sub _ _); lia.
Qed.

(** C38: addresses do not share an allowance.  In any history of calls, the verdicts of
    an address are the ones a limiter that only ever saw that address gives: neither the
    calls of others nor the buckets thrown away on their account change them. *)
Theorem limiter_isolated limit calls ip :
  sorted_from 0 calls ->
  verdicts_of ip (fst (allow_all calls (newIPLimiter limit)))
  = fst (allow_all (calls_of ip calls) (newIPLimiter limit)).
Proof.
  intros Hs. apply (allow_all_isolated calls 0); [lia|done|apply new_bucket_ok..|done].
Qed.

Section HandleProps.
Context `{GoUnicode}.

Lemma relay_up h rest bk :
  exists k, snd (relay h rest bk) = w_out (bk_writer bk) ++ take k (Frame h ++ rd_data rest)
    /\ prefix (fst (relay h rest bk)) (bk_sends bk).
Proof.
  unfold relay, Write. destruct (w_faults (bk_writer bk)) as [|[[k e]|] fs]; cbn [w_out fst snd].
  - exists (length (Frame h) + bk_up bk)%nat. rewrite take_app_add, app_assoc. split; [done|apply prefix_take].
  - exists (Nat.min k (length (Frame h))). rewrite take_app_le by lia.
    rewrite <- take_take, firstn_all. split; [done|apply prefix_nil].
  - exists (length (Frame h) + bk_up bk)%nat. rewrite take_app_add, app_assoc. split; [done|apply prefix_take].
Qed.

Lemma ReadHandshake_packet r h r' :
  ReadHandshake r = (Ok h, r') ->
  (NextState h = 1 \/ NextState h = 2) /\ exists pre packet, rd_data r = pre ++ packet ++ rd_data r'
    /\ (length pre <= 5)%nat /\ Frame h = varint (Z.of_nat (length packet)) ++ packet.
Proof.
  unfold ReadHandshake. intros E. unbind E as n r1 Hn.
  apply ReadVarInt_ok in Hn as (_ & pre & Hd & Hl & _).
  destruct ((n <=? 0) || (maxPacket <? n)); [discriminate|].
  unbind E as p r2 Hp. apply ReadFull_ok in Hp as (_ & Hdp & _). injection E as E <-.
  apply ReadHandshake_payload_sound in E as (? & _ & _ & _ & Hf).
  split; [done|]. exists pre, p. rewrite Hf, frame_eq. split_and!; [by rewrite Hd, Hdp|lia|done].
Qed.

(** C26: what a connection can cause.  A pack is started only for an admitted
    connection whose first packet is a handshake for a login (a server-list ping starts
    nothing) naming a host of that pack; the Minecraft server is dialled only after
    [Ensure] reported that pack ready, and is sent a prefix of the player's own bytes -
    the handshake behind a minimal length, then everything behind it - while the player
    is sent a prefix of the server's bytes and nothing else. *)
Theorem router_transparent cfg now remote st ensure bk c l id :
  o_ensured (fst (handle cfg now remote st ensure bk c l)) = Some id ->
  fst (allow now remote l) = true /\
  exists h rest pre packet,
    ReadHandshake (c_in c) = (Ok h, rest) /\ NextState h = 2
    /\ (exists pack, PackForHost cfg (Host h) = Some (id, pack))
    /\ rd_data (c_in c) = pre ++ packet ++ rd_data rest /\ (length pre <= 5)%nat
    /\ forall up, o_backend (fst (handle cfg now remote st ensure bk c l)) = Some up ->
         fst (ensure id) = true /\ bk_dial bk = None
         /\ exists k down, up = w_out (bk_writer bk)
                  ++ take k (varint (Z.of_nat (length packet)) ++ packet ++ rd_data rest)
              /\ o_client (fst (handle cfg now remote st ensure bk c l)) = w_out (c_out c) ++ down
              /\ prefix down (bk_sends bk).
Proof.
  unfold handle. destruct (allow now remote l) as [[|] l']; cbn [fst]; [|done]. unfold handle_player.
  destruct (ReadHandshake (c_in c)) as [[h|e] rest] eqn:Eh; [|done].
  apply ReadHandshake_packet in Eh as Hp. destruct Hp as (Hn & pre & packet & Hd & Hl & Hf).
  destruct (NextState h =? 1) eqn:E1; [done|]. bools.
  destruct (PackForHost cfg (Host h)) as [[id' pack]|] eqn:Ep; [|done].
  destruct (ensure id') as [ready msg] eqn:Ee.
  intros Hid. assert (id' = id) as ->.
  { destruct ready; cbn in Hid; [|congruence]. destruct (bk_dial bk); [cbn in Hid; congruence|].
    destruct (relay h rest bk). cbn in Hid. congruence. }
  split; [done|]. exists h, rest, pre, packet. split_and!; try done; [by destruct Hn|eauto|].
  rewrite Ee. destruct ready; cbn [negb]; [|done].
  destruct (bk_dial bk) eqn:Ed; [done|].
  destruct (relay_up h rest bk) as (k & Hup & Hdown). destruct (relay h rest bk) as [down up].
  cbn [fst snd o_backend o_client] in *. intros ? [= <-]. split_and!; [done..|].
  exists k, down. rewrite app_assoc, <- Hf. done.
Qed.

(** The login of a player, branch by branch.  The handshake a Minecraft client
    sends reaches the pack that serves its host: an unknown host and a pack that is not
    ready are answered by the disconnect packet with the reason; a ready one gets the
    handshake and the login byte for byte, and the player gets what the server sends. *)
Theorem login_routed cfg now remote st ensure bk l proto host port login e :
  string_len host <= 32767 -> fst (allow now remote l) = true ->
  w_faults (bk_writer bk) = [] ->
  let hello := frame (handshake_payload proto host port 2) in
  let o := fst (handle cfg now remote st ensure bk (Conn (Reader (hello ++ login) e) empty_buffer) l) in
  let refusal msg := string_packet (Marshal (disconnect_body msg)) in
  match PackForHost cfg host with
  | None => o = mkOutcome (refusal "Unknown hostpack hostname.") None None
  | Some (id, _) =>
      match ensure id with
      | (false, msg) => o = mkOutcome (refusal msg) None (Some id)
      | (true, _) =>
          if bk_dial bk then o = mkOutcome (refusal "Server became unavailable. Please reconnect.") None (Some id)
          else o = mkOutcome (take (bk_down bk) (bk_sends bk))
                     (Some (w_out (bk_writer bk) ++ hello ++ take (bk_up bk) login)) (Some id)
      end
  end.
Proof.
  intros Hh Ha Hw hello o refusal. subst o. unfold handle. destruct (allow now remote l) as [ok l'].
  cbn [fst] in *. subst ok. unfold handle_player. cbn [c_in].
  pose proof (length_handshake_payload proto host port 2 Hh) as Hlen.
  subst hello. rewrite ReadHandshake_frame by (change maxPacket with 2097152; lia).
  rewrite ReadHandshake_payload_ok by auto. cbn [NextState Host Z.eqb Pos.eqb].
  destruct (PackForHost cfg host) as [[id pack]|]; [|done].
  destruct (ensure id) as [[|] msg]; [|done]. cbn [negb]. destruct (bk_dial bk); [done|].
  unfold relay, Write. rewrite Hw. cbn [Frame w_out rd_data c_out app]. by rewrite <- app_assoc.
Qed.
End HandleProps.

(** ** Witnesses *)

Definition ex_window : list (Z * string) :=
  [(59 * Second, "a"); (60 * Second, "a"); (61 * Second, "a"); (62 * Second, "b")].

(** The bound is reached: a limit of two, and three admitted within a minute. *)
Lemma limiter_rate_witness :
  let l := snd (allow_all [(0, "a")] (newIPLimiter 2)) in
  admitted "a" (fst (allow_all ex_window l)) = 3 /\ admitted "a" (fst (allow_all ex_window l)) <= 2 * 2 - 1.
Proof.
  split; [vm_compute; reflexivity|].
  apply (limiter_rate 2 [(0, "a")] ex_window "a" (59 * Second)).
  - repeat split; apply Z.leb_le; vm_compute; reflexivity.
  - vm_compute. reflexivity.
  - lia.
  - repeat constructor; cbn; unfold Minute, Second; lia.
Defined.

Lemma limiter_isolated_witness :
  verdicts_of "a" (fst (allow_all ex_window (newIPLimiter 2))) = [("a", true); ("a", true); ("a", false)] /\
  verdicts_of "a" (fst (allow_all ex_window (newIPLimiter 2)))
  = fst (allow_all (calls_of "a" ex_window) (newIPLimiter 2)).
Proof.
  split; [vm_compute; reflexivity|].
  apply limiter_isolated. repeat split; apply Z.leb_le; vm_compute; reflexivity.
Defined.

Definition ex_bk : backend := mkBackend None empty_buffer [byte.of_Z 9; byte.of_Z 8] 10 10.
Definition ex_ready (id : string) : bool * string := (true, "ready").
Definition ex_hello : list byte := frame (handshake_payload 767 "alpha.mc.example.com" 25565 2).
Definition ex_conn : conn := Conn (Reader (ex_hello ++ [byte.of_Z 1]) ErrEOF) empty_buffer.

Lemma router_transparent_witness :
  fst (allow 0 "a" (newIPLimiter 2)) = true /\
  exists h rest, ReadHandshake (c_in ex_conn) = (Ok h, rest) /\ NextState h = 2.
Proof.
  destruct (@router_transparent plain_unicode example_config 0 "a" zero_State ex_ready ex_bk ex_conn (newIPLimiter 2)
    "alpha") as (Ha & h & rest & pre & packet & Hr & Hn & _); [vm_compute; reflexivity|].
  split; [exact Ha|]. exists h, rest. split; [exact Hr|exact Hn].
Defined.

Lemma login_routed_witness :
  fst (@handle plain_unicode example_config 0 "a" zero_State ex_ready ex_bk ex_conn (newIPLimiter 2))
  = mkOutcome [byte.of_Z 9; byte.of_Z 8] (Some (ex_hello ++ [byte.of_Z 1])) (Some "alpha").
Proof.
  pose proof (@login_routed plain_unicode example_config 0 "a" zero_State ex_ready ex_bk (newIPLimiter 2) 767
    "alpha.mc.example.com" 25565 [byte.of_Z 1] ErrEOF ltac:(vm_compute; discriminate) eq_refl eq_refl) as L.
  vm_compute in L. vm_compute. exact L.
Defined.
