(* ===== verification/Serve.v ===== *)
(** * The accept loop ([internal/router/server.go])

    [Serve] with the goroutines it starts, as a transition system: the loop accepts
    connections as the semaphore allows, each is handled in a goroutine that meets the
    limiter first and gives back its place last, and another goroutine closes the
    listener when the daemon stops.  What one connection is sent is [Router.handle]'s. *)
From Stdlib Require Import String Ascii.
From S2P Require Import Prelude GoStrings JsonText McProto Config StateFile Router.

(** ** The server *)

(** The channel [sem] by how many places are taken, and of how many. *)
Record Server := mkServer { sem : Z; sem_cap : Z; limiter : ipLimiter }.

(** [New]; [make] of a channel panics on a negative size. *)
Definition New (cfg : Config) : option Server :=
  if MaxConnections (RuntimeCfg cfg) <? 0 then None
  else Some (mkServer 0 (MaxConnections (RuntimeCfg cfg)) (newIPLimiter (ConnectionsPerMinute (RuntimeCfg cfg)))).

Definition set_sem (n : Z) (s : Server) : Server := mkServer n (sem_cap s) (limiter s).
Definition set_limiter (l : ipLimiter) (s : Server) : Server := mkServer (sem s) (sem_cap s) l.

(** A handler: before the limiter, admitted by it, or behind [c.Close] and about to
    give back its place. *)
Inductive handler := HAccepted (remote : string) | HAdmitted | HClosed.
#[global] Instance handler_eq_dec : EqDecision handler.
Proof. solve_decision. Defined.

(** [Serve] under way: the accepted connections are numbered; [log] has the calls of the
    limiter with their verdicts. *)
Record serving := mkServing {
  server : Server; handlers : gmap nat handler; closed : gset nat; accepted : nat;
  clock : Z; ctx_done : bool; manager_done : bool; listening : bool;
  returned : option (result unit); log : list (Z * string * bool) }.

Definition serve (s : Server) (t : Z) : serving := mkServing s ∅ ∅ 0 t false false true None [].

Inductive serve_event :=
  | SvAccept (remote : string)   (* [Accept] gives a connection *)
  | SvAcceptFails (e : error)
  | SvAllow (i : nat)            (* the handler calls the limiter *)
  | SvFinish (i : nat)           (* [handle] returns: [c.Close] *)
  | SvRelease (i : nat)          (* [<-s.sem] *)
  | SvCancel | SvManagerDone     (* the context, [manager.Done] *)
  | SvCloser                     (* the goroutine that closes the listener *)
  | SvAdvance (dt : Z).

Definition set_handlers (s : Server) (h : gmap nat handler) (c : gset nat) (n : nat)
    (log : list (Z * string * bool)) (g : serving) : serving :=
  mkServing s h c n (clock g) (ctx_done g) (manager_done g) (listening g) (returned g) log.

Definition serve_step (g : serving) (e : serve_event) : option serving :=
  let s := server g in
  match e with
  | SvAccept remote =>
      if listening g && bool_decide (returned g = None) then
        let '(ok, n) := accept (sem_cap s) (sem s) in
        Some (if ok : bool
          then set_handlers (set_sem n s) (<[accepted g := HAccepted remote]> (handlers g)) (closed g)
                 (S (accepted g)) (log g) g
          else set_handlers s (handlers g) ({[accepted g]} ∪ closed g) (S (accepted g)) (log g) g)
      else None
  | SvAcceptFails err =>
      if bool_decide (returned g = None) then
        Some (mkServing s (handlers g) (closed g) (accepted g) (clock g) (ctx_done g) (manager_done g) (listening g)
                (Some (serve_result (ctx_done g) (manager_done g) err)) (log g))
      else None
  | SvAllow i =>
      match handlers g !! i with
      | Some (HAccepted remote) =>
          let '(ok, l) := allow (clock g) remote (limiter s) in
          let log := log g ++ [(clock g, remote, ok)] in
          Some (if ok : bool
            then set_handlers (set_limiter l s) (<[i := HAdmitted]> (handlers g)) (closed g) (accepted g) log g
            else set_handlers (set_limiter l s) (<[i := HClosed]> (handlers g)) ({[i]} ∪ closed g) (accepted g) log g)
      | _ => None
      end
  | SvFinish i =>
      match handlers g !! i with
      | Some HAdmitted =>
          Some (set_handlers s (<[i := HClosed]> (handlers g)) ({[i]} ∪ closed g) (accepted g) (log g) g)
      | _ => None
      end
  | SvRelease i =>
      match handlers g !! i with
      | Some HClosed =>
          Some (set_handlers (set_sem (handled (sem s)) s) (delete i (handlers g)) (closed g) (accepted g) (log g) g)
      | _ => None
      end
  | SvCancel =>
      Some (mkServing s (handlers g) (closed g) (accepted g) (clock g) true (manager_done g) (listening g) (returned g) (log g))
  | SvManagerDone =>
      Some (mkServing s (handlers g) (closed g) (accepted g) (clock g) (ctx_done g) true (listening g) (returned g) (log g))
  | SvCloser =>
      if ctx_done g || manager_done g then
        Some (mkServing s (handlers g) (closed g) (accepted g) (clock g) (ctx_done g) (manager_done g) false (returned g) (log g))
      else None
  | SvAdvance dt =>
      if 0 <=? dt then
        Some (mkServing s (handlers g) (closed g) (accepted g) (clock g + dt) (ctx_done g) (manager_done g) (listening g)
                (returned g) (log g))
      else None
  end.

Fixpoint serve_run (g : serving) (es : list serve_event) : option serving :=
  match es with [] => Some g | e :: es' => g' ← serve_step g e; serve_run g' es' end.

(** ** The invariant *)

(** The calls of the limiter in the log, and what it answered. *)
Definition calls (g : serving) : list (Z * string) := map (fun x => (fst (fst x), snd (fst x))) (log g).
Definition verdicts (g : serving) : list (string * bool) := map (fun x => (snd (fst x), snd x)) (log g).

Record serve_inv (limit : Z) (cap : Z) (g : serving) : Prop := {
  si_cap : sem_cap (server g) = cap;
  si_sem : sem (server g) = Z.of_nat (size (handlers g)) /\ sem (server g) <= cap;
  si_numbers : forall i, is_Some (handlers g !! i) \/ i ∈ closed g -> (i < accepted g)%nat;
  si_closed : forall i h, handlers g !! i = Some h -> h = HClosed <-> i ∈ closed g;
  si_kept : forall i, (i < accepted g)%nat -> is_Some (handlers g !! i) \/ i ∈ closed g;
  si_times : sorted_from 0 (calls g) /\ 0 <= last_time 0 (calls g) <= clock g;
  si_log : allow_all (calls g) (newIPLimiter limit) = (verdicts g, limiter (server g));
  si_listening : listening g = false -> ctx_done g || manager_done g = true;
  si_returned : returned g = Some (Ok tt) -> ctx_done g || manager_done g = true }.

Lemma serve_inv_start limit cap t : 0 <= cap -> 0 <= t -> serve_inv limit cap (serve (mkServer 0 cap (newIPLimiter limit)) t).
Proof.
  intros Hc Ht. split; cbn; try done.
  - intros i [Hi|Hi]; [by rewrite lookup_empty in Hi; destruct Hi|set_solver].
  - intros i Hi. lia.
Qed.

Lemma allow_all_app a : forall b l,
  allow_all (a ++ b) l =
  let '(va, l1) := allow_all a l in let '(vb, l2) := allow_all b l1 in (va ++ vb, l2).
Proof.
  induction a as [|[t ip] a IH]; intros b l; cbn [app allow_all].
  - by destruct (allow_all b l).
  - destruct (allow t ip l) as [v l1]. rewrite IH. destruct (allow_all a l1) as [va l2].
    by destruct (allow_all b l2).
Qed.

(** A step that leaves the connections and the limiter alone. *)
Lemma serve_inv_frame limit cap g g' :
  serve_inv limit cap g -> server g' = server g -> handlers g' = handlers g -> closed g' = closed g ->
  accepted g' = accepted g -> log g' = log g -> clock g <= clock g' ->
  (listening g' = false -> ctx_done g' || manager_done g' = true) ->
  (returned g' = Some (Ok tt) -> ctx_done g' || manager_done g' = true) -> serve_inv limit cap g'.
Proof.
  intros [H1 H2 H3 H4 H5 [H6 H6'] H7 H8 H9] Es Eh Ec Ea El Et Hl Hr.
  split; unfold calls, verdicts; rewrite ?Es, ?Eh, ?Ec, ?Ea, ?El; try done. split; [done|].
  fold (calls g). lia.
Qed.

(** The state of a handler changes: it stays, and is closed when its connection is. *)
Lemma serve_inv_handler limit cap g i h h' s c log' :
  serve_inv limit cap g -> handlers g !! i = Some h -> h <> HClosed ->
  sem_cap s = sem_cap (server g) -> sem s = sem (server g) ->
  (h' = HClosed /\ c = {[i]} ∪ closed g \/ h' <> HClosed /\ c = closed g) ->
  let g' := set_handlers s (<[i := h']> (handlers g)) c (accepted g) log' g in
  sorted_from 0 (calls g') /\ 0 <= last_time 0 (calls g') <= clock g ->
  allow_all (calls g') (newIPLimiter limit) = (verdicts g', limiter s) ->
  serve_inv limit cap g'.
Proof.
  intros [H1 [H2 H2'] H3 H4 H5 H6 H7 H8 H9] Hi Hh Hcap Hsem Hc g' Ht Hl.
  assert (i ∉ closed g) as Hic by (intros Hin; by apply Hh, (H4 i h Hi)).
  assert (forall j, j ∈ c <-> (j = i /\ h' = HClosed) \/ j ∈ closed g) as Hcj.
  { intros j. destruct Hc as [[-> ->]|[Hn ->]]; [|naive_solver]. rewrite elem_of_union, elem_of_singleton. naive_solver. }
  split; cbn [server handlers closed accepted clock ctx_done manager_done listening returned g' set_handlers].
  - congruence.
  - rewrite map_size_insert_Some by eauto. lia.
  - intros j. rewrite Hcj, lookup_insert_is_Some'. intros [[<-|Hj]|[[-> _]|Hj]]; apply H3; eauto.
  - intros j x. rewrite Hcj, lookup_insert. case_decide as E; [intros [= <-]; subst; naive_solver|].
    intros Hj. rewrite (H4 j x Hj). naive_solver.
  - intros j Hj. rewrite Hcj, lookup_insert_is_Some'. destruct (H5 j Hj); auto.
  - exact Ht.
  - exact Hl.
  - exact H8.
  - exact H9.
Qed.

Lemma last_time_snoc calls t ip : forall t0, last_time t0 (calls ++ [(t, ip)]) = t.
Proof. intros t0. unfold last_time. by rewrite List.fold_left_app. Qed.

Lemma serve_inv_step limit cap g e g' : serve_inv limit cap g -> serve_step g e = Some g' -> serve_inv limit cap g'.
Proof.
  intros Hg H. pose proof Hg as [H1 [H2 H2'] H3 H4 H5 [H6 H6'] H7 H8 H9].
  destruct e as [remote|err|i|i|i| | | |dt]; cbn [serve_step] in H.
  - destruct (listening g && _); [|done]. unfold accept in H.
    assert (accepted g ∉ closed g) as Hnc by (intros Hin; specialize (H3 (accepted g) (or_intror Hin)); lia).
    assert (handlers g !! accepted g = None) as Hnh.
    { destruct (handlers g !! accepted g) eqn:E; [|done]. specialize (H3 (accepted g) (or_introl (mk_is_Some _ _ E))). lia. }
    destruct (sem (server g) <? sem_cap (server g)) eqn:El; injection H as <-; bools.
    + split; cbn [server handlers closed accepted clock ctx_done manager_done listening returned set_handlers sem sem_cap limiter set_sem]; try done.
      * rewrite map_size_insert_None by done. lia.
      * intros i. rewrite lookup_insert_is_Some'. intros [[<-|Hi]|Hi]; [lia| |]; specialize (H3 i); naive_solver lia.
      * intros i h. rewrite lookup_insert. case_decide; [intros [= <-]; subst; naive_solver|apply H4].
      * intros i Hi. rewrite lookup_insert_is_Some'. destruct (decide (accepted g = i)); [auto|].
        destruct (H5 i); [lia|auto..].
    + split; cbn [server handlers closed accepted clock ctx_done manager_done listening returned set_handlers]; try done.
      * intros i. rewrite elem_of_union, elem_of_singleton. intros [Hi|[->|Hi]]; [|lia|]; specialize (H3 i); naive_solver lia.
      * intros i h Hi. rewrite elem_of_union, elem_of_singleton, (H4 i h Hi). split; [auto|intros [->|]; congruence].
      * intros i Hi. rewrite elem_of_union, elem_of_singleton. destruct (decide (i = accepted g)); [auto|].
        destruct (H5 i); [lia|auto..].
  - case_bool_decide; [|done]. injection H as <-. eapply serve_inv_frame; try done. cbn. unfold serve_result. by destruct (_ || _).
  - destruct (handlers g !! i) as [[remote| |]|] eqn:Ei; try done.
    destruct (allow (clock g) remote (limiter (server g))) as [ok l] eqn:Ea.
    assert (forall x, map (fun x => (fst (fst x), snd (fst x))) (log g ++ [(clock g, remote, x : bool)]) = calls g ++ [(clock g, remote)]) as Ec
      by (intros x; by rewrite map_app).
    assert (forall x, map (fun x => (snd (fst x), snd x)) (log g ++ [(clock g, remote, x : bool)]) = verdicts g ++ [(remote, x)]) as Ev
      by (intros x; by rewrite map_app).
    destruct ok; injection H as <-; (eapply serve_inv_handler; [done|exact Ei|done|done|done| | |]);
      try (by auto); unfold calls, verdicts; cbn [Serve.log set_handlers limiter set_limiter]; rewrite ?Ec, ?Ev;
      try (rewrite last_time_snoc, sorted_from_app; cbn [sorted_from]; split_and!; (done || lia));
      by rewrite allow_all_app, H7; cbn [allow_all]; rewrite Ea.
  - destruct (handlers g !! i) as [[]|] eqn:Ei; try done. injection H as <-.
    eapply serve_inv_handler; try done; auto.
  - destruct (handlers g !! i) as [[]|] eqn:Ei; try done. injection H as <-.
    split; cbn [server handlers closed accepted clock ctx_done manager_done listening returned set_handlers sem sem_cap limiter set_sem]; try done.
    + rewrite map_size_delete_Some by eauto. assert (size (handlers g) <> 0%nat) as Hz.
      { intros Hz. apply map_size_empty_inv in Hz. rewrite Hz, lookup_empty in Ei. done. }
      unfold handled. lia.
    + intros j. rewrite lookup_delete. case_decide; intros [Hj|Hj]; try (by destruct Hj); apply H3; auto.
    + intros j h. rewrite lookup_delete. case_decide; [done|apply H4].
    + intros j Hj. rewrite lookup_delete. case_decide as E; [subst; right; by apply (H4 _ HClosed Ei)|auto].
  - injection H as <-. by eapply serve_inv_frame.
  - injection H as <-. eapply serve_inv_frame; try done; intros _; cbn; apply orb_true_r.
  - destruct (ctx_done g || manager_done g) eqn:E; [|done]. injection H as <-. by eapply serve_inv_frame.
  - destruct (0 <=? dt) eqn:E; [|done]. injection H as <-. bools. eapply serve_inv_frame; try done. cbn. lia.
Qed.

Lemma serve_inv_run limit cap es : forall g g', serve_inv limit cap g -> serve_run g es = Some g' -> serve_inv limit cap g'.
Proof.
  induction es as [|e es IH]; intros g g' Hg; cbn; [by intros [= <-]|].
  destruct (serve_step g e) as [g1|] eqn:E; [|done]. cbn. eauto using serve_inv_step.
Qed.

(** What a server that serves reaches. *)
Lemma serve_inv_New cfg s t es g : New cfg = Some s -> 0 <= t -> serve_run (serve s t) es = Some g ->
  serve_inv (ConnectionsPerMinute (RuntimeCfg cfg)) (MaxConnections (RuntimeCfg cfg)) g.
Proof.
  unfold New. intros Hs Ht Hr. destruct (MaxConnections (RuntimeCfg cfg) <? 0) eqn:E; [done|].
  injection Hs as <-. bools. eapply serve_inv_run; [by apply serve_inv_start|done].
Qed.

(** ** The rate *)

Lemma length_allow_all cs : forall l, length (fst (allow_all cs l)) = length cs.
Proof.
  induction cs as [|[t ip] cs IH]; intros l; [done|]. cbn [allow_all]. destruct (allow t ip l) as [v l1].
  specialize (IH l1). destruct (allow_all cs l1). cbn in *. by rewrite IH.
Qed.

(** The calls of an ordered log before a time, and the others. *)
Abbreviation time_of := (fun x : Z * string * bool => fst (fst x)).
Abbreviation call_of := (fun x : Z * string * bool => (fst (fst x), snd (fst x))).
Lemma split_at t0 l : forall t, sorted_from t (map call_of l) ->
  exists a b, l = a ++ b /\ Forall (fun x => time_of x < t0) a /\ Forall (fun x => t0 <= time_of x) b.
Proof.
  induction l as [|[[u ip] v] l IH]; intros t Hs; [by exists [], []|]. destruct Hs as [Ht Hs].
  destruct (decide (u < t0)) as [Hu|Hu].
  - destruct (IH u Hs) as (a & b & -> & Ha & Hb). exists ((u, ip, v) :: a), b. split; [done|]. by split; [constructor|].
  - exists [], ((u, ip, v) :: l). split; [done|]. split; [done|]. assert (t0 <= u) as Hle by lia. clear Ht Hu IH.
    constructor; [done|]. revert u Hle Hs. induction l as [|[[u' ip'] v'] l IH]; intros u Hle Hs; [done|].
    destruct Hs as [Hu Hs]. constructor; [cbn in *; lia|]. apply (IH u'); [cbn in *; lia|done].
Qed.

(** The admissions of an address in the minute from [t0] on, from the log. *)
Definition in_minute (t0 : Z) (x : Z * string * bool) : bool := (t0 <=? time_of x) && (time_of x <? t0 + Minute).
Definition admissions (ip : string) (t0 : Z) (l : list (Z * string * bool)) : Z :=
  Z.of_nat (length (List.filter (fun x => in_minute t0 x && (bool_decide (snd (fst x) = ip) && snd x)) l)).

Lemma filter_nothing {A} (p : A -> bool) l : Forall (fun x => p x = false) l -> List.filter p l = [].
Proof. induction 1 as [|x l Hx _ IH]; [done|]. cbn. by rewrite Hx. Qed.

Lemma admissions_window ip t0 before window after :
  Forall (fun x => time_of x < t0) before -> Forall (fun x => in_minute t0 x = true) window ->
  Forall (fun x => t0 + Minute <= time_of x) after ->
  admissions ip t0 (before ++ window ++ after) = admitted ip (map (fun x => (snd (fst x), snd x)) window).
Proof.
  intros Hb Hw Ha. unfold admissions, admitted. rewrite !List.filter_app.
  rewrite (filter_nothing _ before), (filter_nothing _ after), app_nil_r; cbn [app].
  - f_equal. induction Hw as [|x w Hx _ IH]; [done|]. cbn. rewrite Hx. cbn.
    destruct (bool_decide _ && snd x); cbn; by rewrite IH.
  - eapply Forall_impl; [exact Ha|]. intros x Hx. unfold in_minute. by rewrite (proj2 (Z.ltb_ge _ _)), andb_false_r.
  - eapply Forall_impl; [exact Hb|]. intros x Hx. unfold in_minute. by rewrite (proj2 (Z.leb_gt _ _)).
Qed.

(** ** Properties *)

(** C27: no connection is lost and no more are handled than allowed.  At every moment of
    [Serve], whatever the order of its goroutines, the places taken in the semaphore are
    the handlers under way, at most [max_connections]; every accepted connection is either
    being handled or closed; and a connection is turned away only when every place is
    taken. *)
Theorem connections_bounded cfg s t es g :
  New cfg = Some s -> 0 <= t -> serve_run (serve s t) es = Some g ->
  let max := MaxConnections (RuntimeCfg cfg) in
  sem (server g) = Z.of_nat (size (handlers g)) /\ Z.of_nat (size (handlers g)) <= max
  /\ (forall i, (i < accepted g)%nat ->
       i ∈ closed g \/ exists h, handlers g !! i = Some h /\ h <> HClosed /\ i ∉ closed g)
  /\ forall remote g', serve_step g (SvAccept remote) = Some g' ->
       if Z.of_nat (size (handlers g)) <? max
       then handlers g' = <[accepted g := HAccepted remote]> (handlers g) /\ closed g' = closed g
       else handlers g' = handlers g /\ closed g' = {[accepted g]} ∪ closed g.
Proof.
  intros Hs Ht Hr max. destruct (serve_inv_New cfg s t es g Hs Ht Hr) as [H1 [H2 H2'] H3 H4 H5 _ _ _ _].
  split; [done|]. split; [unfold max; lia|]. split.
  - intros i Hi. destruct (H5 i Hi) as [[h Hh]|]; [|by left]. pose proof (H4 i h Hh) as Hc.
    destruct (decide (h = HClosed)) as [->|Hne]; [left; by apply Hc|right; naive_solver].
  - intros remote g' Hstep. cbn in Hstep. destruct (listening g && _); [|done].
    unfold accept in Hstep. rewrite H1, H2 in Hstep. fold max in Hstep.
    destruct (_ <? max); injection Hstep as <-; done.
Qed.

(** C37: the rate limit of the whole server.  However its handlers interleave, [Serve]
    lets at most twice [connections_per_minute] less one connections of an address past
    the limiter within any minute: nothing of a connection is read, no pack started and no
    server dialled for the others. *)
Theorem router_rate cfg s t es g ip t0 :
  New cfg = Some s -> 0 <= t -> serve_run (serve s t) es = Some g ->
  1 <= ConnectionsPerMinute (RuntimeCfg cfg) -> Z.of_nat (length (log g)) < 2 ^ 63 ->
  admissions ip t0 (log g) <= 2 * ConnectionsPerMinute (RuntimeCfg cfg) - 1.
Proof.
  intros Hs Ht Hr Hlim Hlen. destruct (serve_inv_New cfg s t es g Hs Ht Hr) as [_ _ _ _ _ [Hsort _] Hlog _ _].
  unfold calls, verdicts in *. destruct (split_at t0 (log g) 0 Hsort) as (before & rest & E & Hb & Hrest).
  rewrite E in *. rewrite map_app in Hsort. apply sorted_from_app in Hsort as [Hs1 Hs2].
  destruct (split_at (t0 + Minute) rest _ Hs2) as (window & after & -> & Hw & Ha).
  rewrite !map_app in *. apply Forall_app in Hrest as [Hw' _].
  assert (Forall (fun x => in_minute t0 x = true) window) as Hin.
  { apply Forall_forall. intros x Hx. rewrite Forall_forall in Hw, Hw'. unfold in_minute. apply andb_true_iff.
    rewrite Z.leb_le, Z.ltb_lt. auto. }
  rewrite admissions_window by done.
  rewrite allow_all_app in Hlog. destruct (allow_all (map call_of before) _) as [vb l1] eqn:E1.
  rewrite allow_all_app in Hlog. destruct (allow_all (map call_of window) l1) as [vw l2] eqn:E2. destruct (allow_all (map call_of after) l2) as [va l3].
  injection Hlog as Hlog _. pose proof (length_allow_all (map call_of before) (newIPLimiter (ConnectionsPerMinute (RuntimeCfg cfg)))) as L1.
  pose proof (length_allow_all (map call_of window) l1) as L2. rewrite E1 in L1. rewrite E2 in L2. cbn in L1, L2.
  rewrite length_map in L1, L2. apply app_inj_1 in Hlog as [_ Hlog]; [|by rewrite length_map].
  apply app_inj_1 in Hlog as [Hvw _]; [|by rewrite length_map]. rewrite <- Hvw.
  pose proof (limiter_rate (ConnectionsPerMinute (RuntimeCfg cfg)) (map call_of before) (map call_of window) ip t0) as Hrate.
  rewrite E1 in Hrate. cbn [snd] in Hrate. rewrite E2 in Hrate. apply Hrate; try done.
  - apply sorted_from_app. apply sorted_from_app in Hs2 as [Hs2 _]. done.
  - rewrite !length_app, !length_map in *. lia.
  - apply Forall_map. eapply Forall_impl; [exact Hin|]. intros x Hx. unfold in_minute in Hx. bools. done.
Qed.

(** [Serve] ends when the daemon does, and for no other reason without an error: once the
    context or the manager is done, the closer runs, nothing more is accepted, and the
    next [Accept] to fail makes it return [nil]. *)
Theorem serve_stops cfg s t es g :
  New cfg = Some s -> 0 <= t -> serve_run (serve s t) es = Some g ->
  (returned g = Some (Ok tt) -> ctx_done g || manager_done g = true)
  /\ (ctx_done g || manager_done g = true -> returned g = None ->
      exists g1, serve_step g SvCloser = Some g1 /\ (forall remote, serve_step g1 (SvAccept remote) = None)
        /\ forall e, exists g2, serve_step g1 (SvAcceptFails e) = Some g2 /\ returned g2 = Some (Ok tt)).
Proof.
  intros Hs Ht Hr. destruct (serve_inv_New cfg s t es g Hs Ht Hr) as [_ _ _ _ _ _ _ _ H9]. split; [done|].
  intros Hd Hn. cbn [serve_step]. rewrite Hd. eexists. split; [done|]. split; [done|]. intros e. cbn.
  rewrite bool_decide_eq_true_2 by done. eexists. split; [done|]. cbn. unfold serve_result. by rewrite Hd.
Qed.

(** ** Witnesses *)

(** Two connections at once; the example's limits. *)
Definition ex_server : Server := default (mkServer 0 0 (newIPLimiter 0)) (New example_config).
Definition ex_serving : list serve_event :=
  [SvAccept "a"; SvAccept "b"; SvAllow 1; SvAllow 0; SvFinish 0; SvRelease 0; SvAdvance Second; SvAccept "a"; SvAllow 2].
Definition ex_served : serving := default (serve ex_server 0) (serve_run (serve ex_server 0) ex_serving).

Lemma connections_bounded_witness :
  handlers ex_served = {[ 1%nat := HAdmitted; 2%nat := HAdmitted ]} /\ closed ex_served = {[ 0%nat ]} /\
  sem (server ex_served) = Z.of_nat (size (handlers ex_served)) /\
  Z.of_nat (size (handlers ex_served)) <= MaxConnections (RuntimeCfg example_config).
Proof.
  split; [vm_compute; reflexivity|split; [vm_compute; reflexivity|]].
  assert (serve_run (serve ex_server 0) ex_serving = Some ex_served) as Hr by (vm_compute; reflexivity).
  destruct (connections_bounded example_config ex_server 0 ex_serving ex_served eq_refl ltac:(lia) Hr) as (H1 & H2 & _).
  split; [exact H1|exact H2].
Defined.

Lemma router_rate_witness :
  admissions "a" 0 (log ex_served) = 2 /\
  admissions "a" 0 (log ex_served) <= 2 * ConnectionsPerMinute (RuntimeCfg example_config) - 1.
Proof.
  split; [vm_compute; reflexivity|].
  assert (serve_run (serve ex_server 0) ex_serving = Some ex_served) as Hr by (vm_compute; reflexivity).
  apply (router_rate example_config ex_server 0 ex_serving ex_served "a" 0 eq_refl ltac:(lia) Hr); vm_compute; congruence.
Defined.
