(* ===== verification/Players.v ===== *)
(** * Players and packs: the router over the manager

    The router hands a player to the one Minecraft server of the machine as soon as
    [Manager.Ensure] answers that the pack is ready.  That the server is then the
    pack's own is an invariant of the manager's goroutines, proved here for orderly
    runs and carried to the router's [handle]. *)
From Stdlib Require Import String Ascii.
From S2P Require Import Prelude GoStrings GoJson JsonText McProto Config Lock StateFile Lifecycle Manager ManagerSafety ManagerRecovery Router.

Section Players.
Context (cfg : Config) (lock : LockFile) (sizer : bool).
Abbreviation exec := (Manager.exec cfg lock sizer).
Abbreviation step := (ManagerSafety.step cfg lock sizer).

(** ** The invariant *)

(** The process the manager knows, if it is alive, runs [id]. *)
Definition runs_for (id : string) (m : mgr) (w : world) : Prop :=
  forall p id', m_process m = Some p -> procs w !! p = Some id' -> id' = id.

(** What a start keeps of its own process, from the launch to the end of the polls. *)
Definition own (t : thread) (m : mgr) (w : world) : Prop :=
  match t with
  | TStart id _ (SAttach p) => forall id', procs w !! p = Some id' -> id' = id
  | TStart id _ (SPoll _ _) | TStart id _ SReady => runs_for id m w
  | _ => True
  end.
Definition ready_right (m : mgr) (w : world) : Prop := phase m = Ready -> runs_for (active m) m w.

Record right (c : conf) : Prop := {
  rt_inv : inv False c;
  rt_ready : ready_right (cm c) (cw c);
  rt_own : forall i t, threads c !! i = Some t -> own t (cm c) (cw c) }.

(** What leaves all of it alone: the phase does not become ready, the process is the
    one that was known, and no process appears. *)
Record frame (m : mgr) (w : world) (m' : mgr) (w' : world) : Prop := {
  fr_phase : phase m' = Ready -> phase m = Ready /\ active m' = active m;
  fr_process : forall p, m_process m' = Some p -> m_process m = Some p;
  fr_procs : forall p id, procs w' !! p = Some id -> procs w !! p = Some id }.

Lemma runs_for_frame id m w m' w' : frame m w m' w' -> runs_for id m w -> runs_for id m' w'.
Proof. intros [_ Hp Hw] H p id' E1 E2. eauto. Qed.
Lemma own_frame t m w m' w' : frame m w m' w' -> own t m w -> own t m' w'.
Proof.
  intros Hf H. destruct t as [id r []| | | | | | | | | | | |]; cbn in *; try done;
    try (by eapply runs_for_frame). intros id' E. by apply H, (fr_procs _ _ _ _ Hf).
Qed.
Lemma ready_frame m w m' w' : frame m w m' w' -> ready_right m w -> ready_right m' w'.
Proof.
  intros Hf H Hr. destruct (fr_phase _ _ _ _ Hf Hr) as [Hp ->]. by eapply runs_for_frame, H.
Qed.

Lemma frame_state m w f t : st_Phase (f (m_state m)) <> Ready -> frame m w (update t f m) w.
Proof.
  intros H. split; [|by rewrite update_process|done]. by rewrite update_phase.
Qed.
Lemma frame_same m w m' w' : m_state m' = m_state m -> m_process m' = m_process m ->
  (forall p id, procs w' !! p = Some id -> procs w !! p = Some id) -> frame m w m' w'.
Proof. intros Hs Hp Hw. split; unfold phase, active; rewrite ?Hs, ?Hp; auto. Qed.

(** ** Steps of goroutines *)

Lemma not_ready_right m w : phase m <> Ready -> ready_right m w.
Proof. intros Hm E. by destruct Hm. Qed.
Lemma update_not_ready t f m w : st_Phase (f (m_state m)) <> Ready -> ready_right (update t f m) w.
Proof. intros H. apply not_ready_right. by rewrite update_phase. Qed.
#[local] Hint Resolve not_ready_right update_not_ready : right.

Lemma start_step_right id r pc o m w m' w' t' ts :
  core False (Some (TStart id r pc)) m w -> own (TStart id r pc) m w ->
  start_step cfg sizer id r pc o m w = Some (m', w', t', ts) ->
  ready_right m' w' /\ (forall t, t' = Some t -> own t m' w').
Proof.
  intros Hc Ho H. destruct (c_busy _ _ _ _ Hc _ eq_refl) as (Hi & Hr & Ha & Hp & _).
  destruct pc; cbn [start_step] in H; unfold start_resize, start_resized, start_attach, goto, ends, mbind, option_bind in H;
    repeat (case_match; try discriminate);
    repeat match goal with E : (if _ then None else _) = _ |- _ => case_match; try discriminate end;
    simplify_eq; split; try (intros t [= <-]); cbn; try done; try (by auto with right).
  - unfold start_record. apply update_not_ready. by destruct head, headErr.
  - intros id'. rewrite create_world_next_pid, lookup_insert_eq. congruence.
  - cbn in Ho. intros q id' [= <-] E. by rewrite (Ho id' E).
  - intros Hready. unfold start_ready in *. case_bool_decide as E; [|done]. rewrite update_active.
    intros p id'. rewrite update_process. apply Ho.
Qed.

(** The other goroutines that start and stop packs leave no pack ready. *)
Lemma stop_step_right k id pc o m w m' w' t' ts :
  phase m <> Ready -> stop_step cfg k id pc o m w = Some (m', w', t', ts) ->
  ready_right m' w' /\ (forall t, t' = Some t -> own t m' w').
Proof.
  intros Hm H.
  assert (forall m1 w1 r, phase m1 <> Ready -> finish k r m1 w1 = Some (m', w', t', ts) ->
    ready_right m' w' /\ (forall t, t' = Some t -> own t m' w')) as Hfin.
  { intros m1 w1 r Hm1 Hf. pose proof (finish_manager k r m1 w1 m' w' t' ts Hf) as ->. split; [by auto with right|].
    intros t ->. destruct k as [| |[]], r; unfold finish, goto, ends in Hf; by simplify_eq. }
  assert (forall f, (forall s, st_Phase (f s) = st_Phase s) -> phase (update (now w) f m) <> Ready) as Hu.
  { intros f Hf. by rewrite update_phase, Hf. }
  assert (forall pc', (mbind (M := option) (fun '(w', pc') => goto (TStop k id pc') m w')
    (commit_step id pc' o w)) = Some (m', w', t', ts) ->
    ready_right m' w' /\ (forall t, t' = Some t -> own t m' w')) as Hcommit.
  { intros pc'. destruct (commit_step id pc' o w) as [[w1 pc1]|]; [|done]. cbn. unfold goto.
    intros [= <- <- <- _]. split; [by auto with right|by intros t [= <-]]. }
  destruct pc; cbn [stop_step] in H; try (by eapply Hcommit); unfold stop_enter, goto in H;
    repeat (case_match; try discriminate); simplify_eq;
    try (eapply Hfin; [|exact H]; first [done|by apply Hu]);
    (split; [first [by auto with right|by apply not_ready_right, Hu]|by intros ? [= <-]]).
Qed.

Lemma worker_step_right t o m w m' w' t' ts :
  is_worker t = true -> core False (Some t) m w -> own t m w ->
  Manager.thread_step cfg lock sizer t o m w = Some (m', w', t', ts) ->
  ready_right m' w' /\ (forall t0, t' = Some t0 -> own t0 m' w').
Proof.
  intros Ht Hc Ho H. destruct (c_busy _ _ _ _ Hc _ eq_refl) as (_ & Hr & _).
  destruct t; try done; cbn [Manager.thread_step] in H;
    try (by eapply start_step_right); try (by eapply stop_step_right);
    unfold goto, ends in H; repeat (case_match; try discriminate); simplify_eq;
    (split; [by apply update_not_ready|by intros ? [= <-]]).
Qed.

Lemma tick_query_frame t r m w : frame m w (fst (tick_query cfg t r m)) w.
Proof.
  assert (forall f, (forall s, st_Phase (f s) = st_Phase s) -> (forall s, ActiveID (f s) = ActiveID s) ->
    frame m w (update t f m) w) as Hu.
  { intros f Hp Ha. split; [|by rewrite update_process|done]. by rewrite update_phase, update_active, Hp, Ha. }
  destruct r as [n|e]; cbn; apply Hu; intros s; by repeat case_match.
Qed.

(** The goroutines that watch and wait. *)
Lemma bystander_step_right t o m w m' w' t' ts :
  is_worker t = false -> Manager.thread_step cfg lock sizer t o m w = Some (m', w', t', ts) ->
  frame m w m' w' /\ (forall t0, t' = Some t0 -> own t0 m' w').
Proof.
  intros Ht H. destruct t; try done; cbn [Manager.thread_step] in H.
  - destruct (procs w !! p); [done|]. unfold ends in H. simplify_eq. split; [|done].
    unfold waitProcess_section. case_bool_decide as E; [|by apply frame_same]. cbn [negb].
    assert (forall m1, m_process m1 = None -> phase m1 = phase m -> active m1 = active m -> frame m w' m1 w') as Hn.
    { intros m1 Hp Hph Ha. split; [by rewrite Hph, Ha|by rewrite Hp|done]. }
    destruct (expectedStop (set_process None m)); [by apply Hn|]. split; [by rewrite update_phase|by rewrite update_process|done].
  - unfold switch_enter, goto, ends in H. repeat (case_match; simplify_eq); (split; [|by intros ? [= <-]]);
      first [by apply frame_same|by apply frame_state].
  - unfold idle_enter, goto, ends in H. repeat (case_match; simplify_eq); (split; [|by intros ? [= <-]]);
      first [by apply frame_same|by apply frame_state].
  - unfold ends in H. simplify_eq. split; [by apply frame_same|done].
  - destruct wake; unfold goto in H; repeat (case_match; try discriminate); simplify_eq;
      (split; [by apply frame_same|by intros ? [= <-]]).
  - destruct (match o with Players n => Some (Ok n) | Fails e => Some (Err e) | _ => None end) as [r|]; [|done].
    pose proof (tick_query_frame (now w) r m w) as Hf.
    destruct (tick_query cfg (now w) r m) as [m1 stop]. injection H as <- <- <- _.
    split; [exact Hf|]. destruct stop; [by intros ? [= <-]|done].
Qed.

(** ** Steps of the daemon *)

Lemma right_with_threads ts m w c :
  inv False (with_threads ts m w c) -> Forall (fun t => own t m w) ts -> ready_right m w ->
  (forall i t, threads c !! i = Some t -> own t m w) -> right (with_threads ts m w c).
Proof.
  intros Hi Hts Hr Ho. destruct (cm_with_threads ts m w c) as [Em Ew].
  split; [done|by rewrite Em, Ew|]. rewrite Em, Ew. intros i t Ht.
  unfold with_threads in Ht. destruct (spawn ts _ _) as [n th] eqn:E. cbn in Ht.
  pose proof (spawn_lookup ts (next_tid c) (threads c) i t) as Hl. rewrite E in Hl.
  destruct (Hl Ht) as [Hold|Hnew]; [by eapply Ho|]. rewrite Forall_forall in Hts. by apply Hts.
Qed.

(** A step that frames, with new goroutines that own no process. *)
Lemma right_frame ts m w c c0 :
  right c0 -> (forall i t, threads c !! i = Some t -> threads c0 !! i = Some t) ->
  frame (cm c0) (cw c0) m w -> inv False (with_threads ts m w c) -> Forall (fun t => own t m w) ts ->
  right (with_threads ts m w c).
Proof.
  intros [_ Hr Ho] Ht Hf Hi Hts. apply right_with_threads; [done|done|by eapply ready_frame|].
  intros i t E. by eapply own_frame, Ho, Ht.
Qed.

Lemma right_same m w c : right c -> frame (cm c) (cw c) m w -> inv False (mkConf m w (threads c) (next_tid c)) ->
  right (mkConf m w (threads c) (next_tid c)).
Proof. intros Hr Hf Hi. by apply (right_frame [] m w _ c). Qed.

Lemma right_Ensure c id c' :
  right c -> inv False c' -> exec c (EvEnsure id) = Some c' -> right c'.
Proof.
  intros Hr Hi H. cbn [Manager.exec] in H.
  destruct (Ensure_section cfg lock (now (cw c)) id (cm c)) as [m' next] eqn:E. injection H as <-.
  apply (right_frame _ _ _ c c); [done|done| |done|destruct next; by repeat constructor].
  unfold Ensure_section in E. set (m := set_activity _ _) in E.
  assert (forall f, st_Phase (f (m_state m)) <> Ready -> frame (cm c) (cw c) (update (now (cw c)) f m) (cw c)) as Hu.
  { intros f Hf. split; [by rewrite update_phase|by rewrite update_process|done]. }
  repeat case_match; simplify_eq; first [by apply frame_same|by apply Hu].
Qed.

Lemma own_bystander t m w : is_worker t = false -> own t m w.
Proof. by destruct t. Qed.

Lemma right_thread c i o c' :
  right c -> orderly c (EvStep i o) = true -> inv False c' -> exec c (EvStep i o) = Some c' -> right c'.
Proof.
  intros [[Hb (ow & Hw & Hc)] Hr Ho] Hord Hi H. cbn [Manager.exec orderly] in *.
  destruct (threads c !! i) as [t|] eqn:Et; [|done]. cbn in H.
  destruct (Manager.thread_step cfg lock sizer t o (cm c) (cw c)) as [[[[m' w'] t'] ts]|] eqn:Es; [|done].
  cbn in H. injection H as <-. fold (become i t' (threads c)) in Hi |- *. pose proof (Ho i t Et) as Hot.
  assert (forall l, Forall (fun t => is_worker t = false) l -> Forall (fun t => own t m' w') l) as Hts.
  { intros l Hl. eapply Forall_impl; [exact Hl|]. intros x. apply own_bystander. }
  destruct (is_worker t) eqn:Ewt.
  - assert (ow = Some (i, t)) as ->.
    { destruct ow as [[j t0]|]; cbn in Hw; [|apply Hw in Et; congruence].
      destruct Hw as (Hj & _ & Hu). pose proof (Hu i t Et Ewt) as ->. congruence. }
    destruct (worker_step_core cfg lock sizer False t o (cm c) (cw c) m' w' t' ts Ewt Hc) as [_ Hbs]; [|done|done|].
    { intros e k id -> ->. cbn in Hord. bools. done. }
    destruct (worker_step_right t o _ _ m' w' t' ts Ewt Hc Hot Es) as [Hr' Ht'].
    apply right_with_threads; [done|by apply Hts|done|]. cbn [threads]. intros j t0.
    rewrite become_lookup. case_decide as Ej; [apply Ht'|]. intros E0. apply own_bystander.
    destruct (is_worker t0) eqn:E1; [|done]. destruct Hw as (_ & _ & Hu). by destruct Ej; rewrite (Hu j t0 E0 E1).
  - destruct (bystander_step_right t o _ _ m' w' t' ts Ewt Es) as [Hf Ht'].
    destruct (bystander_step_core cfg lock sizer False t o (cm c) (cw c) m' w' t' ts _ Ewt Hc Es) as [Hbs _].
    apply right_with_threads; [done|by apply Hts|by eapply ready_frame|]. cbn [threads]. intros j t0.
    rewrite become_lookup. case_decide; [apply Ht'|]. intros E0. by eapply own_frame, Ho.
Qed.

Lemma right_step c c' : right c -> step c c' -> right c'.
Proof.
  intros Hc Hs. assert (inv False c') as Hi by (eapply inv_step; [apply (rt_inv _ Hc)|exact Hs]).
  destruct Hs as (e & Ho & H). destruct e as [id| | | |i|i oc|p|p v|dt|].
  - by eapply right_Ensure.
  - cbn [Manager.exec] in H. injection H as <-. apply right_same; [done|by apply frame_same|done].
  - cbn [Manager.exec] in H. destruct (tick_enter _ _ _); injection H as <-.
    + apply right_same; [done|by apply frame_same|done].
    + done.
    + apply (right_frame _ _ _ c c); [done|done|by apply frame_same|done|by repeat constructor].
  - cbn [Manager.exec] in H. unfold shutdown_enter in H. destruct (_ || _); injection H as <-; [done|].
    apply (right_frame _ _ _ c c); [done|done|by apply frame_state|done|by repeat constructor].
  - cbn [Manager.exec] in H. destruct (threads c !! i) as [[]|] eqn:Et; try done. destruct k; try done.
    injection H as <-. destruct Hc as [_ Hr Ht]. split; [done|done|]. cbn. intros j t.
    rewrite lookup_insert. case_decide; [by intros [= <-]|apply Ht].
  - by eapply right_thread.
  - cbn [Manager.exec] in H. injection H as <-. apply right_same; [done| |done].
    apply frame_same; [done..|]. cbn. intros q id. rewrite lookup_delete. by case_decide.
  - cbn [Manager.exec] in H. destruct (procs (cw c) !! p) as [id|] eqn:E; [|done]. injection H as <-.
    apply right_same; [done| |done]. apply frame_same; [done..|]. unfold play. by repeat case_match.
  - cbn [Manager.exec] in H. case_match; [|done]. injection H as <-.
    apply right_same; [done|by apply frame_same|done].
  - cbn [Manager.exec] in H. injection H as <-. unfold boot, NewManager in *.
    destruct (negb _ && negb _); (apply right_with_threads; [done|by repeat constructor| |done]).
    + by apply update_not_ready.
    + intros _ p id'. done.
Qed.

Lemma boot_right loaded disk faults w : right (boot loaded disk faults w).
Proof.
  pose proof (boot_inv False loaded disk faults w (fun f => match f with end)) as Hi. unfold boot, NewManager in *.
  destruct (negb _ && negb _); (apply right_with_threads; [done|by repeat constructor| |done]).
  - by apply update_not_ready.
  - intros _ p id'. done.
Qed.

Lemma reachable_right c c' : right c -> rtc step c c' -> right c'.
Proof. intros Hc Hr. induction Hr; [done|]. eauto using right_step. Qed.

(** ** The answers of [Ensure] *)

(** What [Ensure] can answer for [id] in [c]: at once in its section, with the switch it
    starts, or from [waitReady], whose goroutine looks at the state now or gives up. *)
Inductive answers (c : conf) (id : string) : bool * string -> Prop :=
  | answer_now m ok msg : Ensure_section cfg lock (now (cw c)) id (cm c) = (m, Answer ok msg) ->
      answers c id (ok, msg)
  | answer_switch m msg : Ensure_section cfg lock (now (cw c)) id (cm c) = (m, SwitchAndAnswer msg) ->
      answers c id (false, msg)
  | answer_waited i o c' deadline wake ok msg : threads c !! i = Some (TWaitReady id deadline wake) ->
      exec c (EvStep i o) = Some c' -> threads c' !! i = Some (TAnswered ok msg) ->
      answers c id (ok, msg).

Lemma answers_ready c id msg : answers c id (true, msg) -> phase (cm c) = Ready /\ active (cm c) = id.
Proof.
  inversion 1 as [m ok msg' E| |i o c' deadline wake ok msg' Et Hs Ha]; subst; clear H.
  - unfold Ensure_section in E. change (phase (set_activity _ _)) with (phase (cm c)) in E.
    change (active (set_activity _ _)) with (active (cm c)) in E. repeat (case_match; simplify_eq). by bools.
  - cbn [Manager.exec] in Hs. rewrite Et in Hs. cbn [mbind option_bind Manager.thread_step] in Hs.
    destruct wake as [wake|]; unfold goto, waitReady_poll, waitReady_timeout in Hs;
      repeat (case_match; try discriminate); simplify_eq; cbn in Hs; simplify_eq; cbn in Ha;
      rewrite lookup_insert_eq in Ha; simplify_eq; by bools.
Qed.

(** Every live process of a ready pack is the pack's. *)
Lemma right_procs c p id : right c -> phase (cm c) = Ready -> procs (cw c) !! p = Some id -> id = active (cm c).
Proof.
  intros [[_ (o & _ & Hc)] Hr _] Hp E. rewrite (core_no_worker _ _ _ _ Hc (or_introl Hp)) in Hc.
  destruct (c_procs _ _ _ _ Hc p id E) as [Hm|]; [|done]. by eapply Hr.
Qed.

Context `{GoUnicode}.

(** C3: in an orderly run, players reach the pack they asked for.  When the daemon got to
    where it is by orderly steps ([ManagerSafety.orderly]: no start is retried and no
    shutdown accepted while another start or stop is under way, no crash or failure in
    the middle of a removal), from a boot over whatever state file, directories and
    backups, and the router then relays a player to the Minecraft server, then at the
    moment of [Ensure]'s answer the pack that serves the host of the player's handshake
    is [READY], and every Minecraft process that lives on the machine runs that pack:
    nobody is let into the world of another pack, or of one that is starting, being
    saved or failed.  Outside orderly runs a process the manager does not know can live
    on ([stale_start_two_processes]). *)
Theorem players_reach_their_pack loaded disk faults w c st ensure bk conn id up :
  rtc step (boot loaded disk faults w) c ->
  answers c id (ensure id) ->
  let out := handle_player cfg st ensure bk conn in
  o_ensured out = Some id -> o_backend out = Some up ->
  (exists hs rest pack, ReadHandshake (c_in conn) = (Ok hs, rest) /\ PackForHost cfg (Host hs) = Some (id, pack))
  /\ phase (cm c) = Ready /\ active (cm c) = id
  /\ forall p id', procs (cw c) !! p = Some id' -> id' = id.
Proof.
  intros Hreach Ha out He Hb. unfold out, handle_player in He, Hb. clear out.
  destruct (ReadHandshake (c_in conn)) as [[hs|] rest]; [|done]. destruct (NextState hs =? 1); [done|].
  destruct (PackForHost cfg (Host hs)) as [[id0 pack]|] eqn:Ep; [|done].
  destruct (ensure id0) as [[|] msg] eqn:Ee; [|by simplify_eq/=]. cbn [negb] in He, Hb.
  destruct (bk_dial bk); [by simplify_eq/=|]. destruct (relay hs rest bk). simplify_eq/=. rewrite Ee in Ha.
  destruct (answers_ready _ _ _ Ha) as [Hp Hact]. split_and!; [by eauto|done|done|].
  intros p id' E. rewrite <- Hact. eapply right_procs; [|done|done].
  eapply reachable_right; [apply boot_right|done].
Qed.
End Players.

(** ** A player on the committed configuration *)

Definition ready_daemon : conf :=
  default fresh_daemon (orderly_run repository_config repository_lock true fresh_daemon start_events).

Lemma ready_daemon_reached : rtc (step repository_config repository_lock true) fresh_daemon ready_daemon.
Proof. apply orderly_run_steps with (es := start_events). vm_compute. reflexivity. Qed.

Definition sfs_conn : conn :=
  Conn (Reader (McProto.frame (handshake_payload 767 "sfs.137-66-9-53.sslip.io" 25565 2) ++ [byte.of_Z 1]) ErrEOF) empty_buffer.
Definition let_in (id : string) : bool * string := (true, "").

Lemma sfs_relayed :
  o_ensured (@handle_player plain_unicode repository_config zero_State let_in ex_bk sfs_conn) = Some "sfs"
  /\ is_Some (o_backend (@handle_player plain_unicode repository_config zero_State let_in ex_bk sfs_conn)).
Proof. split; [vm_compute; reflexivity|]. vm_compute. eauto. Qed.

Lemma players_reach_their_pack_witness :
  procs (cw ready_daemon) = {[ 0%nat := "sfs" ]} /\ phase (cm ready_daemon) = Ready
  /\ active (cm ready_daemon) = "sfs" /\ forall p id', procs (cw ready_daemon) !! p = Some id' -> id' = "sfs".
Proof.
  split; [vm_compute; reflexivity|]. destruct sfs_relayed as [He [up Hb]].
  refine (proj2 (@players_reach_their_pack repository_config repository_lock true plain_unicode
    (Ok (phase_State Idle)) None [] empty_world ready_daemon zero_State let_in ex_bk sfs_conn "sfs" up
    ready_daemon_reached _ He Hb)).
  eapply answer_now. vm_compute. reflexivity.
Defined.
