(* ===== verification/LogBuffer.v ===== *)
(** * The dashboard's log ([internal/webui/logbuffer.go])

    Recent log lines in memory and in one file with one rotated predecessor, on the
    file-system model.  A computation works on the buffer and the file system together;
    the open file is a handle that a failed rotation leaves closed. *)
From Stdlib Require Import String Ascii.
From S2P Require Import Prelude GoStrings Scanner Filepath Fs.

(** ** Data *)

(** The field [file]: nil, an open file at the buffer's path, or one that was closed. *)
Inductive handle := HNil | HOpen | HClosed.

Record LogBuffer := mkLogBuffer {
  dir : path; base : string; file : handle; entries : list string;
  maxEntries : Z; maxBytes : Z; size : Z }.

Definition log_path (b : LogBuffer) : path := dir b ++ [base b].
Definition old_path (b : LogBuffer) : path := dir b ++ [base b +:+ ".1"].
Definition set_file (h : handle) (b : LogBuffer) : LogBuffer :=
  mkLogBuffer (dir b) (base b) h (entries b) (maxEntries b) (maxBytes b) (size b).
Definition set_size (n : Z) (b : LogBuffer) : LogBuffer :=
  mkLogBuffer (dir b) (base b) (file b) (entries b) (maxEntries b) (maxBytes b) n.
Definition set_entries (l : list string) (b : LogBuffer) : LogBuffer :=
  mkLogBuffer (dir b) (base b) (file b) l (maxEntries b) (maxBytes b) (size b).

Definition ErrClosed : error := Errorf "file already closed".

#[global] Instance handle_eq_dec : EqDecision handle.
Proof. solve_decision. Defined.

(** ** Lines *)

(** The scanner of [load] takes lines up to 1 MiB. *)
Definition maxToken : Z := 1024 * 1024.
Abbreviation scan_lines := (Scanner.scan_lines maxToken).
Abbreviation good_line := (Scanner.good_line maxToken).

Definition appendEntry (maxEntries : Z) (entries : list string) (line : string) : list string :=
  let l := entries ++ [line] in
  if maxEntries <? Z.of_nat (length l) then drop (length l - Z.to_nat maxEntries) l else l.

(** ** Operations *)

(** [os.OpenFile] with [O_CREATE] and [O_APPEND]. *)
Definition OpenAppend (mode : Z) (p : path) : M fs unit := simple (fun s =>
  match lookup_node p s with
  | Some (FDir _) => (Err ErrIsDir, s)
  | Some (FFile _ _) => (Ok tt, s)
  | _ => put_node p (FFile mode []) s
  end).

Definition load (maxEntries : Z) (p : path) (entries : list string) : M fs (list string) :=
  r ← attempt (ReadFile p);
  match r with
  | Err e => if errors_is e ErrNotExist then mret entries else throw e
  | Ok data =>
      let '(lines, ok) := scan_lines data in
      if ok then mret (foldl (appendEntry maxEntries) entries lines) else throw ErrTooLong
  end.

Definition NewLogBuffer (dir : path) (base : string) (maxEntries maxBytes : Z) : M fs LogBuffer :=
  if (maxEntries <=? 0) || (maxBytes <=? 0) then throw (Errorf "log limits must be positive")
  else
    let b := mkLogBuffer dir base HNil [] maxEntries maxBytes 0 in
    MkdirAll 488 dir;;
    l ← load maxEntries (old_path b) [];
    l ← load maxEntries (log_path b) l;
    OpenAppend 416 (log_path b);;
    info ← attempt (Stat (log_path b));
    mret (mkLogBuffer dir base HOpen l maxEntries maxBytes
            (match info with Ok (FFile _ data) => Z.of_nat (length data) | _ => 0 end)).

Definition on_fs {A} (m : M fs A) : M (LogBuffer * fs) A := fun '(b, s) =>
  let '(r, s') := m s in (r, (b, s')).
Definition on_buffer (f : LogBuffer -> LogBuffer) : M (LogBuffer * fs) unit := fun '(b, s) => (Ok tt, (f b, s)).

(** [File.Close]: whatever it returns, the file is closed. *)
Definition close_file : M (LogBuffer * fs) unit := fun '(b, s) =>
  match file b with
  | HOpen => let '(r, s') := CloseFile (log_path b) s in (r, (set_file HClosed b, s'))
  | _ => (Err ErrClosed, (b, s))
  end.

(** A call whose error [os.ErrNotExist] is not one. *)
Definition unless_missing (m : M fs unit) : M fs unit :=
  r ← attempt m;
  match r with Err e => if errors_is e ErrNotExist then mret tt else throw e | Ok _ => mret tt end.

Definition rotate : M (LogBuffer * fs) unit :=
  close_file;;
  '(b, _) ← get_state;
  on_fs (unless_missing (Remove (old_path b)));;
  on_fs (unless_missing (Rename (log_path b) (old_path b)));;
  on_fs (OpenTrunc 416 (log_path b));;
  on_buffer (fun b => set_size 0 (set_file HOpen b)).

(** [File.Write]: how much was written, and the error. *)
Definition write_file (p : list byte) : M (LogBuffer * fs) (Z * option error) := fun '(b, s) =>
  match file b, fs_faults s with
  | HOpen, Some f :: l =>
      (Ok (Z.of_nat (Nat.min (ft_done f) (length p)), Some (ft_error f)),
       (b, append_data (log_path b) (take (ft_done f) p) (Fs (nodes s) l)))
  | HOpen, l =>
      (Ok (Z.of_nat (length p), None), (b, append_data (log_path b) p (Fs (nodes s) (tail l))))
  | _, _ => (Ok (0, Some ErrClosed), (b, s))
  end.

Definition keep_lines (p : list byte) (b : LogBuffer) : LogBuffer :=
  let lines := SplitByte (chr 10) (TrimSuffix (string_of_bytes p) newline) in
  set_entries (foldl (appendEntry (maxEntries b)) (entries b)
                 (List.filter (fun l => negb (bool_decide (l = ""))) lines)) b.

Definition Write (p : list byte) : M (LogBuffer * fs) (Z * option error) :=
  '(b, _) ← get_state;
  r ← (if maxBytes b <? int64 (size b + Z.of_nat (length p)) then attempt rotate else mret (Ok tt));
  match r with
  | Err e => mret (0, Some e)
  | Ok _ =>
      '(n, err) ← write_file p;
      on_buffer (fun b => set_size (size b + n) b);;
      on_buffer (keep_lines (take (Z.to_nat n) p));;
      mret (n, err)
  end.

Definition Recent (limit : Z) (b : LogBuffer) : list string :=
  let len := Z.of_nat (length (entries b)) in
  let limit := if (limit <=? 0) || (len <? limit) then len else limit in
  drop (length (entries b) - Z.to_nat limit) (entries b).

Definition Close : M (LogBuffer * fs) unit := fun '(b, s) =>
  match file b with
  | HNil => (Ok tt, (b, s))
  | _ => let '(r, (b', s')) := close_file (b, s) in (r, (set_file HNil b', s'))
  end.

(** The writes of a run, each with its outcome. *)
Fixpoint write_all (ps : list (list byte)) : M (LogBuffer * fs) (list (Z * option error)) :=
  match ps with
  | [] => mret []
  | p :: ps' => r ← Write p; rs ← write_all ps'; mret (r :: rs)
  end.

(** ** Lemmas *)

(** The last [n] of a list. *)
Definition keep {A} (n : nat) (l : list A) : list A := drop (length l - n) l.

Lemma keep_length {A} n (l : list A) : (length (keep n l) <= n)%nat.
Proof. unfold keep. rewrite length_drop. lia. Qed.

Lemma keep_keep {A} n (l : list A) x : keep n (keep n l ++ [x]) = keep n (l ++ [x]).
Proof.
  unfold keep. rewrite !length_app, length_drop. cbn [length].
  destruct (decide (length l <= n)%nat) as [H|H].
  - replace (length l - n)%nat with 0%nat by lia. rewrite drop_0. do 2 f_equal. lia.
  - destruct n as [|n]; [rewrite !drop_ge; rewrite ?length_app, ?length_drop; cbn; (done || lia)|].
    rewrite !drop_app_le by (rewrite ?length_drop; lia). rewrite drop_drop. do 2 f_equal. lia.
Qed.

Lemma appendEntry_keep n l x : 0 <= n -> appendEntry n l x = keep (Z.to_nat n) (l ++ [x]).
Proof.
  intros Hn. unfold appendEntry, keep. destruct (n <? _) eqn:E; [done|]. bools.
  replace (_ - _)%nat with 0%nat by lia. by rewrite drop_0.
Qed.

Lemma fold_appendEntry n ls : forall l, 0 <= n ->
  foldl (appendEntry n) (keep (Z.to_nat n) l) ls = keep (Z.to_nat n) (l ++ ls).
Proof.
  induction ls as [|x ls IH]; intros l Hn; cbn [foldl]; [by rewrite app_nil_r|].
  rewrite appendEntry_keep, keep_keep, IH by done. by rewrite <- app_assoc.
Qed.

Lemma appendEntry_length n l x : 0 <= n -> (length (appendEntry n l x) <= Z.to_nat n)%nat.
Proof. intros Hn. rewrite appendEntry_keep by done. apply keep_length. Qed.

Lemma fold_appendEntry_length n ls : forall l, 0 <= n ->
  (length l <= Z.to_nat n)%nat -> (length (foldl (appendEntry n) l ls) <= Z.to_nat n)%nat.
Proof.
  induction ls as [|x ls IH]; intros l Hn Hl; cbn [foldl]; [done|].
  apply IH; [done|]. by apply appendEntry_length.
Qed.

(** *** A closed file *)

Lemma keep_lines_nil b : keep_lines [] b = b.
Proof. unfold keep_lines. cbn. by destruct b. Qed.

Lemma rotate_closed b s : file b <> HOpen -> rotate (b, s) = (Err ErrClosed, (b, s)).
Proof.
  intros Hf. unfold rotate. rewrite (M_bind_err _ _ _ ErrClosed (b, s)); [done|].
  unfold close_file. by destruct (file b).
Qed.

Lemma Write_closed p b s :
  file b <> HOpen -> exists b', Write p (b, s) = (Ok (0, Some ErrClosed), (b', s))
    /\ file b' = file b /\ entries b' = entries b.
Proof.
  intros Hf. unfold Write. rewrite (M_bind_ok _ _ _ (b, s) (b, s)) by done. cbv beta iota.
  destruct (maxBytes b <? _).
  - exists b. rewrite (M_bind_ok _ _ _ (Err ErrClosed) (b, s)); [done|].
    unfold attempt. by rewrite rotate_closed.
  - rewrite (M_bind_ok _ _ _ (Ok tt) (b, s)) by done. cbv beta iota.
    rewrite (M_bind_ok _ _ _ (0, Some ErrClosed) (b, s)) by (unfold write_file; by destruct (file b)).
    cbv beta iota. exists (set_size (size b + 0) b).
    unfold mbind, M_bind, on_buffer. cbn [fst snd]. rewrite Z2Nat.inj_0, take_0, keep_lines_nil. done.
Qed.

Lemma write_all_closed ps : forall b s, file b <> HOpen ->
  exists rs b', write_all ps (b, s) = (Ok rs, (b', s))
    /\ Forall (fun r => r = (0, Some ErrClosed)) rs /\ length rs = length ps /\ entries b' = entries b.
Proof.
  induction ps as [|p ps IH]; intros b s Hf; [by exists [], b|].
  destruct (Write_closed p b s Hf) as (b1 & E1 & Hf1 & He1).
  destruct (IH b1 s ltac:(by rewrite Hf1)) as (rs & b2 & E2 & Hrs & Hl & He2).
  exists ((0, Some ErrClosed) :: rs), b2. cbn [write_all].
  rewrite (M_bind_ok _ _ _ _ _ E1). cbv beta. rewrite (M_bind_ok _ _ _ _ _ E2). cbv beta.
  split; [done|]. split; [by constructor|]. split; [cbn; congruence|congruence].
Qed.

(** What a rotation does to the buffer, whatever happens. *)
Lemma rotate_cases b s :
  let '(r, (b', s')) := rotate (b, s) in
  entries b' = entries b /\ maxEntries b' = maxEntries b /\ maxBytes b' = maxBytes b
  /\ dir b' = dir b /\ base b' = base b
  /\ match r with Ok _ => file b' = HOpen /\ size b' = 0 | Err _ => file b' <> HOpen end.
Proof.
  unfold rotate, mbind, M_bind, get_state, on_fs, on_buffer, close_file.
  destruct (file b) eqn:Ef; cbn [fst snd]; try (split_and!; congruence).
  destruct (CloseFile (log_path b) s) as [[u|e] s1]; cbn [fst snd]; [|split_and!; done].
  destruct (unless_missing (Remove _) s1) as [[u2|e] s2]; cbn [fst snd]; [|split_and!; done].
  destruct (unless_missing (Rename _ _) s2) as [[u3|e] s3]; cbn [fst snd]; [|split_and!; done].
  destruct (OpenTrunc _ _ s3) as [[u4|e] s4]; cbn [fst snd]; split_and!; done.
Qed.

(** *** Sizes, whatever fails *)

Definition file_len (p : path) (s : fs) : Z :=
  match nodes s !! p with Some (FFile _ d) => Z.of_nat (length d) | _ => 0 end.

Lemma paths_differ b : old_path b <> log_path b.
Proof.
  intros E. unfold old_path, log_path in E. apply app_inj_2 in E as [_ E]; [|done]. injection E as E.
  apply (f_equal String.length) in E. rewrite length_append in E. cbn in E. lia.
Qed.

Lemma call_nodes {A} partial (m : M fs A) s :
  (exists l, nodes (snd (call partial m s)) = nodes (snd (m (Fs (nodes s) l)))
     /\ fst (call partial m s) = fst (m (Fs (nodes s) l)))
  \/ (exists f l, fs_faults s = Some f :: l /\ fst (call partial m s) = Err (ft_error f)
        /\ nodes (snd (call partial m s)) = nodes (partial (ft_done f) (Fs (nodes s) l))).
Proof.
  unfold call. destruct s as [m0 [|[f|] l]]; cbn [fs_faults nodes].
  - left. by exists [].
  - right. by exists f, l.
  - left. by exists l.
Qed.

Lemma CloseFile_nodes p s : nodes (snd (CloseFile p s)) = nodes s.
Proof. unfold CloseFile, simple. destruct (call_nodes (fun _ s => s) (@mret (M fs) _ _ tt) s) as [(l & -> & _)|(f & l & _ & _ & ->)]; done. Qed.

Lemma Remove_lens p q M s : 0 <= M -> file_len q s <= M -> file_len q (snd (Remove p s)) <= M.
Proof.
  intros HM H. unfold Remove, simple, file_len in *.
  match goal with |- context [call ?pa ?m s] => destruct (call_nodes pa m s) as [(l & -> & _)|(f & l & _ & _ & ->)] end; [|done].
  cbn [nodes]. destruct (decide (p = q)) as [->|Hne].
  - destruct (nodes s !! q) as [[]|] eqn:E; cbn [snd nodes set_nodes]; rewrite ?E; try done;
      [case_bool_decide; cbn [snd nodes set_nodes]; rewrite ?lookup_delete_eq, ?E; done|..];
      by rewrite lookup_delete_eq.
  - destruct (nodes s !! p) as [[]|] eqn:E; cbn [snd nodes set_nodes]; try done;
      [case_bool_decide; cbn [snd nodes set_nodes]; rewrite ?lookup_delete_ne by done; done|..];
      by rewrite lookup_delete_ne.
Qed.

Lemma Rename_file_nodes p q s m d :
  nodes s !! p = Some (FFile m d) -> let '(r, s') := Rename p q s in
  (is_ok r = false /\ nodes s' = nodes s) \/ (r = Ok tt /\ nodes s' = <[q := FFile m d]> (delete p (nodes s))).
Proof.
  intros Hp. unfold Rename, simple.
  match goal with |- context [call ?pa ?m s] => destruct (call_nodes pa m s) as [(l & E1 & E2)|(f & l & _ & E1 & E2)];
    destruct (call pa m s) as [r s'] end; cbn [fst snd] in *; [|left; by rewrite E1, E2].
  unfold rename_node in E1, E2. cbn [nodes] in E1, E2. rewrite Hp in E1, E2. cbn [is_dir] in E1, E2.
  destruct (lookup_node (parent q) _) as [[]|]; cbn [fst snd nodes set_nodes] in E1, E2; subst; auto.
  destruct (nodes s !! q) as [[]|]; cbn [fst snd nodes set_nodes] in *; subst; auto.
Qed.

Lemma OpenTrunc_cases mode p s :
  p <> [] -> let '(r, s') := OpenTrunc mode p s in
  (forall q, q <> p -> nodes s' !! q = nodes s !! q)
  /\ ((is_ok r = false /\ nodes s' = nodes s) \/ (r = Ok tt /\ exists m, nodes s' !! p = Some (FFile m []))).
Proof.
  intros Hp. pose proof (fun q Hq => keeps_OpenTrunc q mode p Hq s) as Hk. unfold OpenTrunc, simple in *.
  match goal with |- context [call ?pa ?m s] => destruct (call_nodes pa m s) as [(l & E1 & E2)|(f & l & _ & E1 & E2)];
    destruct (call pa m s) as [r s'] end; cbn [fst snd] in *; (split; [intros; by apply Hk, not_eq_sym|]);
    [|left; by rewrite E1, E2].
  unfold lookup_node, put_node in E1, E2. rewrite (bool_decide_eq_false_2 (p = [])) in E1, E2 by done.
  cbn [nodes] in *.
  destruct (nodes s !! p) as [[]|]; cbn [fst snd nodes] in *; subst; auto;
    (destruct (lookup_node (parent p) _) as [[]|]; cbn [fst snd nodes set_nodes] in *; subst; auto; right;
     split; [done|]; rewrite E1, lookup_insert_eq; eauto).
Qed.

Lemma unless_missing_cases (m : M fs unit) s :
  exists r s', m s = (r, s') /\ snd (unless_missing m s) = s'
    /\ match r with
       | Ok _ => fst (unless_missing m s) = Ok tt
       | Err e => fst (unless_missing m s) = if errors_is e ErrNotExist then Ok tt else Err e
       end.
Proof.
  destruct (m s) as [r s'] eqn:E. exists r, s'. split; [done|].
  unfold unless_missing, mbind, M_bind, attempt. rewrite E. destruct r as [u|e]; [by destruct u|].
  by destruct (errors_is e ErrNotExist).
Qed.

(** A rotation of a regular file under any faults: neither file is longer than one was. *)
Lemma rotate_lens b s m d M :
  nodes s !! log_path b = Some (FFile m d) -> Z.of_nat (length d) <= M -> file_len (old_path b) s <= M ->
  let '(r, (b', s')) := rotate (b, s) in
  file_len (log_path b) s' <= M /\ file_len (old_path b) s' <= M
  /\ (is_ok r = true -> exists m', nodes s' !! log_path b = Some (FFile m' [])).
Proof.
  intros Hlog Hd Hold. assert (file_len (log_path b) s <= M) as Hl by (unfold file_len; by rewrite Hlog).
  assert (0 <= M) as HM by lia.
  assert (log_path b <> []) as Hne by (unfold log_path; by destruct (dir b)).
  pose proof (paths_differ b) as Hpo.
  unfold rotate, mbind at 1, M_bind at 1, close_file. destruct (file b) eqn:Ef; cbn [fst snd]; try done.
  pose proof (CloseFile_nodes (log_path b) s) as Hc.
  destruct (CloseFile (log_path b) s) as [[u|e] s1]; cbn [snd] in Hc;
    [|cbn [fst snd]; unfold file_len; by rewrite Hc].
  unfold mbind at 1, M_bind at 1, get_state. cbv beta iota.
  change (old_path (set_file HClosed b)) with (old_path b).
  change (log_path (set_file HClosed b)) with (log_path b).
  assert (nodes s1 !! log_path b = Some (FFile m d) /\ file_len (old_path b) s1 <= M) as [H1 H1'].
  { unfold file_len in *. by rewrite Hc. } clear Hc.
  destruct (unless_missing_cases (Remove (old_path b)) s1) as (r2 & s2 & E2 & Es2 & Er2).
  assert (nodes s2 !! log_path b = Some (FFile m d) /\ file_len (old_path b) s2 <= M) as [H2 H2'].
  { pose proof (keeps_Remove (log_path b) (old_path b) Hpo s1) as K.
    pose proof (Remove_lens (old_path b) (old_path b) M s1 HM H1') as L. rewrite E2 in K, L. cbn in K, L.
    split; [congruence|done]. }
  assert (file_len (log_path b) s2 <= M) as H2'' by (unfold file_len; by rewrite H2).
  unfold mbind at 1, M_bind at 1, on_fs at 1.
  destruct (unless_missing (Remove (old_path b)) s1) as [q2 s2'] eqn:Eq2. cbn [fst snd] in Es2, Er2. subst s2'.
  destruct q2 as [u2|e2]; cbn [fst snd]; [|by split_and!].
  destruct (unless_missing_cases (Rename (log_path b) (old_path b)) s2) as (r3 & s3 & E3 & Es3 & Er3).
  pose proof (Rename_file_nodes (log_path b) (old_path b) s2 m d H2) as Hr. rewrite E3 in Hr.
  assert (file_len (log_path b) s3 <= M /\ file_len (old_path b) s3 <= M) as [H3 H3'].
  { destruct Hr as [[_ En]|[_ En]]; unfold file_len in *; rewrite En; [by split|].
    rewrite lookup_insert_ne, lookup_delete_eq, lookup_insert_eq by done. split; [done|lia]. }
  unfold mbind at 1, M_bind at 1, on_fs at 1.
  destruct (unless_missing (Rename _ _) s2) as [q3 s3'] eqn:Eq3. cbn [fst snd] in Es3, Er3. subst s3'.
  destruct q3 as [u3|e3]; cbn [fst snd]; [|by split_and!].
  unfold mbind at 1, M_bind at 1, on_fs at 1.
  pose proof (OpenTrunc_cases 416 (log_path b) s3 Hne) as Ho.
  destruct (OpenTrunc 416 (log_path b) s3) as [r4 s4]. destruct Ho as [Hk Ho].
  assert (file_len (old_path b) s4 <= M) as H4 by (unfold file_len in *; by rewrite Hk).
  destruct Ho as [[Hr4 En]|[-> [m' Hm']]].
  - destruct r4 as [u4|e4]; [done|]. cbn [fst snd]. unfold file_len in *. by rewrite En in *.
  - cbn [on_buffer fst snd]. split_and!; [unfold file_len; by rewrite Hm'|done|eauto].
Qed.

(** The buffer counts at most [M] bytes, and the files hold at most [U] more than it counts. *)
Record bounded (M U : Z) (b : LogBuffer) (s : fs) : Prop := {
  bd_log : file_len (log_path b) s <= M + U;
  bd_old : file_len (old_path b) s <= M + U;
  bd_open : file b = HOpen -> exists m d, nodes s !! log_path b = Some (FFile m d)
    /\ 0 <= size b <= M /\ Z.of_nat (length d) <= size b + U;
  bd_entries : (length (entries b) <= Z.to_nat (maxEntries b))%nat;
  bd_max : 0 <= maxEntries b }.

Lemma write_file_cases p b s m d :
  file b = HOpen -> nodes s !! log_path b = Some (FFile m d) ->
  exists n err s', write_file p (b, s) = (Ok (Z.of_nat n, err), (b, s'))
    /\ (n <= length p)%nat /\ nodes s' = <[log_path b := FFile m (d ++ take n p)]> (nodes s)
    /\ (fs_faults s = [] -> n = length p /\ err = None /\ fs_faults s' = []).
Proof.
  intros Hf Hn. unfold write_file, append_data. rewrite Hf.
  destruct s as [m0 [|[f|] l]]; cbn [fs_faults nodes tail] in *; rewrite Hn.
  - exists (length p). do 2 eexists. rewrite firstn_all. done.
  - exists (Nat.min (ft_done f) (length p)). do 2 eexists. split; [done|]. split; [lia|]. split; [|done].
    cbn [nodes set_nodes]. do 3 f_equal. destruct (decide (ft_done f <= length p)%nat).
    + f_equal. lia.
    + rewrite !take_ge by lia. done.
  - exists (length p). do 2 eexists. rewrite firstn_all. done.
Qed.

(** The buffer a write meets: as it was, or rotated. *)
Lemma room_bounded (p : list byte) b s M U :
  bounded M U b s -> 0 <= U -> maxBytes b <= M -> Z.of_nat (length p) <= M -> 2 * M < 2 ^ 63 ->
  exists r b1 s1,
    (if maxBytes b <? int64 (size b + Z.of_nat (length p)) then attempt rotate else mret (Ok tt)) (b, s)
      = (Ok r, (b1, s1))
    /\ bounded M U b1 s1 /\ dir b1 = dir b /\ base b1 = base b /\ maxEntries b1 = maxEntries b /\ maxBytes b1 = maxBytes b
    /\ (is_ok r = true -> file b1 = HOpen -> size b1 + Z.of_nat (length p) <= M).
Proof.
  intros [Hl Ho Hop He Hm] HU Hmb Hp HM.
  destruct (maxBytes b <? _) eqn:Erot; cycle 1.
  - exists (Ok tt), b, s. split; [done|]. split; [done|]. split_and!; try done. intros _ Hf.
    destruct (Hop Hf) as (m & d & Hn & Hs & _). bools.
    unfold int64 in Erot. rewrite swrap_id in Erot by lia. lia.
  - unfold attempt. pose proof (rotate_cases b s) as Hc. destruct (decide (file b = HOpen)) as [Ef|Ef].
    + destruct (Hop Ef) as (m & d & Hn & Hs).
      pose proof (rotate_lens b s m d (M + U) Hn ltac:(unfold file_len in Hl; by rewrite Hn in Hl) Ho) as Hr.
      destruct (rotate (b, s)) as [r [b1 s1]]. destruct Hc as (Hc1 & Hc2 & Hc3 & Hc4 & Hc5 & Hc6).
      destruct Hr as (Hr1 & Hr2 & Hr3).
      assert (log_path b1 = log_path b /\ old_path b1 = old_path b) as [Ep1 Ep2]
        by (unfold log_path, old_path; by rewrite Hc4, Hc5).
      exists r, b1, s1. split; [done|]. split; [|split_and!; try done].
      * split; [by rewrite Ep1|by rewrite Ep2| |by rewrite Hc1, Hc2|by rewrite Hc2].
        intros Hf1. destruct r as [u|e]; [|done]. destruct (Hr3 eq_refl) as [m' Hm'].
        exists m', []. rewrite Ep1. split; [done|]. destruct Hc6 as [_ ->]. cbn. lia.
      * intros Hok Hf1. destruct r as [u|e]; [|done]. destruct Hc6 as [_ ->]. lia.
    + rewrite rotate_closed by done. do 3 eexists. split; [done|]. split; [by split|]. by split_and!.
Qed.

Lemma Write_bounded p b s M U :
  bounded M U b s -> 0 <= U -> maxBytes b <= M -> Z.of_nat (length p) <= M -> 2 * M < 2 ^ 63 ->
  exists r b' s', Write p (b, s) = (Ok r, (b', s')) /\ bounded M U b' s'
    /\ log_path b' = log_path b /\ old_path b' = old_path b /\ maxEntries b' = maxEntries b /\ maxBytes b' = maxBytes b.
Proof.
  intros Hb HU Hmb Hp HM. unfold Write. rewrite (M_bind_ok _ _ _ (b, s) (b, s)) by done. cbv beta iota.
  destruct (room_bounded p b s M U Hb HU Hmb Hp HM)
    as (r & b1 & s1 & E & [Hl1 Ho1 Hop1 He1 Hm1] & Hd1 & Hba1 & Hme1 & Hmb1 & Hsz).
  rewrite (M_bind_ok _ _ _ _ _ E). cbv beta.
  assert (log_path b1 = log_path b /\ old_path b1 = old_path b) as [Ep1 Ep2]
    by (unfold log_path, old_path; by rewrite Hd1, Hba1).
  destruct r as [u|e]; [|by exists (0, Some e), b1, s1].
  destruct (decide (file b1 = HOpen)) as [Hf|Hf]; cycle 1.
  - rewrite (M_bind_ok _ _ _ (0, Some ErrClosed) (b1, s1)) by (unfold write_file; by destruct (file b1)).
    cbv beta iota. unfold mbind, M_bind, on_buffer. cbn [fst snd].
    rewrite Z2Nat.inj_0, take_0, keep_lines_nil.
    exists (0, Some ErrClosed), (set_size (size b1 + 0) b1), s1. split; [done|]. split; [|by split_and!].
    by split.
  - destruct (Hop1 Hf) as (m & d & Hn & Hs).
    destruct (write_file_cases p b1 s1 m d Hf Hn) as (n & err & s2 & Ew & Hnl & Hn2 & _).
    rewrite (M_bind_ok _ _ _ _ _ Ew). cbv beta iota. unfold mbind, M_bind, on_buffer. cbn [fst snd].
    rewrite Nat2Z.id. do 3 eexists. split; [reflexivity|]. specialize (Hsz eq_refl Hf).
    split; [|by split_and!]. split; cbn [log_path old_path dir base file size entries maxEntries keep_lines set_entries set_size].
    + unfold file_len. change (log_path _) with (log_path b1).
      rewrite Hn2, lookup_insert_eq, length_app, length_take. lia.
    + unfold file_len. change (old_path _) with (old_path b1).
      rewrite Hn2, lookup_insert_ne by (apply not_eq_sym, paths_differ). exact Ho1.
    + intros _. change (log_path _) with (log_path b1). exists m, (d ++ take n p).
      rewrite Hn2, lookup_insert_eq, length_app, length_take. split; [done|]. cbn. lia.
    + apply fold_appendEntry_length; [done|exact He1].
    + done.
Qed.

Lemma write_all_bounded ps : forall b s M U,
  bounded M U b s -> 0 <= U -> maxBytes b <= M -> Forall (fun p => Z.of_nat (length p) <= M) ps -> 2 * M < 2 ^ 63 ->
  exists rs b' s', write_all ps (b, s) = (Ok rs, (b', s')) /\ bounded M U b' s'
    /\ log_path b' = log_path b /\ old_path b' = old_path b /\ maxEntries b' = maxEntries b.
Proof.
  induction ps as [|p ps IH]; intros b s M U Hb HU Hmb Hps HM; [by exists [], b, s|].
  apply Forall_cons in Hps as [Hp Hps].
  destruct (Write_bounded p b s M U Hb HU Hmb Hp HM) as (r & b1 & s1 & E & Hb1 & Hl & Ho & Hme & Hmb1).
  destruct (IH b1 s1 M U Hb1 HU ltac:(lia) Hps HM) as (rs & b2 & s2 & E2 & Hb2 & Hl2 & Ho2 & Hme2).
  exists (r :: rs), b2, s2. cbn [write_all]. rewrite (M_bind_ok _ _ _ _ _ E). cbv beta.
  rewrite (M_bind_ok _ _ _ _ _ E2). cbv beta. split; [done|]. split; [done|]. split_and!; congruence.
Qed.

Lemma keep_lines_line l b : good_line l = true ->
  keep_lines (line_bytes l) b = set_entries (appendEntry (maxEntries b) (entries b) l) b.
Proof.
  intros Hl. unfold keep_lines, line_bytes. rewrite string_of_bytes_of_string, TrimSuffix_app.
  unfold Scanner.good_line in Hl. bools.
  assert (SplitByte (chr 10) l = [l]) as ->.
  { by apply SplitByte_none. }
  cbn. by rewrite bool_decide_eq_false_2.
Qed.

(** The buffer and its two files without faults: the predecessor holds [lo], the file [lc]. *)
Record holds (b : LogBuffer) (s : fs) (lo lc : list string) : Prop := {
  ho_faults : fs_faults s = [];
  ho_dirs : forall q, q ∈ prefixes (dir b) -> exists md, nodes s !! q = Some (FDir md);
  ho_log : exists m, nodes s !! log_path b = Some (FFile m (text lc));
  ho_old : (nodes s !! old_path b = None /\ lo = []) \/ exists m, nodes s !! old_path b = Some (FFile m (text lo));
  ho_good : Forall (fun l => good_line l = true) (lo ++ lc) }.

Record writable (b : LogBuffer) (s : fs) (lo lc : list string) : Prop := {
  wr_holds : holds b s lo lc;
  wr_open : file b = HOpen;
  wr_size : size b = Z.of_nat (length (text lc));
  wr_max : 0 < maxEntries b }.

Lemma dir_present b s lo lc : holds b s lo lc -> exists md, lookup_node (dir b) s = Some (FDir md).
Proof.
  intros H. unfold lookup_node. case_bool_decide as E; [by eexists|].
  apply (ho_dirs _ _ _ _ H). apply elem_of_prefixes. split; [done|]. exists []. by rewrite app_nil_r.
Qed.

Lemma not_prefix_log b q : q ∈ prefixes (dir b) -> q <> log_path b /\ q <> old_path b.
Proof.
  intros Hq%prefixes_length. split; intros ->; unfold log_path, old_path in Hq;
    rewrite length_app in Hq; cbn in Hq; lia.
Qed.

Lemma rotate_holds b s lo lc :
  writable b s lo lc -> exists b' s', rotate (b, s) = (Ok tt, (b', s')) /\ writable b' s' lc []
    /\ entries b' = entries b /\ maxEntries b' = maxEntries b /\ maxBytes b' = maxBytes b
    /\ dir b' = dir b /\ base b' = base b.
Proof.
  intros [Hh Hf Hs Hm]. destruct (dir_present _ _ _ _ Hh) as [md Hd].
  destruct Hh as [Hfa Hdirs [m Hlog] Hold Hgood]. destruct s as [n l]. cbn [fs_faults nodes] in *. subst l.
  assert (log_path b <> [] /\ old_path b <> []) as [Hl0 Ho0]
    by (unfold log_path, old_path; split; by destruct (dir b)).
  pose proof (paths_differ b) as Hpo.
  assert (exists n1, unless_missing (Remove (old_path b)) (Fs n []) = (Ok tt, Fs n1 [])
    /\ n1 = delete (old_path b) n) as (n1 & E1 & En1).
  { unfold unless_missing, attempt, Remove, simple, call, mbind, M_bind. cbn [fs_faults nodes].
    destruct Hold as [[Ho _]|[m' Ho]]; rewrite Ho; eexists; (split; [reflexivity|]); [by rewrite delete_id|done]. }
  assert (lookup_node (dir b) (Fs n1 []) = Some (FDir md)) as Hd1.
  { unfold lookup_node in *. case_bool_decide; [done|]. cbn [nodes] in *. rewrite En1, lookup_delete_ne; [done|].
    unfold old_path. intros E. apply (f_equal length) in E. rewrite length_app in E. cbn in E. lia. }
  assert (unless_missing (Rename (log_path b) (old_path b)) (Fs n1 [])
    = (Ok tt, Fs (<[old_path b := FFile m (text lc)]> (delete (log_path b) n1)) [])) as E2.
  { unfold unless_missing, attempt, Rename, simple, call, rename_node, mbind, M_bind. cbn [fs_faults nodes].
    assert (n1 !! log_path b = Some (FFile m (text lc))) as -> by (by rewrite En1, lookup_delete_ne).
    assert (parent (old_path b) = dir b) as -> by (unfold parent, old_path; apply removelast_last).
    rewrite Hd1, En1, lookup_delete_eq. done. }
  set (n2 := <[old_path b := FFile m (text lc)]> (delete (log_path b) n1)) in *.
  assert (OpenTrunc 416 (log_path b) (Fs n2 []) = (Ok tt, Fs (<[log_path b := FFile 416 []]> n2) [])) as E3.
  { assert (lookup_node (dir b) (Fs n2 []) = Some (FDir md)) as Hd2.
    { unfold lookup_node in *. case_bool_decide; [done|]. cbn [nodes] in *. unfold n2.
      rewrite lookup_insert_ne, lookup_delete_ne; [done|..]; unfold old_path, log_path;
        intros E; apply (f_equal length) in E; rewrite length_app in E; cbn in E; lia. }
    assert (lookup_node (log_path b) (Fs n2 []) = None) as Hl2.
    { unfold lookup_node. rewrite bool_decide_eq_false_2 by done. unfold n2. cbn [nodes].
      by rewrite lookup_insert_ne, lookup_delete_eq. }
    unfold OpenTrunc, simple, call. cbn [fs_faults]. rewrite Hl2. unfold put_node.
    assert (parent (log_path b) = dir b) as -> by (unfold parent, log_path; apply removelast_last).
    by rewrite Hd2. }
  exists (set_size 0 (set_file HOpen (set_file HClosed b))), (Fs (<[log_path b := FFile 416 []]> n2) []).
  split.
  - unfold rotate. rewrite (M_bind_ok _ _ _ tt (set_file HClosed b, Fs n []))
      by (unfold close_file, CloseFile, simple, call; by rewrite Hf).
    cbv beta. rewrite (M_bind_ok _ _ _ (set_file HClosed b, Fs n []) (set_file HClosed b, Fs n [])) by done.
    cbv beta iota. change (old_path (set_file HClosed b)) with (old_path b).
    change (log_path (set_file HClosed b)) with (log_path b).
    rewrite (M_bind_ok _ _ _ tt (set_file HClosed b, Fs n1 [])) by (unfold on_fs; by rewrite E1).
    cbv beta. rewrite (M_bind_ok _ _ _ tt (set_file HClosed b, Fs n2 [])) by (unfold on_fs; by rewrite E2).
    cbv beta. rewrite (M_bind_ok _ _ _ tt (set_file HClosed b, Fs (<[log_path b := FFile 416 []]> n2) []))
      by (unfold on_fs; by rewrite E3). done.
  - split; [|done]. split; [|done..]. split; cbn [fs_faults nodes dir].
    + done.
    + intros q Hq. destruct (not_prefix_log b q Hq) as [? ?]. destruct (Hdirs q Hq) as [mq Hq'].
      exists mq. unfold n2. rewrite En1. by rewrite !lookup_insert_ne, !lookup_delete_ne.
    + exists 416. change (log_path _) with (log_path b). by rewrite lookup_insert_eq.
    + right. exists m. change (old_path _) with (old_path b). rewrite lookup_insert_ne by done. apply lookup_insert_eq.
    + rewrite app_nil_r. by apply Forall_app in Hgood as [_ ?].
Qed.

Lemma Write_line l b s lo lc :
  writable b s lo lc -> good_line l = true ->
  exists b' s' lo' lc', Write (line_bytes l) (b, s) = (Ok (Z.of_nat (length (line_bytes l)), None), (b', s'))
    /\ writable b' s' lo' lc' /\ entries b' = appendEntry (maxEntries b) (entries b) l
    /\ maxEntries b' = maxEntries b /\ maxBytes b' = maxBytes b /\ dir b' = dir b /\ base b' = base b
    /\ ((lo' = lo /\ lc' = lc ++ [l])
        \/ (lo' = lc /\ lc' = [l] /\ maxBytes b < int64 (Z.of_nat (length (text (lc ++ [l])))))).
Proof.
  intros Hw Hl. unfold Write. rewrite (M_bind_ok _ _ _ (b, s) (b, s)) by done. cbv beta iota.
  assert (exists b1 s1 lo1 lc1,
    (if maxBytes b <? int64 (size b + Z.of_nat (length (line_bytes l))) then attempt rotate else mret (Ok tt)) (b, s)
      = (Ok (Ok tt), (b1, s1))
    /\ writable b1 s1 lo1 lc1 /\ entries b1 = entries b /\ maxEntries b1 = maxEntries b /\ maxBytes b1 = maxBytes b
    /\ dir b1 = dir b /\ base b1 = base b
    /\ ((lo1 = lo /\ lc1 = lc)
        \/ (lo1 = lc /\ lc1 = [] /\ maxBytes b < int64 (Z.of_nat (length (text (lc ++ [l])))))))
    as (b1 & s1 & lo1 & lc1 & E & Hw1 & He1 & Hm1 & Hb1 & Hd1 & Hba1 & Hc).
  { destruct (maxBytes b <? _) eqn:Er; [|do 4 eexists; split; [done|]; split_and!; try done; by left].
    destruct (rotate_holds b s lo lc Hw) as (b1 & s1 & E & Hw1 & ? & ? & ? & ? & ?).
    exists b1, s1, lc, []. unfold attempt. rewrite E. split_and!; try done. right. split_and!; try done.
    bools. rewrite (wr_size _ _ _ _ Hw) in Er. rewrite text_app, text_one, length_app.
    replace (Z.of_nat (length (text lc) + length (line_bytes l))) with
      (Z.of_nat (length (text lc)) + Z.of_nat (length (line_bytes l))) by lia. done. }
  rewrite (M_bind_ok _ _ _ _ _ E). cbv beta iota.
  destruct Hw1 as [Hh1 Hf1 Hs1 Hx1]. destruct Hh1 as [Hfa Hdirs [m Hlog] Hold Hgood].
  destruct (write_file_cases (line_bytes l) b1 s1 m _ Hf1 Hlog) as (n & err & s2 & Ew & _ & Hn2 & Hfault).
  destruct (Hfault Hfa) as (-> & -> & Hfa2). rewrite firstn_all in Hn2.
  rewrite (M_bind_ok _ _ _ _ _ Ew). cbv beta iota. unfold mbind, M_bind, on_buffer. cbn [fst snd].
  rewrite Nat2Z.id, firstn_all, keep_lines_line by done.
  do 2 eexists. exists lo1, (lc1 ++ [l]). split; [reflexivity|].
  assert (Forall (fun l => good_line l = true) (lo1 ++ lc1 ++ [l])) as Hg
    by (rewrite app_assoc; apply Forall_app; split; [done|by constructor]).
  split_and!; cbn; try congruence.
  - split; [|done|cbn|by cbn].
    + split; cbn [set_entries set_size dir].
      * done.
      * intros q Hq. destruct (not_prefix_log b1 q Hq) as [? ?]. rewrite Hn2, lookup_insert_ne by done. by apply Hdirs.
      * exists m. change (log_path _) with (log_path b1). by rewrite Hn2, lookup_insert_eq, text_app, text_one.
      * change (old_path _) with (old_path b1). rewrite Hn2, lookup_insert_ne by (apply not_eq_sym, paths_differ). done.
      * done.
    + rewrite Hs1, text_app, text_one, length_app. lia.
  - destruct Hc as [[-> ->]|(-> & -> & Hc)]; [by left|right]. done.
Qed.

Lemma write_lines ls : forall b s lo lc all,
  writable b s lo lc -> Forall (fun l => good_line l = true) ls ->
  entries b = keep (Z.to_nat (maxEntries b)) all ->
  (exists k, lo ++ lc = drop k all /\ (k = 0%nat \/ maxBytes b < Z.of_nat (length (text (lo ++ lc))))) ->
  Z.of_nat (length (text (all ++ ls))) < 2 ^ 63 ->
  exists b' s' lo' lc',
    write_all (map line_bytes ls) (b, s)
      = (Ok (map (fun l => (Z.of_nat (length (line_bytes l)), None)) ls), (b', s'))
    /\ writable b' s' lo' lc' /\ entries b' = keep (Z.to_nat (maxEntries b)) (all ++ ls)
    /\ maxEntries b' = maxEntries b /\ maxBytes b' = maxBytes b /\ dir b' = dir b /\ base b' = base b
    /\ exists k, lo' ++ lc' = drop k (all ++ ls)
         /\ (k = 0%nat \/ maxBytes b < Z.of_nat (length (text (lo' ++ lc')))).
Proof.
  induction ls as [|l ls IH]; intros b s lo lc all Hw Hls He (k & Hk & Hkb) Hlen.
  { exists b, s, lo, lc. cbn [map write_all]. rewrite app_nil_r. split_and!; try done. by exists k. }
  apply Forall_cons in Hls as [Hl Hls].
  destruct (Write_line l b s lo lc Hw Hl) as (b1 & s1 & lo1 & lc1 & E & Hw1 & He1 & Hm1 & Hb1 & Hd1 & Hba1 & Hc).
  assert (all ++ l :: ls = (all ++ [l]) ++ ls) as Ea by by rewrite <- app_assoc. rewrite Ea in *.
  pose proof (wr_max _ _ _ _ Hw) as Hm0.
  destruct (IH b1 s1 lo1 lc1 (all ++ [l]) Hw1 Hls) as (b2 & s2 & lo2 & lc2 & E2 & Hw2 & He2 & Hm2 & Hb2 & Hd2 & Hba2 & Hk2).
  - rewrite He1, He, Hm1, appendEntry_keep by lia. apply keep_keep.
  - destruct (decide (k <= length all)%nat) as [Hka|Hka]; cycle 1.
    { rewrite drop_ge in Hk by lia. apply app_nil in Hk as [-> ->].
      destruct Hkb as [->|Hkb]; [lia|]. cbn in Hkb.
      exists (length all). rewrite drop_app_length.
      destruct Hc as [[-> ->]|(-> & -> & Hc)]; cbn [app]; (split; [done|right; rewrite Hb1; lia]). }
    rewrite Hb1. destruct Hc as [[-> ->]|(-> & -> & Hc)].
    + exists k. rewrite drop_app_le, <- Hk by done. split; [by rewrite app_assoc|].
      destruct Hkb as [?|Hkb]; [by left|right]. rewrite app_assoc, text_app, length_app. lia.
    + exists (k + length lo)%nat. rewrite drop_app_le.
      * rewrite <- drop_drop, <- Hk, drop_app_length. split; [done|]. right.
        unfold int64 in Hc. rewrite swrap_id in Hc; [done|lia|].
        assert (length (text (lc ++ [l])) <= length (text ((all ++ [l]) ++ ls)))%nat; [|lia].
        assert (all = take k all ++ lo ++ lc) as -> by (rewrite Hk; by rewrite take_drop).
        rewrite !text_app, !length_app. lia.
      * apply (f_equal length) in Hk. rewrite length_app, length_drop in Hk. lia.
  - rewrite <- app_assoc in Hlen |- *. exact Hlen.
  - exists b2, s2, lo2, lc2. cbn [map write_all]. rewrite (M_bind_ok _ _ _ _ _ E). cbv beta.
    rewrite (M_bind_ok _ _ _ _ _ E2). cbv beta. split; [done|]. rewrite Hm1, Hb1 in *.
    split_and!; congruence.
Qed.

(** *** Opening the buffer *)

Lemma load_text n p ls s l0 :
  fs_faults s = [] -> p <> [] -> Forall (fun l => good_line l = true) ls ->
  (nodes s !! p = None /\ ls = []) \/ (exists m, nodes s !! p = Some (FFile m (text ls))) ->
  load n p l0 s = (Ok (foldl (appendEntry n) l0 ls), s).
Proof.
  intros Hf Hp Hg Hn. destruct s as [m0 l]. cbn in Hf. subst l.
  unfold load, mbind, M_bind, attempt, ReadFile, simple, call, lookup_node. cbn [fs_faults nodes] in *.
  rewrite (bool_decide_eq_false_2 (p = [])) by done.
  destruct Hn as [[Hn ->]|[m Hn]]; rewrite Hn; [done|]. by rewrite scan_text.
Qed.

Lemma NewLogBuffer_holds d base me mb s lo lc h es me0 mb0 sz :
  0 < me -> 0 < mb -> holds (mkLogBuffer d base h es me0 mb0 sz) s lo lc ->
  exists b, NewLogBuffer d base me mb s = (Ok b, s) /\ writable b s lo lc
    /\ dir b = d /\ LogBuffer.base b = base /\ maxEntries b = me /\ maxBytes b = mb
    /\ entries b = keep (Z.to_nat me) (lo ++ lc).
Proof.
  intros Hme Hmb [Hf Hdirs [m Hlog] Hold Hgood]. set (b0 := mkLogBuffer d base h es me0 mb0 sz) in *.
  pose proof Hgood as Hg. apply Forall_app in Hg as [Hglo Hglc].
  assert (log_path b0 <> [] /\ old_path b0 <> []) as [Hl0 Ho0]
    by (unfold log_path, old_path; split; by destruct (dir b0)).
  destruct s as [n l]. cbn [fs_faults] in Hf. subst l. cbn [nodes] in *.
  set (b := mkLogBuffer d base HOpen (keep (Z.to_nat me) (lo ++ lc)) me mb (Z.of_nat (length (text lc)))).
  exists b. split.
  - unfold NewLogBuffer. rewrite (proj2 (Z.leb_gt _ _)), (proj2 (Z.leb_gt _ _)) by lia. cbn [orb].
    rewrite (M_bind_ok _ _ _ tt (Fs n [])) by (apply MkdirAll_old; exact Hdirs). cbv beta.
    rewrite (M_bind_ok _ _ _ (foldl (appendEntry me) [] lo) (Fs n [])) by (by apply load_text). cbv beta.
    rewrite (M_bind_ok _ _ _ (foldl (appendEntry me) (foldl (appendEntry me) [] lo) lc) (Fs n []))
      by (apply load_text; eauto). cbv beta.
    rewrite (M_bind_ok _ _ _ tt (Fs n []))
      by (unfold OpenAppend, simple, call, lookup_node; cbn [fs_faults nodes];
          change (log_path _) with (log_path b0); by rewrite (bool_decide_eq_false_2 (log_path b0 = [])), Hlog).
    cbv beta. rewrite (M_bind_ok _ _ _ (Ok (FFile m (text lc))) (Fs n []))
      by (unfold attempt, Stat, simple, call, lookup_node; cbn [fs_faults nodes];
          change (log_path _) with (log_path b0); by rewrite (bool_decide_eq_false_2 (log_path b0 = [])), Hlog).
    cbv beta iota. rewrite <- foldl_app.
    pose proof (fold_appendEntry me (lo ++ lc) [] ltac:(lia)) as Ek. cbn [app] in Ek.
    change (keep (Z.to_nat me) []) with (@nil string) in Ek. by rewrite Ek.
  - split_and!; try done. split; [|done..]. split; cbn [fs_faults nodes]; try done. by exists m.
Qed.

Lemma Close_holds b s lo lc : writable b s lo lc ->
  exists b', Close (b, s) = (Ok tt, (b', s)) /\ entries b' = entries b.
Proof.
  intros [[Hf _ _ _ _] Ho _ _]. destruct s as [n l]. cbn in Hf. subst l.
  unfold Close, close_file. rewrite Ho. by eexists.
Qed.

Lemma load_length n p es es' t t' : load n p es t = (Ok es', t') -> 0 <= n ->
  (length es <= Z.to_nat n)%nat -> (length es' <= Z.to_nat n)%nat.
Proof.
  intros Hld Hn Hes. unfold load in Hld. unbind Hld as r t1 Hr1.
  destruct r as [data|e]; [|destruct (errors_is e ErrNotExist); [by injection Hld as <- _|done]].
  destruct (scan_lines data) as [lines [|]]; [|done]. injection Hld as <- _.
  by apply fold_appendEntry_length.
Qed.

(** The file that was opened is there, and [Stat] finds it, unless it fails. *)
Lemma OpenAppend_there mode p s u s' : OpenAppend mode p s = (Ok u, s') -> p <> [] ->
  exists m dd, nodes s' !! p = Some (FFile m dd).
Proof.
  intros E Hne. apply simple_ok in E as [l E]. unfold lookup_node, put_node in E. cbn [nodes] in E.
  rewrite bool_decide_eq_false_2 in E by done.
  destruct (nodes s !! p) as [[]|] eqn:En; try done; [injection E as _ <-; by eauto|..];
    (destruct (lookup_node (parent p) _) as [[]|]; try done; injection E as _ <-;
     cbn; rewrite lookup_insert_eq; eauto).
Qed.
Lemma attempt_Stat p s m dd r s' : p <> [] -> nodes s !! p = Some (FFile m dd) ->
  attempt (Stat p) s = (Ok r, s') ->
  nodes s' = nodes s /\ (r = Ok (FFile m dd) \/ exists e, r = Err e)
  /\ (fs_faults s = [] -> r = Ok (FFile m dd)).
Proof.
  intros Hp Hn E. unfold attempt, Stat, simple, call, lookup_node in E.
  destruct (fs_faults s) as [|[f|] fl]; cbn [nodes] in E;
    rewrite ?(bool_decide_eq_false_2 (p = [])), ?Hn in E by done; injection E as <- <-;
    (split; [done|split; [by eauto|done]]).
Qed.

(** Without faults none appear. *)
Lemma OpenAppend_faults mode p s : fs_faults s = [] -> fs_faults (snd (OpenAppend mode p s)) = [].
Proof.
  destruct s as [n l]. cbn. intros ->. unfold OpenAppend, simple, call, put_node. cbn [fs_faults].
  repeat case_match; done.
Qed.
Lemma load_faults n p es s : fs_faults s = [] -> snd (load n p es s) = s.
Proof.
  destruct s as [m l]. cbn. intros ->. unfold load, mbind, M_bind, attempt, ReadFile, simple, call.
  cbn [fs_faults]. destruct (lookup_node p _) as [[]|]; cbn; try done. by destruct (scan_lines data) as [? [|]].
Qed.
Lemma MkdirAll_faults mode d s : fs_faults s = [] -> fs_faults (snd (MkdirAll mode d s)) = [].
Proof.
  destruct s as [n l]. cbn. intros ->. unfold MkdirAll, call. cbn [fs_faults].
  generalize (prefixes d). intros pl. revert n. induction pl as [|q pl IH]; intros n; [done|].
  cbn. destruct (n !! q) as [[]|]; try done; apply IH.
Qed.

(** What opening a buffer gives, whatever was in the directory and whatever failed: its
    size is that of the file, or zero when [Stat] failed. *)
Lemma NewLogBuffer_opens d base me mb s b0 s0 :
  NewLogBuffer d base me mb s = (Ok b0, s0) ->
  maxBytes b0 = mb /\ maxEntries b0 = me /\ log_path b0 = d ++ [base] /\ old_path b0 = d ++ [base +:+ ".1"]
  /\ (length (entries b0) <= Z.to_nat me)%nat /\ 0 <= me
  /\ exists m dd, nodes s0 !! (d ++ [base]) = Some (FFile m dd)
     /\ (size b0 = Z.of_nat (length dd) \/ size b0 = 0)
     /\ (fs_faults s = [] -> size b0 = Z.of_nat (length dd)).
Proof.
  intros Hnew. unfold NewLogBuffer in Hnew. destruct ((me <=? 0) || (mb <=? 0)) eqn:E; [done|]. bools.
  unbind Hnew as u s1 E1. unbind Hnew as l1 s2 E2. unbind Hnew as l2 s3 E3. unbind Hnew as u4 s4 E4.
  unbind Hnew as info s5 E5. injection Hnew as <- <-. cbn [dir] in *.
  change (log_path _) with (d ++ [base]) in *. change (old_path _) with (d ++ [base +:+ ".1"]) in *.
  assert (d ++ [base] <> []) as Hne by by destruct d.
  assert (length l2 <= Z.to_nat me)%nat as Hl2.
  { eapply load_length; [exact E3|lia|]. eapply load_length; [exact E2|lia|cbn; lia]. }
  split_and!; try done; [lia|].
  destruct (OpenAppend_there _ _ _ _ _ E4 Hne) as (m & dd & Hn).
  destruct (attempt_Stat _ _ _ _ _ _ Hne Hn E5) as (En & Hi & Hf). exists m, dd. rewrite En.
  split; [done|]. split; [destruct Hi as [->|[e ->]]; [by left|by right]|]. intros Hs.
  rewrite Hf; [done|]. pose proof (MkdirAll_faults 488 d s Hs) as F1. rewrite E1 in F1. cbn in F1.
  pose proof (load_faults me (d ++ [base +:+ ".1"]) [] s1 F1) as F2. rewrite E2 in F2. cbn in F2. subst s2.
  pose proof (load_faults me (d ++ [base]) l1 s1 F1) as F3. rewrite E3 in F3. cbn in F3. subst s3.
  pose proof (OpenAppend_faults 416 (d ++ [base]) s1 F1) as F4. by rewrite E4 in F4.
Qed.

(** ** Properties *)


(** C36: the log is bounded, whatever fails.  Under any faults of the file system, while the
    buffer is opened and while it is written to, and for any sequence of writes, no more
    than [maxEntries] lines are held in memory, and neither file grows beyond the largest of
    [maxBytes], the longest single write and the lengths at the opening - plus the bytes
    that the opening did not count.  It counted all of them when none of its calls failed;
    otherwise it counted all or none, for the code ignores a [Stat] that fails and goes on
    with size zero, and then the files can exceed the limit by what the log held at that
    time ([stat_failure_exceeds_limit]). *)
Theorem log_bounded d base me mb s b0 s0 faults ps M :
  NewLogBuffer d base me mb s = (Ok b0, s0) ->
  mb <= M -> file_len (log_path b0) s0 <= M -> file_len (old_path b0) s0 <= M -> 2 * M < 2 ^ 63 ->
  Forall (fun p => Z.of_nat (length p) <= M) ps ->
  let uncounted := file_len (log_path b0) s0 - size b0 in
  (uncounted = 0 \/ size b0 = 0) /\ (fs_faults s = [] -> uncounted = 0)
  /\ let '(_, (b, s)) := write_all ps (b0, Fs (nodes s0) faults) in
    Z.of_nat (length (entries b)) <= me
    /\ file_len (d ++ [base]) s <= M + uncounted /\ file_len (d ++ [base +:+ ".1"]) s <= M + uncounted.
Proof.
  intros Hnew HM Hl Ho H2M Hps.
  destruct (NewLogBuffer_opens _ _ _ _ _ _ _ Hnew) as (Hmb & Hme & Elog & Eold & He0 & Hme0 & m & dd & Hn0 & Hsz & Hsf).
  assert (file_len (log_path b0) s0 = Z.of_nat (length dd)) as Elen by (unfold file_len; by rewrite Elog, Hn0).
  rewrite Elen in *. intros uncounted. split; [unfold uncounted; lia|]. split; [intros Hs; specialize (Hsf Hs); unfold uncounted; lia|].
  assert (bounded M uncounted b0 (Fs (nodes s0) faults)) as Hb.
  { split; [|change (file_len (old_path b0) s0 <= M + uncounted)| |by rewrite Hme|by rewrite Hme].
    - change (file_len (log_path b0) s0 <= M + uncounted). rewrite Elen. unfold uncounted. lia.
    - unfold uncounted. lia.
    - intros _. exists m, dd. rewrite Elog. split; [done|]. unfold uncounted. lia. }
  destruct (write_all_bounded ps b0 _ M uncounted Hb ltac:(unfold uncounted; lia) ltac:(lia) Hps H2M)
    as (rs & b & s' & E & [Bl Bo _ Be Bm] & El & Eo & Em).
  rewrite E. rewrite El, Elog in Bl. rewrite Eo, Eold in Bo. rewrite Em, Hme in *. split_and!; [lia|done|done].
Qed.

(** A rotation that fails once silences the log for good.  When any call of a
    rotation fails, that write and every later one - of any size, also when the file
    system has recovered - is refused with nothing written and nothing kept, because the
    buffer goes on with a file it has closed. *)
Theorem failed_rotation_is_final p b s e :
  maxBytes b < int64 (size b + Z.of_nat (length p)) -> fst (rotate (b, s)) = Err e ->
  let st := snd (Write p (b, s)) in
  fst (Write p (b, s)) = Ok (0, Some e) /\ entries (fst st) = entries b /\
  forall later s', exists rs b', write_all later (fst st, s') = (Ok rs, (b', s'))
    /\ Forall (fun r => r = (0, Some ErrClosed)) rs /\ length rs = length later /\ entries b' = entries b.
Proof.
  intros Hsize Hrot st. subst st. pose proof (rotate_cases b s) as Hc. unfold Write.
  rewrite (M_bind_ok _ _ _ (b, s) (b, s)) by done. cbv beta iota.
  rewrite (proj2 (Z.ltb_lt _ _)) by done. destruct (rotate (b, s)) as [r [b1 s1]] eqn:Er.
  cbn [fst] in Hrot. subst r. destruct Hc as (He & _ & _ & _ & _ & Hf).
  rewrite (M_bind_ok _ _ _ (Err e) (b1, s1)) by (unfold attempt; by rewrite Er). cbv beta iota. cbn [fst snd].
  split; [done|]. split; [done|]. intros later s'.
  destruct (write_all_closed later b1 s' Hf) as (rs & b2 & E & Hrs & Hl & He2).
  exists rs, b2. split_and!; try done. congruence.
Qed.

(** ** Witnesses *)

Definition ex_dir : path := ["state"; "runtime"].
Definition ex_fs : fs := Fs (<[ex_dir ++ ["dashboard.log"] := FFile 416 []]>
  (<[ex_dir := FDir 488]> {[ ["state"] := FDir 488 ]})) [].
Definition ex_lines : list string := ["one"; "two"; "three"; "four"].

Lemma ex_dirs q : q ∈ prefixes ex_dir -> exists md, nodes ex_fs !! q = Some (FDir md).
Proof.
  cbn. rewrite !elem_of_cons. intros [->|[->|[]%elem_of_nil]]; exists 488; vm_compute; reflexivity.
Qed.


(** A log file of eight bytes that is opened with a limit of eight bytes; the fifth call of
    the opening is [Stat], and fails. *)
Definition ex_log_file : fs := Fs (<[ex_dir ++ ["dashboard.log"] := FFile 416 (line_bytes "sevensx")]> (nodes ex_fs))
  [None; None; None; None; Some (Fault ErrContext 0)].

Lemma log_bounded_witness :
  exists b0 s0, NewLogBuffer ex_dir "dashboard.log" 2 8 ex_log_file = (Ok b0, s0) /\ size b0 = 0 /\
    let '(_, (b, s)) := write_all (map line_bytes ex_lines) (b0, Fs (nodes s0) [None; Some (Fault ErrContext 2)]) in
    Z.of_nat (length (entries b)) <= 2
    /\ file_len (ex_dir ++ ["dashboard.log"]) s <= 8 + 8 /\ file_len (ex_dir ++ ["dashboard.log.1"]) s <= 8 + 8.
Proof.
  assert (exists b0 s0, NewLogBuffer ex_dir "dashboard.log" 2 8 ex_log_file = (Ok b0, s0)
    /\ size b0 = 0 /\ file_len (log_path b0) s0 = 8 /\ file_len (old_path b0) s0 = 0) as (b0 & s0 & E & F0 & F1 & F2)
    by (do 2 eexists; split; [vm_compute; reflexivity|split; [|split]; vm_compute; reflexivity]).
  exists b0, s0. split; [exact E|]. split; [exact F0|].
  destruct (log_bounded ex_dir "dashboard.log" 2 8 _ b0 s0 [None; Some (Fault ErrContext 2)] (map line_bytes ex_lines) 8 E)
    as (_ & _ & H); [lia|rewrite F1; lia|rewrite F2; lia|lia| |rewrite F0, F1 in H; exact H].
  repeat constructor; apply Z.leb_le; vm_compute; reflexivity.
Defined.

(** One write of eight bytes, behind an opening that did not count the eight that were
    there: the log has twice the limit. *)
Theorem stat_failure_exceeds_limit :
  exists b0 s0 b s, NewLogBuffer ex_dir "dashboard.log" 2 8 ex_log_file = (Ok b0, s0)
    /\ write_all [line_bytes "another"] (b0, s0) = (Ok [(8, None)], (b, s))
    /\ file_len (ex_dir ++ ["dashboard.log"]) s = 16.
Proof. do 4 eexists. split; [vm_compute; reflexivity|]. split; vm_compute; reflexivity. Qed.

(** The rename of a rotation fails once. *)
Definition ex_full : LogBuffer := mkLogBuffer ex_dir "dashboard.log" HOpen ["one"; "two"] 10 8 8.
Lemma failed_rotation_is_final_witness :
  fst (rotate (ex_full, Fs (nodes ex_fs) [None; None; Some (Fault ErrContext 0)])) = Err ErrContext /\
  forall later s', exists rs b',
    write_all later (fst (snd (Write (line_bytes "three")
      (ex_full, Fs (nodes ex_fs) [None; None; Some (Fault ErrContext 0)]))), s') = (Ok rs, (b', s'))
    /\ Forall (fun r => r = (0, Some ErrClosed)) rs.
Proof.
  assert (fst (rotate (ex_full, Fs (nodes ex_fs) [None; None; Some (Fault ErrContext 0)])) = Err ErrContext) as E
    by (vm_compute; reflexivity).
  split; [exact E|]. intros later s'.
  destruct (failed_rotation_is_final (line_bytes "three") ex_full _ ErrContext eq_refl E) as (_ & _ & H).
  destruct (H later s') as (rs & b' & H1 & H2 & _). exists rs, b'. split; [exact H1|exact H2].
Defined.
