(* ===== verification/WebUI.v ===== *)
(** * The dashboard ([internal/webui/server.go] and [guest.go])

    The HTTP handlers over the manager and the log buffer: authentication, the public
    guest status, the private status and logs, and the catalog of the static site.  The
    page, its script and its style sheet are parameters. *)
From Stdlib Require Import String Ascii.
From S2P Require Import LogBuffer.
From S2P Require Import Prelude GoStrings GoJson JsonText Config Lock StateFile Lifecycle GoHttp.

(** [strconv.Atoi]. *)
Definition Atoi (s : string) : option Z :=
  let '(sign, ds) := match s with
    | String c s' => if code c =? 43 then (1, s') else if code c =? 45 then (-1, s') else (1, s)
    | "" => (1, s)
    end in
  if is_digits ds then
    let z := sign * decimal 0 ds in if int64 z =? z then Some z else None
  else None.

(** ** The guest's view *)

Record GuestPack := mkGuestPack {
  gp_ID : string; gp_DisplayName : string; gp_PackURL : string; Hostname : string;
  gp_Provider : string; gp_Java : Z }.
Record GuestStatus := mkGuestStatus {
  gs_Phase : Phase; gs_ActiveID : string; ActiveName : string; StateChange : Z }.

(** The packs by their IDs, in order. *)
Definition sorted_packs {A} (cfg : Config) (f : string -> Pack -> A) : list A :=
  omap (fun id => f id <$> Packs cfg !! id) (sorted_keys (Packs cfg)).

Definition Catalog (cfg : Config) : list GuestPack :=
  sorted_packs cfg (fun id p =>
    mkGuestPack id (DisplayName p) (PackURL p) (id +:+ "." +:+ Domain cfg) (Provider p) (Java p)).

Definition PublicStatus (cfg : Config) (st : State) : GuestStatus :=
  mkGuestStatus (st_Phase st) (ActiveID st)
    (match Packs cfg !! ActiveID st with Some p => DisplayName p | None => "" end) (UpdatedAt st).

Definition guest_pack_json (p : GuestPack) : json :=
  JObj ([("id", JStr (gp_ID p)); ("displayName", JStr (gp_DisplayName p))]
        ++ omit_empty "packUrl" (gp_PackURL p)
        ++ [("hostname", JStr (Hostname p)); ("provider", JStr (gp_Provider p)); ("java", JInt (gp_Java p))]).
Definition catalog_json (l : list GuestPack) : json := JObj [("packs", JArr (map guest_pack_json l))].

Section Server.
Context `{GoTime} `{GoHttp} (cfg : Config) (username password : string).
Context (pageHTML appCSS appJS : string).

Definition guest_json (g : GuestStatus) : result json :=
  t ← json_time (StateChange g);
  Ok (JObj ([("phase", JStr (phase_text (gs_Phase g)))]
            ++ omit_empty "activeId" (gs_ActiveID g) ++ omit_empty "activeName" (ActiveName g)
            ++ [("stateChange", t)])).

Definition pack_status_json (id : string) (p : Pack) : json :=
  JObj [("id", JStr id); ("displayName", JStr (DisplayName p)); ("provider", JStr (Provider p));
        ("java", JInt (Java p)); ("heapMb", JInt (MemoryMB p));
        ("machineMemoryMb", JInt (MachineMemoryMB p)); ("machineCpus", JInt (MachineCPUs p))].
Definition status_json (now : Z) (st : State) : result json :=
  s ← state_json st;
  n ← json_time now;
  Ok (JObj [("state", s); ("packs", JArr (sorted_packs cfg pack_status_json));
            ("domain", JStr (Domain cfg)); ("now", n)]).

(** ** Handlers

    Each gets the response headers set so far. *)

Definition writeJSON (value : result json) (h : list (string * string)) : Response :=
  let h := set_header "Content-Type" "application/json; charset=utf-8" h in
  match value with
  | Ok j => mkResponse 200 h (Marshal j +:+ newline)
  | Err _ => http_error 500 "encode response" h
  end.

Definition guestStatus (st : State) (h : list (string * string)) : Response :=
  writeJSON (guest_json (PublicStatus cfg st)) (set_header "Access-Control-Allow-Origin" "*" h).
Definition content (kind body : string) (h : list (string * string)) : Response :=
  mkResponse 200 (set_header "Content-Type" kind h) body.
Definition status (now : Z) (st : State) (h : list (string * string)) : Response :=
  writeJSON (status_json now st) h.

(** The clamped limit of [recentLogs]. *)
Definition log_limit (value : string) : Z :=
  let limit := if bool_decide (value = "") then 200 else default 200 (Atoi value) in
  let limit := if limit <? 1 then 1 else limit in
  if 500 <? limit then 500 else limit.
Definition recentLogs (logs : LogBuffer) (value : string) (h : list (string * string)) : Response :=
  writeJSON (Ok (JObj [("logs", JArr (map JStr (Recent (log_limit value) logs)))])) h.

(** The mux of [Handler]. *)
Definition mux (now : Z) (logs : LogBuffer) (r : Request) (m : mgr) (h : list (string * string)) : Response :=
  ServeMux
    [(["healthz"], content "text/plain; charset=utf-8" ("ok" +:+ newline));
     (["api"; "guest-status"], guestStatus (m_state m));
     (["assets"; "app.css"], content "text/css; charset=utf-8" appCSS);
     (["assets"; "app.js"], content "text/javascript; charset=utf-8" appJS);
     (["api"; "status"], status now (m_state m));
     (["api"; "logs"], recentLogs logs (Query r "limit"))]
    (content "text/html; charset=utf-8" pageHTML) r h.

Definition public_path (p : string) : bool :=
  bool_decide (p = "/healthz") || bool_decide (p = "/api/guest-status").
Definition authorized (r : Request) : bool :=
  match BasicAuth r with
  | Some (u, p) => bool_decide (u = username) && bool_decide (p = password)
  | None => false
  end.
Definition unauthorized (h : list (string * string)) : Response :=
  http_error 401 "authentication required"
    (set_header "WWW-Authenticate" ("Basic realm=" +:+ dquote +:+ "Hostpack" +:+ dquote +:+ ", charset=" +:+ dquote +:+ "UTF-8" +:+ dquote) h).

Definition authenticate (next : mgr -> Response) (now : Z) (r : Request) (h : list (string * string)) (m : mgr)
    : Response * mgr :=
  if public_path (Path r) then (next m, m)
  else if negb (authorized r) then (unauthorized h, m)
  else let m := Touch now m in (next m, m).

Definition securityHeaders : list (string * string) :=
  set_header "X-Frame-Options" "DENY"
  (set_header "X-Content-Type-Options" "nosniff"
  (set_header "Referrer-Policy" "no-referrer"
  (set_header "Content-Security-Policy" "default-src 'self'; connect-src 'self'; img-src 'self'; style-src 'self'; script-src 'self'; base-uri 'none'; form-action 'none'; frame-ancestors 'none'"
  (set_header "Cache-Control" "no-store" [])))).

(** [Handler]. *)
Definition ServeHTTP (now : Z) (logs : LogBuffer) (r : Request) (m : mgr) : Response * mgr :=
  let h := securityHeaders in authenticate (fun m => mux now logs r m h) now r h m.
End Server.

(** ** Properties *)

Lemma elem_of_sorted_packs {A} cfg (f : string -> Pack -> A) x :
  x ∈ sorted_packs cfg f <-> exists id p, Packs cfg !! id = Some p /\ x = f id p.
Proof.
  unfold sorted_packs. rewrite list_elem_of_omap. split.
  - intros (id & _ & E). apply fmap_Some in E as (p & Hp & ->). eauto.
  - intros (id & p & Hp & ->). exists id. rewrite Hp. split; [apply elem_of_sorted_keys; eauto|done].
Qed.

Section Properties.
Context `{GoTime} `{GoHttp} (cfg : Config) (username password : string) (pageHTML appCSS appJS : string).
Abbreviation serve := (ServeHTTP cfg username password pageHTML appCSS appJS).

Lemma mux_answer now logs r m h :
  let c := Code (mux cfg pageHTML appCSS appJS now logs r m h) in
  c = redirect_code \/ c = 405 \/ c = 200 \/ c = 500.
Proof.
  cbn. unfold mux, ServeMux. destruct (negb _); [by left|]. destruct (_ && _); [by right; left|].
  unfold List.find. cbn [fst]. repeat case_bool_decide; unfold content, guestStatus, status, recentLogs, writeJSON;
    repeat case_match; auto.
Qed.

(** C28: who may do what.  Without the right credentials every path but the health check
    and the guest status is answered by the same 401, whatever the state and the logs
    are; and no such request, nor a health check or a guest's, counts as activity that
    keeps the machine awake - an authenticated one does. *)
Theorem dashboard_protected now logs r m :
  (public_path (Path r) = true -> snd (serve now logs r m) = m)
  /\ (public_path (Path r) = false -> authorized username password r = false ->
      serve now logs r m = (unauthorized securityHeaders, m) /\ Code (unauthorized securityHeaders) = 401)
  /\ (public_path (Path r) = false -> authorized username password r = true ->
      snd (serve now logs r m) = Touch now m /\ Code (fst (serve now logs r m)) <> 401).
Proof.
  unfold ServeHTTP, authenticate. split_and!.
  - by intros ->.
  - by intros -> ->.
  - intros -> ->. cbn [negb fst snd]. split; [done|].
    pose proof redirect_code_3xx. destruct (mux_answer now logs r (Touch now m) securityHeaders)
      as [E|[E|[E|E]]]; lia.
Qed.

(** C29: what the public can learn.  Two daemons whose configurations give the active
    pack the same name, and whose states agree in the phase, the active pack and the time
    of the last change, give a client without credentials the same answers: the
    generation, the pending backup, the last error, the lock digest, the logs and the
    other packs do not leak. *)
Theorem guest_noninterference cfg2 now1 now2 logs1 logs2 r m1 m2 :
  authorized username password r = false ->
  st_Phase (m_state m1) = st_Phase (m_state m2) -> ActiveID (m_state m1) = ActiveID (m_state m2) ->
  UpdatedAt (m_state m1) = UpdatedAt (m_state m2) ->
  (DisplayName <$> Packs cfg !! ActiveID (m_state m1)) = (DisplayName <$> Packs cfg2 !! ActiveID (m_state m1)) ->
  fst (serve now1 logs1 r m1) = fst (ServeHTTP cfg2 username password pageHTML appCSS appJS now2 logs2 r m2).
Proof.
  intros Hauth Hph Hid Hup Hname. unfold ServeHTTP, authenticate.
  destruct (public_path (Path r)) eqn:Ep; [|by rewrite Hauth]. cbn [fst]. unfold mux, ServeMux.
  case_bool_decide as Ec; [|done]. cbn [negb]. destruct (_ && _); [done|].
  pose proof (clean_path_rooted (EscapedPath r)) as Hroot. rewrite Ec in *.
  assert (guestStatus cfg (m_state m1) = guestStatus cfg2 (m_state m2)) as Eg.
  { unfold guestStatus, PublicStatus. rewrite Hph, Hup, <- Hid.
    assert (match Packs cfg !! ActiveID (m_state m1) with Some p => DisplayName p | None => "" end
      = match Packs cfg2 !! ActiveID (m_state m1) with Some p => DisplayName p | None => "" end) as E
      by (destruct (Packs cfg !! _), (Packs cfg2 !! _); cbn in Hname; congruence).
    by rewrite E. }
  unfold List.find. cbn [fst]. repeat case_bool_decide; try done; [by rewrite Eg| |].
  all: match goal with E : _ = segments _ |- _ => symmetry in E; apply segments_words in E; try done;
    unfold public_path, Path in Ep; by rewrite E in Ep end.
Qed.

(** Every answer carries the security headers, whatever the request. *)
Theorem security_headers_always now logs r m k :
  k ∈ ["Cache-Control"; "Content-Security-Policy"; "Referrer-Policy"; "X-Content-Type-Options"; "X-Frame-Options"] ->
  get_header k (Headers (fst (serve now logs r m))) = get_header k securityHeaders
  /\ is_Some (get_header k securityHeaders).
Proof.
  intros Hk. split; [|by repeat (apply elem_of_cons in Hk as [->|Hk]; [by vm_compute; eauto|]); apply elem_of_nil in Hk].
  assert (forall kk v h, kk ∈ ["Content-Type"; "Location"; "Allow"; "WWW-Authenticate"; "Access-Control-Allow-Origin"] ->
    get_header k (set_header kk v h) = get_header k h) as Hset.
  { intros kk v h Hkk. apply get_set_header_ne. intros ->.
    repeat (apply elem_of_cons in Hk as [->|Hk]; [by revert Hkk; vm_compute; set_solver|]). by apply elem_of_nil in Hk. }
  assert (forall h, get_header k h = get_header k securityHeaders ->
    get_header k (set_header "X-Content-Type-Options" "nosniff" h) = get_header k securityHeaders) as Hsniff.
  { intros h Hh. destruct (decide (k = "X-Content-Type-Options")) as [->|Hne]; [by rewrite get_set_header|].
    by rewrite get_set_header_ne. }
  assert (forall c t h, get_header k h = get_header k securityHeaders ->
    get_header k (Headers (http_error c t h)) = get_header k securityHeaders) as Herr.
  { intros c t h Hh. unfold http_error. cbn [Headers]. apply Hsniff. rewrite Hset by set_solver. done. }
  assert (forall v h, get_header k h = get_header k securityHeaders ->
    get_header k (Headers (writeJSON v h)) = get_header k securityHeaders) as Hjson.
  { intros v h Hh. unfold writeJSON. destruct v; [cbn [Headers]|apply Herr]; by rewrite Hset by set_solver. }
  assert (forall m0, get_header k (Headers (mux cfg pageHTML appCSS appJS now logs r m0 securityHeaders))
    = get_header k securityHeaders) as Hmux.
  { intros m0. unfold mux, ServeMux, Redirect. destruct (negb _).
    { cbn [Headers]. destruct (_ && _); rewrite !Hset by set_solver; done. }
    destruct (_ && _); [apply Herr; by rewrite Hset by set_solver|].
    unfold List.find. cbn [fst]. unfold guestStatus, status, recentLogs, content.
    repeat case_bool_decide; cbn [Headers]; rewrite ?Hset by set_solver; try done;
      apply Hjson; rewrite ?Hset by set_solver; done. }
  unfold ServeHTTP, authenticate. repeat case_match; cbn [fst]; [apply Hmux| |apply Hmux].
  unfold unauthorized. apply Herr. by rewrite Hset by set_solver.
Qed.
End Properties.

(** [authenticate] looks at the decoded path and the mux at the segments of the escaped
    one: a request for the guest status with its slash escaped needs no password and gets
    the page. *)
Theorem escaped_slash_skips_password `{GoTime} `{GoHttp} cfg username password pageHTML appCSS appJS now logs m :
  let r := mkRequest "GET" "/api%2Fguest-status" "" None (fun _ => "") in
  authorized username password r = false /\
  let o := fst (ServeHTTP cfg username password pageHTML appCSS appJS now logs r m) in
  Code o = 200 /\ Contents o = pageHTML.
Proof. split; [done|]. split; vm_compute; reflexivity. Qed.

(** The log endpoint is bounded: for any text of the parameter it serves between one
    and five hundred of the newest lines, or all when there are fewer. *)
Theorem recent_logs_bounded logs value :
  let lines := Recent (log_limit value) logs in
  1 <= log_limit value <= 500
  /\ Z.of_nat (length lines) = Z.min (log_limit value) (Z.of_nat (length (entries logs)))
  /\ suffix lines (entries logs).
Proof.
  assert (1 <= log_limit value <= 500) as Hl.
  { unfold log_limit. destruct (_ <? 1) eqn:E1; [done|]. destruct (500 <? _) eqn:E2; bools; lia. }
  split; [done|]. unfold Recent. rewrite (proj2 (Z.leb_gt _ _)) by lia. cbn [orb].
  rewrite length_drop. split.
  - destruct (_ <? _) eqn:E; bools; lia.
  - eexists. symmetry. apply take_drop.
Qed.

(** The catalog of the static site lists each configured pack once, in the order of
    the IDs, and every host name in it is one the router serves with that very pack. *)
Theorem catalog_hosts_routed `{GoUnicode} cfg :
  valid_config cfg ->
  map gp_ID (Catalog cfg) = sorted_keys (Packs cfg) /\ NoDup (map gp_ID (Catalog cfg)) /\
  forall g, g ∈ Catalog cfg -> exists p, PackForHost cfg (Hostname g) = Some (gp_ID g, p)
    /\ gp_DisplayName g = DisplayName p /\ gp_Provider g = Provider p /\ gp_Java g = Java p.
Proof.
  intros Hc. assert (map gp_ID (Catalog cfg) = sorted_keys (Packs cfg)) as E.
  { unfold Catalog, sorted_packs. assert (forall id, id ∈ sorted_keys (Packs cfg) -> is_Some (Packs cfg !! id)) as Hin
      by (intros id; apply elem_of_sorted_keys).
    induction (sorted_keys (Packs cfg)) as [|id ids IH]; [done|]. cbn.
    destruct (Hin id) as [p ->]; [left|]. cbn. by rewrite IH by (intros; apply Hin; by right). }
  split; [done|]. split; [rewrite E; apply sorted_keys_NoDup|].
  intros g (id & p & Hp & ->)%elem_of_sorted_packs. exists p. split; [by apply PackForHost_own|done].
Qed.

(** ** Witnesses *)

Definition ex_mgr : mgr := mkMgr (mkState Ready "alpha" "d1" 7 None true "disk full" 0) None false 0 false false None [].
Definition ex_mgr2 : mgr := mkMgr (mkState Ready "alpha" "d2" 9 None false "" 0) (Some 4%nat) true 5 true false None [].
Definition ex_request : Request := mkRequest "GET" "/api/guest-status" "" None (fun _ => "").
Definition ex_logs : LogBuffer := mkLogBuffer ["state"] "dashboard.log" HOpen ["one"; "two"; "three"] 10 100 0.

Lemma guest_noninterference_witness :
  fst (@ServeHTTP decimal_time plain_http example_config "hostpack" "0123456789abcdef" "" "" "" 0 ex_logs ex_request ex_mgr)
  = fst (@ServeHTTP decimal_time plain_http example_config "hostpack" "0123456789abcdef" "" "" "" 3 ex_logs ex_request ex_mgr2).
Proof. apply (@guest_noninterference decimal_time plain_http); reflexivity. Defined.

Lemma dashboard_protected_witness :
  public_path "/api/logs" = false /\
  snd (@ServeHTTP decimal_time plain_http example_config "hostpack" "0123456789abcdef" "" "" "" 5 ex_logs
         (mkRequest "GET" "/api/logs" "limit=2" (Some ("hostpack", "0123456789abcdef")) (fun _ => "2")) ex_mgr) = Touch 5 ex_mgr.
Proof.
  split; [reflexivity|].
  apply (@dashboard_protected decimal_time plain_http example_config "hostpack" "0123456789abcdef" "" "" "" 5 ex_logs
    (mkRequest "GET" "/api/logs" "limit=2" (Some ("hostpack", "0123456789abcdef")) (fun _ => "2")) ex_mgr); reflexivity.
Defined.

Lemma security_headers_always_witness :
  get_header "X-Frame-Options" (Headers (fst (@ServeHTTP decimal_time plain_http example_config "hostpack" "0123456789abcdef" "" "" "" 0
    ex_logs (mkRequest "POST" "//x" "" None (fun _ => "")) ex_mgr))) = Some "DENY".
Proof.
  destruct (@security_headers_always decimal_time plain_http example_config "hostpack" "0123456789abcdef" "" "" "" 0
    ex_logs (mkRequest "POST" "//x" "" None (fun _ => "")) ex_mgr "X-Frame-Options" ltac:(set_solver)) as [E _].
  rewrite E. reflexivity.
Defined.

Lemma catalog_hosts_routed_witness :
  valid_config example_config /\ map gp_ID (Catalog example_config) = sorted_keys (Packs example_config).
Proof.
  split; [exact example_config_valid|].
  apply (@catalog_hosts_routed plain_unicode). exact example_config_valid.
Defined.
