(* ===== verification/Archive.v ===== *)
(** * The contents of a backup archive ([writeArchive] and the loop of [Restore] in
    [internal/store/store.go])

    An archive is the sequence of tar entries the walk over an instance directory
    gives; a restore replays the entries into an empty directory.  The bytes the tar
    and zstd streams make of the entries are left to [Store.v]. *)
From Stdlib Require Import String Ascii.
From stdpp Require Import sorting.
From S2P Require Import Prelude GoStrings Filepath Fs.

(** ** Entries *)

Inductive typeflag := TypeDir | TypeReg | TypeSymlink | TypeOther.
Record Header := mkHeader { h_Name : string; h_Typeflag : typeflag; h_Mode : Z }.

(** An entry of a tar stream; [en_end] is the error reading its body ends with. *)
Record entry := mkEntry { en_header : Header; en_body : list byte; en_end : option error }.

(** ** The walk *)

(** The order of [filepath.WalkDir]: directories before what they hold, the names of
    a directory in lexical order. *)
Fixpoint path_le (p q : path) : Prop :=
  match p, q with
  | [], _ => True
  | _ :: _, [] => False
  | a :: p', b :: q' => if decide (a = b) then path_le p' q' else String.le a b
  end.
#[global] Instance path_le_dec : RelDecision path_le.
Proof.
  intros p. induction p as [|a p IH]; intros [|b q]; cbn; try apply _.
  destruct (decide (a = b)); [apply IH|apply _].
Defined.

Definition walk_le : relation (path * node) := fun x y => path_le (fst x) (fst y).
#[global] Instance walk_le_dec : RelDecision walk_le := fun x y => path_le_dec (fst x) (fst y).

(** Everything strictly below a directory, by the path behind it. *)
Definition walk (source : path) (m : gmap path node) : list (path * node) :=
  merge_sort walk_le
    (List.filter (fun rn => negb (bool_decide (fst rn = []))) (map_to_list (subtree source m))).

(** The path behind the directory, as [filepath.Rel] writes it. *)
Definition rel_path (r : path) : string := Join r "/".

(** What is not archived: the RCON credentials and what is below [logs]. *)
Definition excluded (rel : string) : bool :=
  bool_decide (rel = ".rcon-cli.env") || bool_decide (rel = ".rcon-cli.yaml") || HasPrefix rel "logs/".

Definition node_typeflag (n : node) : typeflag :=
  match n with FDir _ => TypeDir | FFile _ _ => TypeReg | FLink _ => TypeSymlink | FOther => TypeOther end.
Definition node_mode (n : node) : Z :=
  match n with FDir m => m | FFile m _ => m | FLink _ => 511 | FOther => 0 end.

(** The callback of the walk on one path: [Info], and for a file its contents. *)
Definition visit (source : path) (rn : path * node) : M fs (option entry) :=
  let '(r, n) := rn in
  let rel := rel_path r in
  if excluded rel then mret None
  else
    simple (mret tt);;
    let hdr := mkHeader rel (node_typeflag n) (node_mode n) in
    match n with
    | FFile _ _ => b ← ReadFile (source ++ r); mret (Some (mkEntry hdr b None))
    | _ => mret (Some (mkEntry hdr [] None))
    end.

Fixpoint visit_all (source : path) (l : list (path * node)) (acc : list entry)
    : M fs (list entry * option error) :=
  match l with
  | [] => mret (acc, None)
  | rn :: l' =>
      e ← attempt (visit source rn);
      match e with
      | Ok (Some e) => visit_all source l' (acc ++ [e])
      | Ok None => visit_all source l' acc
      | Err err => mret (acc, Some err)
      end
  end.

(** [writeArchive]: the entries written and the error, if any, that ended the walk. *)
Definition writeArchive (source : path) : M fs (list entry * option error) :=
  n ← attempt (Stat source);
  match n with
  | Err e => mret ([], Some e)
  | Ok _ => s ← get_state; visit_all source (walk source (nodes s)) []
  end.

(** ** The replay *)
Section Replay.
(** The process's umask. *)
Context (umask : Z).

(** The permissions a file gets that is created with [mode]. *)
Definition created_mode (mode : Z) : Z := Z.ldiff (Z.land mode 511) umask.

(** The body of the loop of [Restore] on one entry. *)
Definition restore_entry (tmp : string) (e : entry) : M fs unit :=
  let hdr := en_header e in
  let clean := Clean (h_Name hdr) in
  if bool_decide (clean = ".") || IsAbs clean || HasPrefix clean "../"
  then throw (Errorf ("unsafe archive path " +:+ h_Name hdr))
  else
    let target := PathJoin [tmp; clean] in
    if negb (HasPrefix target (tmp +:+ "/")) then throw (Errorf "archive path escaped destination")
    else
      let p := path_of target in
      match h_Typeflag hdr with
      | TypeDir => MkdirAll (created_mode (h_Mode hdr)) p
      | TypeReg =>
          MkdirAll (created_mode 488) (path_of (Dir target));;
          OpenTrunc (created_mode (h_Mode hdr)) p;;
          then_close p (WriteFile p (en_body e);;
                        match en_end e with Some err => throw err | None => mret tt end)
      | TypeSymlink => throw (Errorf "symlinks are not accepted in backups")
      | TypeOther => throw (Errorf ("unsupported archive entry " +:+ h_Name hdr))
      end.

Fixpoint restore_entries (tmp : string) (l : list entry) : M fs unit :=
  match l with
  | [] => mret tt
  | e :: l' => restore_entry tmp e;; restore_entries tmp l'
  end.
End Replay.

(** ** The order of the walk *)

Lemma path_le_refl p : path_le p p.
Proof. induction p as [|a p IH]; [done|]. cbn. by rewrite decide_True. Qed.

#[global] Instance path_le_trans : Transitive path_le.
Proof.
  intros p. induction p as [|a p IH]; intros [|b q] [|c r]; cbn; try done.
  repeat case_decide; subst; try done; try (by eauto).
  - intros Hx Hy. pose proof (anti_symm String.le _ _ Hx Hy). congruence.
  - intros Hx Hy. by etrans.
Qed.

#[global] Instance path_le_total : Total path_le.
Proof.
  intros p. induction p as [|a p IH]; intros [|b q]; cbn; auto.
  repeat case_decide; subst; try done; first [apply IH|apply String.le_total].
Qed.

#[global] Instance walk_le_trans : Transitive walk_le.
Proof. intros x y z. unfold walk_le. by etrans. Qed.
#[global] Instance walk_le_total : Total walk_le.
Proof. intros x y. apply path_le_total. Qed.

(** A path does not come before one of its prefixes. *)
Lemma path_le_prefix p r : r <> [] -> ~ path_le (p ++ r) p.
Proof.
  intros Hr. induction p as [|a p IH]; cbn; [destruct r; [done|by intros []]|]. by rewrite decide_True.
Qed.

Lemma walk_sorted source m : StronglySorted walk_le (walk source m).
Proof. apply StronglySorted_merge_sort; apply _. Qed.

Lemma elem_of_walk source m r n :
  (r, n) ∈ walk source m <-> r <> [] /\ m !! (source ++ r) = Some n.
Proof.
  unfold walk. rewrite merge_sort_Permutation, list_elem_of_In, filter_In.
  rewrite <- list_elem_of_In, elem_of_map_to_list, lookup_subtree, negb_true_iff, bool_decide_eq_false.
  cbn [fst]. tauto.
Qed.

Lemma walk_NoDup source m : NoDup (walk source m).*1.
Proof.
  unfold walk. rewrite merge_sort_Permutation.
  assert (forall l : list (path * node), NoDup l.*1 -> NoDup (List.filter (fun rn =>
    negb (bool_decide (fst rn = []))) l).*1) as H.
  { induction l as [|x l IH]; cbn; [done|]. intros [Hx Hl]%NoDup_cons. case_match; [|by apply IH].
    cbn. constructor; [|by apply IH]. intros Hin. apply Hx.
    apply list_elem_of_fmap in Hin as (y & -> & Hy). apply list_elem_of_fmap. exists y. split; [done|].
    apply list_elem_of_In in Hy. apply filter_In in Hy as [Hy _]. by apply list_elem_of_In. }
  apply H, NoDup_fst_map_to_list.
Qed.

(** In the walk a directory comes before what it holds. *)
Lemma walk_parent_before source m l1 r n l2 p n' :
  walk source m = l1 ++ (r, n) :: l2 -> p <> r -> under p r = true ->
  (p, n') ∈ walk source m -> (p, n') ∈ l1.
Proof.
  intros E Hne Hu Hp. pose proof (walk_sorted source m) as Hs. rewrite E in Hs, Hp.
  apply elem_of_app in Hp as [Hp|[Hp|Hp]%elem_of_cons]; [done|congruence|].
  exfalso. apply under_spec in Hu as [t ->].
  assert (walk_le (p ++ t, n) (p, n')) as Hle.
  { apply StronglySorted_app_1_r in Hs. apply StronglySorted_cons in Hs as [Hs _].
    rewrite Forall_forall in Hs. by apply Hs. }
  unfold walk_le in Hle. cbn in Hle. revert Hle. apply path_le_prefix. intros ->.
  by rewrite app_nil_r in Hne.
Qed.

(** ** What is archived *)

Definition entry_of (rn : path * node) : option entry :=
  let '(r, n) := rn in
  if excluded (rel_path r) then None
  else Some (mkEntry (mkHeader (rel_path r) (node_typeflag n) (node_mode n))
               (match n with FFile _ b => b | _ => [] end) None).
Definition archive_entries (source : path) (m : gmap path node) : list entry :=
  omap entry_of (walk source m).

Lemma visit_ok source r n s e s' :
  r <> [] -> nodes s !! (source ++ r) = Some n ->
  visit source (r, n) s = (Ok e, s') -> e = entry_of (r, n) /\ nodes s' = nodes s.
Proof.
  intros Hr Hn. unfold visit, entry_of. destruct (excluded (rel_path r)); [by intros [= <- <-]|].
  intros H. unbind H as u s1 E. apply simple_ok in E as [l [= _ <-]].
  destruct n as [md|md b|t|]; try (by injection H as <- <-).
  unbind H as b' s2 E. apply simple_ok in E as [l' E]. unfold lookup_node in E. cbn in E.
  rewrite bool_decide_eq_false_2 in E by (intros Es; apply app_eq_nil in Es as [_ ?]; done).
  rewrite Hn in E. injection E as <- <-. by injection H as <- <-.
Qed.

Lemma visit_all_ok source l acc s es s' :
  (forall r n, (r, n) ∈ l -> r <> [] /\ nodes s !! (source ++ r) = Some n) ->
  visit_all source l acc s = (Ok (es, None), s') ->
  es = acc ++ omap entry_of l /\ nodes s' = nodes s.
Proof.
  revert acc s. induction l as [|[r n] l IH]; intros acc s Hl H.
  - injection H as <- <-. by rewrite app_nil_r.
  - cbn [visit_all] in H. unbind H as e s1 E. unfold attempt in E.
    destruct (visit source (r, n) s) as [e' s1'] eqn:Ev. injection E as <- <-.
    destruct (Hl r n) as [Hr Hn]; [by left|]. destruct e' as [e'|err]; [|done].
    apply visit_ok in Ev as [-> Hs1]; [|done..].
    assert (forall acc', visit_all source l acc' s1' = (Ok (es, None), s') ->
      es = acc' ++ omap entry_of l /\ nodes s' = nodes s) as Hrec.
    { intros acc' Ha. rewrite <- Hs1. eapply IH; [|exact Ha]. intros r' n' Hin. rewrite Hs1.
      apply Hl. by right. }
    cbn [omap list_omap]. destruct (entry_of (r, n)) as [e|] eqn:Ee.
    + apply Hrec in H as [-> ?]. by rewrite <- app_assoc.
    + by apply Hrec in H.
Qed.

(** An archive written without an error holds exactly the directory. *)
Lemma writeArchive_ok source s es s' :
  writeArchive source s = (Ok (es, None), s') ->
  es = archive_entries source (nodes s) /\ nodes s' = nodes s.
Proof.
  unfold writeArchive. intros H. unbind H as st s1 E. unfold attempt in E.
  assert (nodes s1 = nodes s) as Hn.
  { pose proof (Stat_nodes source s) as Es. destruct (Stat source s) as [x s1'].
    by injection E as _ <-. }
  destruct st as [n|e]; [|done]. unbind H as s2 s3 E2. injection E2 as <- <-.
  apply visit_all_ok in H as [-> ->]; [by rewrite Hn|]. intros r n'. by rewrite elem_of_walk.
Qed.

(** ** The replay of a walk *)
Section ReplayLemmas.
Context (umask : Z).
Abbreviation created_mode := (created_mode umask).

(** What a restore makes of a node. *)
Definition masked (n : node) : node :=
  match n with
  | FDir m => FDir (created_mode m) | FFile m b => FFile (created_mode m) b | _ => n
  end.

(** A directory hostpack can back up and restore: names are names, parents are
    directories, there are only directories and files, and the two credential
    files are files. *)
Record plain_tree (m : gmap path node) : Prop := {
  pt_normal : forall r n, m !! r = Some n -> Forall normal r;
  pt_parent : forall p r n, m !! (p ++ r) = Some n -> p <> [] -> r <> [] -> exists md, m !! p = Some (FDir md);
  pt_kind : forall r n, r <> [] -> m !! r = Some n -> is_dir n = true \/ is_regular n = true;
  pt_credentials : forall c n, m !! [c] = Some n -> excluded c = true -> is_dir n = false }.

(** The tree a restore builds. *)
Definition image (l : list (path * node)) : gmap path node :=
  list_to_map (omap (fun '(r, n) => if excluded (rel_path r) then None else Some (r, masked n)) l).

Lemma rel_path_facts t r :
  Forall normal t -> t <> [] -> Forall normal r -> r <> [] ->
  Clean (rel_path r) = rel_path r /\ bool_decide (rel_path r = ".") = false
  /\ IsAbs (rel_path r) = false /\ HasPrefix (rel_path r) "../" = false
  /\ PathJoin [abs_path t; rel_path r] = abs_path (t ++ r)
  /\ HasPrefix (abs_path (t ++ r)) (abs_path t +:+ "/") = true.
Proof.
  intros Ht Htn Hr Hrn. unfold rel_path. destruct (Clean_Join r Hr Hrn) as [Hc Ha].
  pose proof (parts_Join r Hrn (Forall_normal_no_slash r Hr)) as Hp.
  split_and!; [done| |done| |by apply PathJoin_normal|].
  - apply bool_decide_eq_false. intros E. rewrite E in Hp. cbn in Hp. subst r.
    apply Forall_cons in Hr as [(_ & ? & _) _]. done.
  - destruct (HasPrefix (Join r "/") "../") eqn:E; [|done]. apply HasPrefix_spec in E as [x E].
    rewrite E in Hp. change ("../" +:+ x) with (".." +:+ "/" +:+ x) in Hp.
    rewrite parts_app in Hp. subst r. apply Forall_cons in Hr as [(_ & _ & ? & _) _]. done.
  - apply HasPrefix_abs_path; [done..|by apply Forall_app|]. by exists r.
Qed.

(** What is below an archived path is archived too, but for the directory [logs]. *)
Lemma excluded_parent m p r n :
  plain_tree m -> m !! (p ++ r) = Some n -> p <> [] -> r <> [] ->
  excluded (rel_path (p ++ r)) = false -> excluded (rel_path p) = false.
Proof.
  intros Hm Hn Hp Hr He. destruct (pt_parent m Hm p r n Hn Hp Hr) as [md Hd].
  assert (rel_path (p ++ r) = rel_path p +:+ "/" +:+ rel_path r) as E.
  { unfold rel_path. clear -Hp Hr. induction p as [|c p IH]; [done|]. destruct p as [|d p].
    - destruct r; [done|]. done.
    - change ((c :: d :: p) ++ r) with (c :: d :: p ++ r). rewrite !Join_cons2.
      change (d :: p ++ r) with ((d :: p) ++ r). by rewrite IH, !append_assoc by done. }
  unfold excluded in *. rewrite !orb_false_iff in *. destruct He as [_ He].
  assert (forall x, rel_path p = x -> ContainsByte slash x = false -> p = [x]) as Hone.
  { intros x <- Hx. pose proof (pt_normal m Hm _ _ Hd) as Hnorm. unfold rel_path in *.
    rewrite <- (parts_Join p Hp (Forall_normal_no_slash p Hnorm)) at 1. by rewrite parts_single. }
  split_and!.
  - apply bool_decide_eq_false. intros Ex. rewrite (Hone _ Ex eq_refl) in Hd.
    by apply (pt_credentials m Hm) in Hd.
  - apply bool_decide_eq_false. intros Ex. rewrite (Hone _ Ex eq_refl) in Hd.
    by apply (pt_credentials m Hm) in Hd.
  - destruct (HasPrefix (rel_path p) "logs/") eqn:Ex; [|done].
    apply HasPrefix_spec in Ex as [x Ex]. rewrite E, Ex, append_assoc in He.
    rewrite (proj2 (HasPrefix_spec _ _)) in He by eauto. done.
Qed.

(** One entry, where its parent is there and it is not. *)
Lemma restore_entry_new t p c n m :
  Forall normal t -> t <> [] -> Forall normal (p ++ [c]) ->
  is_dir n = true \/ is_regular n = true ->
  (forall q, q ∈ prefixes (t ++ p) -> exists md, m !! q = Some (FDir md)) ->
  m !! (t ++ p ++ [c]) = None ->
  restore_entry umask (abs_path t)
    (mkEntry (mkHeader (rel_path (p ++ [c])) (node_typeflag n) (node_mode n))
       (match n with FFile _ b => b | _ => [] end) None) (Fs m [])
  = (Ok tt, Fs (<[t ++ p ++ [c] := masked n]> m) []).
Proof.
  intros Ht Htn Hr Hn Hp Hm.
  destruct (rel_path_facts t (p ++ [c]) Ht Htn Hr) as (E1 & E2 & E3 & E4 & E5 & E6); [by destruct p|].
  unfold restore_entry. cbn [en_header h_Name h_Typeflag h_Mode en_body en_end].
  rewrite E1, E2, E3, E4, E5, E6. cbn [orb negb].
  assert (Forall normal (t ++ p ++ [c])) as Hn' by (apply Forall_app; done).
  rewrite path_of_abs_path by done. rewrite app_assoc in *.
  apply Forall_app in Hn' as [Htp Hc]. apply Forall_cons in Hc as [Hc _].
  destruct n as [md|md b|x|]; cbn [node_typeflag node_mode masked]; try (by destruct Hn).
  - by apply MkdirAll_new.
  - rewrite Dir_abs_path, path_of_abs_path by done.
    erewrite M_bind_ok by (by apply MkdirAll_old). apply write_new_file; [|done].
    intros Hne. apply Hp. apply elem_of_prefixes. split; [done|]. exists []. by rewrite app_nil_r.
Qed.

Lemma image_lookup l r n :
  NoDup l.*1 -> image l !! r = Some n <->
  exists n0, (r, n0) ∈ l /\ excluded (rel_path r) = false /\ n = masked n0.
Proof.
  intros Hd. unfold image.
  assert (forall r n, (r, n) ∈ omap (fun '(r, n) => if excluded (rel_path r) then None else Some (r, masked n)) l
    <-> exists n0, (r, n0) ∈ l /\ excluded (rel_path r) = false /\ n = masked n0) as He.
  { intros r0 n0. rewrite list_elem_of_omap. split.
    - intros ([r1 n1] & Hin & E). destruct (excluded (rel_path r1)) eqn:Ex; [done|].
      injection E as <- <-. eauto.
    - intros (n1 & Hin & Ex & ->). exists (r0, n1). split; [done|]. by rewrite Ex. }
  rewrite <- He, <- elem_of_list_to_map; [done|].
  clear He. induction l as [|[r1 n1] l IH]; [constructor|]. cbn in Hd |- *.
  apply NoDup_cons in Hd as [Hr1 Hd]. destruct (excluded (rel_path r1)); [by apply IH|].
  cbn. constructor; [|by apply IH]. intros Hin. apply Hr1.
  apply list_elem_of_fmap in Hin as ([r2 n2] & -> & Hin). apply list_elem_of_omap in Hin as ([r3 n3] & Hin & E).
  destruct (excluded (rel_path r3)); [done|]. injection E as -> _.
  apply list_elem_of_fmap. by exists (r2, n3).
Qed.

(** The tree behind a part of the walk. *)
Definition replayed (t : path) (l : list (path * node)) (base : gmap path node) : gmap path node :=
  graft t (image l) base.

Lemma prefixes_below t q p : q ∈ prefixes (t ++ p) ->
  q ∈ prefixes t \/ exists p' r, p = p' ++ r /\ p' <> [] /\ q = t ++ p'.
Proof.
  rewrite !elem_of_prefixes. intros (Hq & r & E).
  apply app_eq_inv in E as [(x & -> & ->)|(x & -> & ->)].
  - left. split; [done|]. by exists x.
  - destruct (decide (x = [])) as [->|Hx]; [left|right].
    + rewrite app_nil_r in *. split; [done|]. exists []. by rewrite app_nil_r.
    + by exists x, r.
Qed.

Section Replay.
Context (source t : path) (m base : gmap path node).
Context (Hplain : plain_tree (subtree source m)) (Ht : Forall normal t) (Htn : t <> []).
(** The directory to restore into is there, with its ancestors, and empty. *)
Context (Hbase : forall q, q ∈ prefixes t -> exists md, base !! q = Some (FDir md)).
Context (Hempty : forall r, r <> [] -> base !! (t ++ r) = None).

Lemma replayed_lookup l q : NoDup l.*1 -> replayed t l base !! q =
  match strip t q with
  | Some r => match image l !! r with Some n => Some n | None => base !! q end
  | None => base !! q end.
Proof. intros _. apply lookup_graft. Qed.

Lemma walk_image_none l r : NoDup l.*1 -> r ∉ l.*1 -> image l !! r = None.
Proof.
  intros Hd Hr. destruct (image l !! r) as [n|] eqn:E; [|done].
  apply image_lookup in E as (n0 & Hin & _); [|done]. destruct Hr.
  apply list_elem_of_fmap. by exists (r, n0).
Qed.

(** One more entry in the staging directory. *)
Lemma replayed_snoc l1 r n : NoDup (l1 ++ [(r, n)]).*1 -> r <> [] -> excluded (rel_path r) = false ->
  replayed t (l1 ++ [(r, n)]) base = <[t ++ r := masked n]> (replayed t l1 base).
Proof.
  intros Hd1 Hr Ex. assert (NoDup l1.*1) as Hdl by (rewrite fmap_app in Hd1; by apply NoDup_app in Hd1 as [? _]).
  apply map_eq. intros q. rewrite replayed_lookup by done.
  destruct (decide (t ++ r = q)) as [<-|Hq].
  - rewrite lookup_insert_eq, strip_app.
    rewrite (proj2 (image_lookup (l1 ++ [(r, n)]) _ (masked n) Hd1)); [done|].
    exists n. split_and!; [|done..]. apply elem_of_app. right. by left.
  - rewrite lookup_insert_ne, replayed_lookup by done.
    destruct (strip t q) as [r0|] eqn:Eq; [|done]. apply strip_spec in Eq as ->.
    assert (image (l1 ++ [(r, n)]) !! r0 = image l1 !! r0) as ->; [|done].
    apply option_eq. intros n0. rewrite !image_lookup by done. split.
    + intros (n1 & [Hin|Hin]%elem_of_app & ?); [eauto|].
      apply list_elem_of_singleton in Hin. injection Hin as -> _. done.
    + intros (n1 & Hin & ?). exists n1. split; [|done]. apply elem_of_app. by left.
Qed.

(** The directories above an entry are there when it is replayed. *)
Lemma replayed_parents l1 p c n l2 q :
  walk source m = l1 ++ (p ++ [c], n) :: l2 -> NoDup l1.*1 -> excluded (rel_path (p ++ [c])) = false ->
  q ∈ prefixes (t ++ p) -> exists md, replayed t l1 base !! q = Some (FDir md).
Proof.
  intros E Hdl Ex Hq. assert (subtree source m !! (p ++ [c]) = Some n) as Hn.
  { rewrite lookup_subtree. apply (elem_of_walk source m (p ++ [c]) n). rewrite E. apply elem_of_app. right. by left. }
  rewrite replayed_lookup by done. apply prefixes_below in Hq as [Hq|(p' & r' & -> & Hp' & ->)].
  - destruct (Hbase q Hq) as [md Hmd]. apply elem_of_prefixes in Hq as (_ & x & Ext).
    destruct (strip t q) as [r0|] eqn:Es; [|eauto]. apply strip_spec in Es as ->.
    assert (r0 = []) as ->.
    { apply (f_equal length) in Ext. rewrite !length_app in Ext. destruct r0; [done|cbn in Ext; lia]. }
    rewrite walk_image_none; [eauto|done|]. intros Hin.
    apply list_elem_of_fmap in Hin as ([r1 n1] & Heq & Hin). cbn in Heq. subst r1.
    assert (([], n1) ∈ walk source m) as Hw by (rewrite E; apply elem_of_app; by left).
    apply elem_of_walk in Hw as [? _]. done.
  - rewrite strip_app. rewrite <- app_assoc in Hn, Ex, E.
    destruct (pt_parent _ Hplain p' (r' ++ [c]) n Hn Hp') as [md Hmd]; [by destruct r'|].
    assert ((p', FDir md) ∈ l1) as Hin.
    { eapply walk_parent_before; [exact E| |apply under_app|].
      - intros Eq. apply (f_equal length) in Eq. rewrite !length_app in Eq. cbn in Eq. lia.
      - apply elem_of_walk. split; [done|]. by rewrite <- lookup_subtree. }
    rewrite (proj2 (image_lookup l1 p' (FDir (created_mode md)) Hdl)); [eauto|].
    exists (FDir md). split_and!; [done| |done].
    eapply (excluded_parent (subtree source m)); [done|exact Hn|done|by destruct r'|done].
Qed.

Lemma replay_walk l2 : forall l1, walk source m = l1 ++ l2 ->
  restore_entries umask (abs_path t) (omap entry_of l2) (Fs (replayed t l1 base) [])
  = (Ok tt, Fs (replayed t (walk source m) base) []).
Proof.
  induction l2 as [|[r n] l2 IH]; intros l1 E.
  { cbn. rewrite app_nil_r in E. by rewrite E. }
  assert (walk source m = (l1 ++ [(r, n)]) ++ l2) as E' by by rewrite <- app_assoc.
  assert (NoDup (l1 ++ [(r, n)]).*1) as Hd1.
  { pose proof (walk_NoDup source m) as Hd. rewrite E', fmap_app in Hd. by apply NoDup_app in Hd as [? _]. }
  assert (NoDup l1.*1 /\ r ∉ l1.*1) as [Hdl Hrl].
  { rewrite fmap_app in Hd1. apply NoDup_app in Hd1 as (H1 & H2 & _). split; [done|].
    intros Hin. apply (H2 r Hin). cbn. by left. }
  assert (r <> [] /\ subtree source m !! r = Some n) as [Hr Hn].
  { rewrite lookup_subtree. apply elem_of_walk. rewrite E. apply elem_of_app. right. by left. }
  specialize (IH _ E'). cbn [omap list_omap]. unfold entry_of at 1.
  destruct (excluded (rel_path r)) eqn:Ex.
  - assert (replayed t (l1 ++ [(r, n)]) base = replayed t l1 base) as Es; [|by rewrite <- Es].
    unfold replayed. f_equal. unfold image. rewrite omap_app. cbn. by rewrite Ex, app_nil_r.
  - cbn [restore_entries]. assert (exists p c, r = p ++ [c]) as (p & c & ->).
    { destruct r as [|c p _] using rev_ind; [done|eauto]. }
    erewrite M_bind_ok; [exact IH|]. rewrite (restore_entry_new t p c n).
    + do 2 f_equal. symmetry. by apply replayed_snoc.
    + done.
    + done.
    + by apply (pt_normal _ Hplain _ n).
    + by eapply pt_kind.
    + intros q Hq. by eapply replayed_parents.
    + rewrite replayed_lookup, strip_app, walk_image_none by done. by apply Hempty.
Qed.
End Replay.
End ReplayLemmas.

(** ** Containment *)

(** An accepted entry goes strictly below the directory, whatever its name. *)
Lemma restore_target_below t name :
  Forall normal t -> t <> [] ->
  HasPrefix (PathJoin [abs_path t; Clean name]) (abs_path t +:+ "/") = true ->
  exists p c, Forall normal (t ++ p ++ [c]) /\ PathJoin [abs_path t; Clean name] = abs_path (t ++ p ++ [c]).
Proof.
  intros Ht Htn H. rewrite PathJoin_abs in *. set (q := path_of _) in *.
  assert (Forall normal q) as Hq by apply path_of_normal.
  apply HasPrefix_abs_path in H as (r & Hr & Hqr); [|done..].
  destruct r as [|c p _] using rev_ind; [done|]. exists p, c. by rewrite <- Hqr.
Qed.

Lemma restore_entry_keeps umask t e q :
  Forall normal t -> t <> [] -> under t q = false -> q ∉ prefixes t ->
  keeps q (restore_entry umask (abs_path t) e).
Proof.
  intros Ht Htn Hu Hq. unfold restore_entry. case_match; [apply keeps_throw|].
  case_match eqn:Eh; [apply keeps_throw|]. apply negb_false_iff in Eh.
  destruct (restore_target_below t _ Ht Htn Eh) as (p & c & Hn & ->).
  assert (forall p', q ∉ prefixes (t ++ p')) as Hpre.
  { intros p' [Hq'|(p1 & r & _ & _ & ->)]%prefixes_below; [done|]. by rewrite under_app in Hu. }
  assert (t ++ p ++ [c] <> q) as Hne by (intros <-; by rewrite under_app in Hu).
  rewrite path_of_abs_path by done.
  destruct (h_Typeflag _); try apply keeps_throw.
  - by apply keeps_MkdirAll_other.
  - rewrite app_assoc in *. apply Forall_app in Hn as [Htp [Hc _]%Forall_cons].
    rewrite Dir_abs_path, path_of_abs_path by done.
    apply keeps_bind; [by apply keeps_MkdirAll_other|]. intros _.
    apply keeps_bind; [by apply keeps_OpenTrunc|]. intros _. apply keeps_then_close.
    apply keeps_bind; [by apply keeps_WriteFile|]. intros _. destruct (en_end e); [apply keeps_throw|apply keeps_ret].
Qed.

Lemma restore_entries_keeps umask t l q :
  Forall normal t -> t <> [] -> under t q = false -> q ∉ prefixes t ->
  keeps q (restore_entries umask (abs_path t) l).
Proof.
  intros Ht Htn Hu Hq. induction l as [|e l IH]; [apply keeps_ret|].
  apply keeps_bind; [by apply restore_entry_keeps|]. by intros _.
Qed.
