(* ===== verification/Launcher.v ===== *)
(** * The launcher ([internal/runtime/launcher.go])

    What happens before the Minecraft server runs: the [current] link, the clean-ups of
    the instance directory, and the environment of the child.  Ownership is not part of
    the file-system model: what [Stat] says of an owner is an argument, and the calls that
    change owners can fail and change nothing here; [Owner.v] has the owners. *)
From Stdlib Require Import String Ascii.
From stdpp Require Import sorting.
From S2P Require Import Prelude GoStrings JsonText Filepath Fs Archive Config Lock.

(** ** The environment *)

(** The name of an entry: what is before the first ["="]. *)
Definition env_name (entry : string) : string :=
  match CutByte (chr 61) entry with Some (name, _) => name | None => entry end.
Definition env_value (entry : string) : string :=
  match CutByte (chr 61) entry with Some (_, value) => value | None => "" end.
(** [os.Getenv]; Go's copy of the environment has each name once. *)
Definition Getenv (env : list string) (name : string) : string :=
  match List.find (fun e => bool_decide (env_name e = name)) env with Some e => env_value e | None => "" end.

Definition blocked : list string :=
  ["AWS_ACCESS_KEY_ID"; "AWS_SECRET_ACCESS_KEY"; "AWS_SESSION_TOKEN"; "FLY_API_TOKEN"; "FLY_TOKEN"; "HOME";
   "HOSTPACK_FLY_API_TOKEN"; "PWD"].
Definition withheld (name : string) : bool :=
  bool_decide (name ∈ blocked) || HasPrefix name "RCLONE_CONFIG_".
Definition childEnvironment (parent : list string) : list string :=
  List.filter (fun entry => negb (withheld (env_name entry))) parent.

(** [strconv.ParseUint(value, 10, 32)] behind the default. *)
Definition childID (env : list string) (name : string) (fallback : Z) : result Z :=
  let value := Getenv env name in
  let value := if bool_decide (value = "") then Itoa fallback else value in
  if is_digits value && (decimal 0 value <? 2 ^ 32) then Ok (decimal 0 value)
  else Err (Wrapf (name +:+ " must be a numeric user or group ID") (Errorf "invalid syntax or value out of range")).

(** What [exec.Cmd] starts. *)
Record command := mkCommand {
  cmd_Path : string; cmd_Dir : string; cmd_Env : list string; cmd_Uid : Z; cmd_Gid : Z }.

(** [ItzgLauncher]; [DataLink] and the logger are not used. *)
Record ItzgLauncher := mkLauncher { StateRoot : path; StartCommand : string; RCONPassword : string }.

(** The entries that [Start] appends, given the daemon's own [PATH]. *)
Definition own_env (l : ItzgLauncher) (PATH instance home : string) (p : Pack) (lp : LockedPack) : list string :=
  ["HOME=" +:+ home; "HOSTPACK_MINECRAFT_HOME=" +:+ home; "PWD=" +:+ instance; "EULA=TRUE";
      "SERVER_IP=127.0.0.1"; "SERVER_PORT=25566"; "ENABLE_STATUS=TRUE"; "ONLINE_MODE=TRUE"; "ENABLE_RCON=TRUE";
      "RCON_PORT=25575"; "RCON_PASSWORD=" +:+ RCONPassword l; "MEMORY=" +:+ Itoa (MemoryMB p) +:+ "M";
      "SKIP_CHOWN_DATA=TRUE"]
  ++ (if Java p =? 17
      then ["PATH=/opt/java17/bin:" +:+ PATH; "JAVA_HOME=/opt/java17"]
      else ["PATH=/opt/java21/bin:" +:+ PATH; "JAVA_HOME=/opt/java21"])
  ++ (if bool_decide (Provider p = "modrinth")
      then ["TYPE=MODRINTH"; "MODRINTH_MODPACK=" +:+ ProjectID p; "MODRINTH_VERSION=" +:+ VersionID p]
           ++ (if bool_decide (ModrinthExcludeFiles p = []) then []
               else ["MODRINTH_EXCLUDE_FILES=" +:+ Join (ModrinthExcludeFiles p) ","])
      else ["TYPE=AUTO_CURSEFORGE"; "CF_SLUG=" +:+ Slug lp; "CF_FILE_ID=" +:+ Itoa (FileID p)]).
Definition launch_env (l : ItzgLauncher) (environ : list string) (instance home : string) (p : Pack) (lp : LockedPack)
    : list string :=
  childEnvironment environ ++ own_env l (Getenv environ "PATH") instance home p lp.

(** ** The instance directory *)

Definition Symlink (target : string) (p : path) : M fs unit := simple (fun s =>
  match lookup_node p s with Some _ => (Err ErrExist, s) | None => put_node p (FLink target) s end).
(** [os.ReadDir]: the names in order. *)
Definition children (p : path) (m : gmap path node) : list string :=
  SortStrings (omap (fun q => match strip p q with Some [c] => Some c | _ => None end) (map fst (map_to_list m))).
Definition ReadDir (p : path) : M fs (list string) := simple (fun s =>
  match lookup_node p s with
  | Some (FDir _) => (Ok (children p (nodes s)), s)
  | Some _ => (Err ErrNotDir, s)
  | None => (Err ErrNotExist, s)
  end).
(** [Chown] and [Lchown]. *)
Definition Chown (p : path) : M fs unit := simple (mret tt).
(** The walk: each path is changed, and a directory is read behind that. *)
Fixpoint chown_walk (root : path) (l : list (path * node)) : M fs unit :=
  match l with
  | [] => mret tt
  | (r, n) :: l' =>
      Chown (root ++ r);;
      (if is_dir n then simple (mret tt) else mret tt);;
      chown_walk root l'
  end.
(** [owned]: the root belongs to the child's user and group. *)
Definition ensureTreeOwner (owned : bool) (root : path) : M fs unit :=
  n ← Stat root;
  if owned then mret tt
  else
    r ← attempt (s ← get_state; chown_walk root (([], n) :: walk root (nodes s)));
    lift_result (wrap_err "set Minecraft instance ownership" r).

Definition wrap_call {A} (prefix : string) (m : M fs A) : M fs A :=
  r ← attempt m; lift_result (wrap_err prefix r).
Section Launcher.
Context {GU : GoUnicode}.

(** Remove a file that may be missing. *)
Definition remove_if_there (prefix : string) (p : path) : M fs unit :=
  r ← attempt (Remove p);
  match r with
  | Err e => if bool_decide (e = ErrNotExist) then mret tt else throw (Wrapf prefix e)
  | Ok _ => mret tt
  end.

Definition results_file : string := ".install-modrinth.env".
(** The loop over the lines: the first [SERVER] line is repaired when it names another
    [run.sh] and [run] says that the instance has one. *)
Definition server_value (line : string) : string :=
  Trim (TrimPrefix line "SERVER=") (dquote +:+ "'").
Definition repaired_line : string := "SERVER=" +:+ dquote +:+ "run.sh" +:+ dquote.
Fixpoint repair_lines (run : bool) (lines : list string) : list string * bool :=
  match lines with
  | [] => ([], false)
  | line :: rest =>
      if negb (HasPrefix line "SERVER=") then let '(l, b) := repair_lines run rest in (line :: l, b)
      else
        let value := server_value line in
        if negb (bool_decide (value = "run.sh")) && bool_decide (Base value = "run.sh") && run
        then (repaired_line :: rest, true) else (lines, false)
  end.

Definition repairModrinthServerPath (instance : path) : M fs unit :=
  let p := instance ++ [results_file] in
  data ← attempt (ReadFile p);
  match data with
  | Err e => if bool_decide (e = ErrNotExist) then mret tt else throw (Wrapf "read Modrinth installer results" e)
  | Ok data =>
      let lines := SplitByte (chr 10) (string_of_bytes data) in
      let candidate := snd (repair_lines true lines) in
      run ← (if candidate then attempt (Stat (instance ++ ["run.sh"])) else mret (Err ErrNotExist));
      let '(lines, changed) := repair_lines (is_ok run) lines in
      if negb changed then mret tt
      else
        tmp ← wrap_call "repair Modrinth installer results" (CreateTemp instance ".install-modrinth-repair-");
        deferred (Remove tmp)
          (wrap_call "repair Modrinth installer results"
             (then_close tmp (WriteFile tmp (bytes_of_string (Join lines newline));; SyncFile tmp;;
                              Chmod 416 tmp;; Chown tmp));;
           wrap_call "replace Modrinth installer results" (Rename tmp p))
  end.

Fixpoint remove_matching (mods : path) (patterns names : list string) : M fs unit :=
  match names with
  | [] => mret tt
  | name :: rest =>
      wrap_call ("inspect Modrinth mod " +:+ Quote name) (simple (mret tt));;
      s ← get_state;
      let regular := match nodes s !! (mods ++ [name]) with Some n => is_regular n | None => false end in
      (if regular && existsb (Contains name) patterns
       then wrap_call ("remove excluded Modrinth file " +:+ Quote name) (Remove (mods ++ [name])) else mret tt);;
      remove_matching mods patterns rest
  end.
Definition removeModrinthExcludedFiles (instance : path) (patterns : list string) : M fs unit :=
  if bool_decide (patterns = []) then mret tt
  else
    let mods := instance ++ ["mods"] in
    names ← attempt (ReadDir mods);
    match names with
    | Err e => if bool_decide (e = ErrNotExist) then mret tt else throw (Wrapf "read Modrinth mods directory" e)
    | Ok names => remove_matching mods patterns names
    end.

Definition credential_files : list string := [".rcon-cli.env"; ".rcon-cli.yaml"].
Fixpoint remove_all (instance : path) (names : list string) : M fs unit :=
  match names with
  | [] => mret tt
  | name :: rest =>
      remove_if_there ("remove runtime credential file " +:+ Quote name) (instance ++ [name]);;
      remove_all instance rest
  end.
Definition removeRuntimeCredentialFiles (instance : path) : M fs unit := remove_all instance credential_files.

(** ** The start *)

Definition instance_dir (l : ItzgLauncher) (id : string) : path := StateRoot l ++ ["instances"; id; "server"].
Definition runtime_dir (l : ItzgLauncher) : path := StateRoot l ++ ["runtime"].
Definition home_dir (l : ItzgLauncher) : path := StateRoot l ++ ["runtime"; "tmp"; "minecraft-home"].

(** The parts of [Start]: the instance directory and the [current] link; the clean-ups;
    the child's home. *)
Definition link_current (l : ItzgLauncher) (instance : path) : M fs unit :=
  MkdirAll 488 instance;;
  MkdirAll 488 (runtime_dir l);;
  let tmp := runtime_dir l ++ ["current.new"] in
  _ ← attempt (Remove tmp);
  Symlink (abs_path instance) tmp;;
  Rename tmp (runtime_dir l ++ ["current"]).
Definition prepare_instance (owned : path -> bool) (instance : path) (p : Pack) : M fs unit :=
  ensureTreeOwner (owned (parent instance)) (parent instance);;
  ensureTreeOwner (owned instance) instance;;
  (if bool_decide (Provider p = "modrinth")
   then repairModrinthServerPath instance;; removeModrinthExcludedFiles instance (ModrinthExcludeFiles p)
   else mret tt);;
  removeRuntimeCredentialFiles instance.
Definition prepare_home (home : path) : M fs unit :=
  wrap_call "create Minecraft runtime home" (MkdirAll 448 home);;
  wrap_call "set Minecraft runtime home ownership" (Chown home);;
  wrap_call "set Minecraft runtime home permissions" (Chmod 448 home).

(** [Start], up to the process: the command the kernel is asked to run. *)
Definition Start (owned : path -> bool) (l : ItzgLauncher) (environ : list string) (id : string) (p : Pack) (lp : LockedPack) : M fs command :=
  let instance := instance_dir l id in
  link_current l instance;;
  uid ← lift_result (childID environ "HOSTPACK_MINECRAFT_UID" 1000);
  gid ← lift_result (childID environ "HOSTPACK_MINECRAFT_GID" 1000);
  prepare_instance owned instance p;;
  let home := home_dir l in
  prepare_home home;;
  let start := if bool_decide (StartCommand l = "") then "/start" else StartCommand l in
  let env := launch_env l environ (abs_path instance) (abs_path home) p lp in
  wrap_call "start minecraft" (simple (mret tt));;
  mret (mkCommand start (abs_path instance) env uid gid).

(** ** Lemmas on the environment *)

(** The value a child finds: [os/exec] keeps the last entry of a name. *)
Definition effective (env : list string) (name : string) : option string :=
  env_value <$> last (List.filter (fun e => bool_decide (env_name e = name)) env).

Lemma effective_app env own name :
  effective (env ++ own) name = match effective own name with Some v => Some v | None => effective env name end.
Proof.
  unfold effective. rewrite List.filter_app, last_app.
  by destruct (last (List.filter _ own)).
Qed.

Lemma effective_none env name :
  Forall (fun e => env_name e <> name) env -> effective env name = None.
Proof.
  unfold effective. induction 1 as [|e env He _ IH]; [done|]. cbn. by rewrite bool_decide_eq_false_2.
Qed.

Lemma childEnvironment_names parent name :
  withheld name = true -> Forall (fun e => env_name e <> name) (childEnvironment parent).
Proof.
  intros Hw. apply Forall_forall. intros e He%list_elem_of_In%filter_In. destruct He as [_ He].
  intros <-. by rewrite Hw in He.
Qed.

(** Whatever the values, the appended names are among these. *)
Definition own_names : list string :=
  ["HOME"; "HOSTPACK_MINECRAFT_HOME"; "PWD"; "EULA"; "SERVER_IP"; "SERVER_PORT"; "ENABLE_STATUS"; "ONLINE_MODE";
   "ENABLE_RCON"; "RCON_PORT"; "RCON_PASSWORD"; "MEMORY"; "SKIP_CHOWN_DATA"; "PATH"; "JAVA_HOME"; "TYPE";
   "MODRINTH_MODPACK"; "MODRINTH_VERSION"; "MODRINTH_EXCLUDE_FILES"; "CF_SLUG"; "CF_FILE_ID"].

Lemma own_env_names l PATH instance home p lp e : e ∈ own_env l PATH instance home p lp -> env_name e ∈ own_names.
Proof.
  unfold own_env. destruct (Java p =? 17), (bool_decide (Provider p = "modrinth")),
    (bool_decide (ModrinthExcludeFiles p = [])); cbn [app]; intros Hin;
    repeat (apply elem_of_cons in Hin as [->|Hin]; [by vm_compute; repeat constructor|]); by apply elem_of_nil in Hin.
Qed.

Lemma effective_own l PATH instance home p lp name :
  name ∉ own_names -> effective (own_env l PATH instance home p lp) name = None.
Proof. intros Hn. apply effective_none, Forall_forall. intros e He <-. by eapply Hn, own_env_names. Qed.

Lemma effective_kept environ name : withheld name = false -> effective (childEnvironment environ) name = effective environ name.
Proof.
  intros Hw. unfold effective, childEnvironment. do 2 f_equal.
  induction environ as [|e es IH]; [done|]. cbn. destruct (bool_decide (env_name e = name)) eqn:E.
  - apply bool_decide_eq_true in E as E'. rewrite E', Hw. cbn. by rewrite E, IH.
  - destruct (negb (withheld (env_name e))); cbn; [by rewrite E|done].
Qed.

(** ** Lemmas on the file system *)

Lemma keeps_read {A} q (m : M fs A) : (forall s, snd (m s) = s) -> keeps q (simple m).
Proof. intros Hm. apply keeps_simple. intros s. by rewrite Hm. Qed.

Lemma keeps_Stat q p : keeps q (Stat p).
Proof. apply keeps_read. intros s. by destruct (lookup_node p s). Qed.
Lemma keeps_ReadFile q p : keeps q (ReadFile p).
Proof. apply keeps_read. intros s. by destruct (lookup_node p s) as [[]|]. Qed.
Lemma keeps_ReadDir q p : keeps q (ReadDir p).
Proof. apply keeps_read. intros s. by destruct (lookup_node p s) as [[]|]. Qed.
Lemma keeps_Chown q p : keeps q (Chown p).
Proof. by apply keeps_read. Qed.
Lemma keeps_Symlink q t p : p <> q -> keeps q (Symlink t p).
Proof.
  intros Hne. apply keeps_simple. intros s. destruct (lookup_node p s); [done|].
  unfold put_node. destruct (lookup_node (parent p) s) as [[]|]; try done. cbn. by rewrite lookup_insert_ne.
Qed.
Lemma keeps_wrap {A} q prefix (m : M fs A) : keeps q m -> keeps q (wrap_call prefix m).
Proof. intros Hm. apply keeps_bind; [by apply keeps_attempt|]. intros r. apply keeps_lift. Qed.
Lemma keeps_bind_ok {A B} q (m : M fs A) (f : A -> M fs B) :
  keeps q m -> (forall s a s', m s = (Ok a, s') -> keeps q (f a)) -> keeps q (m ≫= f).
Proof.
  intros Hm Hf s. unfold mbind, M_bind. specialize (Hm s). destruct (m s) as [[a|e] s1] eqn:E; [|done].
  by rewrite (Hf s a s1 E).
Qed.
Lemma keeps_remove_if_there q prefix p : p <> q -> keeps q (remove_if_there prefix p).
Proof.
  intros Hne. apply keeps_bind; [by apply keeps_attempt, keeps_Remove|]. intros [u|e]; [done|].
  by case_bool_decide.
Qed.
Lemma keeps_chown_walk q root l : keeps q (chown_walk root l).
Proof.
  induction l as [|[r n] l IH]; [done|]. cbn [chown_walk]. apply keeps_bind; [apply keeps_Chown|]. intros _.
  apply keeps_bind; [destruct (is_dir n); [by apply keeps_read|done]|]. intros _. exact IH.
Qed.
Lemma keeps_ensureTreeOwner q b p : keeps q (ensureTreeOwner b p).
Proof.
  apply keeps_bind; [apply keeps_Stat|]. intros n. destruct b; [done|].
  apply keeps_bind; [apply keeps_attempt, keeps_bind; [done|intros s; apply keeps_chown_walk]|].
  intros r. apply keeps_lift.
Qed.

Lemma keeps_CreateTemp_other q d prefix :
  (forall n, q = d ++ [n] -> HasPrefix n prefix = false) -> keeps q (CreateTemp d prefix).
Proof.
  intros Hn. apply keeps_simple. intros s. unfold put_node.
  destruct (lookup_node (parent _) s) as [[]|]; try done. cbn. rewrite lookup_insert_ne; [done|].
  intros <-. unfold temp_name in Hn. specialize (Hn _ eq_refl).
  assert (HasPrefix (prefix +:+ string_repeat "0" (S (longest (nodes s)))) prefix = true); [|congruence].
  apply HasPrefix_spec. by eexists.
Qed.

(** What the clean-ups of an instance leave alone. *)
Definition repaired (c : string) : Prop := c = results_file \/ HasPrefix c ".install-modrinth-repair-" = true.
Record untouched (d : path) (patterns : list string) (q : path) : Prop := {
  un_repair c : repaired c -> under (d ++ [c]) q = false;
  un_credentials c : c ∈ credential_files -> d ++ [c] <> q;
  un_mods n : q = d ++ ["mods"; n] -> existsb (Contains n) patterns = false }.

Lemma under_ne p q : under p q = false -> p <> q.
Proof. intros H ->. rewrite not_under in H. apply (H []). by rewrite app_nil_r. Qed.

(** A path below the instance, by what is behind it. *)
Definition spared (patterns : list string) (r : path) : Prop :=
  match r with
  | [] => False
  | c :: r' =>
      ~ repaired c /\ (c ∈ credential_files -> r' <> [])
      /\ (c = "mods" -> forall n, r' = [n] -> existsb (Contains n) patterns = false)
  end.

Lemma spared_untouched d patterns r : spared patterns r -> untouched d patterns (d ++ r).
Proof.
  destruct r as [|c r]; [done|]. intros (Hr & Hc & Hm). split.
  - intros x Hx. apply not_under. intros t E. rewrite <- app_assoc in E. apply app_inv_head in E.
    by injection E as -> _.
  - intros x Hx E. apply app_inv_head in E. injection E as <- <-. by apply Hc.
  - intros n E. apply app_inv_head in E. injection E as -> ->. by apply Hm.
Qed.

Lemma outside_untouched d patterns q : under d q = false -> untouched d patterns q.
Proof.
  intros H. rewrite not_under in H. split.
  - intros c _. apply not_under. intros t ->. rewrite <- app_assoc in H. by apply (H ([c] ++ t)).
  - intros c _ <-. by apply (H [c]).
  - intros n ->. by destruct (H ["mods"; n]).
Qed.

Lemma keeps_repair q d patterns : untouched d patterns q -> keeps q (repairModrinthServerPath d).
Proof.
  intros [Hr _ _]. unfold repairModrinthServerPath. apply keeps_bind; [apply keeps_attempt, keeps_ReadFile|].
  intros [data|e]; [|by case_bool_decide].
  apply keeps_bind.
  { destruct (snd (repair_lines true _)); [apply keeps_attempt, keeps_Stat|done]. }
  intros run. destruct (repair_lines (is_ok run) _) as [lines changed]. destruct (negb changed); [done|].
  apply keeps_bind_ok.
  - apply keeps_wrap, keeps_CreateTemp_other. intros n ->. destruct (HasPrefix n _) eqn:E; [|done].
    exfalso. apply (under_ne _ _ (Hr n (or_intror E))). done.
  - intros s t s' Ht. assert (t = temp_name d ".install-modrinth-repair-" s) as ->.
    { unfold wrap_call in Ht. unbind Ht as x s1 E. destruct x as [x|]; [|done]. injection Ht as <- _.
      unfold attempt in E. destruct (CreateTemp _ _ s) as [y s2] eqn:Ec. injection E as -> _.
      by apply CreateTemp_ok in Ec as [-> _]. }
    unfold temp_name. set (t := _ +:+ _).
    assert (under (d ++ [t]) q = false) as Ht'.
    { apply Hr. right. apply HasPrefix_spec. by eexists. }
    pose proof (under_ne _ _ Ht') as Hp. pose proof (Hr results_file (or_introl eq_refl)) as Hres.
    apply keeps_deferred; [by apply keeps_Remove|]. apply keeps_bind.
    + apply keeps_wrap, keeps_then_close. repeat (apply keeps_bind; [|intros _]);
        [by apply keeps_WriteFile|apply keeps_Sync|by apply keeps_Chmod|apply keeps_Chown].
    + intros _. by apply keeps_wrap, keeps_Rename.
Qed.

Lemma keeps_remove_matching q mods patterns names :
  (forall n, q = mods ++ [n] -> existsb (Contains n) patterns = false) -> keeps q (remove_matching mods patterns names).
Proof.
  intros Hq. induction names as [|name names IH]; [done|]. cbn [remove_matching].
  apply keeps_bind; [by apply keeps_wrap, keeps_read|]. intros _.
  apply keeps_bind; [done|]. intros s. apply keeps_bind; [|intros _; apply IH].
  destruct (_ && _) eqn:E; [|done]. apply keeps_wrap, keeps_Remove. intros <-.
  apply andb_true_iff in E as [_ E]. by rewrite (Hq name) in E.
Qed.

Lemma keeps_removeExcluded q d patterns :
  (forall n, q = d ++ ["mods"; n] -> existsb (Contains n) patterns = false) ->
  keeps q (removeModrinthExcludedFiles d patterns).
Proof.
  intros Hq. unfold removeModrinthExcludedFiles. case_bool_decide; [done|].
  apply keeps_bind; [apply keeps_attempt, keeps_ReadDir|]. intros [names|e]; [|by case_bool_decide].
  apply keeps_remove_matching. intros n ->. rewrite <- app_assoc in Hq. by apply Hq.
Qed.

Lemma keeps_remove_all q d names : (forall n, n ∈ names -> d ++ [n] <> q) -> keeps q (remove_all d names).
Proof.
  intros Hq. induction names as [|n names IH]; [done|]. cbn [remove_all].
  apply keeps_bind; [apply keeps_remove_if_there, Hq; left|]. intros _. apply IH. intros m Hm. apply Hq. by right.
Qed.

(** *** Faults that are not the absence of a file *)

Lemma real_wrap {A} prefix (m : M fs A) : stays_real m -> stays_real (wrap_call prefix m).
Proof. intros Hm. apply real_bind; [by apply real_attempt|]. intros r. apply real_lift. Qed.
Lemma real_ReadDir p : stays_real (ReadDir p).
Proof. apply real_simple. intros s. by destruct (lookup_node p s) as [[]|]. Qed.
Lemma real_Chown p : stays_real (Chown p).
Proof. by apply real_simple. Qed.
Lemma real_Symlink t p : stays_real (Symlink t p).
Proof. apply real_simple. intros s. destruct (lookup_node p s); [done|apply put_node_faults]. Qed.
#[local] Hint Resolve real_ReadDir real_Chown real_Symlink real_wrap : real.

Lemma real_chown_walk root l : stays_real (chown_walk root l).
Proof.
  induction l as [|[r n] l IH]; [apply real_ret|]. cbn [chown_walk]. apply real_bind; [auto with real|]. intros _.
  apply real_bind; [destruct (is_dir n); [by apply real_simple|auto with real]|]. intros _. exact IH.
Qed.
Lemma real_ensureTreeOwner b p : stays_real (ensureTreeOwner b p).
Proof.
  apply real_bind; [auto with real|]. intros n. destruct b; [auto with real|].
  apply real_bind; [|auto with real]. apply real_attempt, real_bind; [intros s Hs; exact Hs|].
  intros s. apply real_chown_walk.
Qed.
Lemma real_repair d : stays_real (repairModrinthServerPath d).
Proof.
  apply real_bind; [auto with real|]. intros [data|e]; [|case_bool_decide; auto with real].
  apply real_bind; [destruct (snd (repair_lines true _)); auto with real|].
  intros run. destruct (repair_lines (is_ok run) _) as [lines changed]. destruct (negb changed); [auto with real|].
  apply real_bind; [auto with real|]. intros t. apply real_deferred; [auto with real|].
  apply real_bind; [|auto with real]. apply real_wrap, real_then_close.
  repeat (apply real_bind; [|intros _]); auto with real.
Qed.

Lemma real_removeExcluded d patterns : stays_real (removeModrinthExcludedFiles d patterns).
Proof.
  unfold removeModrinthExcludedFiles. case_bool_decide; [auto with real|].
  apply real_bind; [auto with real|]. intros [names|e]; [|case_bool_decide; auto with real].
  induction names as [|n names IH]; [apply real_ret|]. cbn [remove_matching].
  apply real_bind; [by apply real_wrap, real_simple|]. intros _.
  apply real_bind; [intros t Ht; exact Ht|]. intros t. apply real_bind; [|intros _; exact IH].
  destruct (_ && _); auto with real.
Qed.

(** ** The clean-ups, when they succeed *)

Lemma Remove_ok p s s' : Remove p s = (Ok tt, s') -> nodes s' !! p = None.
Proof.
  intros [l H]%simple_ok. cbn [nodes] in H.
  destruct (nodes s !! p) as [[]|]; [case_bool_decide; [|done]|..]; try done; injection H as <-; apply lookup_delete_eq.
Qed.

Lemma remove_if_there_ok prefix p s s' :
  real_faults s -> remove_if_there prefix p s = (Ok tt, s') -> nodes s' !! p = None.
Proof.
  intros Hs H. unfold remove_if_there in H. unbind H as r s1 E. unfold attempt in E.
  destruct (Remove p s) as [x s2] eqn:Er. injection E as -> ->.
  destruct r as [[]|e]; [injection H as <-; by eapply Remove_ok|].
  case_bool_decide as En; [|done]. subst e. injection H as <-.
  unfold Remove, simple, call, real_faults in *. destruct s as [m [|[f|] l]]; cbn [fs_faults nodes] in *.
  - destruct (m !! p) as [[]|] eqn:Em; [case_bool_decide; done|done..|]. by injection Er as <-.
  - apply Forall_cons in Hs as [Hf _]. injection Er as Er _. by rewrite Er in Hf.
  - destruct (m !! p) as [[]|] eqn:Em; [case_bool_decide; done|done..|]. by injection Er as <-.
Qed.

Lemma real_remove_if_there prefix p : stays_real (remove_if_there prefix p).
Proof. apply real_bind; [auto with real|]. intros [u|e]; [|case_bool_decide]; auto with real. Qed.

Lemma remove_all_ok d names : forall s s', real_faults s -> remove_all d names s = (Ok tt, s') ->
  forall n, n ∈ names -> nodes s' !! (d ++ [n]) = None.
Proof.
  induction names as [|m names IH]; intros s s' Hs H n Hn; [by apply elem_of_nil in Hn|].
  cbn [remove_all] in H. unbind H as u s1 E. destruct u.
  pose proof (real_remove_if_there ("remove runtime credential file " +:+ Quote m) (d ++ [m]) s Hs) as Hs1. rewrite E in Hs1. cbn in Hs1.
  destruct (decide (n ∈ names)) as [Hin|Hin]; [by eapply IH|].
  apply elem_of_cons in Hn as [->|Hn]; [|done]. apply remove_if_there_ok in E; [|done].
  pose proof (keeps_remove_all (d ++ [m]) d names) as K. specialize (K ltac:(intros x Hx Ex; apply app_inv_head in Ex; congruence) s1).
  rewrite H in K. cbn in K. congruence.
Qed.

Lemma wrap_call_ok {A} prefix (m : M fs A) s a s' : wrap_call prefix m s = (Ok a, s') -> m s = (Ok a, s').
Proof.
  unfold wrap_call. intros H. unbind H as r s1 E. unfold attempt in E. destruct (m s) as [x s2].
  injection E as -> ->. destruct r; [|done]. by injection H as -> ->.
Qed.

Lemma remove_matching_ok mods patterns names : forall s s',
  remove_matching mods patterns names s = (Ok tt, s') ->
  forall n, n ∈ names -> existsb (Contains n) patterns = true ->
    match nodes s' !! (mods ++ [n]) with Some x => is_regular x = false | None => True end.
Proof.
  induction names as [|m names IH]; intros s s' H n Hn Hp; [by apply elem_of_nil in Hn|].
  cbn [remove_matching] in H. unbind H as u s1 E1. unbind H as s2 s3 E2. injection E2 as <- <-.
  unbind H as u4 s4 E4. destruct (decide (n ∈ names)) as [Hin|Hin]; [by eapply IH|].
  apply elem_of_cons in Hn as [->|Hn]; [|done].
  assert (nodes s' !! (mods ++ [m]) = nodes s4 !! (mods ++ [m])) as ->.
  { assert (forall l t t', m ∉ l -> remove_matching mods patterns l t = (Ok tt, t') ->
      nodes t' !! (mods ++ [m]) = nodes t !! (mods ++ [m])) as Hk; [|by apply (Hk names)].
    clear. induction l as [|x l IH]; intros t t' Hx H; [by injection H as <-|].
    apply not_elem_of_cons in Hx as [Hx Hl]. cbn [remove_matching] in H.
    unbind H as u t1 E1. unbind H as t2 t3 E2. injection E2 as <- <-. unbind H as u4 t4 E4.
    rewrite (IH t4 t' Hl H). apply wrap_call_ok in E1 as [fl E1]%simple_ok. injection E1 as _ <-. cbn [nodes] in *.
    destruct (_ && _); [|by injection E4 as _ <-]. apply wrap_call_ok in E4.
    pose proof (keeps_Remove (mods ++ [m]) (mods ++ [x]) ltac:(intros E%app_inv_head; congruence) (Fs (nodes t) fl)) as K.
    rewrite E4 in K. exact K. }
  rewrite Hp, andb_true_r in E4.
  destruct (nodes s1 !! (mods ++ [m])) as [x|] eqn:Ex; [|injection E4 as _ <-; by rewrite Ex].
  destruct (is_regular x) eqn:Er; [|injection E4 as _ <-; by rewrite Ex].
  apply wrap_call_ok in E4. destruct u4. apply Remove_ok in E4. by rewrite E4.
Qed.

Lemma elem_of_children p m n x : m !! (p ++ [n]) = Some x -> n ∈ children p m.
Proof.
  intros Hx. unfold children, SortStrings. rewrite merge_sort_Permutation.
  apply list_elem_of_omap. exists (p ++ [n]). rewrite strip_app. split; [|done].
  apply list_elem_of_fmap. exists (p ++ [n], x). split; [done|]. by apply elem_of_map_to_list.
Qed.

Lemma removeExcluded_ok d patterns s s' md :
  real_faults s -> nodes s !! (d ++ ["mods"]) = Some (FDir md) ->
  removeModrinthExcludedFiles d patterns s = (Ok tt, s') ->
  forall n m b, nodes s' !! (d ++ ["mods"; n]) = Some (FFile m b) -> existsb (Contains n) patterns = false.
Proof.
  intros Hs Hd H n m b Hn. unfold removeModrinthExcludedFiles in H.
  case_bool_decide as Hp; [by rewrite Hp|]. destruct (existsb (Contains n) patterns) eqn:E; [|done]. exfalso.
  unbind H as r s1 E1. unfold attempt in E1. destruct (ReadDir (d ++ ["mods"]) s) as [x s2] eqn:Er.
  injection E1 as -> ->. change (d ++ ["mods"; n]) with (d ++ ["mods"] ++ [n]) in Hn. rewrite app_assoc in Hn.
  destruct r as [names|e].
  - apply simple_ok in Er as [l Er]. unfold lookup_node in Er. cbn [nodes] in Er.
    rewrite bool_decide_eq_false_2, Hd in Er by (by destruct d). injection Er as <- <-.
    destruct (nodes s !! ((d ++ ["mods"]) ++ [n])) as [x|] eqn:Ex.
    + pose proof (remove_matching_ok _ _ _ _ _ H n (elem_of_children _ _ _ _ Ex) E) as Hm. by rewrite Hn in Hm.
    + assert (forall l t t', nodes t !! ((d ++ ["mods"]) ++ [n]) = None ->
        remove_matching (d ++ ["mods"]) patterns l t = (Ok tt, t') -> nodes t' !! ((d ++ ["mods"]) ++ [n]) = None) as Hk.
      { clear. induction l as [|x l IH]; intros t t' Hx H; [by injection H as <-|]. cbn [remove_matching] in H.
        unbind H as u t1 E1. unbind H as t2 t3 E2. injection E2 as <- <-. unbind H as u4 t4 E4.
        apply wrap_call_ok in E1 as [fl E1]%simple_ok. injection E1 as _ <-. cbn [nodes] in *.
        apply (IH t4 t'); [|done]. destruct (_ && _); [|by injection E4 as _ <-]. apply wrap_call_ok in E4.
        destruct (decide (x = n)) as [->|Hne]; [destruct u4; by apply Remove_ok in E4|].
        pose proof (keeps_Remove ((d ++ ["mods"]) ++ [n]) ((d ++ ["mods"]) ++ [x]) ltac:(intros E%app_inv_head; congruence) (Fs (nodes t) fl)) as K.
        rewrite E4 in K. cbn in K. by rewrite K. }
      rewrite (Hk _ (Fs (nodes s) l) s' Ex H) in Hn. done.
  - unfold ReadDir, simple, call, real_faults, lookup_node in *. destruct s as [mm [|[f|] l]]; cbn [fs_faults nodes] in *.
    + rewrite bool_decide_eq_false_2, Hd in Er by (by destruct d). done.
    + apply Forall_cons in Hs as [Hf _]. injection Er as Er _. case_bool_decide as En; [|done].
      by rewrite Er, En in Hf.
    + rewrite bool_decide_eq_false_2, Hd in Er by (by destruct d). done.
Qed.

(** ** A start as a whole *)

Section Start.
Context (owned : path -> bool) (l : ItzgLauncher) (id : string).
Let instance := instance_dir l id.
Let current := runtime_dir l ++ ["current"].
Let current_new := runtime_dir l ++ ["current.new"].

Lemma keeps_link q :
  q ∉ prefixes instance -> q ∉ prefixes (runtime_dir l) ->
  under current q = false -> under current_new q = false -> keeps q (link_current l instance).
Proof.
  intros Hi Hr Hc Hn.
  apply keeps_bind; [by apply keeps_MkdirAll_other|]. intros _.
  apply keeps_bind; [by apply keeps_MkdirAll_other|]. intros _.
  apply keeps_bind; [apply keeps_attempt, keeps_Remove; by apply under_ne|]. intros _.
  apply keeps_bind; [apply keeps_Symlink; by apply under_ne|]. intros _. by apply keeps_Rename.
Qed.

Lemma keeps_prepare q p : untouched instance (ModrinthExcludeFiles p) q -> keeps q (prepare_instance owned instance p).
Proof.
  intros Hq. apply keeps_bind; [apply keeps_ensureTreeOwner|]. intros _.
  apply keeps_bind; [apply keeps_ensureTreeOwner|]. intros _.
  apply keeps_bind; [|intros _; apply keeps_remove_all, Hq].
  case_bool_decide; [|done]. apply keeps_bind; [by eapply keeps_repair|]. intros _.
  apply keeps_removeExcluded, Hq.
Qed.

Lemma keeps_home q : q ∉ prefixes (home_dir l) -> keeps q (prepare_home (home_dir l)).
Proof.
  intros Hq. apply keeps_bind; [by apply keeps_wrap, keeps_MkdirAll_other|]. intros _.
  apply keeps_bind; [apply keeps_wrap, keeps_Chown|]. intros _. apply keeps_wrap, keeps_Chmod.
  intros <-. apply Hq, elem_of_prefixes. split; [by unfold home_dir; destruct (StateRoot l)|].
  exists []. by rewrite app_nil_r.
Qed.

(** Paths below the instance and below [runtime] are apart. *)
Lemma instance_apart r x : under (StateRoot l ++ "runtime" :: x) (instance ++ r) = false.
Proof.
  apply not_under. intros t E. unfold instance, instance_dir in E. rewrite <- !app_assoc in E.
  apply app_inv_head in E. discriminate E.
Qed.

Lemma not_prefix_runtime r x : r <> [] -> instance ++ r ∉ prefixes (StateRoot l ++ "runtime" :: x).
Proof.
  intros Hr (_ & t & E)%elem_of_prefixes. unfold instance, instance_dir in E. rewrite <- !app_assoc in E.
  apply app_inv_head in E. discriminate E.
Qed.

Lemma not_prefix_instance r : r <> [] -> instance ++ r ∉ prefixes instance.
Proof.
  intros Hr (_ & t & E)%elem_of_prefixes. rewrite <- app_assoc in E.
  apply (f_equal length) in E. rewrite !length_app in E. destruct r; [done|]. cbn in E. lia.
Qed.

Lemma current_apart x : under instance (runtime_dir l ++ x) = false.
Proof.
  apply not_under. intros t E. unfold instance, instance_dir, runtime_dir in E. rewrite <- !app_assoc in E.
  apply app_inv_head in E. discriminate E.
Qed.

Lemma Symlink_ok t p s s' : Symlink t p s = (Ok tt, s') -> nodes s' !! p = Some (FLink t).
Proof.
  intros [fl H]%simple_ok. destruct (lookup_node p _); [done|]. unfold put_node in H.
  destruct (lookup_node (parent p) _) as [[]|]; try done. injection H as <-. cbn. apply lookup_insert_eq.
Qed.

Lemma Rename_link_ok p q t s s' :
  nodes s !! p = Some (FLink t) -> Rename p q s = (Ok tt, s') -> nodes s' !! q = Some (FLink t).
Proof.
  intros Hp [fl H]%simple_ok. unfold rename_node in H. cbn [nodes] in H. rewrite Hp in H. cbn [is_dir] in H.
  destruct (lookup_node (parent q) _) as [[]|]; try done.
  destruct (nodes s !! q) as [[]|]; try done; injection H as <-; cbn; apply lookup_insert_eq.
Qed.

Lemma real_link : stays_real (link_current l instance).
Proof.
  apply real_bind; [auto with real|]. intros _. apply real_bind; [auto with real|]. intros _.
  apply real_bind; [auto with real|]. intros _. apply real_bind; auto with real.
Qed.

Lemma keeps_link_inside r : r <> [] -> keeps (instance ++ r) (link_current l instance).
Proof.
  intros Hr. apply keeps_link;
    [by apply not_prefix_instance|unfold runtime_dir; by apply not_prefix_runtime|
     unfold current, current_new, runtime_dir; rewrite <- app_assoc; apply instance_apart..].
Qed.
Lemma keeps_home_inside r : r <> [] -> keeps (instance ++ r) (prepare_home (home_dir l)).
Proof. intros Hr. apply keeps_home. by apply not_prefix_runtime. Qed.
Lemma keeps_home_current : keeps current (prepare_home (home_dir l)).
Proof.
  apply keeps_home. intros (_ & t & Et)%elem_of_prefixes. unfold current, home_dir, runtime_dir in Et.
  rewrite <- !app_assoc in Et. apply app_inv_head in Et. discriminate Et.
Qed.
Lemma keeps_prepare_current p : keeps current (prepare_instance owned instance p).
Proof. apply keeps_prepare, outside_untouched, current_apart. Qed.

Lemma link_current_ok s s' :
  link_current l instance s = (Ok tt, s') -> nodes s' !! current = Some (FLink (abs_path instance)).
Proof.
  intros E. unfold link_current in E. unbind E as v1 t1 F1. unbind E as v2 t2 F2. unbind E as v3 t3 F3.
  unbind E as v4 t4 F4. destruct v4. apply Symlink_ok in F4. by eapply Rename_link_ok.
Qed.

(** The steps of a preparation that succeeds. *)
Lemma prepare_split p s s' :
  real_faults s -> prepare_instance owned instance p s = (Ok tt, s') ->
  exists s1 s2, real_faults s1 /\ real_faults s2
    /\ (forall q, nodes s1 !! q = nodes s !! q)
    /\ (if bool_decide (Provider p = "modrinth")
        then repairModrinthServerPath instance;; removeModrinthExcludedFiles instance (ModrinthExcludeFiles p)
        else mret tt) s1 = (Ok tt, s2)
    /\ removeRuntimeCredentialFiles instance s2 = (Ok tt, s').
Proof.
  intros Hs E. unfold prepare_instance in E. unbind E as v1 t1 F1. unbind E as v2 t2 F2. unbind E as v3 t3 F3. destruct v3.
  pose proof (real_ensureTreeOwner (owned (parent instance)) (parent instance) s Hs) as R1. rewrite F1 in R1.
  pose proof (real_ensureTreeOwner (owned instance) instance t1 R1) as R2. rewrite F2 in R2. cbn [snd] in R1, R2.
  exists t2, t3. split_and!; [done| |..|done|done].
  - revert F3. case_bool_decide; [|by intros [= <-]]. intros F3. unbind F3 as v4 t4 F4.
    pose proof (real_repair instance t2 R2) as R3. rewrite F4 in R3. cbn [snd] in R3.
    pose proof (real_removeExcluded instance (ModrinthExcludeFiles p) t4 R3) as R4. by rewrite F3 in R4.
  - intros q. pose proof (keeps_ensureTreeOwner q (owned (parent instance)) (parent instance) s) as K1. rewrite F1 in K1.
    pose proof (keeps_ensureTreeOwner q (owned instance) instance t1) as K2. rewrite F2 in K2. cbn [snd] in K1, K2. congruence.
Qed.

Lemma prepare_no_credentials p s s' c :
  real_faults s -> prepare_instance owned instance p s = (Ok tt, s') -> c ∈ credential_files ->
  nodes s' !! (instance ++ [c]) = None.
Proof.
  intros Hs (s1 & s2 & _ & H2 & _ & _ & E)%prepare_split Hc; [|done]. by eapply remove_all_ok.
Qed.

Lemma prepare_no_excluded p s s' md n m b :
  real_faults s -> prepare_instance owned instance p s = (Ok tt, s') -> Provider p = "modrinth" ->
  nodes s !! (instance ++ ["mods"]) = Some (FDir md) ->
  nodes s' !! (instance ++ ["mods"; n]) = Some (FFile m b) -> existsb (Contains n) (ModrinthExcludeFiles p) = false.
Proof.
  intros Hs (s1 & s2 & H1 & H2 & Hn & Em & E)%prepare_split Hp Hmd Hb; [|done].
  rewrite bool_decide_eq_true_2 in Em by done. unbind Em as v t F. destruct v.
  assert (untouched instance [] (instance ++ ["mods"])) as Hun.
  { apply spared_untouched. split_and!; [intros [Hc|Hc]; vm_compute in Hc; done| |done].
    unfold credential_files. intros Hc. rewrite !elem_of_cons, elem_of_nil in Hc. by destruct Hc as [|[|[]]]. }
  pose proof (keeps_repair _ _ _ Hun s1) as K3. rewrite F in K3. cbn [snd] in K3.
  pose proof (real_repair instance s1 H1) as R3. rewrite F in R3. cbn [snd] in R3.
  pose proof (keeps_remove_all (instance ++ ["mods"; n]) instance credential_files) as K.
  specialize (K ltac:(intros x _ Ex; apply app_inv_head in Ex; done) s2).
  unfold removeRuntimeCredentialFiles in E. rewrite E in K. cbn [snd] in K. rewrite K in Hb.
  eapply (removeExcluded_ok instance _ t s2 md); [done|by rewrite K3, Hn|done|exact Hb].
Qed.
End Start.

(** ** Properties *)

(** C30: the environment of the child.  No credential of the control plane's list and no
    rclone configuration of the daemon reaches the Minecraft process under any
    environment; the settings that keep the server private and authenticated, its memory
    and its pack are the daemon's, whatever the daemon's own environment says; and
    everything else is inherited unchanged. *)
Theorem child_environment l environ instance home p lp :
  let env := launch_env l environ instance home p lp in
  (forall name, name ∈ ["AWS_ACCESS_KEY_ID"; "AWS_SECRET_ACCESS_KEY"; "AWS_SESSION_TOKEN"; "FLY_API_TOKEN"; "FLY_TOKEN";
       "HOSTPACK_FLY_API_TOKEN"] \/ HasPrefix name "RCLONE_CONFIG_" = true -> effective env name = None)
  /\ (forall name value,
       (name, value) ∈ [("HOME", home); ("PWD", instance); ("EULA", "TRUE"); ("SERVER_IP", "127.0.0.1"); ("SERVER_PORT", "25566");
         ("ONLINE_MODE", "TRUE"); ("ENABLE_RCON", "TRUE"); ("RCON_PORT", "25575"); ("RCON_PASSWORD", RCONPassword l);
         ("MEMORY", Itoa (MemoryMB p) +:+ "M");
         ("TYPE", if bool_decide (Provider p = "modrinth") then "MODRINTH" else "AUTO_CURSEFORGE")] ->
       effective env name = Some value)
  /\ (forall name, withheld name = false -> name ∉ own_names -> effective env name = effective environ name).
Proof.
  intros env. unfold env, launch_env. split_and!.
  - intros name Hn. assert (withheld name = true /\ name ∉ own_names) as [Hw Ho].
    { destruct Hn as [Hn|Hn].
      - repeat (apply elem_of_cons in Hn as [->|Hn]; [split; [done|by apply (bool_decide_unpack _)]|]).
        by apply elem_of_nil in Hn.
      - split; [unfold withheld; by rewrite Hn, orb_true_r|]. intros Hin.
        repeat (apply elem_of_cons in Hin as [->|Hin]; [done|]). by apply elem_of_nil in Hin. }
    rewrite effective_app, effective_own by done. by apply effective_none, childEnvironment_names.
  - intros name value Hin. rewrite effective_app. unfold own_env.
    repeat (apply elem_of_cons in Hin as [[= -> ->]|Hin];
      [destruct (Java p =? 17), (bool_decide (Provider p = "modrinth")), (bool_decide (ModrinthExcludeFiles p = [])); reflexivity|]).
    by apply elem_of_nil in Hin.
  - intros name Hw Hn. rewrite effective_app, effective_own by done. by apply effective_kept.
Qed.

(** C31: what a start does to the instance.  Whatever fails, everything below the instance
    directory stays as it was except the credential files, the installer's results file
    and excluded mods; and when the start succeeds, [current] points to the instance, the
    credential files are gone, and no regular file in [mods] matches an exclusion. *)
Theorem Start_prepares owned l environ id p lp s :
  let instance := instance_dir l id in
  let '(r, s') := Start owned l environ id p lp s in
  (forall q, spared (ModrinthExcludeFiles p) q -> nodes s' !! (instance ++ q) = nodes s !! (instance ++ q))
  /\ (real_faults s -> is_ok r = true ->
      nodes s' !! (runtime_dir l ++ ["current"]) = Some (FLink (abs_path instance))
      /\ (forall c, c ∈ credential_files -> nodes s' !! (instance ++ [c]) = None)
      /\ (Provider p = "modrinth" -> forall md, nodes s !! (instance ++ ["mods"]) = Some (FDir md) ->
          forall n m b, nodes s' !! (instance ++ ["mods"; n]) = Some (FFile m b) ->
            existsb (Contains n) (ModrinthExcludeFiles p) = false)).
Proof.
  intros instance. subst instance. destruct (Start owned l environ id p lp s) as [r s'] eqn:E. split.
  - intros q Hq. assert (q <> []) as Hq0 by by destruct q.
    assert (keeps (instance_dir l id ++ q) (Start owned l environ id p lp)) as K; [|specialize (K s); by rewrite E in K].
    unfold Start. apply keeps_bind; [by apply keeps_link_inside|]. intros _.
    do 2 (apply keeps_bind; [apply keeps_lift|]; intros ?).
    apply keeps_bind; [by apply keeps_prepare, spared_untouched|]. intros _.
    apply keeps_bind; [by apply keeps_home_inside|]. intros _. apply keeps_bind; [by apply keeps_wrap, keeps_read|]. done.
  - intros Hs Hr. destruct r as [c|e]; [|done]. unfold Start in E.
    unbind E as u1 s1 E1. unbind E as uid s2 E2. injection E2 as _ <-. unbind E as gid s3 E3. injection E3 as _ <-.
    unbind E as u4 s4 E4. unbind E as u5 s5 E5. unbind E as u6 s6 E6.
    apply wrap_call_ok in E6 as [fl E6]%simple_ok. injection E6 as _ <-. injection E as _ <-. cbn [nodes].
    destruct u1, u4, u5. pose proof (real_link l id s Hs) as Hs1. rewrite E1 in Hs1.
    assert (forall q, keeps q (prepare_home (home_dir l)) -> nodes s5 !! q = nodes s4 !! q) as K5.
    { intros q K. specialize (K s4). by rewrite E5 in K. }
    split_and!.
    + rewrite (K5 _ (keeps_home_current l)). pose proof (keeps_prepare_current owned l id p s1) as K.
      rewrite E4 in K. cbn [snd] in K. rewrite K. by eapply (link_current_ok l id).
    + intros f Hf. rewrite (K5 _ (keeps_home_inside l id [f] ltac:(done))). by eapply prepare_no_credentials.
    + intros Hprov md Hmd n m b. rewrite (K5 _ (keeps_home_inside l id ["mods"; n] ltac:(done))).
      eapply (prepare_no_excluded owned l id p s1 s4 md n m b Hs1 E4 Hprov).
      pose proof (keeps_link_inside l id ["mods"] ltac:(done) s) as K.
      rewrite E1 in K.
      by rewrite <- K in Hmd.
Qed.
End Launcher.

(** ** Witnesses *)

Definition ex_launcher : ItzgLauncher := mkLauncher ["state"] "" "secret".
Definition ex_environ : list string := ["PATH=/bin"; "AWS_SECRET_ACCESS_KEY=k"; "HOSTPACK_MINECRAFT_UID=1001"].
Definition ex_modrinth : Pack := mkPack "Alpha" "" "modrinth" "p" "v" 0 21 4096 8192 4 ["oculus"].
Definition ex_locked : LockedPack := mkLockedPack "modrinth" "p" "v" 0 "" "1.20.1" "" 21 "" "".
Definition ex_instance : path := instance_dir ex_launcher "alpha".
Definition ex_files : gmap path node :=
  let d := FDir 488 in
  <[ ["state"] := d ]> (<[ ["state"; "instances"] := d ]> (<[ ["state"; "instances"; "alpha"] := d ]>
  (<[ ex_instance := d ]> (<[ ex_instance ++ ["mods"] := d ]> (<[ ex_instance ++ ["mods"; "oculus.jar"] := FFile 420 [] ]>
  (<[ ex_instance ++ ["mods"; "jei.jar"] := FFile 420 [] ]> (<[ ex_instance ++ ["world.dat"] := FFile 420 [] ]>
  (<[ ex_instance ++ [".rcon-cli.env"] := FFile 420 [] ]> ∅)))))))).

(** A start that succeeds on this tree: the world stays, the excluded mod and the
    credential file go, and the child runs as the configured user. *)
Lemma Start_prepares_witness :
  let '(r, s') := @Start plain_unicode (fun _ => false) ex_launcher ex_environ "alpha" ex_modrinth ex_locked (Fs ex_files []) in
  is_ok r = true
  /\ nodes s' !! (ex_instance ++ ["world.dat"]) = Some (FFile 420 [])
  /\ nodes s' !! (ex_instance ++ [".rcon-cli.env"]) = None
  /\ nodes s' !! (runtime_dir ex_launcher ++ ["current"]) = Some (FLink (abs_path ex_instance)).
Proof.
  pose proof (@Start_prepares plain_unicode (fun _ => false) ex_launcher ex_environ "alpha" ex_modrinth ex_locked (Fs ex_files [])) as H.
  cbv zeta in H. destruct (@Start plain_unicode (fun _ => false) ex_launcher ex_environ "alpha" ex_modrinth ex_locked (Fs ex_files [])) as [r s'] eqn:E.
  assert (is_ok r = true) as Hr.
  { assert (r = fst (@Start plain_unicode (fun _ => false) ex_launcher ex_environ "alpha" ex_modrinth ex_locked (Fs ex_files []))) as -> by by rewrite E.
    by vm_compute. }
  destruct H as [Hk Hs]. destruct Hs as (Hl & Hc & _); [by constructor|exact Hr|].
  split_and!; [exact Hr| |apply (Hc ".rcon-cli.env"); by left|exact Hl].
  unfold ex_instance. rewrite (Hk ["world.dat"]); [by vm_compute|].
  split_and!; [intros [Hx|Hx]; vm_compute in Hx; done| |done].
  unfold credential_files. intros Hx. rewrite !elem_of_cons, elem_of_nil in Hx. by destruct Hx as [|[|[]]].
Defined.
