(* ===== verification/Owner.v ===== *)
(** * Who owns the instance ([ensureTreeOwner] in [internal/runtime/launcher.go])

    The file system of [Fs.v] with the owner of each path: the walk that gives the
    instance to the child's user and group, call by call.  Without the owners it is the
    function of [Launcher.v]. *)
From Stdlib Require Import String Ascii.
From S2P Require Import Prelude GoStrings Fs Archive Launcher.

(** ** The model *)

(** A user and a group. *)
Abbreviation owner := (Z * Z)%type.
Record owned_fs := mkOwned { files : fs; owners : gmap path owner }.

Definition on_files {A} (m : M fs A) : M owned_fs A := fun d =>
  let '(r, s) := m (files d) in (r, mkOwned s (owners d)).
Definition Lchown (who : owner) (p : path) : M owned_fs unit := fun d =>
  let '(r, s) := Chown p (files d) in
  (r, mkOwned s (match r with Ok _ => <[p := who]> (owners d) | Err _ => owners d end)).

Fixpoint own_walk (who : owner) (root : path) (l : list (path * node)) : M owned_fs unit :=
  match l with
  | [] => mret tt
  | (r, n) :: l' =>
      Lchown who (root ++ r);;
      (if is_dir n then on_files (simple (mret tt)) else mret tt);;
      own_walk who root l'
  end.
Definition own_tree (who : owner) (root : path) : M owned_fs unit :=
  n ← on_files (Stat root);
  d ← get_state;
  if bool_decide (owners d !! root = Some who) then mret tt
  else
    r ← attempt (own_walk who root (([], n) :: walk root (nodes (files d))));
    lift_result (wrap_err "set Minecraft instance ownership" r).

(** ** What it does to the files *)

Lemma own_walk_files who root l : forall d,
  let '(r, d') := own_walk who root l d in chown_walk root l (files d) = (r, files d').
Proof.
  induction l as [|[r n] l IH]; intros d; [done|]. cbn [own_walk chown_walk].
  unfold Lchown, on_files, mbind, M_bind. destruct (Chown (root ++ r) (files d)) as [[[]|e] s] eqn:E; [|done].
  destruct (is_dir n); cbn [files].
  - destruct (simple (mret tt) s) as [[[]|e] s1]; [|done]. apply (IH (mkOwned s1 _)).
  - apply (IH (mkOwned s _)).
Qed.

(** Without the owners the walk is the launcher's. *)
Theorem own_tree_files who root d :
  let '(r, d') := own_tree who root d in
  ensureTreeOwner (bool_decide (owners d !! root = Some who)) root (files d) = (r, files d').
Proof.
  unfold own_tree, ensureTreeOwner, on_files, mbind, M_bind.
  destruct (Stat root (files d)) as [[n|e] s]; [|done]. cbn [get_state owners files].
  case_bool_decide; [done|]. unfold attempt, get_state.
  pose proof (own_walk_files who root (([], n) :: walk root (nodes s)) (mkOwned s (owners d))) as Hw. cbn [files] in Hw.
  destruct (own_walk _ _ _ _) as [r d']. rewrite Hw. by destruct r.
Qed.

(** ** What it does to the owners *)

Lemma own_walk_owners who root l : forall d r d', own_walk who root l d = (r, d') ->
  forall q, owners d' !! q = owners d !! q \/ (owners d' !! q = Some who /\ exists x, x ∈ l.*1 /\ q = root ++ x).
Proof.
  induction l as [|[x n] l IH]; intros d r d' H q; [injection H as _ <-; by left|]. cbn [own_walk] in H.
  unfold Lchown, on_files, mbind, M_bind in H. destruct (Chown (root ++ x) (files d)) as [[[]|e] s]; [|injection H as _ <-; by left].
  assert (exists s1, (own_walk who root l (mkOwned s1 (<[root ++ x := who]> (owners d))) = (r, d'))
    \/ d' = mkOwned s1 (<[root ++ x := who]> (owners d))) as [s1 Hs].
  { destruct (is_dir n); cbn [files owners] in H; [|exists s; by left].
    destruct (simple (mret tt) s) as [[[]|e] s1]; [exists s1; by left|exists s1; right; by injection H as _ <-]. }
  assert (forall q0, <[root ++ x := who]> (owners d) !! q0 = owners d !! q0
    \/ (<[root ++ x := who]> (owners d) !! q0 = Some who /\ q0 = root ++ x)) as Hi.
  { intros q0. rewrite lookup_insert. case_decide; [right; by split|by left]. }
  destruct Hs as [Hs|Ed].
  - destruct (IH _ _ _ Hs q) as [E|[E (y & Hy & ->)]].
    + rewrite E. cbn [owners]. destruct (Hi q) as [|[-> ->]]; [by left|right]. split; [done|]. exists x. split; [left|done].
    + right. split; [done|]. exists y. split; [by right|done].
  - rewrite Ed. cbn [owners]. destruct (Hi q) as [|[-> ->]]; [by left|right]. split; [done|]. exists x. split; [left|done].
Qed.

Lemma own_walk_all who root l : forall d d', own_walk who root l d = (Ok tt, d') ->
  forall x, x ∈ l.*1 -> owners d' !! (root ++ x) = Some who.
Proof.
  induction l as [|[y n] l IH]; intros d d' H x Hx; [by apply elem_of_nil in Hx|]. cbn [own_walk] in H.
  unfold Lchown, on_files, mbind, M_bind in H. destruct (Chown (root ++ y) (files d)) as [[[]|e] s]; [|done].
  assert (exists s1, own_walk who root l (mkOwned s1 (<[root ++ y := who]> (owners d))) = (Ok tt, d')) as [s1 Hs].
  { destruct (is_dir n); cbn [files owners] in H; [|by exists s].
    destruct (simple (mret tt) s) as [[[]|e] s1]; [by exists s1|done]. }
  cbn in Hx. apply elem_of_cons in Hx as [->|Hx]; [|by eapply IH].
  destruct (own_walk_owners _ _ _ _ _ _ Hs (root ++ y)) as [->|[-> _]]; [|done]. cbn. apply lookup_insert_eq.
Qed.

(** ** Properties *)

(** A successful run over a tree whose root was another's gives it all to the child, and
    nothing outside of it. *)
Theorem own_tree_owns who root d d' :
  own_tree who root d = (Ok tt, d') -> owners d !! root <> Some who ->
  (forall q, under root q = true -> q = root \/ is_Some (nodes (files d) !! q) -> owners d' !! q = Some who)
  /\ (forall q, under root q = false -> owners d' !! q = owners d !! q).
Proof.
  intros H Hne. unfold own_tree, on_files, mbind, M_bind in H.
  destruct (Stat root (files d)) as [[n|e] s] eqn:Es; [|done]. cbn [get_state owners files] in H.
  rewrite bool_decide_eq_false_2 in H by done. unfold attempt in H.
  assert (nodes s = nodes (files d)) as En.
  { unfold Stat in Es. apply simple_ok in Es as [fl Es]. destruct (lookup_node root _) eqn:El; [|done]. by injection Es as _ <-. }
  destruct (own_walk _ _ _ _) as [r d1] eqn:Ew. destruct r as [[]|]; [|done]. injection H as <-. split.
  - intros q Hq Hn. apply bool_decide_eq_true in Hq as [x Hx%strip_spec]. subst q.
    apply (own_walk_all _ _ _ _ _ Ew). destruct x as [|c x]; [left|right].
    destruct Hn as [E|[m Hm]]; [rewrite <- (app_nil_r root) in E at 2; by apply app_inv_head in E|].
    apply list_elem_of_fmap. exists (c :: x, m). split; [done|]. apply elem_of_walk. by rewrite En.
  - intros q Hq. destruct (own_walk_owners _ _ _ _ _ _ Ew q) as [E|[_ (x & _ & ->)]]; [exact E|].
    rewrite not_under in Hq. by destruct (Hq x).
Qed.

(** Once the root is the child's, no later run changes an owner: what the walk did not
    come to when it failed, or when the machine died, is never given to the child. *)
Theorem interrupted_walk_is_final who root d r d' :
  owners d !! root = Some who -> own_tree who root d = (r, d') -> owners d' = owners d.
Proof.
  intros Ho H. unfold own_tree, on_files, mbind, M_bind in H.
  destruct (Stat root (files d)) as [[n|e] s]; [|by injection H as _ <-]. cbn [get_state owners] in H.
  rewrite bool_decide_eq_true_2 in H by done. by injection H as _ <-.
Qed.

(** An instance that was restored, and the crash while it was given to the child. *)
Definition ex_restored : owned_fs :=
  let root := ["instances"; "sfs"; "server"] in
  let m := <[ root := FDir 488 ]> (<[ root ++ ["eula.txt"] := FFile 420 [] ]> ∅) in
  mkOwned (Fs m [None; None; None; Some (Fault (Errorf "crash") 0)])
    (<[ root := (0, 0) ]> (<[ root ++ ["eula.txt"] := (0, 0) ]> ∅)).

Example crash_leaves_files_behind :
  let root := ["instances"; "sfs"; "server"] in let child := (1000, 1000) in
  let '(r1, d1) := own_tree child root ex_restored in
  let '(r2, d2) := own_tree child root d1 in
  is_ok r1 = false /\ r2 = Ok tt /\ owners d2 !! (root ++ ["eula.txt"]) = Some (0, 0).
Proof. vm_compute. repeat split. Qed.
