(* ===== verification/Process.v ===== *)
(** * The Minecraft process ([internal/runtime/launcher.go])

    What [ItzgLauncher.Start] returns: [commandProcess] with [Wait], [Signal] and [Kill]
    over the operating system's process table, and the [logWriter] its output goes to.
    The server is a tree: the entry point forks Java, may end before it, and all of them
    write to one pipe.  [Manager.v] keeps of this that a process is alive or not. *)
From Stdlib Require Import String Ascii.
From S2P Require Import Prelude GoStrings.

(** ** The operating system *)

(** A process that has ended stays in the table until it is waited for; [Ended] carries
    what [Wait] reports of it. *)
Inductive status := Running | Ended (e : option error).
#[global] Instance status_eq_dec : EqDecision status.
Proof. solve_decision. Defined.
Definition running (s : status) : bool := match s with Running => true | Ended _ => false end.

(** The process group, the output pipe it holds, the signals it got. *)
Record proc := mkProc { pr_group : Z; pr_pipe : option nat; pr_status : status; pr_signals : list Z }.
Abbreviation table := (gmap Z proc).

Definition SIGKILL : Z := 9.
Definition ErrSearch : error := Errorf "no such process".
Definition killed : status := Ended (Some (Errorf "signal: killed")).

Definition deliver (sig : Z) (p : proc) : proc :=
  if running (pr_status p) then
    if sig =? SIGKILL then mkProc (pr_group p) (pr_pipe p) killed (pr_signals p)
    else mkProc (pr_group p) (pr_pipe p) (pr_status p) (pr_signals p ++ [sig])
  else p.
Definition member (g : Z) (p : proc) : bool := pr_group p =? g.
Definition members (g : Z) (t : table) : table := filter (fun kp => member g (snd kp) = true) t.
(** [kill(2)] of a negative number below [-1]: every process of the group. *)
Definition syscall_Kill (g sig : Z) : M table unit := fun t =>
  if bool_decide (members g t = ∅) then (Err ErrSearch, t)
  else (Ok tt, (fun p => if member g p then deliver sig p else p) <$> t).

(** ** [commandProcess] *)

(** An [os.Signal]: a number, or another type's value. *)
Inductive signal := Syscall (n : Z) | OtherSignal.

(** The interface [Process]; [Wait] has no result while it blocks. *)
Class Process (P : Type) := {
  Wait : P -> table -> option (result unit * table);
  Signal : P -> signal -> M table unit;
  Kill : P -> M table unit }.

(** The process [exec.Cmd] started, in a group of its own ([Setpgid]), with the pipe
    behind its output. *)
Record commandProcess := mkCommandProcess { cp_Pid : Z; cp_pipe : nat }.

Definition holds (n : nat) (p : proc) : bool := running (pr_status p) && bool_decide (pr_pipe p = Some n).
(** [Cmd.Wait]: the process has ended, and the goroutines that copy its output have met
    the end of the pipe, which every holder keeps open. *)
Definition command_Wait (p : commandProcess) (t : table) : option (result unit * table) :=
  match t !! cp_Pid p with
  | Some (mkProc _ _ (Ended e) _) =>
      if bool_decide (filter (fun kp => holds (cp_pipe p) (snd kp) = true) t = ∅)
      then Some (match e with None => Ok tt | Some e => Err e end, delete (cp_Pid p) t) else None
  | _ => None
  end.
Definition command_Signal (p : commandProcess) (sig : signal) : M table unit :=
  match sig with
  | Syscall n => syscall_Kill (cp_Pid p) n
  | OtherSignal => throw (Errorf "os: unsupported signal type")
  end.
Definition command_Kill (p : commandProcess) : M table unit := syscall_Kill (cp_Pid p) SIGKILL.
#[global] Instance command_Process : Process commandProcess :=
  {| Wait := command_Wait; Signal := command_Signal; Kill := command_Kill |}.

(** [cmd.Start] with [Setpgid]: the new process leads a group of its own. *)
Definition exec_start (pid : Z) (pipe : nat) (t : table) : commandProcess * table :=
  (mkCommandProcess pid pipe, <[pid := mkProc pid (Some pipe) Running []]> t).

(** ** [logWriter] *)

Inductive level := LevelInfo | LevelError.
Record log_record := mkRecord { r_level : level; r_pack : string; r_output : list byte }.
Record logWriter := mkLogWriter { lw_logger : bool; lw_level : level; lw_id : string }.
(** [Write]: the number of bytes it reports, after one record for the logger. *)
Definition log_Write (w : logWriter) (p : list byte) : M (list log_record) Z := fun log =>
  (Ok (Z.of_nat (length p)), if lw_logger w then log ++ [mkRecord (lw_level w) (lw_id w) p] else log).

(** The goroutine of [exec.Cmd]: [io.Copy] of what the pipe gives, read by read. *)
Fixpoint copy (w : logWriter) (reads : list (list byte)) : M (list log_record) unit :=
  match reads with
  | [] => mret tt
  | b :: rest =>
      n ← log_Write w b;
      if n =? Z.of_nat (length b) then copy w rest else throw (Errorf "short write")
  end.

(** ** The server's tree *)

(** What the processes of the machine do.  Two sets of processes of the table go along:
    [fam] are the launched process and its descendants that are still in its group because
    they, and the ancestors between, never left it; [guests] are processes that put
    themselves into the group later, and the descendants they have there.  A new process
    gets a number that no process and no group has, and its parent's group and pipe; any
    process, of the family or not, may make a group of its own or join one that is there
    ([setsid], [setpgid]). *)
Inductive os_step (l : Z) : table * gset Z * gset Z -> table * gset Z * gset Z -> Prop :=
  | os_fork t fam gs p q pr : t !! p = Some pr -> pr_status pr = Running ->
      t !! q = None -> members q t = ∅ ->
      os_step l (t, fam, gs) (<[q := mkProc (pr_group pr) (pr_pipe pr) Running []]> t,
        (if decide (p ∈ fam) then {[q]} ∪ fam else fam), (if decide (p ∈ gs) then {[q]} ∪ gs else gs))
  | os_exit t fam gs p pr e : t !! p = Some pr -> pr_status pr = Running ->
      os_step l (t, fam, gs) (<[p := mkProc (pr_group pr) (pr_pipe pr) (Ended e) (pr_signals pr)]> t, fam, gs)
  | os_reap t fam gs p pr e : t !! p = Some pr -> pr_status pr = Ended e ->
      os_step l (t, fam, gs) (delete p t, fam ∖ {[p]}, gs ∖ {[p]})
  | os_close t fam gs p pr : t !! p = Some pr ->
      os_step l (t, fam, gs) (<[p := mkProc (pr_group pr) None (pr_status pr) (pr_signals pr)]> t, fam, gs)
  | os_regroup t fam gs p pr g : t !! p = Some pr -> pr_status pr = Running ->
      (g = p \/ exists q pr', t !! q = Some pr' /\ pr_group pr' = g) ->
      os_step l (t, fam, gs) (<[p := mkProc g (pr_pipe pr) (pr_status pr) (pr_signals pr)]> t,
        (if decide (g = l) then fam else fam ∖ {[p]}),
        (if decide (g = l) then (if decide (p ∈ fam) then gs else {[p]} ∪ gs) else gs ∖ {[p]}))
  | os_signal t fam gs p pr sig : t !! p = Some pr -> os_step l (t, fam, gs) (<[p := deliver sig pr]> t, fam, gs).

(** The group is the family and its guests. *)
Record tree (l : Z) (s : table * gset Z * gset Z) : Prop := {
  tr_table : forall q, q ∈ s.1.2 ∪ s.2 -> is_Some (s.1.1 !! q);
  tr_group : forall q pr, s.1.1 !! q = Some pr -> q ∈ s.1.2 ∪ s.2 -> pr_group pr = l;
  tr_alone : s.1.2 <> ∅ -> forall q pr, s.1.1 !! q = Some pr -> pr_group pr = l -> q ∈ s.1.2 ∪ s.2 }.

Lemma members_empty g t : members g t = ∅ <-> forall q pr, t !! q = Some pr -> pr_group pr <> g.
Proof.
  unfold members. rewrite map_empty_filter. unfold member. split; intros H q pr Hq.
  - specialize (H q pr Hq). cbn in H. by rewrite Z.eqb_eq in H.
  - cbn. rewrite Z.eqb_eq. by apply (H q).
Qed.

Lemma tree_start l pipe t : t !! l = None -> members l t = ∅ -> tree l ((exec_start l pipe t).2, {[l]}, ∅).
Proof.
  intros Hl Hm. rewrite members_empty in Hm. split; cbn.
  - intros q Hq. assert (q = l) as -> by set_solver. rewrite lookup_insert_eq. eauto.
  - intros q pr. rewrite lookup_insert. case_decide; [by intros [= <-]|]. set_solver.
  - intros _ q pr. rewrite lookup_insert. case_decide; [set_solver|]. intros Hq Hg. by destruct (Hm q pr Hq).
Qed.

(** A step that changes one process and keeps its group. *)
Lemma tree_update l t fam gs p pr pr' :
  tree l (t, fam, gs) -> t !! p = Some pr -> pr_group pr' = pr_group pr -> tree l (<[p := pr']> t, fam, gs).
Proof.
  intros [H1 H2 H3] Hp Hg. split; cbn in *.
  - intros q Hq. rewrite lookup_insert_is_Some'. auto.
  - intros q x. rewrite lookup_insert. case_decide as E; [intros [= <-]; subst; rewrite Hg; eauto|eauto].
  - intros Hne q x. rewrite lookup_insert. case_decide as E; [intros [= <-]; subst; rewrite Hg; eauto|eauto].
Qed.

Lemma deliver_fields sig p : pr_group (deliver sig p) = pr_group p /\ pr_pipe (deliver sig p) = pr_pipe p.
Proof. unfold deliver. by repeat case_match. Qed.

(** A fork: the child is what its parent is. *)
Lemma tree_fork l t fam gs p q pr :
  tree l (t, fam, gs) -> t !! p = Some pr -> t !! q = None ->
  tree l (<[q := mkProc (pr_group pr) (pr_pipe pr) Running []]> t,
    (if decide (p ∈ fam) then {[q]} ∪ fam else fam), (if decide (p ∈ gs) then {[q]} ∪ gs else gs)).
Proof.
  intros [H1 H2 H3] Hp Hq. cbn in *.
  set (fam' := if decide (p ∈ fam) then {[q]} ∪ fam else fam). set (gs' := if decide (p ∈ gs) then {[q]} ∪ gs else gs).
  assert (q ∉ fam ∪ gs) as Hqf by (intros Hin; destruct (H1 q Hin); congruence).
  assert (forall x, x ∈ fam' ∪ gs' <-> x ∈ fam ∪ gs \/ (x = q /\ p ∈ fam ∪ gs)) as Hx.
  { intros x. unfold fam', gs'. repeat case_decide; set_solver. }
  assert (fam' <> ∅ -> fam <> ∅) as Hne by (unfold fam'; case_decide; set_solver).
  split; cbn; fold fam' gs'.
  - intros x. rewrite Hx, lookup_insert_is_Some'. naive_solver.
  - intros x y. rewrite lookup_insert, Hx. case_decide as E; [subst x; intros [= <-]; cbn; naive_solver|naive_solver].
  - intros Hf x y. rewrite lookup_insert, Hx. case_decide as E; [subst x; intros [= <-]; cbn; naive_solver|naive_solver].
Qed.

Lemma tree_regroup l t fam gs p pr g :
  tree l (t, fam, gs) -> t !! p = Some pr ->
  tree l (<[p := mkProc g (pr_pipe pr) (pr_status pr) (pr_signals pr)]> t,
    (if decide (g = l) then fam else fam ∖ {[p]}),
    (if decide (g = l) then (if decide (p ∈ fam) then gs else {[p]} ∪ gs) else gs ∖ {[p]})).
Proof.
  intros [H1 H2 H3] Hp. cbn in *.
  set (fam' := if decide (g = l) then fam else fam ∖ {[p]}).
  set (gs' := if decide (g = l) then (if decide (p ∈ fam) then gs else {[p]} ∪ gs) else gs ∖ {[p]}).
  assert (forall x, x ∈ fam' ∪ gs' <-> if decide (x = p) then g = l else x ∈ fam ∪ gs) as Hx.
  { intros x. unfold fam', gs'. repeat case_decide; set_solver. }
  assert (fam' <> ∅ -> fam <> ∅) as Hne by (unfold fam'; case_decide; set_solver).
  split; cbn; fold fam' gs'.
  - intros x. rewrite Hx, lookup_insert_is_Some'. case_decide; auto.
  - intros x y. rewrite Hx, lookup_insert. repeat case_decide; subst; try done; [by intros [= <-]|eauto].
  - intros Hf x y. rewrite Hx, lookup_insert. repeat case_decide; subst; try done; [by intros [= <-]|eauto].
Qed.

Lemma tree_step l s s' : tree l s -> os_step l s s' -> tree l s'.
Proof.
  intros Ht Hs. destruct Hs as [t fam gs p q pr Hp Hr Hq Hm|t fam gs p pr e Hp Hr|t fam gs p pr e Hp Hr|t fam gs p pr Hp
    |t fam gs p pr g Hp Hr Hg|t fam gs p pr sig Hp].
  - by apply tree_fork.
  - by eapply tree_update; [|exact Hp|].
  - destruct Ht as [H1 H2 H3]. cbn in *. split; cbn.
    + intros q Hq. rewrite lookup_delete_ne by set_solver. apply H1. set_solver.
    + intros q x. rewrite lookup_delete. case_decide; [done|]. set_solver.
    + intros Hne q x. rewrite lookup_delete. case_decide; [done|]. intros Hx Hg.
      specialize (H3 ltac:(set_solver) q x Hx Hg). set_solver.
  - by eapply tree_update; [|exact Hp|].
  - by apply tree_regroup.
  - eapply tree_update; [done|exact Hp|apply deliver_fields].
Qed.

Lemma tree_reachable l s s' : tree l s -> rtc (os_step l) s s' -> tree l s'.
Proof. intros Ht Hr. induction Hr; [done|]. eauto using tree_step. Qed.

(** ** The output *)

(** Every byte the server writes is logged, in order, and the copying never fails: [Wait]
    reports how the process ended and nothing else. *)
Lemma output_logged w reads log : lw_logger w = true ->
  copy w reads log = (Ok tt, log ++ map (mkRecord (lw_level w) (lw_id w)) reads).
Proof.
  intros Hw. revert log. induction reads as [|b rest IH]; intros log; cbn [copy map]; [by rewrite app_nil_r|].
  rewrite (M_bind_ok _ _ log (Z.of_nat (length b)) (log ++ [mkRecord (lw_level w) (lw_id w) b]))
    by (unfold log_Write; by rewrite Hw).
  by rewrite Z.eqb_refl, IH, <- app_assoc.
Qed.

(** ** Properties *)

Lemma Kill_members l t : members l t <> ∅ ->
  syscall_Kill l SIGKILL t = (Ok tt, (fun p => if member l p then deliver SIGKILL p else p) <$> t).
Proof. intros Hm. unfold syscall_Kill. by rewrite bool_decide_eq_false_2. Qed.

Lemma deliver_kill p : running (pr_status (deliver SIGKILL p)) = false.
Proof. unfold deliver. destruct (running (pr_status p)) eqn:E; [done|exact E]. Qed.

(** [Wait] of a process that has ended returns exactly when nobody holds the pipe. *)
Lemma Wait_returns p t g pi e sg : t !! cp_Pid p = Some (mkProc g pi (Ended e) sg) ->
  (exists r, command_Wait p t = Some (r, delete (cp_Pid p) t))
  <-> (forall q pr, t !! q = Some pr -> holds (cp_pipe p) pr = false).
Proof.
  intros Hp. unfold command_Wait. rewrite Hp. case_bool_decide as Hf; rewrite map_empty_filter in Hf.
  - split; [|eauto]. intros _ q pr Hq. specialize (Hf q pr Hq). cbn in Hf. by destruct (holds _ pr).
  - split; [by intros [? ?]|]. intros Hn. exfalso. apply Hf. intros q pr Hq. cbn. by rewrite (Hn q pr Hq).
Qed.

(** C32: [Kill] ends the server, and only the server.  Take any run of the machine since
    [Start] - the entry point forked Java and ended, others came and went, left their
    groups and joined others - in which one process of the launched tree is left that never
    left its group, whether it still runs or not.  Then [Kill] succeeds, and all those
    processes have ended behind it; and the only other processes it touches are those that
    put themselves into the group, and their descendants there: the number of the group has
    not passed to strangers in the meantime.  When the launched process is among them and
    not yet waited for, [Wait] returns exactly when no running process outside the group
    holds the output pipe.  So of a server whose processes stay in their group, nothing is
    left to write to the instance directory or to keep its port; a process that left the
    group lives on, and if it kept the pipe, [Wait] waits for it ([escaped_process]). *)
Theorem Kill_ends_the_tree l pipe t0 t fam gs :
  t0 !! l = None -> members l t0 = ∅ ->
  let '(p, t1) := exec_start l pipe t0 in
  rtc (os_step l) (t1, {[l]}, ∅) (t, fam, gs) -> fam <> ∅ ->
  exists t', Kill p t = (Ok tt, t')
    /\ (forall q, q ∈ fam ∪ gs -> exists pr, t' !! q = Some pr /\ running (pr_status pr) = false)
    /\ (forall q, q ∉ fam ∪ gs -> t' !! q = t !! q)
    /\ (l ∈ fam ->
        ((exists e, Wait p t' = Some (e, delete l t'))
         <-> forall q pr, t !! q = Some pr -> q ∉ fam ∪ gs -> holds pipe pr = false)).
Proof.
  intros Hl Hm. cbn [exec_start]. intros Hr Hne. pose proof (tree_start l pipe t0 Hl Hm) as Ht.
  pose proof (tree_reachable l _ _ Ht Hr) as [H1 H2 H3]. cbn [fst snd] in H1, H2, H3.
  assert (members l t <> ∅) as Hmem.
  { destruct (set_choose_L fam Hne) as [x Hx]. destruct (H1 x) as [y Hy]; [set_solver|].
    rewrite members_empty. intros Hn. apply (Hn x y Hy), (H2 x y Hy). set_solver. }
  set (f := fun p => if member l p then deliver SIGKILL p else p). exists (f <$> t).
  assert (forall q, q ∈ fam ∪ gs -> exists pr, (f <$> t) !! q = Some pr /\ running (pr_status pr) = false) as Hdead.
  { intros q Hq. destruct (H1 q Hq) as [pr Hpr]. exists (f pr). rewrite lookup_fmap, Hpr.
    split; [done|]. unfold f, member. rewrite (H2 q pr Hpr Hq), Z.eqb_refl. apply deliver_kill. }
  assert (forall q, q ∉ fam ∪ gs -> (f <$> t) !! q = t !! q) as Hsame.
  { intros q Hq. rewrite lookup_fmap. destruct (t !! q) as [pr|] eqn:E; [|done]. cbn. f_equal. unfold f, member.
    rewrite (proj2 (Z.eqb_neq _ _)); [done|]. intros Eg. by apply Hq, (H3 Hne q pr). }
  split; [exact (Kill_members l t Hmem)|]. split; [exact Hdead|]. split; [exact Hsame|].
  intros Hlf. destruct (Hdead l ltac:(set_solver)) as ([g pi st sg] & Hpr & Hst). destruct st as [|e]; [done|].
  cbn [Wait command_Process]. rewrite (Wait_returns (mkCommandProcess l pipe) (f <$> t) _ _ _ _ Hpr : (exists r, _) <-> _).
  cbn [cp_pipe]. split; intros Hn q pr Hq.
  - intros Hout. apply (Hn q). by rewrite (Hsame q Hout).
  - destruct (decide (q ∈ fam ∪ gs)) as [Hin|Hout]; [|apply (Hn q); [by rewrite <- (Hsame q Hout)|done]].
    destruct (Hdead q Hin) as (x & Hx & Hrun). rewrite Hx in Hq. injection Hq as <-. unfold holds. by rewrite Hrun.
Qed.

(** ** Witnesses *)

(** The machine before the start: the init process and the daemon. *)
Definition ex_machine : table :=
  {[ 1 := mkProc 1 None Running []; 7 := mkProc 7 None Running [] ]}.
(** The entry point 20 has forked Java as 21 and ended; the daemon has forked 30. *)
Definition ex_running : table :=
  <[30 := mkProc 7 None Running []]>
    (<[20 := mkProc 20 (Some 5%nat) (Ended None) []]>
      (<[21 := mkProc 20 (Some 5%nat) Running []]>
        (<[20 := mkProc 20 (Some 5%nat) Running []]> ex_machine))).

Lemma ex_running_reached : rtc (os_step 20) (<[20 := mkProc 20 (Some 5%nat) Running []]> ex_machine, {[20]}, ∅)
  (ex_running, {[21]} ∪ {[20]}, ∅).
Proof.
  eapply rtc_l.
  { apply (os_fork _ _ _ _ 20 21 (mkProc 20 (Some 5%nat) Running [])); vm_compute; reflexivity. }
  rewrite decide_True, decide_False by set_solver. eapply rtc_l.
  { apply (os_exit _ _ _ _ 20 (mkProc 20 (Some 5%nat) Running []) None); vm_compute; reflexivity. }
  cbn [pr_group pr_pipe pr_signals]. apply rtc_once.
  pose proof (os_fork 20 (<[20 := mkProc 20 (Some 5%nat) (Ended None) []]>
      (<[21 := mkProc 20 (Some 5%nat) Running []]> (<[20 := mkProc 20 (Some 5%nat) Running []]> ex_machine)))
    ({[21]} ∪ {[20]}) ∅ 7 30 (mkProc 7 None Running []) eq_refl eq_refl eq_refl) as Hstep.
  rewrite !decide_False in Hstep by set_solver. apply Hstep. vm_compute. reflexivity.
Qed.

Lemma Kill_ends_the_tree_witness :
  command_Wait (mkCommandProcess 20 5) ex_running = None /\
  exists t', Kill (mkCommandProcess 20 5) ex_running = (Ok tt, t')
    /\ exists e, Wait (mkCommandProcess 20 5) t' = Some (e, delete 20 t').
Proof.
  split; [vm_compute; reflexivity|].
  destruct (Kill_ends_the_tree 20 5 ex_machine ex_running ({[21]} ∪ {[20]}) ∅ eq_refl eq_refl ex_running_reached)
    as (t' & Hk & _ & _ & Hw); [set_solver|].
  exists t'. split; [exact Hk|]. apply Hw; [set_solver|].
  intros q pr Hq Hout. assert (q <> 20 /\ q <> 21) as [H20 H21] by set_solver.
  unfold ex_running, ex_machine in Hq.
  repeat (apply lookup_insert_Some in Hq as [[<- <-]|[_ Hq]]; [done|]).
  by apply lookup_singleton_Some in Hq as [_ <-].
Defined.

(** What [Kill] cannot reach: Java has made a group of its own ([setsid]) and kept the
    pipe.  It survives, and [Wait] of the ended entry point blocks on the pipe it holds. *)
Example escaped_process :
  let t := <[20 := mkProc 20 (Some 5%nat) (Ended None) []]> (<[21 := mkProc 21 (Some 5%nat) Running []]> ex_machine) in
  (exists gs, rtc (os_step 20) (<[20 := mkProc 20 (Some 5%nat) Running []]> ex_machine, {[20]}, ∅) (t, {[20]}, gs))
  /\ exists t', Kill (mkCommandProcess 20 5) t = (Ok tt, t') /\ t' !! 21 = Some (mkProc 21 (Some 5%nat) Running [])
     /\ Wait (mkCommandProcess 20 5) t' = None.
Proof.
  cbn zeta. split; [|eexists; repeat split; vm_compute; reflexivity].
  exists ∅. eapply rtc_l.
  { apply (os_fork _ _ _ _ 20 21 (mkProc 20 (Some 5%nat) Running [])); vm_compute; reflexivity. }
  rewrite decide_True, decide_False by set_solver. eapply rtc_l.
  { apply (os_regroup _ _ _ _ 21 (mkProc 20 (Some 5%nat) Running []) 21); [vm_compute; reflexivity|done|by left]. }
  rewrite !decide_False by lia. cbn [pr_pipe pr_status pr_signals]. rewrite insert_insert_eq.
  eapply rtc_l.
  { apply (os_exit _ _ _ _ 20 (mkProc 20 (Some 5%nat) Running []) None); vm_compute; reflexivity. }
  rewrite insert_insert_ne by done. apply rtc_refl.
Qed.
