(* ===== verification/Store.v ===== *)
(** * The backup store ([internal/store/store.go])

    Generations of a pack's world in a backend of objects: an archive and a
    manifest each.  The backend is an interface, the class [Backend]; what the store
    relies on is the class [BackendLaws].  The zstd frame around the tar stream
    (a third-party package) is a pair of parameters, [pack] and [unpack]. *)
From Stdlib Require Import String Ascii.
From S2P Require Import Prelude GoStrings GoJson JsonText GoSha256 Filepath Fs Archive.

(** ** Manifests *)

Record Manifest := mkManifest {
  m_ID : string; m_Generation : Z; m_SHA256 : string; m_Size : Z;
  m_PackLockDigest : string; m_CreatedAt : Z }.
Definition zero_Manifest : Manifest := mkManifest "" 0 "" 0 "" zero_time.

#[global] Instance Manifest_eq_dec : EqDecision Manifest.
Proof. solve_decision. Defined.

Section Manifests.
Context `{GoTime}.
Definition manifest_json (m : Manifest) : result json :=
  t ← json_time (m_CreatedAt m);
  Ok (JObj [("id", JStr (m_ID m)); ("generation", JInt (m_Generation m)); ("sha256", JStr (m_SHA256 m));
            ("size", JInt (m_Size m)); ("packLockDigest", JStr (m_PackLockDigest m)); ("createdAt", t)]).
Definition dec_Manifest (j : json) : result Manifest := dec_object (fun l =>
  i ← dec_string (member "id" l); g ← dec_uint64 (member "generation" l);
  s ← dec_string (member "sha256" l); z ← dec_int (member "size" l);
  d ← dec_string (member "packLockDigest" l); c ← dec_time (member "createdAt" l);
  Ok (mkManifest i g s z d c)) (Some j).
Definition manifest_bytes (m : Manifest) : result (list byte) :=
  j ← manifest_json m; Ok (bytes_of_string (MarshalIndent j)).
(** [json.NewDecoder(r).Decode(&m)]. *)
Definition decode_manifest (b : list byte) : result Manifest :=
  j ← Decode (string_of_bytes b); dec_Manifest j.
End Manifests.

Definition archive_key (id : string) (gen : Z) : string := id +:+ "/saves/" +:+ pad20 gen +:+ ".tar.zst".
Definition manifest_key (id : string) (gen : Z) : string := id +:+ "/saves/" +:+ pad20 gen +:+ ".json".
Definition saves_prefix (id : string) : string := id +:+ "/saves/".

(** ** The backend *)

(** An open object: its stream and the error of its [Close]. *)
Record object := mkObject { ob_reader : reader; ob_close : option error }.

(** What [Put] came to: whether it read its source to the end, and its error. *)
Record put_result := mkPut { put_drained : bool; put_error : option error }.

Class Backend (B : Type) := {
  List : string -> M B (list string);
  Open : string -> M B object;
  Put : string -> reader -> Z -> M B put_result }.

(** The digest and the size of a stream, as [io.Copy] into a hash finds them. *)
Definition digest_of (b : list byte) : string := sha256_hex b.
Definition size_of (b : list byte) : Z := int64 (Z.of_nat (length b)).

Section Store.
Context {B : Type} `{Backend B} `{GoTime}.
Context (lockDigest : option (string -> string)).

(** The archive of a manifest, read to its end, is the one it describes. *)
Definition archive_matches (m : Manifest) (o : object) : bool :=
  bool_decide (rd_end (ob_reader o) = ErrEOF) && bool_decide (ob_close o = None)
  && (size_of (rd_data (ob_reader o)) =? m_Size m)
  && bool_decide (digest_of (rd_data (ob_reader o)) = m_SHA256 m).

(** The loop of [Head] over the manifests. *)
Fixpoint head_loop (id : string) (keys : list string) : M B (option Manifest) :=
  match keys with
  | [] => mret None
  | key :: keys' =>
      r ← attempt (Open key);
      match r with
      | Err _ => head_loop id keys'
      | Ok o =>
          match decode_manifest (rd_data (ob_reader o)) with
          | Err _ => head_loop id keys'
          | Ok m =>
              if bool_decide (m_ID m = id) && (0 <? m_Generation m) then
                a ← attempt (Open (archive_key id (m_Generation m)));
                match a with
                | Err _ => head_loop id keys'
                | Ok a => if archive_matches m a then mret (Some m) else head_loop id keys'
                end
              else head_loop id keys'
          end
      end
  end.

(** The manifests among the listed keys, the highest name first. *)
Definition manifest_names (keys : list string) : list string :=
  rev (SortStrings (List.filter (fun k => HasSuffix k ".json") keys)).

Definition Head (id : string) : M B (option Manifest) :=
  keys ← List (saves_prefix id); head_loop id (manifest_names keys).

(** The backend and the file system the instances are on. *)
Definition on_backend {A} (m : M B A) : M (B * fs) A := fun s =>
  let '(x, b) := m (fst s) in (x, (b, snd s)).
Definition on_files {A} (m : M fs A) : M (B * fs) A := fun s =>
  let '(x, f) := m (snd s) in (x, (fst s, f)).

(** The streams [tar.NewWriter(zstd.NewWriter(w))] and back: the bytes of a sequence
    of entries; the entries a stream gives, the error it ends with ([ErrEOF] at its
    regular end), the error of [zstd.NewReader], and the bytes read from the source. *)
Record unpacked := mkUnpacked {
  un_open : option error; un_entries : list entry; un_end : error; un_consumed : list byte }.
Context (pack : list entry -> list byte) (unpack : reader -> unpacked).
Context (umask : Z).

(** The part of [Commit] behind the check of the head.  [put_drained] false means
    that the backend closed the pipe with bytes of the archive still to be written:
    the writer then gets the error of the pipe. *)
Definition upload (now : Z) (id source : string) (gen : Z) : M (B * fs) Manifest :=
  archive ← on_files (writeArchive (path_of source));
  let '(entries, walk_error) := archive in
  let bytes := pack entries in
  put ← on_backend (Put (archive_key id gen)
          (Reader bytes (match walk_error with Some e => e | None => ErrEOF end)) (-1));
  let archive_error :=
    if put_drained put then walk_error
    else Some (match put_error put with
               | Some e => e | None => Errorf "io: read/write on closed pipe" end) in
  match archive_error, put_error put with
  | Some e, _ => throw (Wrapf "create backup archive" e)
  | None, Some e => throw (Wrapf "upload backup archive" e)
  | None, None =>
      let m := mkManifest id gen (digest_of bytes) (size_of bytes)
                 (match lockDigest with Some f => f id | None => "" end) now in
      mb ← lift_result (manifest_bytes m);
      put ← on_backend (Put (manifest_key id gen) (bytes_reader mb) (Z.of_nat (length mb)));
      match put_error put with
      | Some e => throw e
      | None =>
          verified ← attempt (on_backend (Head id));
          let unverified := Errorf ("backup generation " +:+ Itoa gen +:+ " could not be verified") in
          match verified with
          | Err e => throw (Wrapf "verify backup generation" e)
          | Ok None => throw unverified
          | Ok (Some v) =>
              if negb (m_Generation v =? gen) || negb (bool_decide (m_SHA256 v = m_SHA256 m))
                 || negb (m_Size v =? m_Size m)
              then throw unverified
              else mret v
          end
      end
  end.

Definition Commit (now : Z) (id source : string) (expected : Z) : M (B * fs) Manifest :=
  head ← on_backend (Head id);
  if (match head with Some h => negb (m_Generation h =? expected) | None => negb (expected =? 0) end)
  then throw ErrGenerationConflict
  else upload now id source (uint64 (expected + 1)).

(** The part of [Restore] on the file system, given the open archive. *)
Definition unpack_into (m : Manifest) (u : unpacked) (tmp destination : path) : M fs Manifest :=
  match un_open u with
  | Some e => throw e
  | None =>
      restore_entries umask (abs_path tmp) (un_entries u);;
      if negb (errors_is (un_end u) ErrEOF) then throw (un_end u)
      else
        let got := digest_of (un_consumed u) in
        if negb (bool_decide (got = m_SHA256 m))
        then throw (Errorf ("backup checksum mismatch: got " +:+ got))
        else
          d ← attempt (Stat destination);
          match d with
          | Ok _ => throw (Errorf "restore destination already exists")
          | Err e =>
              if negb (errors_is e ErrNotExist) then throw e
              else Rename tmp destination;; mret m
          end
  end.

Definition restore_archive (m : Manifest) (o : object) (destination : string) : M fs Manifest :=
  let parent := path_of (Dir destination) in
  MkdirAll (created_mode umask 488) parent;;
  tmp ← MkdirTemp parent ".restore-";
  deferred (RemoveAll tmp) (unpack_into m (unpack (ob_reader o)) tmp (path_of destination)).

Definition Restore (id destination : string) : M (B * fs) Manifest :=
  head ← on_backend (Head id);
  match head with
  | None => throw ErrNotExist
  | Some m =>
      r ← on_backend (Open (archive_key id (m_Generation m)));
      on_files (restore_archive m r destination)
  end.
End Store.

(** ** What the store relies on

    [objects] is what the backend holds; [working b] says that no call on [b] fails.
    [store_key] is a key of the store's own making, for the id of a pack. *)
Definition store_key (k : string) : Prop :=
  exists id gen, normal id /\ (k = archive_key id gen \/ k = manifest_key id gen).

Class BackendLaws (B : Type) `{Backend B} := {
  objects : B -> gmap string (list byte);
  working : B -> Prop;
  List_frame id b : objects (snd (List (saves_prefix id) b)) = objects b;
  Open_frame k b : objects (snd (Open k b)) = objects b;
  Put_frame k k' r n b : store_key k -> k' <> k -> objects (snd (Put k r n b)) !! k' = objects b !! k';
  Open_whole k b o b' : store_key k -> Open k b = (Ok o, b') ->
    rd_end (ob_reader o) = ErrEOF -> ob_close o = None -> objects b !! k = Some (rd_data (ob_reader o));
  List_working id b : normal id -> working b ->
    exists l b', List (saves_prefix id) b = (Ok l, b') /\ working b'
      /\ forall k, HasSuffix k ".json" = true ->
           k ∈ l <-> is_Some (objects b !! k) /\ HasPrefix k (saves_prefix id) = true;
  Open_working k b : store_key k \/ is_Some (objects b !! k) -> working b ->
    exists r b', Open k b = (r, b') /\ working b'
      /\ match objects b !! k with
         | Some d => r = Ok (mkObject (bytes_reader d) None)
         | None => forall o, r = Ok o -> rd_data (ob_reader o) = [] /\ ob_close o <> None
         end;
  Put_working k r n b : store_key k -> working b -> rd_end r = ErrEOF ->
    exists b', Put k r n b = (Ok (mkPut true None), b') /\ working b'
      /\ objects b' = <[k := rd_data r]> (objects b) }.
