(* ===== verification/StoreHead.v ===== *)
(** * The head of a store ([Head] in [internal/store/store.go])

    Which generation [Head] finds: the manifests' round trip, the order of the key
    names, and the loop over them. *)
From Stdlib Require Import String Ascii.
From stdpp Require Import sorting.
From S2P Require Import Prelude GoStrings GoJson JsonText GoSha256 Filepath Fs Archive Store.

(** ** Manifests *)

(** What [Commit] can write down and read back. *)
Definition manifest_ok `{GoTime} (m : Manifest) : Prop :=
  valid_utf8 (m_ID m) = true /\ valid_utf8 (m_SHA256 m) = true
  /\ valid_utf8 (m_PackLockDigest m) = true /\ 0 <= m_Generation m < 2 ^ 64
  /\ - 2 ^ 63 <= m_Size m < 2 ^ 63 /\ is_Some (time_text (m_CreatedAt m)).

Lemma manifest_roundtrip_aux `{GoTime} m :
  manifest_ok m -> exists b, manifest_bytes m = Ok b /\ decode_manifest b = Ok m.
Proof.
  intros (H1 & H2 & H3 & H4 & H5 & [t Ht]). unfold manifest_bytes, manifest_json, json_time.
  rewrite Ht. cbn [mbind result_bind]. eexists. split; [done|].
  unfold decode_manifest. rewrite string_of_bytes_of_string, Decode_MarshalIndent.
  2:{ cbn. rewrite H1, H2, H3, (time_text_valid _ _ Ht). done. }
  cbn [mbind result_bind]. unfold dec_Manifest, dec_object. member_simpl.
  repeat match goal with |- context [member ?n []] => change (member n []) with (@None json) end. cbv iota.
  rewrite dec_uint64_range, dec_int_range by done. cbn [dec_string dec_time mbind result_bind].
  rewrite (parse_time_text _ _ Ht). by destruct m.
Qed.

Lemma decode_manifest_range `{GoTime} b m :
  decode_manifest b = Ok m -> 0 <= m_Generation m < 2 ^ 64.
Proof.
  unfold decode_manifest. destruct (Decode _) as [j|e]; [|done]. change (dec_Manifest j = Ok m -> 0 <= m_Generation m < 2 ^ 64).
  assert (forall j g, dec_uint64 j = Ok g -> 0 <= g < 2 ^ 64) as Hg.
  { intros [[]|] g Hd; try discriminate Hd; cbn in Hd; try (injection Hd as <-; lia).
    case_match eqn:E; [|done]. injection Hd as <-. bools. rewrite <- E. apply (wrap_range 64); lia. }
  assert (forall l m, (i ← dec_string (member "id" l); g ← dec_uint64 (member "generation" l);
    s ← dec_string (member "sha256" l); z ← dec_int (member "size" l);
    d ← dec_string (member "packLockDigest" l); c ← dec_time (member "createdAt" l);
    Ok (mkManifest i g s z d c)) = Ok m -> 0 <= m_Generation m < 2 ^ 64) as Hl.
  { intros l m'. destruct (dec_string (member "id" l)); [|done].
    destruct (dec_uint64 (member "generation" l)) as [g|] eqn:E; [|done]. apply Hg in E.
    destruct (dec_string (member "sha256" l)); [|done]. destruct (dec_int (member "size" l)); [|done].
    destruct (dec_string (member "packLockDigest" l)); [|done].
    destruct (dec_time (member "createdAt" l)); [|done]. by intros [= <-]. }
  unfold dec_Manifest, dec_object. intros Hd. destruct j; try discriminate Hd; exact (Hl _ _ Hd).
Qed.

(** ** The names of generations *)

Lemma digits_length n z : String.length (digits n z) = n.
Proof. revert z. induction n as [|n IH]; intros z; [done|]. cbn. rewrite length_append, IH. cbn. lia. Qed.

(** Texts of one length compare as their first different part does. *)
Lemma compare_app a b x y :
  String.length a = String.length b ->
  String.compare (a +:+ x) (b +:+ y)
  = match String.compare a b with Eq => String.compare x y | c => c end.
Proof.
  revert b. induction a as [|c a IH]; intros [|d b] Hl; try discriminate Hl; [done|].
  rewrite !append_cons. cbn. destruct (Ascii.compare c d); [|done..]. apply IH. by injection Hl.
Qed.

Lemma compare_refl a : String.compare a a = Eq.
Proof. induction a as [|c a IH]; [done|]. cbn. unfold Ascii.compare. by rewrite N.compare_refl. Qed.

Lemma compare_digit x y : 0 <= x < 10 -> 0 <= y < 10 ->
  Ascii.compare (chr (48 + x)) (chr (48 + y)) = (x ?= y).
Proof.
  intros Hx Hy. unfold Ascii.compare, chr. rewrite !N_ascii_embedding by lia.
  rewrite <- N2Z.inj_compare, !Z2N.id by lia. destruct (Z.compare_spec x y); cbn;
    [subst; apply Z.compare_refl|apply Z.compare_lt_iff; lia|apply Z.compare_gt_iff; lia].
Qed.

(** Padded numbers are ordered as numbers. *)
Lemma compare_digits n x y : 0 <= x < 10 ^ Z.of_nat n -> 0 <= y < 10 ^ Z.of_nat n ->
  String.compare (digits n x) (digits n y) = (x ?= y).
Proof.
  revert x y. induction n as [|n IH]; intros x y Hx Hy.
  { change (10 ^ Z.of_nat 0) with 1 in *. assert (x = y) as -> by lia. by rewrite Z.compare_refl. }
  rewrite Nat2Z.inj_succ, Z.pow_succ_r in Hx, Hy by lia.
  cbn [digits]. rewrite compare_app by by rewrite !digits_length.
  assert (0 <= x / 10 < 10 ^ Z.of_nat n) as Hxd by (split; [apply Z.div_pos|apply Z.div_lt_upper_bound]; lia).
  assert (0 <= y / 10 < 10 ^ Z.of_nat n) as Hyd by (split; [apply Z.div_pos|apply Z.div_lt_upper_bound]; lia).
  rewrite IH by done. pose proof (Z.mod_pos_bound x 10 ltac:(lia)). pose proof (Z.mod_pos_bound y 10 ltac:(lia)).
  pose proof (Z.div_mod x 10 ltac:(lia)). pose proof (Z.div_mod y 10 ltac:(lia)).
  cbn [String.compare]. rewrite compare_digit by done.
  destruct (Z.compare_spec (x / 10) (y / 10)) as [E|E|E].
  - destruct (Z.compare_spec (x mod 10) (y mod 10)); symmetry;
      [apply Z.compare_eq_iff|apply Z.compare_lt_iff|apply Z.compare_gt_iff]; lia.
  - symmetry. apply Z.compare_lt_iff. lia.
  - symmetry. apply Z.compare_gt_iff. lia.
Qed.

Lemma compare_keys id suffix x y :
  0 <= x < 10 ^ 20 -> 0 <= y < 10 ^ 20 ->
  String.compare (id +:+ "/saves/" +:+ pad20 x +:+ suffix) (id +:+ "/saves/" +:+ pad20 y +:+ suffix) = (x ?= y).
Proof.
  intros Hx Hy. rewrite compare_app, compare_refl, compare_app, compare_refl by done.
  unfold pad20. rewrite compare_app by by rewrite !digits_length.
  rewrite compare_digits by done. rewrite compare_refl. by destruct (x ?= y).
Qed.

Lemma manifest_key_le id x y : 0 <= x < 2 ^ 64 -> 0 <= y < 2 ^ 64 ->
  String.le (manifest_key id x) (manifest_key id y) -> x <= y.
Proof.
  intros Hx Hy. unfold String.le, String.leb, manifest_key. rewrite compare_keys by lia.
  destruct (Z.compare_spec x y); [lia..|done].
Qed.

Lemma key_inj id suffix x y : 0 <= x < 2 ^ 64 -> 0 <= y < 2 ^ 64 ->
  id +:+ "/saves/" +:+ pad20 x +:+ suffix = id +:+ "/saves/" +:+ pad20 y +:+ suffix -> x = y.
Proof.
  intros Hx Hy E. pose proof (compare_keys id suffix x y ltac:(lia) ltac:(lia)) as Hc.
  rewrite E, compare_refl in Hc. by apply Z.compare_eq.
Qed.

Lemma key_suffix id gen suffix s : HasSuffix (id +:+ "/saves/" +:+ pad20 gen +:+ suffix +:+ s) s = true.
Proof. apply HasSuffix_spec. eexists. by rewrite <- !append_assoc. Qed.

Lemma manifest_key_json id gen : HasSuffix (manifest_key id gen) ".json" = true.
Proof. apply HasSuffix_spec. exists (id +:+ "/saves/" +:+ pad20 gen). unfold manifest_key. by rewrite !append_assoc. Qed.

Lemma archive_key_json id gen : HasSuffix (archive_key id gen) ".json" = false.
Proof.
  destruct (HasSuffix _ _) eqn:E; [|done]. apply HasSuffix_spec in E as [r E]. exfalso.
  unfold archive_key in E.
  change ".tar.zst" with (".ta" +:+ "r.zst") in E. rewrite <- !append_assoc in E.
  revert E. generalize ((((id +:+ "/saves/") +:+ pad20 gen) +:+ ".ta")). intros s E.
  assert (s = r) as ->.
  { revert r E. induction s as [|c s IH]; intros r E.
    - apply (f_equal String.length) in E as El. rewrite !length_append in El. cbn in El.
      by destruct r; [|cbn in El; lia].
    - apply (f_equal String.length) in E as El. rewrite !length_append in El. cbn in El.
      destruct r as [|d r]; [cbn in El; lia|]. rewrite !append_cons in E. injection E as -> E.
      f_equal. by apply IH. }
  by apply (inj (String.append r)) in E.
Qed.

Lemma archive_manifest_key id id' x y : archive_key id x <> manifest_key id' y.
Proof. intros E. pose proof (archive_key_json id x) as H. by rewrite E, manifest_key_json in H. Qed.

Lemma key_prefix id gen suffix : HasPrefix (id +:+ "/saves/" +:+ pad20 gen +:+ suffix) (saves_prefix id) = true.
Proof. apply HasPrefix_spec. eexists. unfold saves_prefix. by rewrite !append_assoc. Qed.

(** ** What [Head] computes *)
Section HeadSpec.
Context `{GoTime}.
Implicit Types o : gmap string (list byte).

(** What the loop of [Head] sees at a key of the objects [o]. *)
Definition head_check o (id key : string) : option Manifest :=
  mb ← o !! key;
  match decode_manifest mb with
  | Err _ => None
  | Ok m =>
      if bool_decide (m_ID m = id) && (0 <? m_Generation m) then
        ab ← o !! archive_key id (m_Generation m);
        if (size_of ab =? m_Size m) && bool_decide (digest_of ab = m_SHA256 m) then Some m else None
      else None
  end.

(** A complete generation: its manifest is there under its own name, and its archive
    has the size and the digest the manifest says. *)
Definition complete o (id : string) (m : Manifest) : Prop :=
  head_check o id (manifest_key id (m_Generation m)) = Some m.
#[global] Instance complete_dec o id m : Decision (complete o id m).
Proof. unfold complete. apply _. Defined.

(** The manifests of a pack are under their names, as [Commit] writes them. *)
Definition well_kept o (id : string) : Prop :=
  forall k mb m, o !! k = Some mb -> HasPrefix k (saves_prefix id) = true -> HasSuffix k ".json" = true ->
    decode_manifest mb = Ok m -> m_ID m = id -> 0 < m_Generation m ->
    k = manifest_key id (m_Generation m).

(** The abstract specification of [Head]: the highest complete generation. *)
Definition head_spec o (id : string) (r : option Manifest) : Prop :=
  match r with
  | Some m => complete o id m /\ forall m', complete o id m' -> m_Generation m' <= m_Generation m
  | None => forall m', ~ complete o id m'
  end.

Lemma head_check_inv o id key m :
  head_check o id key = Some m ->
  m_ID m = id /\ 0 < m_Generation m < 2 ^ 64
  /\ (exists mb, o !! key = Some mb /\ decode_manifest mb = Ok m)
  /\ exists ab, o !! archive_key id (m_Generation m) = Some ab
       /\ size_of ab = m_Size m /\ digest_of ab = m_SHA256 m.
Proof.
  unfold head_check. destruct (o !! key) as [mb|] eqn:Ek; [|done]. cbn.
  destruct (decode_manifest mb) as [m'|] eqn:Ed; [|done].
  destruct (bool_decide _ && _) eqn:E1; [|done].
  destruct (o !! archive_key id (m_Generation m')) as [ab|] eqn:Ea; [|done]. cbn.
  destruct ((_ =? _) && _) eqn:E2; [|done]. intros [= ->]. bools.
  apply decode_manifest_range in Ed as Hr. split_and!; [done|lia|lia|eauto|eauto].
Qed.

Lemma complete_unique o id m m' :
  complete o id m -> complete o id m' -> m_Generation m = m_Generation m' -> m = m'.
Proof. unfold complete. intros H1 H2 E. rewrite E, H2 in H1. by injection H1. Qed.

Lemma head_spec_unique o id r r' : head_spec o id r -> head_spec o id r' -> r = r'.
Proof.
  destruct r as [m|], r' as [m'|]; cbn; [|intros [Hc _] Hn; by destruct (Hn m)|
    intros Hn [Hc _]; by destruct (Hn m')|done].
  intros [Hc Hm] [Hc' Hm']. f_equal. apply (complete_unique o id); [done..|].
  apply Z.le_antisymm; auto.
Qed.

Context {B : Type} `{BackendLaws B}.

Lemma listed_store_key id m : normal id -> store_key (archive_key id (m_Generation m)).
Proof. exists id, (m_Generation m). auto. Qed.

(** A loop over keys that are there finds the first that checks. *)
Lemma head_loop_working id keys b :
  normal id -> working b -> Forall (fun k => is_Some (objects b !! k)) keys ->
  exists b', head_loop id keys b = (Ok (hd_error (omap (head_check (objects b) id) keys)), b')
    /\ objects b' = objects b /\ working b'.
Proof.
  intros Hid. revert b. induction keys as [|k keys IH]; intros b Hb Hk; [by exists b|].
  apply Forall_cons in Hk as [Hk Hks]. cbn [head_loop omap list_omap].
  destruct (Open_working k b (or_intror Hk) Hb) as (r & b1 & E & Hb1 & Hr).
  pose proof (Open_frame k b) as Ho1. rewrite E in Ho1. cbn in Ho1.
  destruct Hk as [mb Hmb]. rewrite Hmb in Hr. subst r.
  erewrite M_bind_ok by (unfold attempt; by rewrite E). cbn [rd_data ob_reader bytes_reader].
  rewrite <- Ho1 in Hks.
  assert (forall b2 x, objects b2 = objects b -> working b2 -> x = None ->
    exists b', head_loop id keys b2 = (Ok (hd_error (match x with
      | Some y => y :: omap (head_check (objects b) id) keys
      | None => omap (head_check (objects b) id) keys end)), b')
    /\ objects b' = objects b /\ working b') as Hrest.
  { intros b2 x E2 Hb2 ->. destruct (IH b2 Hb2) as (b' & ? & ? & ?); [by rewrite E2, <- Ho1|].
    exists b'. rewrite <- E2. split_and!; [done|congruence|done]. }
  remember (head_check (objects b) id k) as x eqn:Ex. unfold head_check in Ex. rewrite Hmb in Ex.
  cbn [mbind option_bind] in Ex.
  destruct (decode_manifest mb) as [m|e]; [|by apply Hrest].
  destruct (bool_decide (m_ID m = id) && (0 <? m_Generation m)); [|by apply Hrest].
  destruct (Open_working (archive_key id (m_Generation m)) b1) as (r & b2 & E2 & Hb2 & Hr);
    [by left; apply listed_store_key|done|].
  pose proof (Open_frame (archive_key id (m_Generation m)) b1) as Ho2. rewrite E2 in Ho2. cbn in Ho2.
  erewrite M_bind_ok by (unfold attempt; by rewrite E2). rewrite Ho1 in Hr.
  assert (objects b2 = objects b) as Hob by congruence.
  destruct (objects b !! archive_key id (m_Generation m)) as [ab|]; cbn [mbind option_bind] in Ex.
  - subst r. unfold archive_matches. cbn [ob_reader ob_close bytes_reader rd_end rd_data].
    rewrite !(bool_decide_eq_true_2 (_ = _)) by done. cbn [andb].
    destruct ((size_of ab =? m_Size m) && bool_decide (digest_of ab = m_SHA256 m)); [|by apply Hrest].
    exists b2. subst x. by split_and!.
  - destruct r as [a|e]; [|by apply Hrest]. specialize (Hr a eq_refl) as [_ Hr].
    unfold archive_matches. rewrite (bool_decide_eq_false_2 (ob_close a = None)) by done.
    rewrite andb_false_r. cbn [andb]. by apply Hrest.
Qed.

(** *** The order of the loop *)

Lemma elem_of_manifest_names l k : k ∈ manifest_names l <-> k ∈ l /\ HasSuffix k ".json" = true.
Proof.
  unfold manifest_names, SortStrings. rewrite list_elem_of_In, <- in_rev, <- list_elem_of_In.
  by rewrite merge_sort_Permutation, !list_elem_of_In, filter_In.
Qed.

(** The names come in falling order: what comes before the first that checks is no
    lower than what follows. *)
Lemma manifest_names_sorted l l1 l2 k k' :
  manifest_names l = l1 ++ k :: l2 -> k' ∈ l2 -> String.le k' k.
Proof.
  unfold manifest_names. intros E Hk. apply (f_equal (@rev string)) in E.
  rewrite rev_involutive, rev_app_distr in E. cbn [rev] in E.
  assert (StronglySorted String.le (SortStrings (List.filter (fun k => HasSuffix k ".json") l))) as Hs
    by (apply StronglySorted_merge_sort; apply _).
  rewrite E, <- app_assoc in Hs.
  eapply (StronglySorted_app_1_elem_of String.le (rev l2)); [exact Hs| |cbn; by left].
  by apply list_elem_of_In, in_rev; rewrite rev_involutive; apply list_elem_of_In.
Qed.

Lemma omap_hd_error {A C} (f : A -> option C) l x :
  hd_error (omap f l) = Some x ->
  exists l1 a l2, l = l1 ++ a :: l2 /\ f a = Some x /\ forall a', a' ∈ l1 -> f a' = None.
Proof.
  induction l as [|a l IH]; [done|]. cbn. destruct (f a) as [y|] eqn:Ea.
  - intros [= ->]. exists [], a, l. split_and!; [done..|]. by intros ? ?%elem_of_nil.
  - intros (l1 & a1 & l2 & -> & Ha1 & Hl1)%IH. exists (a :: l1), a1, l2. split_and!; [done..|].
    intros a' [->|?]%elem_of_cons; auto.
Qed.

Lemma omap_hd_none {A C} (f : A -> option C) l a : hd_error (omap f l) = None -> a ∈ l -> f a = None.
Proof.
  induction l as [|x l IH]; [by intros _ ?%elem_of_nil|]. cbn. destruct (f x) eqn:E; [done|].
  intros Hn [->|Ha]%elem_of_cons; auto.
Qed.

Lemma Head_working id b :
  normal id -> working b -> well_kept (objects b) id ->
  exists r b', Head id b = (Ok r, b') /\ objects b' = objects b /\ working b' /\ head_spec (objects b) id r.
Proof.
  intros Hid Hb Hw. unfold Head. destruct (List_working id b Hid Hb) as (l & b1 & E & Hb1 & Hl).
  pose proof (List_frame id b) as Ho1. rewrite E in Ho1. cbn in Ho1.
  destruct (head_loop_working id (manifest_names l) b1 Hid Hb1) as (b' & E' & Ho & Hb').
  { apply Forall_forall. intros k [Hk Hj]%elem_of_manifest_names. rewrite Ho1. by apply (Hl k Hj). }
  rewrite Ho1 in E', Ho. eexists _, b'. split_and!; [erewrite M_bind_ok by exact E; exact E'|done|done|].
  assert (forall m, complete (objects b) id m -> manifest_key id (m_Generation m) ∈ manifest_names l) as Hin.
  { intros m Hm. apply elem_of_manifest_names. split; [|apply manifest_key_json].
    apply (Hl _ (manifest_key_json _ _)).
    apply head_check_inv in Hm as (_ & _ & (mb & -> & _) & _). split; [by eexists|].
    unfold manifest_key. apply key_prefix. }
  destruct (hd_error _) as [m|] eqn:Eh; cbn.
  - apply omap_hd_error in Eh as (l1 & k & l2 & El & Hk & Hl1).
    assert (k = manifest_key id (m_Generation m)) as ->.
    { pose proof (head_check_inv _ _ _ _ Hk) as (Hm1 & Hm2 & (mb & Hmb & Hd) & _).
      assert (k ∈ manifest_names l) as [Hkl Hj]%elem_of_manifest_names
        by (rewrite El; apply elem_of_app; right; by left).
      apply (Hl k Hj) in Hkl as [_ Hp]. eapply Hw; [done..|]. lia. }
    split; [done|]. intros m' Hm'. pose proof (Hin m' Hm') as Hin'. rewrite El in Hin'.
    apply head_check_inv in Hk as (_ & Hg & _). pose proof (head_check_inv _ _ _ _ Hm') as (_ & Hg' & _).
    apply elem_of_app in Hin' as [Hin'|[Hin'|Hin']%elem_of_cons].
    + apply Hl1 in Hin'. unfold complete in Hm'. congruence.
    + unfold manifest_key in Hin'. apply key_inj in Hin'; lia.
    + apply (manifest_key_le id); [lia..|]. eapply manifest_names_sorted; eauto.
  - intros m' Hm'. pose proof (omap_hd_none _ _ _ Eh (Hin m' Hm')). unfold complete in Hm'. congruence.
Qed.

(** Whatever the calls come to, [Head] changes nothing. *)
Lemma head_loop_frame id keys b : objects (snd (head_loop id keys b)) = objects b.
Proof.
  revert b. induction keys as [|k keys IH]; intros b; [done|]. cbn [head_loop].
  unfold mbind, M_bind, attempt. pose proof (Open_frame k b) as Ho.
  destruct (Open k b) as [[o|e] b1]; cbn in Ho; rewrite <- Ho; [|apply IH].
  destruct (decode_manifest _) as [m|]; [|apply IH]. destruct (_ && _); [|apply IH].
  pose proof (Open_frame (archive_key id (m_Generation m)) b1) as Ho2.
  destruct (Open (archive_key id (m_Generation m)) b1) as [[a|e] b2]; cbn in Ho2; rewrite <- Ho2; [|apply IH].
  destruct (archive_matches m a); [done|apply IH].
Qed.

Lemma Head_frame id b : objects (snd (Head id b)) = objects b.
Proof.
  unfold Head, mbind, M_bind. pose proof (List_frame id b) as Hl.
  destruct (List (saves_prefix id) b) as [[l|e] b1]; cbn in Hl; [|done]. by rewrite head_loop_frame.
Qed.

Lemma head_loop_sound id keys b m b' :
  normal id -> head_loop id keys b = (Ok (Some m), b') ->
  m_ID m = id /\ 0 < m_Generation m < 2 ^ 64
  /\ exists a, objects b !! archive_key id (m_Generation m) = Some a
       /\ size_of a = m_Size m /\ digest_of a = m_SHA256 m.
Proof.
  intros Hid. revert b. induction keys as [|k keys IH]; intros b; [done|]. cbn [head_loop].
  unfold mbind, M_bind, attempt. pose proof (Open_frame k b) as Ho.
  destruct (Open k b) as [[o|e] b1]; cbn in Ho; rewrite <- Ho; [|apply IH].
  destruct (decode_manifest _) as [m1|] eqn:Ed; [|apply IH].
  destruct (bool_decide (m_ID m1 = id) && (0 <? m_Generation m1)) eqn:E1; [|apply IH].
  pose proof (Open_frame (archive_key id (m_Generation m1)) b1) as Ho2.
  destruct (Open (archive_key id (m_Generation m1)) b1) as [[a|e] b2] eqn:Ea; cbn in Ho2; [|rewrite <- Ho2; apply IH].
  destruct (archive_matches m1 a) eqn:Em; [|rewrite <- Ho2; apply IH]. intros [= -> ->].
  unfold archive_matches in Em. bools. apply decode_manifest_range in Ed.
  split_and!; [done|lia|lia|]. exists (rd_data (ob_reader a)). split_and!; [|done..].
  by eapply Open_whole; [apply listed_store_key|..].
Qed.
End HeadSpec.
