(* ===== verification/StoreCommit.v ===== *)
(** * Commits ([Commit] in [internal/store/store.go])

    What a commit leaves in the store: a new complete generation that [Head] finds,
    a conflict, or at least everything that was complete before. *)
From Stdlib Require Import String Ascii.
From S2P Require Import Prelude GoStrings GoJson JsonText GoSha256 Filepath Fs Archive Store StoreHead.

(** ** The objects of a new generation *)
Section Objects.
Context `{GoTime}.
Implicit Types o : gmap string (list byte).

Definition with_generation o (id : string) (gen : Z) (bytes mb : list byte) : gmap string (list byte) :=
  <[manifest_key id gen := mb]> (<[archive_key id gen := bytes]> o).

Lemma archive_key_inj id x y : 0 <= x < 2 ^ 64 -> 0 <= y < 2 ^ 64 -> archive_key id x = archive_key id y -> x = y.
Proof. apply key_inj. Qed.
Lemma manifest_key_inj id x y : 0 <= x < 2 ^ 64 -> 0 <= y < 2 ^ 64 -> manifest_key id x = manifest_key id y -> x = y.
Proof. apply key_inj. Qed.

(** A generation depends on its own two objects only. *)
Lemma head_check_agree o o' id m :
  o' !! manifest_key id (m_Generation m) = o !! manifest_key id (m_Generation m) ->
  o' !! archive_key id (m_Generation m) = o !! archive_key id (m_Generation m) ->
  complete o id m -> complete o' id m.
Proof.
  intros E1 E2 Hc. pose proof (head_check_inv _ _ _ _ Hc) as (H1 & H2 & (mb & Hmb & Hd) & ab & Ha & H3 & H4).
  unfold complete, head_check. rewrite E1, Hmb. cbn [mbind option_bind]. rewrite Hd, E2, Ha.
  cbn [mbind option_bind].
  rewrite (bool_decide_eq_true_2 (m_ID m = id)), (proj2 (Z.ltb_lt _ _)), H3, Z.eqb_refl by (done || lia).
  by rewrite bool_decide_eq_true_2.
Qed.

Lemma complete_new o id m bytes mb :
  m_ID m = id -> 0 < m_Generation m -> m_SHA256 m = digest_of bytes -> m_Size m = size_of bytes ->
  decode_manifest mb = Ok m -> complete (with_generation o id (m_Generation m) bytes mb) id m.
Proof.
  intros Hi Hg Hs Hz Hd. unfold complete, head_check, with_generation.
  rewrite lookup_insert_eq. cbn [mbind option_bind]. rewrite Hd.
  rewrite (bool_decide_eq_true_2 (m_ID m = id)), (proj2 (Z.ltb_lt _ _)) by done. cbn [andb].
  rewrite lookup_insert_ne, lookup_insert_eq by apply not_eq_sym, archive_manifest_key.
  cbn [mbind option_bind]. by rewrite Hs, Hz, Z.eqb_refl, bool_decide_eq_true_2.
Qed.

Lemma complete_other o id m gen bytes mb :
  0 <= gen < 2 ^ 64 -> 0 <= m_Generation m < 2 ^ 64 -> m_Generation m <> gen ->
  complete (with_generation o id gen bytes mb) id m <-> complete o id m.
Proof.
  intros Hg Hm Hne. unfold with_generation.
  assert (forall o', <[manifest_key id gen := mb]> (<[archive_key id gen := bytes]> o') !! manifest_key id (m_Generation m)
      = o' !! manifest_key id (m_Generation m)) as E1.
  { intros o'. rewrite !lookup_insert_ne; [done|apply archive_manifest_key|].
    intros E%manifest_key_inj; lia. }
  assert (forall o', <[manifest_key id gen := mb]> (<[archive_key id gen := bytes]> o') !! archive_key id (m_Generation m)
      = o' !! archive_key id (m_Generation m)) as E2.
  { intros o'. rewrite !lookup_insert_ne; [done| |apply not_eq_sym, archive_manifest_key].
    intros E%archive_key_inj; lia. }
  split; apply head_check_agree; by rewrite ?E1, ?E2.
Qed.

(** The new generation is the head where it is above all others. *)
Lemma head_spec_new o id m bytes mb :
  m_ID m = id -> 0 < m_Generation m < 2 ^ 64 -> m_SHA256 m = digest_of bytes -> m_Size m = size_of bytes ->
  decode_manifest mb = Ok m -> (forall m', complete o id m' -> m_Generation m' < m_Generation m) ->
  head_spec (with_generation o id (m_Generation m) bytes mb) id (Some m).
Proof.
  intros Hi Hg Hs Hz Hd Hm. split; [apply complete_new; done || lia|]. intros m' Hm'.
  destruct (decide (m_Generation m' = m_Generation m)) as [->|Hne]; [lia|].
  pose proof (head_check_inv _ _ _ _ Hm') as (_ & Hg' & _).
  apply complete_other in Hm'; [|lia..|done]. apply Hm in Hm'. lia.
Qed.

Lemma well_kept_new o id m bytes mb :
  well_kept o id -> decode_manifest mb = Ok m ->
  well_kept (with_generation o id (m_Generation m) bytes mb) id.
Proof.
  intros Hw Hd k mb' m' Hk Hp Hj Hd' Hi Hg. unfold with_generation in Hk.
  destruct (decide (manifest_key id (m_Generation m) = k)) as [<-|Hne].
  - rewrite lookup_insert_eq in Hk. injection Hk as <-. congruence.
  - rewrite lookup_insert_ne in Hk by done.
    destruct (decide (archive_key id (m_Generation m) = k)) as [<-|Hne'].
    + by rewrite archive_key_json in Hj.
    + rewrite lookup_insert_ne in Hk by done. by eapply Hw.
Qed.
End Objects.

(** ** The frame of a commit *)
Section Commits.
Context {B : Type} `{BackendLaws B} `{GoTime}.
Context (lockDigest : option (string -> string)) (pack : list entry -> list byte).
Abbreviation upload := (upload lockDigest pack).
Abbreviation Commit := (Commit lockDigest pack).

Lemma on_backend_ok {A} (m : M B A) b f x b' : m b = (x, b') -> on_backend m (b, f) = (x, (b', f)).
Proof. intros E. unfold on_backend. cbn. by rewrite E. Qed.
Lemma on_files_ok {A} (m : M fs A) (b : B) f x f' : m f = (x, f') -> on_files m (b, f) = (x, (b, f')).
Proof. intros E. unfold on_files. cbn. by rewrite E. Qed.

(** Objects under other keys stay, whatever fails. *)
Definition keeps_objects {A} (k : string) (m : M (B * fs) A) : Prop :=
  forall s, objects (fst (snd (m s))) !! k = objects (fst s) !! k.

Lemma keeps_objects_bind {A C} k (m : M (B * fs) A) (f : A -> M (B * fs) C) :
  keeps_objects k m -> (forall a, keeps_objects k (f a)) -> keeps_objects k (m ≫= f).
Proof.
  intros Hm Hf s. unfold mbind, M_bind. specialize (Hm s). destruct (m s) as [[a|e] s1]; [|done].
  by rewrite Hf.
Qed.
Lemma keeps_objects_files {A} k (m : M fs A) : keeps_objects k (on_files m).
Proof. intros s. unfold on_files. by destruct (m (snd s)). Qed.
Lemma keeps_objects_backend {A} k (m : M B A) :
  (forall b, objects (snd (m b)) !! k = objects b !! k) -> keeps_objects k (on_backend m).
Proof. intros Hm s. unfold on_backend. specialize (Hm (fst s)). by destruct (m (fst s)). Qed.
Lemma keeps_objects_attempt {A} k (m : M (B * fs) A) : keeps_objects k m -> keeps_objects k (attempt m).
Proof. intros Hm s. unfold attempt. specialize (Hm s). by destruct (m s). Qed.

Lemma upload_keeps now id source gen k :
  normal id -> k <> archive_key id gen -> k <> manifest_key id gen ->
  keeps_objects k (upload now id source gen).
Proof.
  intros Hid Ha Hm. assert (store_key (archive_key id gen) /\ store_key (manifest_key id gen)) as [Ska Skm]
    by (split; exists id, gen; auto).
  apply keeps_objects_bind; [apply keeps_objects_files|]. intros [es we].
  apply keeps_objects_bind; [apply keeps_objects_backend; intros b; by apply Put_frame|]. intros put.
  destruct (if put_drained put then we else _) as [e|]; [done|]. destruct (put_error put); [done|].
  apply keeps_objects_bind; [done|]. intros mb.
  apply keeps_objects_bind; [apply keeps_objects_backend; intros b; by apply Put_frame|]. intros put'.
  destruct (put_error put'); [done|]. apply keeps_objects_bind.
  - apply keeps_objects_attempt, keeps_objects_backend. intros b. by rewrite Head_frame.
  - intros [[v|]|e] s; try done. by case_match.
Qed.

Lemma Commit_keeps now id source expected k :
  normal id -> k <> archive_key id (uint64 (expected + 1)) -> k <> manifest_key id (uint64 (expected + 1)) ->
  keeps_objects k (Commit now id source expected).
Proof.
  intros Hid Ha Hm. apply keeps_objects_bind.
  - apply keeps_objects_backend. intros b. by rewrite Head_frame.
  - intros h. destruct (match h with Some h => _ | None => _ end); [done|]. by apply upload_keeps.
Qed.

(** C9: whatever fails during a commit - the walk, an upload, the verification - every
    generation up to the one the commit started from that was complete stays complete. *)
Theorem Commit_keeps_generations now id source expected b f m :
  normal id -> 0 <= expected < 2 ^ 64 -> complete (objects b) id m -> m_Generation m <= expected ->
  complete (objects (fst (snd (Commit now id source expected (b, f))))) id m.
Proof.
  intros Hid He Hc Hle. pose proof (head_check_inv _ _ _ _ Hc) as (_ & Hg & _).
  assert (m_Generation m <> uint64 (expected + 1)) as Hne.
  { unfold uint64, wrap. destruct (decide (expected = 2 ^ 64 - 1)) as [->|?].
    - change ((2 ^ 64 - 1 + 1) mod 2 ^ 64) with 0. lia.
    - rewrite Z.mod_small by lia. lia. }
  assert (0 <= uint64 (expected + 1) < 2 ^ 64) as Hr by (apply (wrap_range 64); lia).
  eapply head_check_agree; [| |exact Hc]; apply (Commit_keeps now id source expected _ Hid).
  - apply not_eq_sym, archive_manifest_key.
  - intros E%manifest_key_inj; lia.
  - intros E%archive_key_inj; lia.
  - apply archive_manifest_key.
Qed.

(** ** What a commit comes to *)

Lemma Commit_conflict_aux now id source expected b b' f h :
  Head id b = (Ok h, b') -> match h with Some h => m_Generation h | None => 0 end <> expected ->
  Commit now id source expected (b, f) = (Err ErrGenerationConflict, (b', f)).
Proof.
  intros E Hne. unfold Store.Commit. erewrite M_bind_ok by (apply on_backend_ok; exact E).
  destruct h as [h|]; [|rewrite (proj2 (Z.eqb_neq _ _)) by congruence; done].
  by rewrite (proj2 (Z.eqb_neq _ _)).
Qed.

Lemma sha256_hex_valid b : valid_utf8 (digest_of b) = true.
Proof. apply ascii_valid, sha256_hex_ascii. Qed.

Definition new_manifest now id gen es : Manifest :=
  mkManifest id gen (digest_of (pack es)) (size_of (pack es))
    (match lockDigest with Some f => f id | None => "" end) now.

Lemma Commit_working now id source b f f' h es :
  normal id -> valid_utf8 id = true ->
  (forall d, lockDigest = Some d -> valid_utf8 (d id) = true) -> is_Some (time_text now) ->
  working b -> well_kept (objects b) id -> head_spec (objects b) id h ->
  let expected := match h with Some h => m_Generation h | None => 0 end in
  expected + 1 < 2 ^ 64 ->
  writeArchive (path_of source) f = (Ok (es, None), f') ->
  let m := new_manifest now id (expected + 1) es in
  exists b' mb, Commit now id source expected (b, f) = (Ok m, (b', f'))
    /\ decode_manifest mb = Ok m
    /\ objects b' = with_generation (objects b) id (expected + 1) (pack es) mb /\ working b'.
Proof.
  intros Hid Hv Hld Ht Hb Hw Hh expected He Hes m.
  destruct (Head_working id b Hid Hb Hw) as (h0 & b1 & E1 & Ho1 & Hb1 & Hh0).
  rewrite (head_spec_unique _ _ _ _ Hh0 Hh) in E1. clear h0 Hh0.
  assert (0 <= expected) as He0.
  { subst expected. destruct h as [h|]; [|done]. destruct Hh as [Hc _].
    apply head_check_inv in Hc as (_ & ? & _). lia. }
  assert (manifest_ok m) as Hm.
  { pose proof (swrap_range 64 (Z.of_nat (length (pack es))) eq_refl) as Hz.
    unfold manifest_ok, m, new_manifest.
    cbn [m_ID m_Generation m_SHA256 m_Size m_PackLockDigest m_CreatedAt].
    split; [done|]. split; [apply sha256_hex_valid|]. split; [|split; [lia|]; split; [exact Hz|done]].
    destruct lockDigest as [d|]; [by apply Hld|done]. }
  apply manifest_roundtrip_aux in Hm as (mb & Emb & Hd).
  destruct (Put_working (archive_key id (expected + 1)) (Reader (pack es) ErrEOF) (-1) b1)
    as (b2 & E2 & Hb2 & Ho2); [exists id, (expected + 1); auto|done|done|].
  destruct (Put_working (manifest_key id (expected + 1)) (bytes_reader mb) (Z.of_nat (length mb)) b2)
    as (b3 & E3 & Hb3 & Ho3); [exists id, (expected + 1); auto|done|done|].
  assert (objects b3 = with_generation (objects b) id (m_Generation m) (pack es) mb) as Ho.
  { rewrite Ho3, Ho2, Ho1. done. }
  assert (head_spec (objects b3) id (Some m)) as Hs.
  { rewrite Ho. apply head_spec_new; try done; cbn; [lia|]. intros m' Hm'. subst expected.
    destruct h as [h|]; [|by apply Hh in Hm']. apply Hh in Hm'. lia. }
  destruct (Head_working id b3 Hid Hb3) as (h0 & b4 & E4 & Ho4 & Hb4 & Hh0).
  { rewrite Ho. by apply well_kept_new. }
  rewrite (head_spec_unique _ _ _ _ Hh0 Hs) in E4.
  exists b4, mb. split_and!; [|done|by rewrite Ho4, Ho|done].
  unfold Store.Commit. erewrite M_bind_ok by (apply on_backend_ok; exact E1).
  replace (match h with Some h => _ | None => _ end) with false.
  2:{ subst expected. destruct h as [h|]; [by rewrite Z.eqb_refl|done]. }
  cbv iota. assert (uint64 (expected + 1) = expected + 1) as -> by (unfold uint64, wrap; apply Z.mod_small; lia).
  unfold Store.upload. erewrite M_bind_ok by (apply on_files_ok; exact Hes). cbv beta iota zeta.
  erewrite M_bind_ok by (apply on_backend_ok; exact E2). cbn [put_drained put_error].
  fold (new_manifest now id (expected + 1) es). fold m.
  erewrite M_bind_ok by (unfold lift_result; rewrite Emb; done).
  erewrite M_bind_ok by (apply on_backend_ok; exact E3). cbn [put_error].
  erewrite M_bind_ok by (unfold attempt; erewrite on_backend_ok by exact E4; done). cbv iota beta.
  change (m_Generation m) with (expected + 1).
  rewrite !Z.eqb_refl, bool_decide_eq_true_2 by done. done.
Qed.

(** A commit that reports a manifest stored the directory under it, whatever else
    failed. *)
Lemma Commit_stored now id source expected b f v s' :
  normal id -> Commit now id source expected (b, f) = (Ok v, s') ->
  exists a, let bytes := pack (archive_entries (path_of source) (nodes f)) in
  m_ID v = id /\ m_Generation v = uint64 (expected + 1)
  /\ objects (fst s') !! archive_key id (m_Generation v) = Some a
  /\ size_of a = m_Size v /\ digest_of a = m_SHA256 v
  /\ m_SHA256 v = digest_of bytes /\ m_Size v = size_of bytes.
Proof.
  intros Hid HC. unfold Store.Commit in HC. unbind HC as h s1 E1.
  assert (snd s1 = f) as Hf.
  { unfold on_backend in E1. cbn in E1. destruct (Head id b). by injection E1 as _ <-. }
  destruct (match h with Some h => _ | None => _ end); [done|]. clear E1 h.
  unfold Store.upload in HC. unbind HC as a s2 E2. destruct a as [es we].
  unbind HC as put s3 E3. destruct (if put_drained put then we else _) as [e|] eqn:Ew; [done|].
  destruct (put_error put) eqn:Ep; [done|]. destruct (put_drained put); [|done]. subst we.
  unfold on_files in E2. destruct (writeArchive (path_of source) (snd s1)) as [x f2] eqn:Ea.
  injection E2 as -> <-. apply writeArchive_ok in Ea as [-> _]. rewrite Hf in HC.
  unbind HC as mb s4 E4. injection E4 as _ <-. unbind HC as put' s5 E5. destruct (put_error put'); [done|].
  unbind HC as vr s6 E6. unfold attempt, on_backend in E6. destruct (Head id (fst s5)) as [x b6] eqn:Eh.
  injection E6 as <- <-. destruct x as [[v'|]|e]; [|done..].
  destruct (_ || negb (m_Size v' =? _)) eqn:Ev; [done|]. injection HC as <- <-. bools. cbn [fst].
  unfold Head in Eh. apply M_bind_inv in Eh as (l & b7 & El & Eh).
  pose proof (List_frame id (fst s5)) as Hl. rewrite El in Hl. cbn in Hl.
  pose proof (head_loop_frame id (manifest_names l) b7) as Hfr. rewrite Eh in Hfr. cbn in Hfr.
  apply head_loop_sound in Eh as (Hi & Hg & a & Ha & Hz & Hs); [|done].
  exists a. cbn in *. rewrite Hfr. split_and!; done.
Qed.
End Commits.
