(* ===== verification/StoreRestore.v ===== *)
(** * Restores ([Restore] in [internal/store/store.go])

    Where a restore can write, and that it brings back the directory a commit
    archived. *)
From Stdlib Require Import String Ascii.
From S2P Require Import Prelude GoStrings GoJson JsonText GoSha256 Filepath Fs Archive Store StoreHead StoreCommit.

(** ** Where a restore writes *)

Lemma keeps_bind_post {A C} p (m : M fs A) (f : A -> M fs C) (P : A -> Prop) :
  keeps p m -> (forall s a s', m s = (Ok a, s') -> P a) -> (forall a, P a -> keeps p (f a)) ->
  keeps p (m ≫= f).
Proof.
  intros Hm HP Hf s. unfold mbind, M_bind. specialize (Hm s). specialize (HP s).
  destruct (m s) as [[a|e] s1]; [|done]. rewrite (Hf a); [done|by eapply HP].
Qed.

(** A node that is there stays as it is. *)
Definition holds {A} (p : path) (n : node) (m : M fs A) : Prop :=
  forall s, nodes s !! p = Some n -> nodes (snd (m s)) !! p = Some n.

Section Holds.
Context (p : path) (n : node).
Lemma holds_keeps {A} (m : M fs A) : keeps p m -> holds p n m.
Proof. intros Hm s Hs. by rewrite Hm. Qed.
Lemma holds_bind {A C} (m : M fs A) (f : A -> M fs C) :
  holds p n m -> (forall a, holds p n (f a)) -> holds p n (m ≫= f).
Proof.
  intros Hm Hf s Hs. unfold mbind, M_bind. specialize (Hm s Hs).
  destruct (m s) as [[a|e] s1]; [by apply Hf|done].
Qed.
Lemma holds_refl {A} (r : result A) : holds p n (lift_result r).
Proof. by intros s Hs. Qed.
Lemma holds_mkdirs mode l : holds p n (mkdirs mode l).
Proof.
  induction l as [|q l IH]; intros s Hs; [exact Hs|]. cbn.
  destruct (nodes s !! q) as [[]|] eqn:E; try exact Hs; [by apply IH|].
  apply IH. cbn. rewrite lookup_insert_ne; [done|]. intros ->. congruence.
Qed.
Lemma holds_MkdirAll mode q : holds p n (MkdirAll mode q).
Proof.
  intros s Hs. unfold MkdirAll, call. destruct (fs_faults s) as [|[f|] l]; by apply holds_mkdirs.
Qed.
End Holds.

Lemma restore_entries_holds umask t l n :
  Forall normal t -> t <> [] -> holds t n (restore_entries umask (abs_path t) l).
Proof.
  intros Ht Htn. induction l as [|e l IH]; [apply holds_refl|]. apply holds_bind; [|intros _; exact IH]. clear IH.
  unfold restore_entry. case_match; [apply holds_refl|]. case_match eqn:Eh; [apply holds_refl|]. apply negb_false_iff in Eh.
  destruct (restore_target_below t _ Ht Htn Eh) as (p & c & Hn & ->). rewrite path_of_abs_path by done.
  assert (t ++ p ++ [c] <> t) as Hne.
  { intros E. apply (f_equal length) in E. rewrite !length_app in E. cbn in E. lia. }
  destruct (h_Typeflag _); try apply holds_refl; [apply holds_MkdirAll|].
  rewrite app_assoc in *. apply Forall_app in Hn as [Htp [Hc _]%Forall_cons].
  rewrite Dir_abs_path, path_of_abs_path by done.
  apply holds_bind; [apply holds_MkdirAll|]. intros _. apply holds_keeps.
  apply keeps_bind; [by apply keeps_OpenTrunc|]. intros _. apply keeps_then_close.
  apply keeps_bind; [by apply keeps_WriteFile|]. intros _. by destruct (en_end e).
Qed.

(** The names a restore makes for itself in a directory. *)
Definition restore_temp (d q : path) : Prop := exists x r, q = d ++ (".restore-" +:+ x) :: r.

Section Restores.
Context (unpack : reader -> unpacked) (umask : Z).
Implicit Types o : object.
Abbreviation restore_archive := (restore_archive unpack umask).
Abbreviation unpack_into := (unpack_into umask).

Lemma temp_name_shape d prefix s : exists x, temp_name d prefix s = d ++ [prefix +:+ x].
Proof. eexists. done. Qed.

Lemma normal_restore_temp x : ContainsByte slash x = false -> normal (".restore-" +:+ x).
Proof. intros Hx. split_and!; [done..|]. exact Hx. Qed.

Lemma temp_normal d s : Forall normal d -> Forall normal (temp_name d ".restore-" s).
Proof.
  intros Hd. apply Forall_app. split; [done|]. constructor; [|done]. apply normal_restore_temp.
  generalize (S (longest (nodes s))). intros k. induction k as [|k IH]; [done|]. exact IH.
Qed.

Lemma MkdirTemp_ok d s t s' : MkdirTemp d ".restore-" s = (Ok t, s') ->
  t = temp_name d ".restore-" s /\ nodes s' = <[t := FDir 448]> (nodes s).
Proof. intros E. pose proof (MkdirTemp_cases d ".restore-" s) as H. by rewrite E in H. Qed.

Lemma unpack_into_keeps m u t dest q :
  Forall normal t -> t <> [] -> under t q = false -> q ∉ prefixes t -> under dest q = false ->
  keeps q (unpack_into m u t dest).
Proof.
  intros Ht Htn Hu Hq Hd. unfold Store.unpack_into. destruct (un_open u); [done|].
  apply keeps_bind; [by apply restore_entries_keeps|]. intros _.
  case_match; [done|]. case_match; [done|]. apply keeps_bind; [apply keeps_attempt; intros s; by rewrite Stat_nodes|].
  intros [n|e]; [done|]. case_match; [done|]. apply keeps_bind; [by apply keeps_Rename|]. done.
Qed.

Lemma restore_archive_keeps m o d c q :
  Forall normal (d ++ [c]) -> q ∉ prefixes d -> under (d ++ [c]) q = false -> ~ restore_temp d q ->
  keeps q (restore_archive m o (abs_path (d ++ [c]))).
Proof.
  intros Hn Hq Hu Ht. apply Forall_app in Hn as Hdc. destruct Hdc as [Hd [Hc _]%Forall_cons].
  unfold Store.restore_archive. rewrite Dir_abs_path, !path_of_abs_path by done.
  apply keeps_bind; [by apply keeps_MkdirAll_other|]. intros _.
  apply (keeps_bind_post _ _ _ (fun t => exists s, t = temp_name d ".restore-" s)).
  - intros s. pose proof (MkdirTemp_cases d ".restore-" s) as H.
    destruct (MkdirTemp d ".restore-" s) as [[t|e] s']; [|by cbn; rewrite H].
    destruct H as [-> H]. cbn. rewrite H. apply lookup_insert_ne. intros <-. apply Ht.
    destruct (temp_name_shape d ".restore-" s) as [x ->]. by exists x, [].
  - intros s t s' [-> _]%MkdirTemp_ok. by exists s.
  - intros t [s ->]. assert (under (temp_name d ".restore-" s) q = false) as Hut.
    { apply not_under. intros r ->. apply Ht. destruct (temp_name_shape d ".restore-" s) as [x ->].
      exists x, r. by rewrite <- app_assoc. }
    apply keeps_deferred; [by apply keeps_RemoveAll|].
    apply unpack_into_keeps; [by apply temp_normal|by destruct d|done| |done].
    unfold temp_name. rewrite prefixes_snoc. intros [?|E%list_elem_of_singleton]%elem_of_app; [done|].
    rewrite not_under in Hut. apply (Hut []). by rewrite app_nil_r.
Qed.

(** Unpacking to an occupied destination fails and leaves it as it was. *)
Lemma unpack_into_occupied m u t dest n s :
  Forall normal t -> t <> [] -> nodes s !! t = Some (FDir 448) -> nodes s !! dest = Some n ->
  (is_dir n = true -> exists r x, r <> [] /\ nodes s !! (dest ++ r) = Some x) ->
  (forall q, under dest q = true -> under t q = false /\ q ∉ prefixes t) ->
  let '(r, s') := unpack_into m u t dest s in
  (exists e, r = Err e) /\ forall q, under dest q = true -> nodes s' !! q = nodes s !! q.
Proof.
  intros Htn Ht0 Hts Hs Hne Hut. destruct (unpack_into m u t dest s) as [r s'] eqn:Eu.
  unfold Store.unpack_into in Eu. destruct (un_open u); [injection Eu as <- <-; eauto|].
  pose proof (fun q Hq => restore_entries_keeps umask t (un_entries u) q Htn Ht0 (proj1 (Hut q Hq)) (proj2 (Hut q Hq)) s) as Hk.
  pose proof (restore_entries_holds umask t (un_entries u) (FDir 448) Htn Ht0 s Hts) as Hh.
  unfold mbind, M_bind in Eu.
  destruct (restore_entries umask (abs_path t) _ s) as [[[]|e] s4]; [|injection Eu as <- <-; eauto]. cbn in Hk, Hh.
  case_match; [injection Eu as <- <-; eauto|]. case_match; [injection Eu as <- <-; eauto|].
  unfold attempt in Eu. pose proof (Stat_nodes dest s4) as Hst.
  destruct (Stat dest s4) as [[x|e] s5]; cbn in Hst.
  { injection Eu as <- <-. split; [eauto|]. intros. rewrite Hst. auto. }
  case_match; [injection Eu as <- <-; split; [eauto|]; intros; rewrite Hst; auto|].
  assert (forall r, under dest (dest ++ r) = true) as Hself by apply under_app.
  destruct (Rename_dir_occupied t dest s5 n) as (e' & E1 & E2).
  - rewrite Hst, Hh. by intros n0 [= <-].
  - rewrite Hst, Hk; [done|]. rewrite <- (app_nil_r dest) at 2. apply Hself.
  - intros Hdir. destruct (Hne Hdir) as (r0 & x & Hr0 & Hx). exists r0, x. split; [done|]. by rewrite Hst, Hk.
  - destruct (Rename t dest s5) as [[]]; [done|]. injection Eu as <- <-. cbn in *. split; [eauto|].
    intros. rewrite E2, Hst. auto.
Qed.

(** What is at the destination stays, and the restore reports an error. *)
Lemma restore_archive_occupied m o d c n q s :
  Forall normal (d ++ [c]) -> nodes s !! (d ++ [c]) = Some n ->
  (is_dir n = true -> exists r x, r <> [] /\ nodes s !! (d ++ [c] ++ r) = Some x) ->
  under (d ++ [c]) q = true ->
  (exists e, fst (restore_archive m o (abs_path (d ++ [c])) s) = Err e)
  /\ nodes (snd (restore_archive m o (abs_path (d ++ [c])) s)) !! q = nodes s !! q.
Proof.
  intros Hn Hs Hne Hq. apply Forall_app in Hn as Hdc. destruct Hdc as [Hd [Hc _]%Forall_cons].
  unfold Store.restore_archive. rewrite Dir_abs_path, !path_of_abs_path by done.
  assert (forall q', under (d ++ [c]) q' = true -> q' ∉ prefixes d) as Hpre.
  { intros q' [r ->]%under_spec Hin%prefixes_length. rewrite !length_app in Hin. cbn in Hin. lia. }
  pose proof (fun q' Hq' => keeps_MkdirAll_other q' (created_mode umask 488) d (Hpre q' Hq') s) as H1.
  unfold mbind at 1 3, M_bind at 1 3.
  destruct (MkdirAll (created_mode umask 488) d s) as [[[]|e] s1]; cbn in H1; [|eauto].
  pose proof (MkdirTemp_cases d ".restore-" s1) as H2. unfold mbind, M_bind.
  destruct (MkdirTemp d ".restore-" s1) as [[t|e] s2]; [|split; [eauto|cbn; rewrite H2; auto]].
  destruct H2 as [Et H2].
  assert (t <> d ++ [c]) as Htd.
  { intros E. pose proof (temp_name_fresh d ".restore-" s1) as Hf. rewrite <- Et, E, H1 in Hf; [congruence|].
    apply under_spec. exists []. by rewrite app_nil_r. }
  assert (forall q', under (d ++ [c]) q' = true -> under t q' = false) as Hut.
  { intros q' [r ->]%under_spec. apply not_under. intros r' E. apply Htd. rewrite Et in *.
    destruct (temp_name_shape d ".restore-" s1) as [x Ex]. rewrite Ex, <- !app_assoc in *.
    apply app_inv_head in E. injection E as -> _. done. }
  assert (forall q', under (d ++ [c]) q' = true -> nodes s2 !! q' = nodes s !! q') as Hs2.
  { intros q' Hq'. rewrite H2, lookup_insert_ne; [by apply H1|]. intros <-. specialize (Hut t Hq').
    rewrite not_under in Hut. apply (Hut []). by rewrite app_nil_r. }
  assert (under (d ++ [c]) (d ++ [c]) = true) as Hself by (apply under_spec; exists []; by rewrite app_nil_r).
  unfold deferred. destruct (unpack_into m (unpack (ob_reader o)) t (d ++ [c]) s2) as [r s3] eqn:Eu.
  assert ((exists e, r = Err e) /\ forall q', under (d ++ [c]) q' = true -> nodes s3 !! q' = nodes s2 !! q') as [Hr Hs3].
  { pose proof (unpack_into_occupied m (unpack (ob_reader o)) t (d ++ [c]) n s2) as Ho. rewrite Eu in Ho. apply Ho.
    - rewrite Et. by apply temp_normal.
    - rewrite Et. by destruct d.
    - by rewrite H2, lookup_insert_eq.
    - by rewrite Hs2.
    - intros Hdir. destruct (Hne Hdir) as (r0 & x & Hr0 & Hx). exists r0, x. split; [done|].
      rewrite Hs2 by apply under_app. by rewrite <- app_assoc.
    - intros q' Hq'. split; [by apply Hut|]. rewrite Et. unfold temp_name. rewrite prefixes_snoc.
      intros [?|E%list_elem_of_singleton]%elem_of_app; [by apply (Hpre q')|].
      specialize (Hut q' Hq'). rewrite not_under in Hut. apply (Hut []). by rewrite app_nil_r, Et. }
  pose proof (keeps_RemoveAll q t (Hut q Hq) s3) as Hrm. destruct (RemoveAll t s3) as [r' s6]. cbn in *.
  split; [done|]. rewrite Hrm, Hs3 by done. by apply Hs2.
Qed.
End Restores.

(** ** A restore that works *)

(** The tree with the missing directories of a list. *)
Definition with_dirs (mode : Z) (l : list path) (m : gmap path node) : gmap path node :=
  foldl (fun m q => match m !! q with Some _ => m | None => <[q := FDir mode]> m end) m l.

Definition dir_or_none (m : gmap path node) (q : path) : Prop :=
  m !! q = None \/ exists md, m !! q = Some (FDir md).

Lemma with_dirs_step mode q m : dir_or_none m q ->
  forall q', dir_or_none m q' ->
  dir_or_none (match m !! q with Some _ => m | None => <[q := FDir mode]> m end) q'.
Proof.
  intros Hq q' Hq'. destruct (m !! q) as [x|] eqn:E; [done|]. unfold dir_or_none.
  destruct (decide (q = q')) as [->|Hne]; [right; rewrite lookup_insert_eq; eauto|by rewrite lookup_insert_ne].
Qed.

Lemma mkdirs_with_dirs mode l m : Forall (dir_or_none m) l ->
  mkdirs mode l (Fs m []) = (Ok tt, Fs (with_dirs mode l m) []).
Proof.
  revert m. induction l as [|q l IH]; intros m Hl; [done|]. apply Forall_cons in Hl as [Hq Hl]. cbn.
  assert (Forall (dir_or_none (match m !! q with Some _ => m | None => <[q := FDir mode]> m end)) l) as Hl'
    by (eapply Forall_impl; [exact Hl|]; intros; by apply with_dirs_step).
  destruct Hq as [Hq|[md Hq]]; rewrite Hq in *; by apply IH.
Qed.

Lemma lookup_with_dirs mode l m q : with_dirs mode l m !! q =
  match m !! q with Some x => Some x | None => if bool_decide (q ∈ l) then Some (FDir mode) else None end.
Proof.
  revert m. induction l as [|p l IH]; intros m.
  { cbn. rewrite bool_decide_eq_false_2 by (intros ?%elem_of_nil; done). by destruct (m !! q). }
  change (with_dirs mode (p :: l) m)
    with (with_dirs mode l (match m !! p with Some _ => m | None => <[p := FDir mode]> m end)).
  rewrite IH. destruct (m !! p) as [x|] eqn:Ep.
  - destruct (m !! q) eqn:Eq; [done|]. rewrite (bool_decide_ext _ (q ∈ p :: l)); [done|]. rewrite elem_of_cons.
    split; [by right|]. intros [->|?]; [congruence|done].
  - destruct (decide (p = q)) as [<-|Hne].
    + rewrite lookup_insert_eq, Ep, bool_decide_eq_true_2; [done|by left].
    + rewrite lookup_insert_ne by done. destruct (m !! q) eqn:Eq; [done|].
      rewrite (bool_decide_ext _ (q ∈ p :: l)); [done|]. rewrite elem_of_cons. split; [by right|by intros [->|?]].
Qed.

(** What the streams can carry: directories and regular files with names and modes a
    tar header can hold. *)
Definition entry_ok (e : entry) : Prop :=
  let h := en_header e in
  (h_Typeflag h = TypeReg \/ h_Typeflag h = TypeDir /\ en_body e = [])
  /\ h_Name h <> "" /\ HasSuffix (h_Name h) "/" = false /\ ContainsByte (chr 0) (h_Name h) = false
  /\ 0 <= h_Mode h < 4096 /\ en_end e = None.

(** A directory whose names and modes a tar header can hold. *)
Definition archivable (m : gmap path node) : Prop :=
  plain_tree m /\ forall r n, m !! r = Some n -> r <> [] ->
    Forall (fun c => ContainsByte (chr 0) c = false) r /\ 0 <= node_mode n < 4096.

(** A check of [archivable] that evaluates. *)
Definition node_checks (m : gmap path node) (q : path) (n : node) : bool :=
  forallb (fun c => bool_decide (normal c) && negb (ContainsByte (chr 0) c)) q
  && forallb (fun p => bool_decide (p = q) || match m !! p with Some (FDir _) => true | _ => false end) (prefixes q)
  && (bool_decide (q = []) || is_dir n || is_regular n)
  && (bool_decide (q = []) || (0 <=? node_mode n) && (node_mode n <? 4096))
  && (negb (match q with [c] => excluded c | _ => false end) || negb (is_dir n)).

Lemma archivable_checks m :
  forallb (fun qn => node_checks m (fst qn) (snd qn)) (map_to_list m) = true -> archivable m.
Proof.
  intros Hm. assert (forall q n, m !! q = Some n -> node_checks m q n = true) as Hq.
  { intros q n Hqn%elem_of_map_to_list%list_elem_of_In. rewrite forallb_forall in Hm. by apply (Hm (q, n)). }
  clear Hm. assert (forall q n, m !! q = Some n -> Forall normal q /\ Forall (fun c => ContainsByte (chr 0) c = false) q) as Hn.
  { intros q n H%Hq. unfold node_checks in H. bools. rewrite !Forall_forall.
    match goal with H : forallb _ q = true |- _ => rewrite forallb_forall in H end.
    split; intros c Hc%list_elem_of_In%H; by bools. }
  split; [split|].
  - intros r n H. by apply (Hn r n).
  - intros p r n H Hp Hr. apply Hq in H. unfold node_checks in H. bools.
    match goal with H : forallb _ (prefixes _) = true |- _ => rewrite forallb_forall in H; specialize (H p) end.
    match goal with H : In p _ -> _ |- _ => apply orb_true_iff in H as [E|E] end.
    + bools. apply (f_equal length) in E. rewrite length_app in E. destruct r; [done|cbn in E; lia].
    + destruct (m !! p) as [[]|]; eauto; done.
    + apply list_elem_of_In, elem_of_prefixes. eauto.
  - intros r n Hr H%Hq. unfold node_checks in H. bools.
    match goal with H : bool_decide (r = []) || _ || _ = true |- _ => rewrite bool_decide_eq_false_2 in H by done end.
    by apply orb_true_iff.
  - intros c n H He. apply Hq in H. unfold node_checks in H. rewrite He in H. bools.
    match goal with H : negb true || _ = true |- _ => by apply negb_true_iff in H end.
  - intros r n H Hr. split; [by apply (Hn r n)|]. apply Hq in H. unfold node_checks in H. bools.
    match goal with H : bool_decide (r = []) || (_ && _) = true |- _ =>
      rewrite bool_decide_eq_false_2 in H by done; cbn [orb] in H end. bools. lia.
Qed.

Lemma rel_path_ok r :
  Forall normal r -> r <> [] -> Forall (fun c => ContainsByte (chr 0) c = false) r ->
  rel_path r <> "" /\ HasSuffix (rel_path r) "/" = false /\ ContainsByte (chr 0) (rel_path r) = false.
Proof.
  intros Hn Hr H0. unfold rel_path. split_and!.
  - destruct r as [|c r]; [done|]. apply Forall_cons in Hn as [(Hc & _) _]. by apply Join_nonempty.
  - destruct (HasSuffix _ _) eqn:E; [|done]. apply HasSuffix_spec in E as [x E].
    apply (f_equal parts) in E. rewrite parts_Join in E by eauto using Forall_normal_no_slash.
    change "/" with ("/" +:+ "") in E. rewrite parts_app in E. subst r.
    apply Forall_app in Hn as [_ Hn]. cbn in Hn. apply Forall_cons in Hn as [(? & _) _]. done.
  - clear Hn. induction r as [|c r IH]; [done|]. apply Forall_cons in H0 as [Hc H0].
    destruct r as [|d r]; [done|]. rewrite Join_cons2. unfold ContainsByte.
    rewrite !string_existsb_app. unfold ContainsByte in Hc, IH. rewrite Hc, IH by done. done.
Qed.

Lemma archive_entries_ok source m :
  archivable (subtree source m) -> Forall entry_ok (archive_entries source m).
Proof.
  intros [Hp Ha]. apply Forall_forall. intros e He. apply list_elem_of_omap in He as ([r n] & Hin & E).
  apply elem_of_walk in Hin as [Hr Hn]. rewrite <- lookup_subtree in Hn.
  unfold entry_of in E. destruct (excluded (rel_path r)); [done|]. injection E as <-.
  destruct (Ha r n Hn Hr) as [H0 Hm]. pose proof (pt_normal _ Hp r n Hn) as Hnr.
  destruct (rel_path_ok r Hnr Hr H0) as (H1 & H2 & H3).
  unfold entry_ok. cbn [en_header en_body en_end h_Name h_Typeflag h_Mode]. split_and!; try done; try lia.
  destruct (pt_kind _ Hp r n Hr Hn); destruct n; cbn in *; auto; done.
Qed.

Section RoundTrip.
Context (pack : list entry -> list byte) (unpack : reader -> unpacked) (umask : Z).
Context (unpack_pack : forall es, Forall entry_ok es ->
  unpack (bytes_reader (pack es)) = mkUnpacked None es ErrEOF (pack es)).

(** The tree of a restore into [d ++ [c]] of a directory [sub]. *)
Definition restored (m sub : gmap path node) (d : path) (c : string) (m' : gmap path node) : Prop :=
  (forall r, r <> [] -> m' !! (d ++ c :: r) = image umask (walk [] sub) !! r)
  /\ m' !! (d ++ [c]) = Some (FDir 448)
  /\ (forall q, under (d ++ [c]) q = false ->
        m' !! q = with_dirs (created_mode umask 488) (prefixes d) m !! q).

Lemma walk_subtree source m : walk source m = walk [] (subtree source m).
Proof.
  unfold walk. f_equal. f_equal. f_equal. apply map_eq. intros r. by rewrite !lookup_subtree.
Qed.

(** *** The staging directory *)

(** A tree [m1] with nothing at the destination [d ++ [c]] nor at the staging directory,
    and what the archive of [source] makes of it: replayed into the staging directory, and
    moved to the destination. *)
Section Staging.
Context (source d : path) (c x : string) (msrc m1 : gmap path node).
Let t := d ++ [".restore-" +:+ x].
Context (Hd : d <> [] -> exists md, m1 !! d = Some (FDir md)).
Context (Ht : forall r, m1 !! (t ++ r) = None) (Hc : forall r, m1 !! (d ++ c :: r) = None).
Context (Hcx : c <> ".restore-" +:+ x).

Definition staged : gmap path node := replayed umask t (walk source msrc) (<[t := FDir 448]> m1).
Definition moved : gmap path node := graft (d ++ [c]) (subtree t staged) (prune (d ++ [c]) (prune t staged)).

Lemma staging_apart r : strip t (d ++ c :: r) = None.
Proof.
  destruct (strip t (d ++ c :: r)) eqn:E; [|done]. apply strip_spec in E. unfold t in E.
  rewrite <- app_assoc in E. apply app_inv_head in E. by injection E as -> _.
Qed.

Lemma staged_outside q : strip t q = None -> staged !! q = m1 !! q.
Proof.
  intros Hq. unfold staged, replayed. rewrite lookup_graft, Hq, lookup_insert_ne; [done|].
  intros <-. by rewrite strip_refl in Hq.
Qed.

Lemma staged_inside r : r <> [] -> staged !! (t ++ r) = image umask (walk source msrc) !! r.
Proof.
  intros Hr. unfold staged, replayed. rewrite lookup_graft, strip_app. destruct (image _ _ !! r); [done|].
  rewrite lookup_insert_ne; [apply Ht|]. intros E. apply (f_equal length) in E. rewrite length_app in E.
  destruct r; [done|cbn in E; lia].
Qed.

Lemma staged_root : staged !! t = Some (FDir 448).
Proof.
  unfold staged, replayed. rewrite lookup_graft, strip_refl.
  assert (image umask (walk source msrc) !! [] = None) as ->; [|by rewrite lookup_insert_eq].
  apply walk_image_none; [apply walk_NoDup|]. intros Hin. apply list_elem_of_fmap in Hin as ([r n] & E & Hin).
  cbn in E. subst r. by apply elem_of_walk in Hin as [? _].
Qed.

Lemma moved_inside r : prune t moved !! (d ++ c :: r) = staged !! (t ++ r).
Proof.
  assert (under t (d ++ c :: r) = false) as Hu.
  { apply not_under. intros r' E. pose proof (staging_apart r) as Hs. by rewrite E, strip_app in Hs. }
  rewrite lookup_prune, Hu. unfold moved. rewrite lookup_graft.
  replace (d ++ c :: r) with ((d ++ [c]) ++ r) by by rewrite <- app_assoc.
  rewrite strip_app, lookup_subtree. destruct (staged !! (t ++ r)); [done|]. by rewrite !lookup_prune, under_app.
Qed.

Lemma moved_outside q : under (d ++ [c]) q = false -> prune t moved !! q = m1 !! q.
Proof.
  intros Hq. rewrite lookup_prune. destruct (under t q) eqn:Eu; [apply under_spec in Eu as [r ->]; symmetry; apply Ht|].
  unfold moved. rewrite lookup_graft. destruct (strip (d ++ [c]) q) as [r|] eqn:E.
  { apply strip_spec in E as ->. by rewrite under_app in Hq. }
  rewrite !lookup_prune, Hq, Eu. apply staged_outside. destruct (strip t q) as [r|] eqn:E'; [|done].
  apply strip_spec in E' as ->. by rewrite under_app in Eu.
Qed.

Lemma staged_rename : Rename t (d ++ [c]) (Fs staged []) = (Ok tt, Fs moved []).
Proof.
  apply Rename_new; [|by apply not_eq_sym|eexists; apply staged_root|].
  - intros Hne. rewrite staged_outside; [by apply Hd|]. destruct (strip t d) as [r|] eqn:E; [|done].
    apply strip_spec in E. apply (f_equal length) in E. unfold t in E. rewrite !length_app in E. cbn in E. lia.
  - rewrite staged_outside by apply staging_apart. apply Hc.
Qed.

(** The entries are replayed, the digest agrees, the destination is free. *)
Lemma unpack_into_works man o :
  archivable (subtree source msrc) -> Forall normal t ->
  (forall q, q ∈ prefixes d -> exists md, m1 !! q = Some (FDir md)) ->
  ob_reader o = bytes_reader (pack (archive_entries source msrc)) ->
  m_SHA256 man = digest_of (pack (archive_entries source msrc)) ->
  unpack_into umask man (unpack (ob_reader o)) t (d ++ [c]) (Fs (<[t := FDir 448]> m1) []) = (Ok man, Fs moved []).
Proof.
  intros Ha Hnt Hpre Ho Hs. set (m2 := <[t := FDir 448]> m1).
  assert (forall q, q ∈ prefixes t -> exists md, m2 !! q = Some (FDir md)) as Hm2.
  { intros q. unfold t. rewrite prefixes_snoc. intros [Hq|E%list_elem_of_singleton]%elem_of_app.
    - unfold m2. rewrite lookup_insert_ne; [by apply Hpre|]. intros <-.
      apply prefixes_length in Hq. unfold t in Hq. rewrite length_app in Hq. cbn in Hq. lia.
    - unfold m2. rewrite E. fold t. rewrite lookup_insert_eq. eauto. }
  assert (forall r, r <> [] -> m2 !! (t ++ r) = None) as Hm2e.
  { intros r Hr. unfold m2. rewrite lookup_insert_ne; [apply Ht|]. intros E.
    apply (f_equal length) in E. rewrite length_app in E. destruct r; [done|cbn in E; lia]. }
  pose proof (replay_walk umask source t msrc m2 (proj1 Ha) Hnt ltac:(unfold t; by intros [_ ?]%app_eq_nil) Hm2 Hm2e
    (walk source msrc) [] eq_refl) as Hrep.
  fold (archive_entries source msrc) in Hrep. assert (replayed umask t [] m2 = m2) as E0.
  { apply map_eq. intros q. unfold replayed. rewrite lookup_graft. by destruct (strip t q). }
  rewrite E0 in Hrep. change (replayed umask t (walk source msrc) m2) with staged in Hrep. unfold unpack_into. rewrite Ho, unpack_pack by by apply archive_entries_ok.
  cbn [un_open un_entries un_end un_consumed]. erewrite M_bind_ok by exact Hrep. cbn [errors_is negb orb].
  rewrite (bool_decide_eq_true_2 (ErrEOF = ErrEOF)) by done. cbn [negb orb].
  rewrite <- Hs, bool_decide_eq_true_2 by done. cbn [negb].
  assert (Stat (d ++ [c]) (Fs staged []) = (Err ErrNotExist, Fs staged [])) as Es.
  { unfold Stat, simple, call, lookup_node. cbn [fs_faults nodes]. rewrite bool_decide_eq_false_2 by by intros [_ ?]%app_eq_nil.
    by rewrite staged_outside, Hc by apply staging_apart. }
  erewrite M_bind_ok by (unfold attempt; rewrite Es; done). cbv beta iota.
  cbn [errors_is]. rewrite (bool_decide_eq_true_2 (ErrNotExist = ErrNotExist)) by done. cbn [negb orb].
  erewrite M_bind_ok by exact staged_rename. done.
Qed.
End Staging.

Lemma MkdirTemp_works d m1 : (d <> [] -> exists md, m1 !! d = Some (FDir md)) ->
  let t := temp_name d ".restore-" (Fs m1 []) in
  MkdirTemp d ".restore-" (Fs m1 []) = (Ok t, Fs (<[t := FDir 448]> m1) []).
Proof.
  intros Hd t. unfold MkdirTemp, simple, call, put_node, lookup_node, parent. cbn [fs_faults nodes]. fold t.
  assert (removelast t = d) as -> by apply removelast_last. case_bool_decide as E0; [done|]. by destruct (Hd E0) as [md ->].
Qed.

Lemma restore_archive_ok man o d c source msrc m :
  Forall normal (d ++ [c]) -> HasPrefix c ".restore-" = false -> archivable (subtree source msrc) ->
  Forall (dir_or_none m) (prefixes d) -> (forall r, m !! (d ++ c :: r) = None) ->
  (forall q, restore_temp d q -> m !! q = None) ->
  ob_reader o = bytes_reader (pack (archive_entries source msrc)) ->
  m_SHA256 man = digest_of (pack (archive_entries source msrc)) ->
  exists m', restore_archive unpack umask man o (abs_path (d ++ [c])) (Fs m []) = (Ok man, Fs m' [])
    /\ restored m (subtree source msrc) d c m'.
Proof.
  intros Hn Hc Ha Hd Hdest Htemp Ho Hs. apply Forall_app in Hn as Hdc. destruct Hdc as [Hnd [Hnc _]%Forall_cons].
  unfold restore_archive. rewrite Dir_abs_path, !path_of_abs_path by done.
  set (md0 := created_mode umask 488). set (m1 := with_dirs md0 (prefixes d) m).
  erewrite M_bind_ok by (unfold MkdirAll, call; cbn [fs_faults]; by apply mkdirs_with_dirs). fold m1.
  assert (forall q, q ∈ prefixes d -> exists md, m1 !! q = Some (FDir md)) as Hm1.
  { intros q Hq. unfold m1. rewrite lookup_with_dirs, bool_decide_eq_true_2 by done.
    rewrite Forall_forall in Hd. destruct (Hd q Hq) as [->|[md ->]]; eauto. }
  assert (forall q, (length d < length q)%nat -> m !! q = None -> m1 !! q = None) as Hm1n.
  { intros q Hl Hq. unfold m1. rewrite lookup_with_dirs, Hq, bool_decide_eq_false_2; [done|].
    intros ?%prefixes_length. lia. }
  assert (d <> [] -> exists md, m1 !! d = Some (FDir md)) as Hdd.
  { intros Hne. apply Hm1, elem_of_prefixes. split; [done|]. exists []. by rewrite app_nil_r. }
  erewrite M_bind_ok by exact (MkdirTemp_works d m1 Hdd).
  assert (Forall normal (temp_name d ".restore-" (Fs m1 []))) as Hnt by by apply temp_normal.
  destruct (temp_name_shape d ".restore-" (Fs m1 [])) as [x Et]. rewrite Et in *.
  assert (forall r, m1 !! ((d ++ [".restore-" +:+ x]) ++ r) = None) as Htn.
  { intros r. rewrite <- app_assoc. apply Hm1n; [rewrite length_app; cbn; lia|]. apply Htemp. by exists x, r. }
  assert (forall r, m1 !! (d ++ c :: r) = None) as Hcn.
  { intros r. apply Hm1n; [rewrite length_app; cbn; lia|apply Hdest]. }
  assert (c <> ".restore-" +:+ x) as Hcx.
  { intros ->. assert (HasPrefix (".restore-" +:+ x) ".restore-" = true); [|congruence]. apply HasPrefix_spec. eauto. }
  exists (prune (d ++ [".restore-" +:+ x]) (moved source d c x msrc m1)). split.
  - unfold deferred. by rewrite (unpack_into_works source d c x msrc m1 Hdd Htn Hcn Hcx man o Ha Hnt Hm1 Ho Hs).
  - split_and!.
    + intros r Hr. by rewrite moved_inside, staged_inside, <- walk_subtree by done.
    + by rewrite moved_inside, app_nil_r, staged_root by done.
    + intros q Hq. by apply moved_outside.
Qed.
End RoundTrip.
