(* ===== verification/StoreProps.v ===== *)
(** * What the backup store promises

    The theorems on [Head], [Commit] and [Restore], over any backend with the laws
    of [BackendLaws], and an in-memory backend they are evaluated with. *)
From Stdlib Require Import String Ascii.
From S2P Require Import Prelude GoStrings GoJson JsonText GoSha256 Filepath Fs Archive Store StoreHead StoreCommit StoreRestore.

(** ** A backend in memory

    Every call takes the next entry of a list of faults. *)
Record mem := Mem { mem_objects : gmap string (list byte); mem_faults : list (option error) }.

Definition mem_call {A} (f : gmap string (list byte) -> result A * gmap string (list byte)) : M mem A := fun s =>
  match mem_faults s with
  | Some e :: l => (Err e, Mem (mem_objects s) l)
  | l => let '(r, o) := f (mem_objects s) in (r, Mem o (List.tl l))
  end.

#[global] Instance mem_backend : Backend mem := {|
  List p := mem_call (fun o => (Ok (List.filter (fun k => HasPrefix k p) (map fst (map_to_list o))), o));
  Open k := mem_call (fun o =>
    (match o !! k with Some d => Ok (mkObject (bytes_reader d) None) | None => Err ErrNotExist end, o));
  Put k r _ := mem_call (fun o =>
    if bool_decide (rd_end r = ErrEOF) then (Ok (mkPut true None), <[k := rd_data r]> o)
    else (Ok (mkPut true (Some (rd_end r))), o)) |}.

Lemma mem_call_objects {A} (f : gmap string (list byte) -> result A * gmap string (list byte)) s :
  (forall o, snd (f o) = o) -> mem_objects (snd (mem_call f s)) = mem_objects s.
Proof.
  intros Hf. unfold mem_call. specialize (Hf (mem_objects s)).
  destruct (mem_faults s) as [|[e|] l]; [|done|]; destruct (f (mem_objects s)); cbn in *; congruence.
Qed.

#[global] Instance mem_laws : BackendLaws mem.
Proof.
  refine {| objects := mem_objects; working s := mem_faults s = [] |}.
  - intros id b. by apply mem_call_objects.
  - intros k b. apply mem_call_objects. done.
  - intros k k' r n b _ Hk. cbn. unfold mem_call.
    destruct (mem_faults b) as [|[e|] l]; [|done|]; case_bool_decide; cbn; rewrite ?lookup_insert_ne; done.
  - intros k b o b' _. cbn. unfold mem_call. destruct (mem_faults b) as [|[e|] l]; [|done|];
      destruct (mem_objects b !! k) as [d|]; intros [=]; subst; done.
  - intros id b _ Hb. cbn. unfold mem_call. rewrite Hb. eexists _, _. split_and!; [done..|].
    intros k _. rewrite list_elem_of_In, filter_In, <- list_elem_of_In, list_elem_of_fmap.
    apply and_iff_compat_r. split.
    + intros ([k' d] & -> & Hin%elem_of_map_to_list). by exists d.
    + intros [d Hd%elem_of_map_to_list]. by exists (k, d).
  - intros k b _ Hb. cbn. unfold mem_call. rewrite Hb. eexists _, _. split_and!; [done..|].
    by destruct (mem_objects b !! k).
  - intros k r n b _ Hb Hr. cbn. unfold mem_call. rewrite Hb, bool_decide_eq_true_2 by done.
    eexists. by split_and!.
Defined.

(** ** A codec for the streams *)

#[global] Instance typeflag_eq_dec : EqDecision typeflag.
Proof. solve_decision. Defined.

Definition flat (e : entry) : string * bool * Z * list N :=
  (h_Name (en_header e), bool_decide (h_Typeflag (en_header e) = TypeDir), h_Mode (en_header e),
   map (fun b => Z.to_N (byte.unsigned b)) (en_body e)).
Definition unflat (x : string * bool * Z * list N) : entry :=
  let '(n, d, m, b) := x in
  mkEntry (mkHeader n (if d : bool then TypeDir else TypeReg) m) (map (fun z => byte.of_Z (Z.of_N z)) b) None.
Fixpoint pos_bytes (p : positive) : list byte :=
  match p with xH => [] | xO p => Byte.x00 :: pos_bytes p | xI p => Byte.x01 :: pos_bytes p end.
Fixpoint bytes_pos (b : list byte) : positive :=
  match b with [] => xH | x :: b => if bool_decide (x = Byte.x00) then xO (bytes_pos b) else xI (bytes_pos b) end.
(** The entries as a number, in bytes of one bit. *)
Definition plain_pack (es : list entry) : list byte := pos_bytes (encode (map flat es)).
Definition plain_unpack (r : reader) : unpacked :=
  match decode (bytes_pos (rd_data r)) with
  | Some l => mkUnpacked None (map unflat l) (rd_end r) (rd_data r)
  | None => mkUnpacked None [] (Errorf "invalid archive") (rd_data r)
  end.

Lemma bytes_pos_bytes p : bytes_pos (pos_bytes p) = p.
Proof. induction p as [p IH|p IH|]; cbn; by rewrite ?IH. Qed.

Lemma unflat_flat e : entry_ok e -> unflat (flat e) = e.
Proof.
  destruct e as [[n f md] b en]. intros (Hf & _ & _ & _ & _ & He). cbn in *. subst en. unfold unflat, flat.
  cbn [en_header h_Name h_Typeflag h_Mode en_body].
  assert (map (fun z => byte.of_Z (Z.of_N z)) (map (fun b => Z.to_N (byte.unsigned b)) b) = b) as ->.
  { rewrite map_map. rewrite <- (map_id b) at 2. apply map_ext. intros x.
    rewrite Z2N.id by (pose proof (byte_range x); lia). apply byte.of_Z_unsigned. }
  destruct Hf as [->|[-> _]]; done.
Qed.

Lemma plain_unpack_pack es : Forall entry_ok es ->
  plain_unpack (bytes_reader (plain_pack es)) = mkUnpacked None es ErrEOF (plain_pack es).
Proof.
  intros He. unfold plain_unpack, plain_pack. cbn [rd_data rd_end bytes_reader].
  rewrite bytes_pos_bytes, decode_encode. f_equal. rewrite map_map. induction He as [|e l Hl _ IH]; [done|].
  cbn [map]. f_equal; [by apply unflat_flat|exact IH].
Qed.

(** ** The theorems *)
Section Theorems.
Context {B : Type} `{BackendLaws B} `{GoTime}.


Context (lockDigest : option (string -> string)) (pack : list entry -> list byte) (unpack : reader -> unpacked).
Context (umask : Z).
Abbreviation Commit := (Commit lockDigest pack).
Abbreviation Restore := (Restore unpack umask).

(** On a working backend a commit of a directory that can be walked makes the next
    generation, which is then the head of the store, and returns its manifest; a commit
    that expects another head than the store has changes nothing and reports the
    conflict. *)
Theorem Commit_outcome now id source expected b f f' h es :
  normal id -> valid_utf8 id = true ->
  (forall d, lockDigest = Some d -> valid_utf8 (d id) = true) -> is_Some (time_text now) ->
  working b -> well_kept (objects b) id -> head_spec (objects b) id h ->
  expected + 1 < 2 ^ 64 -> writeArchive (path_of source) f = (Ok (es, None), f') ->
  let current := match h with Some h => m_Generation h | None => 0 end in
  let '(r, s') := Commit now id source expected (b, f) in
  if bool_decide (expected = current)
  then exists m, r = Ok m /\ m_Generation m = expected + 1 /\ m_SHA256 m = digest_of (pack es)
         /\ head_spec (objects (fst s')) id (Some m) /\ well_kept (objects (fst s')) id
         /\ working (fst s')
  else r = Err ErrGenerationConflict /\ objects (fst s') = objects b /\ snd s' = f.
Proof.
  intros Hid Hv Hld Ht Hb Hw Hh He Hes current. case_bool_decide as Ec.
  - subst expected. destruct (Commit_working lockDigest pack now id source b f f' h es) as
      (b' & mb & E & Hd & Ho & Hb'); [done..|]. fold current in E, Hd, Ho. rewrite E. cbn [fst snd].
    set (m := new_manifest lockDigest pack now id (current + 1) es) in *. exists m.
    assert (0 <= current) as Hcur.
    { subst current. destruct h as [h|]; [|done]. destruct Hh as [Hc _].
      apply head_check_inv in Hc as (_ & ? & _). lia. }
    split_and!; [done..| |rewrite Ho; by apply (well_kept_new _ _ m)|done].
    rewrite Ho. apply (head_spec_new _ _ m); try done; cbn; [lia|]. intros m' Hm'. subst current.
    destruct h as [h|]; [|by apply Hh in Hm']. apply Hh in Hm'. lia.
  - destruct (Head_working id b Hid Hb Hw) as (h0 & b1 & E & Ho & _ & Hs).
    rewrite (head_spec_unique _ _ _ _ Hs Hh) in E.
    rewrite (Commit_conflict_aux lockDigest pack now id source expected b b1 f h E) by exact (not_eq_sym Ec). done.
Qed.

(** C10: whatever fails on the way, a commit that reports success stored the directory:
    under the generation it reports there is an archive with the reported size and
    digest, which are those of the packed directory, so that it is the packed directory
    or a collision of SHA-256 was found. *)
Theorem Commit_success_is_stored now id source expected b f v s' :
  normal id -> Commit now id source expected (b, f) = (Ok v, s') ->
  m_ID v = id /\ m_Generation v = uint64 (expected + 1) /\
  exists a, objects (fst s') !! archive_key id (m_Generation v) = Some a
    /\ size_of a = m_Size v /\ digest_of a = m_SHA256 v
    /\ (a = pack (archive_entries (path_of source) (nodes f))
        \/ collision digest_of a (pack (archive_entries (path_of source) (nodes f)))).
Proof.
  intros Hid HC. destruct (Commit_stored lockDigest pack now id source expected b f v s' Hid HC)
    as (a & Hi & Hg & Ha & Hz & Hs & Hs' & _).
  split_and!; [done..|]. exists a. split_and!; [done..|].
  destruct (decide (a = pack (archive_entries (path_of source) (nodes f)))); [by left|].
  right. split; [done|congruence].
Qed.

(** C11: a restore stays inside its destination, whatever the archive holds and whatever
    fails: outside the destination it makes missing parents of it and a [.restore-]
    directory next to it, and nothing else changes; and a destination that is a file or
    has something in it stays as it is, and the restore reports an error. *)
Theorem Restore_contained id d c b f q :
  Forall normal (d ++ [c]) ->
  let '(r, (_, f')) := Restore id (abs_path (d ++ [c])) (b, f) in
  (q ∉ prefixes d -> under (d ++ [c]) q = false -> ~ restore_temp d q -> nodes f' !! q = nodes f !! q)
  /\ (forall n, nodes f !! (d ++ [c]) = Some n ->
      (is_dir n = true -> exists x m, x <> [] /\ nodes f !! (d ++ [c] ++ x) = Some m) ->
      under (d ++ [c]) q = true -> (exists e, r = Err e) /\ nodes f' !! q = nodes f !! q).
Proof.
  intros Hn. unfold Store.Restore, mbind, M_bind, on_backend. cbn [fst snd].
  destruct (Head id b) as [[[m|]|e] b1]; [|by cbn; split; eauto..].
  cbn [fst snd]. destruct (Open (archive_key id (m_Generation m)) b1) as [[o|e] b2]; [|by cbn; split; eauto].
  unfold on_files. cbn [fst snd].
  pose proof (restore_archive_keeps unpack umask m o d c q Hn) as Hk.
  pose proof (restore_archive_occupied unpack umask m o d c) as Ho.
  destruct (restore_archive unpack umask m o (abs_path (d ++ [c])) f) as [r f'] eqn:E. split.
  - intros Hq Hu Ht. specialize (Hk Hq Hu Ht f). by rewrite E in Hk.
  - intros n Hs Hne Hu. specialize (Ho n q f Hn Hs Hne Hu). by rewrite E in Ho.
Qed.

Context (unpack_pack : forall es, Forall entry_ok es ->
  unpack (bytes_reader (pack es)) = mkUnpacked None es ErrEOF (pack es)).

(** C4: what was committed comes back: after a commit of a directory of plain files on
    a working backend, a restore to a free place - on this machine or on a new one -
    builds the directory as it was, but for the umask and what is not archived (the
    RCON credentials and the files below [logs]), and changes nothing else but for
    missing parents of the destination. *)
Theorem Commit_Restore_roundtrip now id source b f f' h es d c m :
  normal id -> valid_utf8 id = true ->
  (forall x, lockDigest = Some x -> valid_utf8 (x id) = true) -> is_Some (time_text now) ->
  working b -> well_kept (objects b) id -> head_spec (objects b) id h ->
  let expected := match h with Some h => m_Generation h | None => 0 end in
  expected + 1 < 2 ^ 64 -> writeArchive (path_of source) f = (Ok (es, None), f') ->
  archivable (subtree (path_of source) (nodes f)) ->
  Forall normal (d ++ [c]) -> HasPrefix c ".restore-" = false -> Forall (dir_or_none m) (prefixes d) ->
  (forall r, m !! (d ++ c :: r) = None) -> (forall q, restore_temp d q -> m !! q = None) ->
  exists v b1 b2 m', Commit now id source expected (b, f) = (Ok v, (b1, f'))
    /\ Restore id (abs_path (d ++ [c])) (b1, Fs m []) = (Ok v, (b2, Fs m' []))
    /\ restored umask m (subtree (path_of source) (nodes f)) d c m'.
Proof.
  intros Hid Hv Hld Ht Hb Hw Hh expected He Hes Ha Hn Hc Hd Hdest Htemp.
  destruct (Commit_working lockDigest pack now id source b f f' h es) as
    (b1 & mb & E & Hdm & Ho & Hb1); [done..|]. fold expected in E, Hdm, Ho.
  set (v := new_manifest lockDigest pack now id (expected + 1) es) in *.
  assert (0 <= expected) as Hexp.
  { subst expected. destruct h as [h|]; [|done]. destruct Hh as [Hcm _].
    apply head_check_inv in Hcm as (_ & ? & _). lia. }
  assert (head_spec (objects b1) id (Some v)) as Hs1.
  { rewrite Ho. apply (head_spec_new _ _ v); try done; cbn; [lia|]. intros m1 Hm1. subst expected.
    destruct h as [h|]; [|by apply Hh in Hm1]. apply Hh in Hm1. lia. }
  assert (well_kept (objects b1) id) as Hw1 by (rewrite Ho; by apply (well_kept_new _ _ v)).
  destruct (Head_working id b1 Hid Hb1 Hw1) as (h0 & b2 & E2 & Ho2 & Hb2 & Hh0).
  rewrite (head_spec_unique _ _ _ _ Hh0 Hs1) in E2.
  destruct (Open_working (archive_key id (m_Generation v)) b2) as (o & b3 & E3 & _ & Hob);
    [left; by apply listed_store_key|done|].
  rewrite Ho2, Ho in Hob. unfold with_generation in Hob.
  rewrite lookup_insert_ne, lookup_insert_eq in Hob by apply not_eq_sym, archive_manifest_key. subst o.
  apply writeArchive_ok in Hes as [-> _].
  destruct (restore_archive_ok pack unpack umask unpack_pack v
    (mkObject (bytes_reader (pack (archive_entries (path_of source) (nodes f)))) None) d c (path_of source) (nodes f) m)
    as (m' & Er & Hr); [done..|].
  exists v, b1, b3, m'. split_and!; [done| |done].
  unfold Store.Restore. erewrite M_bind_ok by (apply on_backend_ok; exact E2). cbv iota beta.
  erewrite M_bind_ok by (apply on_backend_ok; exact E3). by apply on_files_ok.
Qed.
End Theorems.

(** ** The theorems on concrete stores *)
Section Examples.
#[local] Existing Instance decimal_time.

Definition ex_archive : list byte := bytes_of_string "abc".
Definition ex_manifest : Manifest := mkManifest "vanilla" 1 (digest_of ex_archive) 3 "" 0.
Definition ex_manifest_bytes : list byte := default [] (result_value (manifest_bytes ex_manifest)).
(** A store with one generation. *)
Definition ex_store : mem := Mem (with_generation ∅ "vanilla" 1 ex_archive ex_manifest_bytes) [].
(** An instance with one file. *)
Definition ex_instance : fs := Fs {[ ["i"] := FDir 493; ["i"; "server"] := FDir 448;
  ["i"; "server"; "logs"] := FDir 493; ["i"; "server"; "logs"; "latest.log"] := FFile 420 (bytes_of_string "log");
  ["i"; "server"; "level.dat"] := FFile 420 (bytes_of_string "world") ]} [].

Lemma ex_manifest_decodes : decode_manifest ex_manifest_bytes = Ok ex_manifest.
Proof. vm_compute. reflexivity. Qed.

Lemma ex_well_kept : well_kept (objects ex_store) "vanilla".
Proof.
  apply (well_kept_new ∅ "vanilla" ex_manifest); [|exact ex_manifest_decodes].
  intros k mb m Hk. by rewrite lookup_empty in Hk.
Qed.

Lemma ex_head : head_spec (objects ex_store) "vanilla" (Some ex_manifest).
Proof.
  apply (head_spec_new ∅ "vanilla" ex_manifest); [done|done|done|done|exact ex_manifest_decodes|].
  intros m' Hm. apply head_check_inv in Hm as (_ & _ & (mb & E & _) & _). by rewrite lookup_empty in E.
Qed.

Lemma normal_vanilla : normal "vanilla".
Proof. by split_and!. Qed.


Definition ex_es : list entry := archive_entries ["i"; "server"] (nodes ex_instance).

Lemma ex_walk : writeArchive (path_of "/i/server") ex_instance = (Ok (ex_es, None), ex_instance).
Proof. vm_compute. reflexivity. Qed.

Lemma Commit_outcome_witness :
  fst (Commit None plain_pack 7 "vanilla" "/i/server" 5 (ex_store, ex_instance)) = Err ErrGenerationConflict
  /\ exists m, fst (Commit None plain_pack 7 "vanilla" "/i/server" 1 (ex_store, ex_instance)) = Ok m
       /\ m_Generation m = 2.
Proof.
  pose proof (fun x Hx => Commit_outcome None plain_pack 7 "vanilla" "/i/server" x ex_store ex_instance ex_instance
    (Some ex_manifest) ex_es normal_vanilla eq_refl ltac:(discriminate) (ex_intro _ (Itoa 7) eq_refl) eq_refl
    ex_well_kept ex_head Hx ex_walk) as Ho.
  split.
  - specialize (Ho 5 eq_refl). destruct (Commit _ _ _ _ _ 5 _) as [r s']. by destruct Ho as [-> _].
  - specialize (Ho 1 eq_refl). destruct (Commit _ _ _ _ _ 1 _) as [r s'].
    destruct Ho as (m & -> & Hm & _). by exists m.
Defined.

Lemma Commit_keeps_generations_witness :
  complete (objects (fst (snd (Commit None plain_pack 7 "vanilla" "/i/server" 1
    (Mem (mem_objects ex_store) [None; None; None; Some (Errorf "timeout")], ex_instance))))) "vanilla" ex_manifest.
Proof.
  apply (Commit_keeps_generations None plain_pack 7 "vanilla" "/i/server" 1 _ _ ex_manifest normal_vanilla);
    [lia|exact (proj1 ex_head)|]. reflexivity.
Defined.

Lemma Commit_outcome_aux : exists m s',
  Commit None plain_pack 7 "vanilla" "/i/server" 1 (ex_store, ex_instance) = (Ok m, s').
Proof.
  destruct (Commit_working None plain_pack 7 "vanilla" "/i/server" ex_store ex_instance ex_instance
    (Some ex_manifest) ex_es normal_vanilla eq_refl ltac:(discriminate) (ex_intro _ (Itoa 7) eq_refl) eq_refl
    ex_well_kept ex_head eq_refl ex_walk) as (b' & mb & E & _). eexists _, _. exact E.
Qed.

Lemma Commit_success_is_stored_witness :
  exists v s', Commit None plain_pack 7 "vanilla" "/i/server" 1 (ex_store, ex_instance) = (Ok v, s')
  /\ m_ID v = "vanilla" /\ m_Generation v = 2 /\ exists a, objects (fst s') !! archive_key "vanilla" 2 = Some a.
Proof.
  pose proof (fun v s' => Commit_success_is_stored None plain_pack 7 "vanilla" "/i/server" 1 ex_store
    ex_instance v s' normal_vanilla) as Hs.
  assert (exists v s', Commit None plain_pack 7 "vanilla" "/i/server" 1 (ex_store, ex_instance) = (Ok v, s'))
    as (v & s' & E).
  { destruct Commit_outcome_aux as (m & s' & E). by exists m, s'. }
  exists v, s'. destruct (Hs v s' E) as (H1 & H2 & a & Ha & _).
  split_and!; [exact E|exact H1|exact H2|]. exists a. rewrite H2 in Ha. exact Ha.
Defined.

Lemma Restore_contained_witness :
  nodes (snd (snd (Restore plain_unpack 18 "vanilla" (abs_path ["i"; "server"]) (ex_store, ex_instance))))
    !! ["i"; "server"; "level.dat"] = Some (FFile 420 (bytes_of_string "world")).
Proof.
  pose proof (Restore_contained plain_unpack 18 "vanilla" ["i"] "server" ex_store ex_instance
    ["i"; "server"; "level.dat"] (Forall_normal_check ["i"; "server"] eq_refl)) as Hc.
  destruct (Restore _ _ _ _ _) as [r [b' f']]. destruct Hc as [_ Hc].
  destruct (Hc (FDir 448)) as [_ E]; [reflexivity| |reflexivity|exact E].
  intros _. exists ["level.dat"]. eexists. split; [discriminate|reflexivity].
Defined.

Lemma ex_archivable : archivable (subtree (path_of "/i/server") (nodes ex_instance)).
Proof. apply archivable_checks. vm_compute. reflexivity. Qed.

Lemma Commit_Restore_roundtrip_witness :
  exists v b1 b2 m', fst (Commit None plain_pack 7 "vanilla" "/i/server" 1 (ex_store, ex_instance)) = Ok v
  /\ Restore plain_unpack 18 "vanilla" (abs_path ["state"; "server"]) (b1, Fs ∅ []) = (Ok v, (b2, Fs m' []))
  /\ m' !! ["state"; "server"; "level.dat"] = Some (FFile 420 (bytes_of_string "world")).
Proof.
  destruct (Commit_Restore_roundtrip None plain_pack plain_unpack 18 plain_unpack_pack 7 "vanilla" "/i/server"
    ex_store ex_instance ex_instance (Some ex_manifest) ex_es ["state"] "server" ∅ normal_vanilla eq_refl
    ltac:(discriminate) (ex_intro _ (Itoa 7) eq_refl) eq_refl ex_well_kept ex_head eq_refl ex_walk ex_archivable
    (Forall_normal_check ["state"; "server"] eq_refl) eq_refl
    ltac:(repeat constructor; apply lookup_empty) (fun r => lookup_empty _) (fun q _ => lookup_empty _))
    as (v & b1 & b2 & m' & E & Er & Hr & _).
  exists v, b1, b2, m'. split_and!; [exact (f_equal fst E)|exact Er|].
  change (m' !! (["state"] ++ "server" :: ["level.dat"]) = Some (FFile 420 (bytes_of_string "world"))).
  rewrite Hr by discriminate. vm_compute. reflexivity.
Defined.

(** A symbolic link in an instance is archived, and the store then has a newest
    generation it cannot restore. *)
Definition ex_linked : fs := Fs {[ ["i"] := FDir 493; ["i"; "server"] := FDir 448;
  ["i"; "server"; "current"] := FLink "world" ]} [].

Theorem symlink_backup_unrestorable : exists v s',
  Commit None plain_pack 7 "vanilla" "/i/server" 1 (ex_store, ex_linked) = (Ok v, s') /\ m_Generation v = 2
  /\ (forall l, unpack_into 18 v (mkUnpacked None (archive_entries ["i"; "server"] (nodes ex_linked) ++ l) ErrEOF
                (plain_pack (archive_entries ["i"; "server"] (nodes ex_linked)))) ["new"] ["s"]
              (Fs {[ ["new"] := FDir 448 ]} [])
       = (Err (Errorf "symlinks are not accepted in backups"), Fs {[ ["new"] := FDir 448 ]} [])).
Proof.
  destruct (Commit_working None plain_pack 7 "vanilla" "/i/server" ex_store ex_linked ex_linked
    (Some ex_manifest) (archive_entries ["i"; "server"] (nodes ex_linked)) normal_vanilla eq_refl
    ltac:(discriminate) (ex_intro _ (Itoa 7) eq_refl) eq_refl ex_well_kept ex_head eq_refl) as (b' & mb & E & _).
  { vm_compute. reflexivity. }
  eexists _, _. split_and!; [exact E|reflexivity|]. intros l. vm_compute. reflexivity.
Qed.

(** One failed call of [Open] hides the newest generation: [Head] reports that there
    is no backup. *)
Example head_after_timeout :
  fst (Head "vanilla" (Mem (mem_objects ex_store) [None; None; Some (Errorf "timeout")])) = Ok None
  /\ complete (mem_objects ex_store) "vanilla" ex_manifest.
Proof. split; vm_compute; reflexivity. Qed.
End Examples.
