(* ===== verification/StoreRefines.v ===== *)
(** * The store under the manager: [Commit] and [Restore] refine the manager's steps

    [Manager.v] models a backup as a few steps on a world in which a pack has
    generations with a content each, and [Store.v] as calls on a backend of objects and
    on files.  Here the two are related, and a commit and a restore of the store are
    shown to be runs of the manager's steps, so that what is proved of the manager's
    runs is about the objects and files of the store. *)
From Stdlib Require Import String Ascii.
From S2P Require Import Prelude GoStrings GoJson JsonText GoSha256 Filepath Fs Config Lock StateFile Lifecycle Manager Archive Store StoreHead StoreCommit StoreRestore StoreProps.

(** ** The walk that meets no fault *)

Lemma visit_all_works source l acc f :
  fs_faults f = [] -> (forall r n, (r, n) ∈ l -> r <> [] /\ nodes f !! (source ++ r) = Some n) ->
  exists es, visit_all source l acc f = (Ok (es, None), f).
Proof.
  intros Hf. revert acc. induction l as [|[r n] l IH]; intros acc Hl; [by exists acc|].
  destruct (Hl r n (list_elem_of_here _ _)) as [Hr Hn]. cbn [visit_all].
  assert (exists e, visit source (r, n) f = (Ok e, f)) as [e E].
  { unfold visit. destruct (excluded (rel_path r)); [by eexists|].
    destruct f as [m fl]. cbn in Hf, Hn. subst fl. unfold mbind, M_bind, simple, call, ReadFile, lookup_node. cbn.
    destruct n as [md|md b|t|]; try by eexists. cbn. rewrite bool_decide_eq_false_2.
    - rewrite Hn. by eexists.
    - intros [_ ?]%app_eq_nil. done. }
  erewrite M_bind_ok by (unfold attempt; by rewrite E).
  destruct e; apply IH; intros r' n' H; apply Hl; by right.
Qed.

Lemma writeArchive_works source f n :
  fs_faults f = [] -> nodes f !! source = Some n -> source <> [] ->
  writeArchive source f = (Ok (archive_entries source (nodes f), None), f).
Proof.
  intros Hf Hn Hs. unfold writeArchive.
  assert (attempt (Stat source) f = (Ok (Ok n), f)) as E.
  { unfold attempt, Stat, simple, call, lookup_node. destruct f as [m fl]. cbn in Hf, Hn. subst fl. cbn.
    by rewrite bool_decide_eq_false_2, Hn. }
  erewrite M_bind_ok by exact E. cbv iota beta. erewrite M_bind_ok by done.
  destruct (visit_all_works source (walk source (nodes f)) [] f Hf) as [es Es].
  { intros r x Hx. by apply elem_of_walk in Hx. }
  rewrite Es. pose proof (writeArchive_ok source f es f) as H. unfold writeArchive in H.
  erewrite M_bind_ok in H by exact E. cbv iota beta in H. erewrite M_bind_ok in H by done.
  destruct (H Es) as [-> _]. done.
Qed.

(** ** The head of the manager's world *)

Lemma foldr_max_spec l : 0 <= foldr Z.max 0 l
  /\ Forall (fun x => x <= foldr Z.max 0 l) l /\ (foldr Z.max 0 l = 0 \/ foldr Z.max 0 l ∈ l).
Proof.
  induction l as [|x l (H0 & Hl & Hm)]; cbn; [by repeat split; auto|]. split_and!.
  - lia.
  - constructor; [lia|]. eapply Forall_impl; [exact Hl|]. cbn. lia.
  - destruct (Z.max_spec x (foldr Z.max 0 l)) as [[_ ->]|[_ ->]]; [|by right; left].
    destruct Hm as [?|?]; [by left|by right; right].
Qed.

Lemma complete_manifest r g : Manager.complete r g = true ->
  0 < g /\ exists c, manifests r !! g = Some c /\ archives r !! g = Some c.
Proof.
  unfold Manager.complete. destruct (manifests r !! g) as [c|], (archives r !! g) as [c'|]; try done.
  intros H. bools. subst. split; [done|eauto].
Qed.

(** The highest complete generation, if there is one. *)
Lemma head_of_some r g c :
  head_of r = Some (g, c) <->
  Manager.complete r g = true /\ archives r !! g = Some c
  /\ forall g', Manager.complete r g' = true -> g' <= g.
Proof.
  unfold head_of. set (l := List.filter _ _).
  destruct (foldr_max_spec l) as (H0 & Hl & Hm). set (x := foldr Z.max 0 l) in *.
  assert (forall g', Manager.complete r g' = true -> g' ∈ l) as Hin.
  { intros g' Hg'. apply list_elem_of_In, filter_In. split; [|done].
    destruct (complete_manifest r g' Hg') as (_ & c' & Hc%elem_of_map_to_list & _).
    apply in_map_iff. exists (g', c'). split; [done|]. by apply list_elem_of_In. }
  assert (forall g', Manager.complete r g' = true -> g' <= x) as Hx.
  { intros g' Hg'. rewrite Forall_forall in Hl. by apply Hl, Hin. }
  split.
  - destruct (Manager.complete r x) eqn:E; [|done]. cbn. intros H.
    apply fmap_Some in H as (c' & Hc & [= -> ->]). done.
  - intros (Hc & Ha & Hmax). assert (g = x) as ->.
    { apply Z.le_antisymm; [by apply Hx|]. destruct Hm as [->|Hm].
      - apply complete_manifest in Hc. lia.
      - apply list_elem_of_In, filter_In in Hm as [_ Hm]. by apply Hmax. }
    by rewrite Hc, Ha.
Qed.

Lemma head_of_none r : head_of r = None <-> forall g, Manager.complete r g = false.
Proof.
  split.
  - intros H g. destruct (Manager.complete r g) eqn:E; [|done]. exfalso.
    unfold head_of in H. set (l := List.filter _ _) in H.
    destruct (foldr_max_spec l) as (H0 & Hl & Hm). set (x := foldr Z.max 0 l) in *.
    assert (Manager.complete r x = true) as Ex.
    { destruct Hm as [Hm|Hm]; [|by apply list_elem_of_In, filter_In in Hm as [_ ?]].
      destruct (complete_manifest r g E) as (Hg & c & Hc%elem_of_map_to_list & _).
      assert (g ∈ l) as Hin.
      { apply list_elem_of_In, filter_In. split; [|done]. apply in_map_iff. exists (g, c).
        split; [done|by apply list_elem_of_In]. }
      rewrite Forall_forall in Hl. specialize (Hl g Hin). cbn in Hl. lia. }
    rewrite Ex in H. destruct (complete_manifest r x Ex) as (_ & c & _ & Hc). by rewrite Hc in H.
  - intros H. unfold head_of. by rewrite H.
Qed.

(** A new generation above all complete ones becomes the head. *)
Lemma head_of_new r g c :
  0 < g -> (forall g', Manager.complete r g' = true -> g' < g) ->
  head_of (put_manifest g c (put_archive g c r)) = Some (g, c).
Proof.
  intros Hg Hmax. apply head_of_some.
  assert (forall g', g' <> g -> Manager.complete (put_manifest g c (put_archive g c r)) g' = Manager.complete r g') as Ho.
  { intros g' Hne. unfold Manager.complete. cbn. by rewrite !lookup_insert_ne. }
  split_and!.
  - unfold Manager.complete. cbn. rewrite !lookup_insert_eq, bool_decide_eq_true_2 by done. cbn. lia.
  - cbn. apply lookup_insert_eq.
  - intros g' Hg'. destruct (decide (g' = g)) as [->|Hne]; [lia|]. rewrite Ho in Hg' by done.
    apply Hmax in Hg'. lia.
Qed.

(** ** The relation *)
Section Refines.
Context {B : Type} `{BackendLaws B} `{GoTime}.
Context (lockDigest : option (string -> string)) (pack : list entry -> list byte) (unpack : reader -> unpacked).
Context (umask : Z).

(** Which directory trees hold which world. *)
Context (depicts : content -> gmap path node -> Prop).

(** The newest backup the store holds is the one the world has: the same generation,
    and its archive is that of a directory which holds the world's content. *)
Definition same_head (id : string) (w : world) (b : B) : Prop :=
  match Manager.head id w with
  | None => head_spec (objects b) id None
  | Some (g, c) => exists v t, head_spec (objects b) id (Some v) /\ m_Generation v = g
      /\ objects b !! archive_key id g = Some (pack (archive_entries [] t))
      /\ m_SHA256 v = digest_of (pack (archive_entries [] t)) /\ archivable t /\ depicts c t
  end.

(** The instance directory at [src] is there exactly when the world has one, and holds
    its content. *)
Definition same_instance (id : string) (src : path) (w : world) (f : fs) : Prop :=
  match local w !! id with
  | None => forall r, nodes f !! (src ++ r) = None
  | Some c => (exists md, nodes f !! src = Some (FDir md)) /\ depicts c (subtree src (nodes f))
  end.

Record represents (id : string) (src : path) (w : world) (b : B) (f : fs) : Prop := {
  rp_head : same_head id w b;
  rp_instance : same_instance id src w f;
  rp_kept : well_kept (objects b) id;
  rp_working : working b;
  rp_files : fs_faults f = [] }.

(** The steps of [Commit] in the manager's world, with a [Head] that misses nothing. *)
Definition commit_move (id : string) (x y : world * stop_pc) : Prop :=
  exists o, (forall g, o <> Stale g) /\ commit_step id (snd x) o (fst x) = Some y.
Definition commit_run (id : string) : relation (world * stop_pc) := rtc (commit_move id).

Lemma commit_head_conflict id expected w h :
  Manager.head id w = h -> (match h with Some (g, _) => g | None => 0 end) <> expected ->
  commit_run id (w, BHead expected) (w, BFailed ErrGenerationConflict).
Proof.
  intros Hh Hne. apply rtc_once. exists Fine. split; [done|]. cbn. rewrite Hh. destruct h as [[g c]|].
  - by rewrite (proj2 (Z.eqb_neq _ _)).
  - by rewrite (proj2 (Z.eqb_neq _ _)) by congruence.
Qed.

Definition committed (id : string) (g : Z) (c : content) (w : world) : world :=
  let w1 := set_backups id (put_archive g c (backups id w)) w in
  set_backups id (put_manifest g c (backups id w1)) w1.

Lemma head_committed id g c w :
  0 < g -> (forall g' c', Manager.head id w = Some (g', c') -> g' < g) ->
  Manager.head id (committed id g c w) = Some (g, c) /\ local (committed id g c w) = local w.
Proof.
  intros Hg Hmax. split; [|done]. unfold committed, Manager.head, backups, set_backups. cbn [remotes].
  rewrite !lookup_insert_eq. cbn [default]. apply head_of_new; [done|]. intros g' Hg'.
  fold (backups id w) in *. destruct (head_of (backups id w)) as [[h c']|] eqn:E.
  - specialize (Hmax h c' E). apply head_of_some in E as (_ & _ & E). apply E in Hg'. lia.
  - rewrite head_of_none in E. by rewrite E in Hg'.
Qed.

Lemma commit_run_ok id expected c w :
  (match Manager.head id w with Some (g, _) => g | None => 0 end) = expected ->
  local w !! id = Some c -> 0 <= expected -> expected + 1 < 2 ^ 64 ->
  commit_run id (w, BHead expected) (committed id (expected + 1) c w, BRecord (expected + 1)).
Proof.
  intros Hh Hl Hlo Hhi.
  assert (next_generation expected = expected + 1) as Hn.
  { unfold next_generation, uint64, wrap. apply Z.mod_small. lia. }
  eapply rtc_l with (y := (w, BArchive expected)).
  { exists Fine. split; [done|]. cbn. rewrite <- Hh. destruct (Manager.head id w) as [[g c']|]; by rewrite Z.eqb_refl. }
  eapply rtc_l. { exists Fine. split; [done|]. cbn. rewrite Hl, Hn. reflexivity. }
  eapply rtc_l. { exists Fine. split; [done|]. reflexivity. }
  apply rtc_once. exists Fine. split; [done|]. cbn [commit_step head_answer fst snd mbind option_bind].
  change (set_backups id (put_manifest (expected + 1) c _) _) with (committed id (expected + 1) c w).
  destruct (head_committed id (expected + 1) c w) as [-> _]; [lia| |by rewrite bool_decide_eq_true_2].
  intros g' c' E. rewrite E in Hh. lia.
Qed.

Lemma same_head_generation id w b h :
  same_head id w b -> head_spec (objects b) id h ->
  (match Manager.head id w with Some (g, _) => g | None => 0 end)
  = match h with Some v => m_Generation v | None => 0 end.
Proof.
  unfold same_head. intros Hs Hh. destruct (Manager.head id w) as [[g c]|].
  - destruct Hs as (v & t & Hv & <- & _). by rewrite (head_spec_unique _ _ _ _ Hh Hv).
  - by rewrite (head_spec_unique _ _ _ _ Hh Hs).
Qed.

Lemma subtree_root (t : gmap path node) : subtree [] t = t.
Proof. apply map_eq. intros r. by rewrite lookup_subtree. Qed.

Lemma archive_entries_subtree src m : archive_entries src m = archive_entries [] (subtree src m).
Proof. unfold archive_entries. by rewrite walk_subtree. Qed.

(** The store changed its state, and not its objects. *)
Lemma represents_same id src w b b' f :
  represents id src w b f -> objects b' = objects b -> working b' -> represents id src w b' f.
Proof.
  intros [Hh Hi Hk _ Hf] Ho Hb'. split; [|done| |done|done].
  - unfold same_head in *. by rewrite Ho.
  - by rewrite Ho.
Qed.

(** ** Properties *)

(** C5: a backup of the store is a run of the manager's steps.  On a working backend and
    disk, when the objects and the instance directory represent the manager's world,
    [Commit] comes to a result that the steps of [stopAndBackup] between the check of
    the head and the verification come to as well: with the generation it reports the
    run is at [BRecord] of it, with its error at [BFailed] of it, and the objects and
    files then represent the world the run ends in.  What is proved of the manager's
    world - that its newest backup is the instance it archived - is so proved of the
    objects in the store. *)
Theorem Commit_refines_manager now id src expected w b f c :
  normal id -> valid_utf8 id = true ->
  (forall d, lockDigest = Some d -> valid_utf8 (d id) = true) -> is_Some (time_text now) ->
  0 <= expected -> expected + 1 < 2 ^ 64 -> Forall normal src -> src <> [] ->
  local w !! id = Some c -> archivable (subtree src (nodes f)) -> represents id src w b f ->
  let '(r, (b', f')) := Commit lockDigest pack now id (abs_path src) expected (b, f) in
  exists w' pc, commit_run id (w, BHead expected) (w', pc) /\ represents id src w' b' f'
    /\ match r with
       | Ok v => pc = BRecord (m_Generation v) /\ m_Generation v = expected + 1
       | Err e => pc = BFailed e
       end.
Proof.
  intros Hid Hv Hld Ht Hlo Hhi Hsrc Hne Hl Ha [Hh Hi Hk Hb Hf].
  pose proof Hi as Hi'. unfold same_instance in Hi'. rewrite Hl in Hi'. destruct Hi' as [[md Hdir] Hdep].
  destruct (Head_working id b Hid Hb Hk) as (h & b1 & E & Ho & Hb1 & Hs).
  pose proof (same_head_generation id w b h Hh Hs) as Hg.
  destruct (decide (match h with Some v => m_Generation v | None => 0 end = expected)) as [He|He].
  - destruct (Commit_working lockDigest pack now id (abs_path src) b f f h (archive_entries src (nodes f)))
      as (b' & mb & Ec & Hd & Hob & Hb'); [done..|by rewrite He| |].
    { rewrite path_of_abs_path by done. by eapply writeArchive_works. }
    rewrite He in Ec, Hd, Hob. rewrite Ec. clear Ec.
    set (v := new_manifest lockDigest pack now id (expected + 1) (archive_entries src (nodes f))) in *.
    exists (committed id (expected + 1) c w), (BRecord (expected + 1)).
    split_and!; [apply commit_run_ok; congruence || done| |done|done].
    destruct (head_committed id (expected + 1) c w) as [Hhead Hloc];
      [lia|intros g' c' E'; rewrite E' in Hg; lia|].
    split; [| |rewrite Hob; by apply (well_kept_new _ _ v)|done|done].
    + unfold same_head. rewrite Hhead. exists v, (subtree src (nodes f)).
      rewrite <- archive_entries_subtree. split_and!; [|done| |done|done|done].
      * rewrite Hob. apply (head_spec_new _ _ v); try done; cbn; [lia|]. intros m' Hm'.
        destruct h as [h|]; [|by apply Hs in Hm']. apply Hs in Hm'. lia.
      * rewrite Hob. unfold with_generation.
        by rewrite lookup_insert_ne, lookup_insert_eq by apply not_eq_sym, archive_manifest_key.
    + unfold same_instance in *. by rewrite Hloc.
  - rewrite (Commit_conflict_aux lockDigest pack now id (abs_path src) expected b b1 f h E He).
    exists w, (BFailed ErrGenerationConflict). split_and!; [|by apply (represents_same id src w b)|done].
    eapply commit_head_conflict; [done|]. by rewrite Hg.
Qed.

(** A world that is not changed by a restore to the same place: the permissions are
    masked, and what is not archived is gone. *)
Context (depicts_image : forall c t t', archivable t -> depicts c t ->
  (forall r, r <> [] -> t' !! r = image umask (walk [] t) !! r) -> depicts c t').
Context (unpack_pack : forall es, Forall entry_ok es ->
  unpack (bytes_reader (pack es)) = mkUnpacked None es ErrEOF (pack es)).

(** C6: a restore of the store is the step of the manager's [start].  On a working
    backend and disk, when the objects represent the manager's world and the instance
    directory is gone, [Restore] returns the manifest of the generation the world has
    at its head, the step puts the head's content at the instance, and the files then
    represent it; and without a backup both fail with the same error and leave the
    world and its representation as they were. *)
Theorem Restore_refines_manager cfg sizer recovery g id d last w m b files :
  normal id -> Forall normal (d ++ [last]) -> HasPrefix last ".restore-" = false ->
  Forall (dir_or_none files) (prefixes d) -> (forall q, restore_temp d q -> files !! q = None) ->
  local w !! id = None -> represents id (d ++ [last]) w b (Fs files []) ->
  let '(r, (b', f')) := Restore unpack umask id (abs_path (d ++ [last])) (b, Fs files []) in
  match r with
  | Ok v => exists w', start_step cfg sizer id recovery (SRestore g) Fine m w
        = goto (TStart id recovery (SIdentity (Some g) false)) m w'
      /\ fst <$> Manager.head id w = Some (m_Generation v) /\ local w' !! id = snd <$> Manager.head id w
      /\ represents id (d ++ [last]) w' b' f'
  | Err e => start_step cfg sizer id recovery (SRestore g) Fine m w
        = goto (TFail id (Wrapf "restore" e) false) m w
      /\ represents id (d ++ [last]) w b' f'
  end.
Proof.
  intros Hid Hn Hlast Hd Htemp Hl Hr. pose proof Hr as [Hh Hi Hk Hb _].
  unfold same_instance in Hi. rewrite Hl in Hi. cbn [nodes] in Hi.
  destruct (Head_working id b Hid Hb Hk) as (h & b1 & E & Ho & Hb1 & Hs).
  unfold Store.Restore. erewrite M_bind_ok by (apply on_backend_ok; exact E).
  cbn [start_step head_answer mbind option_bind].
  unfold same_head in Hh. destruct (Manager.head id w) as [[g' c]|] eqn:Ehd.
  - destruct Hh as (v & t & Hv & Hg & Harch & Hsha & Ha & Hdep).
    rewrite (head_spec_unique _ _ _ _ Hs Hv). cbv iota beta.
    destruct (Open_working (archive_key id (m_Generation v)) b1) as (o & b2 & E2 & Hb2 & Hob);
      [left; by apply listed_store_key|done|].
    pose proof (Open_frame (archive_key id (m_Generation v)) b1) as Ho2. rewrite E2 in Ho2. cbn in Ho2.
    rewrite Ho, Hg, Harch in Hob. subst o.
    erewrite M_bind_ok by (apply on_backend_ok; exact E2).
    destruct (restore_archive_ok pack unpack umask unpack_pack v
      (mkObject (bytes_reader (pack (archive_entries [] t))) None) d last [] t files) as (files' & Er & Hres);
      [done|done|by rewrite subtree_root|done|intros r; specialize (Hi r); by rewrite <- app_assoc in Hi|done|done|done|].
    rewrite subtree_root in Hres. erewrite on_files_ok by exact Er.
    exists (set_local (<[id := c]> (local w)) w). rewrite Hl. split_and!; [done|cbn; congruence|cbn; apply lookup_insert_eq|].
    assert (objects b2 = objects b) as Hoo by congruence.
    split; [| |by rewrite Hoo|done|done].
    + unfold same_head. change (Manager.head id (set_local _ w)) with (Manager.head id w). rewrite Ehd, Hoo.
      exists v, t. by subst.
    + unfold same_instance. cbn [local set_local nodes]. rewrite lookup_insert_eq.
      destruct Hres as (Hin & Hroot & _). split; [eauto|].
      eapply depicts_image; [exact Ha|exact Hdep|]. intros r Hr0. rewrite lookup_subtree, <- app_assoc.
      by apply Hin.
  - rewrite (head_spec_unique _ _ _ _ Hs Hh). cbv iota beta. split; [done|].
    by apply (represents_same id _ w b).
Qed.
End Refines.

(** ** The theorems on a concrete store *)
Section Examples.
#[local] Existing Instance decimal_time.

(** A directory holds the world whose number is in its [level.dat]. *)
Definition ex_depicts (c : content) (t : gmap path node) : Prop :=
  match c with
  | World v => exists md, t !! ["level.dat"] = Some (FFile md (bytes_of_string (Itoa (Z.of_nat v))))
  | Torn => True
  end.

Lemma ex_depicts_image c t t' : archivable t -> ex_depicts c t ->
  (forall r, r <> [] -> t' !! r = image 18 (walk [] t) !! r) -> ex_depicts c t'.
Proof.
  intros Ha Hd Ht. destruct c as [v|]; [|done]. destruct Hd as [md Hd].
  exists (created_mode 18 md). rewrite Ht by done.
  apply image_lookup; [apply walk_NoDup|]. exists (FFile md (bytes_of_string (Itoa (Z.of_nat v)))).
  split_and!; [by apply elem_of_walk|done|done].
Qed.

Definition ex_files : gmap path node := {[ ["i"] := FDir 493; ["i"; "server"] := FDir 448;
  ["i"; "server"; "level.dat"] := FFile 420 (bytes_of_string "7") ]}.
Definition ex_tree : gmap path node := subtree ["i"; "server"] ex_files.
Definition ex_world : world := mkWorld {[ "vanilla" := World 7 ]} ∅ ∅ 0 0 {[ "vanilla" := 7%nat ]}.

Lemma ex_tree_archivable : archivable ex_tree.
Proof. apply archivable_checks. vm_compute. reflexivity. Qed.

Lemma ex_commit_ok : is_ok (fst (Commit None plain_pack 7 "vanilla" (abs_path ["i"; "server"]) 0
  (Mem ∅ [], Fs ex_files []))) = true.
Proof. vm_compute. reflexivity. Qed.

(** A first backup of an instance. *)
Lemma Commit_refines_manager_witness :
  represents plain_pack ex_depicts "vanilla" ["i"; "server"] ex_world (Mem ∅ []) (Fs ex_files []) /\
  exists w' b' f', commit_run "vanilla" (ex_world, BHead 0) (w', BRecord 1)
    /\ represents plain_pack ex_depicts "vanilla" ["i"; "server"] w' b' f'.
Proof.
  assert (represents plain_pack ex_depicts "vanilla" ["i"; "server"] ex_world (Mem ∅ []) (Fs ex_files [])) as Hr.
  { split; [|split; [by eexists|by eexists]| |reflexivity|reflexivity].
    - unfold same_head. assert (Manager.head "vanilla" ex_world = None) as -> by (vm_compute; reflexivity).
      intros m' Hm. apply head_check_inv in Hm as (_ & _ & (mb & E & _) & _). discriminate E.
    - intros k mb m Hk. discriminate Hk. }
  split; [exact Hr|].
  pose proof (Commit_refines_manager None plain_pack ex_depicts 7 "vanilla" ["i"; "server"] 0 ex_world
    (Mem ∅ []) (Fs ex_files []) (World 7) normal_vanilla eq_refl ltac:(discriminate) (ex_intro _ (Itoa 7) eq_refl)
    ltac:(lia) ltac:(lia) (Forall_normal_check ["i"; "server"] eq_refl) ltac:(discriminate) eq_refl
    ex_tree_archivable Hr) as H.
  destruct (Commit _ _ _ _ _ _ _) as [r [b' f']] eqn:E. destruct H as (w' & pc & Hrun & Hr' & Hres).
  pose proof ex_commit_ok as Ek. rewrite E in Ek. destruct r as [v|]; [|discriminate].
  destruct Hres as [-> Hv]. exists w', b', f'. rewrite Hv in Hrun. split; [exact Hrun|exact Hr'].
Defined.

(** The store after it, and the start on a machine without the directory. *)
Definition ex_backup : list byte := plain_pack (archive_entries [] ex_tree).
Definition ex_backup_manifest : Manifest :=
  mkManifest "vanilla" 1 (digest_of ex_backup) (size_of ex_backup) "" 0.
Definition ex_backup_bytes : list byte := default [] (result_value (manifest_bytes ex_backup_manifest)).
Definition ex_backups : mem := Mem (with_generation ∅ "vanilla" 1 ex_backup ex_backup_bytes) [].
Definition ex_evicted : world :=
  mkWorld ∅ {[ "vanilla" := mkRemote {[ 1 := World 7 ]} {[ 1 := World 7 ]} ]} ∅ 0 0 {[ "vanilla" := 7%nat ]}.

Lemma ex_backup_decodes : decode_manifest ex_backup_bytes = Ok ex_backup_manifest.
Proof. vm_compute. reflexivity. Qed.

Lemma ex_backups_represent :
  represents plain_pack ex_depicts "vanilla" ["state"; "server"] ex_evicted ex_backups (Fs ∅ []).
Proof.
  split; [| | |reflexivity|reflexivity]; cycle 1.
  { unfold same_instance. change (local ex_evicted !! "vanilla") with (@None content).
    intros r. apply lookup_empty. }
  - apply (well_kept_new ∅ "vanilla" ex_backup_manifest); [|exact ex_backup_decodes].
    intros k mb m Hk. discriminate Hk.
  - unfold same_head. assert (Manager.head "vanilla" ex_evicted = Some (1, World 7)) as -> by (vm_compute; reflexivity).
    exists ex_backup_manifest, ex_tree.
    split; [|split; [reflexivity|split; [|split; [reflexivity|split; [exact ex_tree_archivable|]]]]].
    + apply (head_spec_new ∅ "vanilla" ex_backup_manifest ex_backup ex_backup_bytes eq_refl
        (conj eq_refl eq_refl) eq_refl eq_refl ex_backup_decodes).
      intros m' Hm. apply head_check_inv in Hm as (_ & _ & (mb & E & _) & _). by rewrite lookup_empty in E.
    + reflexivity.
    + by exists 420.
Qed.

Lemma ex_restore_ok : is_ok (fst (Restore plain_unpack 18 "vanilla" "/state/server" (ex_backups, Fs ∅ []))) = true.
Proof. vm_compute. reflexivity. Qed.

Lemma Restore_refines_manager_witness :
  exists r s', Restore plain_unpack 18 "vanilla" "/state/server" (ex_backups, Fs ∅ []) = (r, s')
  /\ is_ok r = true /\ exists w', local w' !! "vanilla" = Some (World 7)
       /\ represents plain_pack ex_depicts "vanilla" ["state"; "server"] w' (fst s') (snd s').
Proof.
  pose proof (Restore_refines_manager plain_pack plain_unpack 18 ex_depicts ex_depicts_image plain_unpack_pack
    example_config false false 1 "vanilla" ["state"] "server" ex_evicted
    (mkMgr (phase_State Loading) None false 0 false false None []) ex_backups ∅ normal_vanilla
    (Forall_normal_check ["state"; "server"] eq_refl) eq_refl
    ltac:(repeat constructor; apply lookup_empty) (fun q _ => lookup_empty _) eq_refl ex_backups_represent) as H.
  change (abs_path (["state"] ++ ["server"])) with "/state/server" in H.
  destruct (Restore _ _ _ _ _) as [r [b' f']] eqn:E. exists r, (b', f'). split; [reflexivity|].
  pose proof ex_restore_ok as Ek. rewrite E in Ek. destruct r as [v|]; [|discriminate]. split; [reflexivity|].
  destruct H as (w' & _ & _ & Hl & Hr). exists w'. split; [exact Hl|exact Hr].
Defined.
End Examples.
