(* ===== verification/Filesystem.v ===== *)
(** * The file-system backend ([internal/store/filesystem.go])

    Objects as files below a root directory, on the file-system model: the three
    operations, the containment of every key, the atomicity of an upload, and that
    the backend keeps the laws the store relies on. *)
From Stdlib Require Import String Ascii.
From S2P Require Import Prelude GoStrings Filepath Fs Archive Store StoreHead StoreCommit StoreRestore.

Definition ErrInvalidKey : error := Errorf "invalid backup key".

Section Filesystem.
(** [Filesystem.root]. *)
Context (root : string).

Definition key_path (key : string) : result string :=
  let clean := Clean key in
  if IsAbs clean || bool_decide (clean = "..") || HasPrefix clean "../" then Err ErrInvalidKey
  else Ok (PathJoin [root; clean]).

(** The walk below [p]: the keys of what is not a directory.  A directory that is gone
    when it is read is skipped; another failure to read one ends the walk. *)
Fixpoint list_walk (base : path) (l : list (path * node)) (skipped : list path) (out : list string)
    : M fs (list string) :=
  match l with
  | [] => mret out
  | (r, n) :: l' =>
      if existsb (fun p => under p r) skipped then list_walk base l' skipped out
      else if is_dir n then
        e ← attempt (simple (mret tt));
        match e with
        | Ok _ => list_walk base l' skipped out
        | Err e => if errors_is e ErrNotExist then list_walk base l' (r :: skipped) out else throw e
        end
      else list_walk base l' skipped (out ++ [Join (base ++ r) "/"])
  end.

Definition fs_List (prefix : string) : M fs (list string) :=
  p ← lift_result (key_path prefix);
  let q := path_of p in
  let base := default [] (strip (path_of root) q) in
  n ← attempt (Stat q);
  match n with
  | Err e => if errors_is e ErrNotExist then mret [] else throw e
  | Ok n =>
      if is_dir n then s ← get_state; list_walk base (([], n) :: walk q (nodes s)) [] []
      else mret [Join base "/"]
  end.

(** [Open], with what reading the file to its end and closing it will give. *)
Definition fs_Open (key : string) : M fs object :=
  p ← lift_result (key_path key);
  n ← Stat (path_of p);
  s ← get_state;
  r ← attempt (simple (mret tt)); c ← attempt (CloseFile (path_of p));
  let closed := match c with Ok _ => None | Err e => Some e end in
  match n, r, fs_faults s with
  | FFile _ b, Ok _, _ => mret (mkObject (bytes_reader b) closed)
  | FFile _ b, Err e, Some f :: _ => mret (mkObject (Reader (take (ft_done f) b) (Wrapf "read" e)) closed)
  | _, _, _ => mret (mkObject (Reader [] ErrIsDir) closed)
  end.

Definition put_failed (e : error) : put_result := mkPut false (Some e).

(** The body of [Put] once the temporary file is there. *)
Definition put_file (tmp p : path) (r : reader) : M fs put_result :=
  w ← attempt (WriteFile tmp (rd_data r));
  e ← attempt (lift_result (match w with
        | Ok _ => if bool_decide (rd_end r = ErrEOF) then Ok tt else Err (rd_end r)
        | Err e => Err e end);; SyncFile tmp);
  c ← attempt (CloseFile tmp);
  match e, c with
  | Err e, _ | _, Err e => mret (mkPut (is_ok w) (Some e))
  | Ok _, Ok _ =>
      x ← attempt (Rename tmp p);
      mret (mkPut (is_ok w) (match x with Ok _ => None | Err e => Some e end))
  end.

Definition fs_Put (key : string) (r : reader) (size : Z) : M fs put_result :=
  match key_path key with
  | Err e => mret (put_failed e)
  | Ok p =>
      d ← attempt (MkdirAll 488 (path_of (Dir p)));
      match d with
      | Err e => mret (put_failed e)
      | Ok _ =>
          t ← attempt (CreateTemp (path_of (Dir p)) ".upload-");
          match t with
          | Err e => mret (put_failed e)
          | Ok tmp => deferred (Remove tmp) (put_file tmp (path_of p) r)
          end
      end
  end.

Definition filesystem_backend : Backend fs := {| List := fs_List; Open := fs_Open; Put := fs_Put |}.
End Filesystem.

(** ** Containment *)

(** The cleaned form of a relative key that is not refused. *)
Lemma clean_key key : IsAbs (Clean key) || bool_decide (Clean key = "..") || HasPrefix (Clean key) "../" = false ->
  exists q, Forall normal q /\ Clean key = (if bool_decide (q = []) then "." else Join q "/").
Proof.
  intros Hk. bools. destruct (decide (key = "")) as [->|Hne]; [by exists []|].
  unfold Clean in *. rewrite bool_decide_eq_false_2 in * by done.
  destruct (IsAbs key) eqn:Ea.
  { assert (IsAbs ("/" +:+ Join (rev (clean_parts true [] (parts key))) "/") = true); [|congruence].
    apply HasPrefix_spec. eauto. }
  destruct (clean_parts_shape false [] (parts key) (parts_no_slash key)) as (up & k & E & Hup & _);
    [by exists [], 0%nat|]. rewrite E in *. rewrite rev_app_distr, rev_repeat in *.
  destruct k as [|k].
  - exists (rev up). split; [by apply Forall_rev|]. done.
  - exfalso. change (repeat ".." (S k) ++ rev up) with (".." :: (repeat ".." k ++ rev up)) in *.
    rewrite bool_decide_eq_false_2 in * by done.
    destruct (repeat ".." k ++ rev up) as [|x l]; [done|]. rewrite Join_cons2 in *.
    match goal with H : HasPrefix _ _ = false |- _ => assert (HasPrefix (".." +:+ "/" +:+ Join (x :: l) "/") "../" = true);
      [|congruence] end.
    apply HasPrefix_spec. eauto.
Qed.

Lemma path_of_Join_normal rp q : Forall normal rp -> Forall normal q ->
  path_of (PathJoin [abs_path rp; if bool_decide (q = []) then "." else Join q "/"]) = rp ++ q.
Proof.
  intros Hr Hq. case_bool_decide as E.
  - subst q. rewrite PathJoin_abs, path_of_app by done. cbn [parts]. change (parts ".") with ["."].
    cbn [clean_parts]. rewrite bool_decide_eq_false_2, bool_decide_eq_true_2 by done. cbn [orb].
    rewrite rev_involutive, path_of_abs_path, app_nil_r by done. done.
  - rewrite PathJoin_normal, path_of_abs_path by (done || by apply Forall_app). done.
Qed.

(** Every key that is not refused is a place below the root. *)
Lemma key_path_below rp key p : Forall normal rp -> key_path (abs_path rp) key = Ok p ->
  exists q, Forall normal q /\ path_of p = rp ++ q
    /\ Clean key = (if bool_decide (q = []) then "." else Join q "/").
Proof.
  intros Hr Hk. unfold key_path in Hk. destruct (IsAbs (Clean key) || _ || _) eqn:E; [done|].
  apply clean_key in E as (q & Hq & E). rewrite E in Hk. injection Hk as <-.
  exists q. split_and!; [done|by apply path_of_Join_normal|done].
Qed.

Lemma Join_parts s : Join (parts s) "/" = s.
Proof.
  unfold parts. induction s as [|c s IH]; [done|]. cbn [SplitByte].
  destruct (SplitByte_nonempty slash s) as (h & t & E). rewrite E in *. case_bool_decide as Hc.
  - rewrite Join_cons2, IH. by subst c.
  - destruct t as [|x t]; [cbn in *; by rewrite IH|].
    rewrite Join_cons2 in *. rewrite append_cons. by rewrite IH.
Qed.

(** A suffix without a slash of a path is one of its last component. *)
Lemma parts_suffix x suf : ContainsByte slash suf = false ->
  exists l z, parts (x +:+ suf) = l ++ [z +:+ suf].
Proof.
  intros Hs. induction x as [|c x (l & z & IH)].
  - exists [], "". by apply parts_single.
  - rewrite append_cons. unfold parts in *. cbn [SplitByte]. rewrite IH. case_bool_decide.
    + by exists ("" :: l), z.
    + destruct l as [|h l]; [by exists [], (String c z)|by exists (String c h :: l), z].
Qed.

Lemma suffix_of_last a c suf x :
  a +:+ "/" +:+ c = x +:+ suf -> ContainsByte slash c = false -> ContainsByte slash suf = false ->
  HasSuffix c suf = true.
Proof.
  intros E Hc Hs. apply HasSuffix_spec. destruct (parts_suffix x suf Hs) as (l & z & Ep).
  rewrite <- E, parts_app, (parts_single c Hc) in Ep. apply app_inj_2 in Ep as [_ Ep]; [|done].
  injection Ep as ->. by exists z.
Qed.

(** ** The objects below the root *)

(** A key that is not the name of a temporary file. *)
Definition visible (q : path) : bool :=
  forallb (fun c => bool_decide (normal c)) q
  && match last q with
     | Some c => negb (HasPrefix c ".upload-") || HasSuffix c ".json"
     | None => false
     end.

Section Laws.
Context (rp : path) (Hrp : Forall normal rp) (Hrp0 : rp <> []).
Abbreviation root := (abs_path rp).

Definition file_at (s : fs) (q : path) : option (list byte) :=
  match nodes s !! (rp ++ q) with Some (FFile _ d) => Some d | _ => None end.

Definition fs_objects (s : fs) : gmap string (list byte) :=
  list_to_map (omap (fun '(q, n) => match n with
    | FFile _ d => if visible q then Some (Join q "/", d) else None | _ => None end)
    (map_to_list (subtree rp (nodes s)))).

Lemma visible_spec q : visible q = true -> q <> [] /\ Forall normal q.
Proof.
  unfold visible. intros H. bools. split; [by intros ->|by apply Forall_normal_check].
Qed.

Lemma visible_parts q : visible q = true -> parts (Join q "/") = q.
Proof. intros [Hq Hn]%visible_spec. apply parts_Join; [done|by apply Forall_normal_no_slash]. Qed.

Lemma lookup_fs_objects s k :
  fs_objects s !! k = if visible (parts k) then file_at s (parts k) else None.
Proof.
  unfold fs_objects. set (f := fun '(q, n) => _).
  assert (forall k d, (k, d) ∈ omap f (map_to_list (subtree rp (nodes s))) <->
    visible (parts k) = true /\ file_at s (parts k) = Some d) as Hin.
  { intros k' d. rewrite list_elem_of_omap. unfold file_at. split.
    - intros ([q n] & Hqn%elem_of_map_to_list & E). rewrite lookup_subtree in Hqn. cbn in E.
      destruct n as [|md b| |]; try done. destruct (visible q) eqn:Ev; [|done]. injection E as <- <-.
      rewrite visible_parts, Hqn by done. done.
    - intros [Hv Hf]. destruct (nodes s !! (rp ++ parts k')) as [[|md b| |]|] eqn:E; try done.
      injection Hf as ->. exists (parts k', FFile md d). split.
      + apply elem_of_map_to_list. by rewrite lookup_subtree.
      + cbn. by rewrite Hv, Join_parts. }
  destruct (visible (parts k)) eqn:Ev; cycle 1.
  { apply not_elem_of_list_to_map_1. intros Hk. apply list_elem_of_fmap in Hk as ([k' d] & Ek & Hk).
    cbn in Ek. subst k'. apply Hin in Hk as [Hk _]. congruence. }
  destruct (file_at s (parts k)) as [d|] eqn:Ef.
  - apply elem_of_list_to_map_1'; [|by apply Hin]. intros y [_ Hy]%Hin. congruence.
  - apply not_elem_of_list_to_map_1. intros Hk. apply list_elem_of_fmap in Hk as ([k' d] & Ek & Hk).
    cbn in Ek. subst k'. apply Hin in Hk as [_ Hk]. congruence.
Qed.

Lemma fs_objects_ext s s' : (forall q, file_at s' q = file_at s q) -> fs_objects s' = fs_objects s.
Proof. intros H. apply map_eq. intros k. by rewrite !lookup_fs_objects, H. Qed.

Lemma fs_objects_nodes s s' : nodes s' = nodes s -> fs_objects s' = fs_objects s.
Proof. intros H. apply fs_objects_ext. intros q. unfold file_at. by rewrite H. Qed.

(** *** Keys *)

Lemma key_path_Join q : Forall normal q -> q <> [] -> key_path root (Join q "/") = Ok (abs_path (rp ++ q)).
Proof.
  intros Hq Hq0. destruct (rel_path_facts rp q Hrp Hrp0 Hq Hq0) as (E1 & _ & E3 & E4 & E5 & _).
  unfold rel_path in *. unfold key_path. rewrite E1, E3, E4, E5.
  rewrite bool_decide_eq_false_2; [done|]. intros E. pose proof (parts_Join q Hq0 (Forall_normal_no_slash q Hq)) as Hp.
  rewrite E in Hp. change (parts "..") with [".."] in Hp. subst q. by apply Forall_cons in Hq as [(_ & _ & ? & _) _].
Qed.

Lemma digits_no_slash n z : ContainsByte slash (digits n z) = false.
Proof.
  revert z. induction n as [|n IH]; intros z; [done|]. cbn [digits].
  unfold ContainsByte in *. rewrite string_existsb_app, IH. cbn [string_existsb orb].
  rewrite orb_false_r. apply bool_decide_eq_false. intros E. apply (f_equal code) in E. revert E.
  pose proof (Z.mod_pos_bound z 10 ltac:(lia)). unfold code, chr.
  rewrite N_ascii_embedding by lia. change (Z.of_N (N_of_ascii slash)) with 47. lia.
Qed.

Lemma key_name_normal gen suffix : suffix <> "" -> suffix <> "." -> ContainsByte slash suffix = false ->
  normal (pad20 gen +:+ suffix) /\ HasPrefix (pad20 gen +:+ suffix) ".upload-" = false.
Proof.
  intros Hs0 Hs1 Hs.
  assert (exists c t, pad20 gen = String c t /\ c <> "."%char) as (c & t & E & Hc).
  { assert (forall n z, exists c t, digits (S n) z = String c t /\ c <> "."%char) as H.
    { induction n as [|n IH]; intros z.
      - eexists _, _. split; [done|]. intros E. apply (f_equal code) in E. revert E.
        pose proof (Z.mod_pos_bound z 10 ltac:(lia)). unfold code, chr.
        rewrite N_ascii_embedding by lia. change (Z.of_N (N_of_ascii ".")) with 46. lia.
      - destruct (IH (z / 10)) as (c & t & E & Hc). change (digits (S (S n)) z)
          with (digits (S n) (z / 10) +:+ String (chr (48 + z mod 10)) ""). rewrite E, append_cons. eauto. }
    apply (H 19%nat gen). }
  assert (ContainsByte slash (pad20 gen +:+ suffix) = false) as Hsl.
  { unfold ContainsByte in *. rewrite string_existsb_app, Hs. by apply orb_false_iff; split; [apply digits_no_slash|]. }
  rewrite E, append_cons in *. split.
  - split_and!; [done| | |done]; intros [= -> _]; done.
  - destruct (HasPrefix _ _) eqn:Ep; [|done]. apply HasPrefix_spec in Ep as [x Ex].
    rewrite append_cons in Ex. by injection Ex as -> _.
Qed.

(** A key of the store as a list of components. *)
Lemma store_key_parts k : store_key k -> exists id name,
  k = Join [id; "saves"; name] "/" /\ normal id /\ normal name /\ visible [id; "saves"; name] = true.
Proof.
  intros (id & gen & Hid & Hk).
  assert (exists suffix, k = id +:+ "/saves/" +:+ (pad20 gen +:+ suffix) /\ suffix <> "" /\ suffix <> "."
    /\ ContainsByte slash suffix = false) as (suf & -> & H0 & H1 & H2).
  { destruct Hk as [->| ->]; eexists; split_and!; done. }
  destruct (key_name_normal gen suf H0 H1 H2) as [Hn Hp]. exists id, (pad20 gen +:+ suf).
  split_and!; [done..|]. unfold visible. cbn [forallb last].
  rewrite Hp, !bool_decide_eq_true_2 by (done || by split_and!). done.
Qed.

(** *** An upload *)

(** What the body of [Put] leaves: the temporary file, incomplete, or the whole upload
    under its name. *)
Lemma put_file_cases tmp p r s :
  nodes s !! tmp = Some (FFile 384 []) -> tmp <> p ->
  exists res s', put_file tmp p r s = (Ok res, s') /\
    match put_error res with
    | Some _ => exists b, nodes s' = <[tmp := FFile 384 b]> (nodes s)
    | None => put_drained res = true /\ rd_end r = ErrEOF
        /\ nodes s' = <[p := FFile 384 (rd_data r)]> (delete tmp (nodes s))
    end.
Proof.
  intros Ht Hne.
  assert (exists w s1 b, attempt (WriteFile tmp (rd_data r)) s = (Ok w, s1)
    /\ nodes s1 = <[tmp := FFile 384 b]> (nodes s) /\ (w = Ok tt -> b = rd_data r)) as (w & s1 & b & Ew & Hw & Hb).
  { unfold attempt, WriteFile, call, append_data. destruct s as [m [|[f|] l]]; cbn [fs_faults nodes set_nodes] in *;
      rewrite Ht; eexists _, _, _; (split; [reflexivity|split; [reflexivity|done]]). }
  unfold put_file. rewrite (M_bind_ok _ _ _ _ _ Ew).
  set (m2 := (lift_result _;; SyncFile tmp)).
  assert (exists e s2, attempt m2 s1 = (Ok e, s2) /\ nodes s2 = nodes s1
    /\ (e = Ok tt -> w = Ok tt /\ rd_end r = ErrEOF)) as (e & s2 & Ee & He & Hok).
  { unfold attempt, m2, mbind, M_bind, lift_result. destruct w as [[]|ew]; cbn; [|by eexists _, _].
    case_bool_decide; cbn; [|by eexists _, _].
    unfold SyncFile, simple, call. destruct (fs_faults s1) as [|[f|] l]; by eexists _, _. }
  rewrite (M_bind_ok _ _ _ _ _ Ee).
  assert (exists c s3, attempt (CloseFile tmp) s2 = (Ok c, s3) /\ nodes s3 = nodes s2) as (c & s3 & Ec & Hc).
  { unfold attempt, CloseFile, simple, call. destruct (fs_faults s2) as [|[f|] l]; by eexists _, _. }
  rewrite (M_bind_ok _ _ _ _ _ Ec).
  assert (nodes s3 = <[tmp := FFile 384 b]> (nodes s)) as H3 by congruence.
  destruct e as [[]|e]; [|eexists _, _; split; [reflexivity|by exists b]].
  destruct c as [[]|c]; [|eexists _, _; split; [reflexivity|by exists b]].
  destruct (Hok eq_refl) as [-> Hend]. specialize (Hb eq_refl) as ->.
  unfold attempt at 1, mbind at 1, M_bind at 1. unfold Rename, simple, call, rename_node.
  destruct s3 as [m [|[f|] l]]; cbn [fs_faults nodes] in *; subst m; rewrite ?H3;
    [|eexists _, _; split; [reflexivity|by eexists]|];
    rewrite lookup_insert_eq, lookup_insert_ne by done; cbn [is_dir];
    (destruct (lookup_node (parent p) _) as [[]|]; [|eexists _, _; split; [reflexivity|by eexists]..]);
    (destruct (nodes s !! p) as [[]|]; [eexists _, _; split; [reflexivity|by eexists]|..]);
    (eexists _, _; split; [reflexivity|]; cbn; split_and!; [done..|];
     f_equal; by rewrite delete_insert_eq).
Qed.

Lemma file_at_mkdirs mode l s q : file_at (snd (mkdirs mode l s)) q = file_at s q.
Proof.
  revert s. induction l as [|x l IH]; intros s; [done|]. cbn.
  destruct (nodes s !! x) as [[]|] eqn:E; try done. rewrite IH. unfold file_at. cbn.
  destruct (decide (x = rp ++ q)) as [->|Hne]; [by rewrite lookup_insert_eq, E|by rewrite lookup_insert_ne].
Qed.

Lemma file_at_MkdirAll mode x s q : file_at (snd (MkdirAll mode x s)) q = file_at s q.
Proof.
  unfold MkdirAll, call. destruct (fs_faults s) as [|[f|] l]; cbn; by rewrite file_at_mkdirs.
Qed.

Lemma temp_hidden d s q : visible q = true -> rp ++ q <> temp_name d ".upload-" s.
Proof.
  intros Hq E. unfold temp_name in E. destruct q as [|c q _] using rev_ind; [done|].
  rewrite app_assoc in E. apply app_inj_2 in E as [_ E]; [|done]. injection E as ->.
  unfold visible in Hq. rewrite last_snoc in Hq. apply andb_true_iff in Hq as [_ Hq].
  rewrite (proj2 (HasPrefix_spec _ _)) in Hq by eauto. cbn [negb orb] in Hq.
  apply HasSuffix_spec in Hq as [x Hq]. revert x Hq. cbn [string_repeat]. generalize (longest (nodes s)).
  intros k x Hx. apply (f_equal (fun s => string_existsb (fun c => bool_decide (c = "j"%char)) s)) in Hx.
  rewrite !string_existsb_app in Hx. cbn [string_existsb] in Hx.
  assert (forall k, string_existsb (fun c => bool_decide (c = "j"%char)) (string_repeat "0" k) = false) as E
    by (intros k'; induction k' as [|k' IH]; [done|exact IH]).
  rewrite E in Hx. destruct (string_existsb _ x); done.
Qed.

Lemma fs_Put_effect key q0 c r n s :
  Forall normal (q0 ++ [c]) -> visible (q0 ++ [c]) = true ->
  key_path root key = Ok (abs_path (rp ++ q0 ++ [c])) ->
  exists res s', fs_Put root key r n s = (Ok res, s')
    /\ (put_error res = None -> put_drained res = true /\ rd_end r = ErrEOF)
    /\ forall q, visible q = true -> file_at s' q =
         if decide (q = q0 ++ [c]) then
           match put_error res with None => Some (rd_data r) | Some _ => file_at s q end
         else file_at s q.
Proof.
  intros Hn Hv Hk. assert (Forall normal (rp ++ q0 ++ [c])) as Hp by by apply Forall_app.
  unfold fs_Put. rewrite Hk, path_of_abs_path by done.
  rewrite app_assoc in *. apply Forall_app in Hp as [Hd [Hc _]%Forall_cons]. rewrite Dir_abs_path, path_of_abs_path by done.
  pose proof (fun q => file_at_MkdirAll 488 (rp ++ q0) s q) as H1. unfold mbind, M_bind, attempt.
  destruct (MkdirAll 488 (rp ++ q0) s) as [[[]|e] s1]; cbn in H1; cycle 1.
  { eexists _, _. split; [reflexivity|]. split; [done|]. intros q Hq. cbn. rewrite H1. by case_decide. }
  destruct (CreateTemp (rp ++ q0) ".upload-" s1) as [[t|e] s2] eqn:Et; cycle 1.
  { eexists _, _. split; [reflexivity|]. split; [done|]. intros q Hq. cbn.
    assert (nodes s2 = nodes s1) as E.
    { unfold CreateTemp, simple, call, put_node in Et.
      destruct (fs_faults s1) as [|[f|] l]; cbn in Et; repeat case_match; by simplify_eq. }
    unfold file_at in *. rewrite E, H1. by case_decide. }
  apply CreateTemp_ok in Et as [Et H2].
  pose proof (fun q Hq => temp_hidden (rp ++ q0) s1 q Hq) as Hh. rewrite <- Et in Hh.
  assert (t <> (rp ++ q0) ++ [c]) as Htp by (rewrite <- app_assoc; apply not_eq_sym, Hh, Hv).
  destruct (put_file_cases t ((rp ++ q0) ++ [c]) r s2) as (res & s3 & E & Hres);
    [by rewrite H2, lookup_insert_eq|done|].
  unfold deferred. rewrite E.
  assert (forall q, visible q = true -> file_at (snd (Remove t s3)) q = file_at s3 q) as Hrm.
  { intros q Hq. unfold file_at. by rewrite (keeps_Remove (rp ++ q) t (not_eq_sym (Hh q Hq)) s3). }
  destruct (Remove t s3) as [r4 s4]. cbn in Hrm. eexists _, _. split; [reflexivity|]. split.
  - intros Hr. rewrite Hr in Hres. tauto.
  - intros q Hq. rewrite Hrm, <- H1 by done. unfold file_at at 1.
    destruct (put_error res) as [e|].
    + destruct Hres as [b Hb]. rewrite Hb, H2, !lookup_insert_ne by (apply not_eq_sym, Hh, Hq).
      by case_decide.
    + destruct Hres as (_ & _ & Hb). rewrite Hb. case_decide as Eq.
      * subst q. rewrite app_assoc, lookup_insert_eq. done.
      * rewrite lookup_insert_ne by (rewrite <- app_assoc; intros ?%app_inv_head; congruence).
        rewrite lookup_delete_ne, H2, lookup_insert_ne by (apply not_eq_sym, Hh, Hq). done.
Qed.

(** *** A root the store has for itself *)

(** No call fails, and below the root there is what the store puts there: a directory
    for each pack with a directory [saves] of regular files. *)
Record fs_working (s : fs) : Prop := {
  fw_faults : fs_faults s = [];
  fw_root : Forall (dir_or_none (nodes s)) (prefixes rp);
  fw_shape : forall q n, q <> [] -> nodes s !! (rp ++ q) = Some n -> Forall normal q /\
    match q with
    | [_] | [_; _] => is_dir n = true
    | [a; b; _] => is_regular n = true /\ exists md, nodes s !! (rp ++ [a; b]) = Some (FDir md)
    | _ => False
    end }.

Lemma fs_Put_working_dirs s id x :
  fs_working s -> normal id -> x = [id] \/ x = [id; "saves"] -> dir_or_none (nodes s) (rp ++ x).
Proof.
  intros Hw Hid Hx. destruct (nodes s !! (rp ++ x)) as [n|] eqn:E; [right|by left].
  destruct (fw_shape _ Hw x n) as [_ Hsh]; [by destruct Hx as [->| ->]|done|].
  destruct Hx as [->| ->]; destruct n; try done; eauto.
Qed.

Lemma prefixes_saves q id : q ∈ prefixes (rp ++ [id; "saves"]) ->
  q ∈ prefixes rp \/ q = rp ++ [id] \/ q = rp ++ [id; "saves"].
Proof.
  intros H. apply prefixes_below in H as [H|(p' & r & E & Hp & ->)]; [by left|right].
  destruct p' as [|a [|b [|? ?]]]; [done|..]; cbn in E; simplify_eq; [by left|by right].
Qed.

(** The directories of a pack's key can be made. *)
Lemma working_prefixes s id : fs_working s -> normal id ->
  Forall (dir_or_none (nodes s)) (prefixes (rp ++ [id; "saves"])).
Proof.
  intros Hw Hid. apply Forall_forall. intros q [Hq|Hq]%prefixes_saves.
  - pose proof (fw_root _ Hw) as Hr. rewrite Forall_forall in Hr. by apply Hr.
  - destruct Hq as [->| ->]; apply (fs_Put_working_dirs _ id _ Hw Hid); auto.
Qed.

(** A file of a pack, written into a root that works. *)
Lemma fs_working_insert id name b m :
  fs_working (Fs m []) -> Forall normal [id; "saves"; name] ->
  let d := rp ++ [id; "saves"] in
  fs_working (Fs (<[d ++ [name] := FFile 384 b]> (with_dirs 488 (prefixes d) m)) []).
Proof.
  intros Hw Hn d. set (p := d ++ [name]). set (m1 := with_dirs 488 (prefixes d) m).
  assert (normal id) as Hid by by apply Forall_cons in Hn as [? _].
  assert (d ∈ prefixes d) as Hdp by (apply elem_of_prefixes; split; [by destruct rp|exists []; by rewrite app_nil_r]).
  assert (exists md, m1 !! d = Some (FDir md)) as [md Hmd].
  { unfold m1. rewrite lookup_with_dirs, bool_decide_eq_true_2 by done.
    pose proof (working_prefixes _ _ Hw Hid) as Hdirs. rewrite Forall_forall in Hdirs.
    destruct (Hdirs d Hdp) as [E|[md E]]; cbn in E; rewrite E; eauto. }
  assert (forall q, (length q < length p)%nat -> <[p := FFile 384 b]> m1 !! q = m1 !! q) as Hshort.
  { intros q Hq. rewrite lookup_insert_ne; [done|]. intros <-. lia. }
  split; cbn [nodes fs_faults]; [done|..].
  - apply Forall_forall. intros q Hq. unfold dir_or_none. rewrite Hshort.
    + unfold m1. rewrite lookup_with_dirs. pose proof (fw_root _ Hw) as Hr. rewrite Forall_forall in Hr.
      destruct (Hr q Hq) as [E|[md' E]]; cbn in E; rewrite E; [case_bool_decide|]; eauto.
    + apply prefixes_length in Hq. unfold p, d. rewrite !length_app. cbn. lia.
  - intros q x Hq Hx. destruct (decide (p = rp ++ q)) as [E|Hne].
    + rewrite E, lookup_insert_eq in Hx. injection Hx as <-.
      assert (q = [id; "saves"] ++ [name]) as ->.
      { unfold p, d in E. rewrite <- app_assoc in E. by apply app_inv_head in E. }
      cbn [app]. split; [done|]. split; [done|]. exists md. rewrite Hshort; [done|].
      unfold p, d. rewrite !length_app. cbn. lia.
    + rewrite lookup_insert_ne in Hx by done. unfold m1 in Hx. rewrite lookup_with_dirs in Hx.
      destruct (m !! (rp ++ q)) as [y|] eqn:Ey.
      * injection Hx as <-. destruct (fw_shape _ Hw q y Hq Ey) as [Hqn Hsh]. split; [done|].
        destruct q as [|a [|b' [|c' [|? ?]]]]; try done. destruct Hsh as [Hreg [md' Hmd']]. split; [done|].
        exists md'. cbn in Hmd'. rewrite Hshort; [|unfold p, d; rewrite !length_app; cbn; lia].
        unfold m1. by rewrite lookup_with_dirs, Hmd'.
      * destruct (bool_decide (rp ++ q ∈ prefixes d)) eqn:Eb; [|done]. injection Hx as <-.
        apply bool_decide_eq_true, prefixes_saves in Eb as [Eb|[Eb|Eb]].
        -- apply prefixes_length in Eb. rewrite length_app in Eb. destruct q; [done|cbn in Eb; lia].
        -- apply app_inv_head in Eb as ->. by repeat constructor; apply Hid.
        -- apply app_inv_head in Eb as ->. split; [|done]. by apply (Forall_app normal [id; "saves"] [name]) in Hn as [? _].
Qed.

(** [put_file] where no call fails: the data in the place of the target. *)
Lemma put_file_works d c t r m md :
  let p := d ++ [c] in
  d <> [] -> m !! d = Some (FDir md) -> t <> p -> t <> d -> rd_end r = ErrEOF ->
  m !! p = None \/ (exists mode b, m !! p = Some (FFile mode b)) ->
  put_file t p r (Fs (<[t := FFile 384 []]> m) [])
  = (Ok (mkPut true None), Fs (<[p := FFile 384 (rd_data r)]> (delete t (<[t := FFile 384 (rd_data r)]> m))) []).
Proof.
  intros p Hd0 Hmd Htp Htd Hend Hpf. set (data := rd_data r).
  assert (WriteFile t data (Fs (<[t := FFile 384 []]> m) []) = (Ok tt, Fs (<[t := FFile 384 data]> m) [])) as Ew.
  { unfold WriteFile, call, append_data. cbn [fs_faults nodes]. rewrite lookup_insert_eq.
    unfold set_nodes. cbn [nodes fs_faults]. by rewrite insert_insert_eq. }
  assert (Rename t p (Fs (<[t := FFile 384 data]> m) [])
    = (Ok tt, Fs (<[p := FFile 384 data]> (delete t (<[t := FFile 384 data]> m))) [])) as Er.
  { unfold Rename, simple, call, rename_node, lookup_node, parent. cbn [fs_faults nodes].
    assert (removelast p = d) as -> by apply removelast_last.
    rewrite lookup_insert_eq, (bool_decide_eq_false_2 (d = [])), !lookup_insert_ne, Hmd by done.
    cbn [is_dir]. destruct Hpf as [->|(mode & b & ->)]; done. }
  unfold put_file. erewrite M_bind_ok by (unfold attempt; fold data; rewrite Ew; done). cbv iota beta.
  rewrite bool_decide_eq_true_2 by done.
  change (attempt (lift_result (Ok tt);; SyncFile t)) with (attempt (SyncFile t)).
  erewrite M_bind_ok by done. erewrite M_bind_ok by done. cbv iota beta.
  erewrite M_bind_ok by (unfold attempt; rewrite Er; done). done.
Qed.

Lemma fs_Put_works id name r n s :
  fs_working s -> normal id -> normal name -> visible [id; "saves"; name] = true -> rd_end r = ErrEOF ->
  exists s', fs_Put root (Join [id; "saves"; name] "/") r n s = (Ok (mkPut true None), s') /\ fs_working s'.
Proof.
  intros Hw Hid Hname Hv Hend. assert (Forall normal [id; "saves"; name]) as Hn by (repeat constructor; done || apply Hid || apply Hname).
  unfold fs_Put. rewrite key_path_Join by done.
  assert (Forall normal (rp ++ [id; "saves"; name])) as Hp by by apply Forall_app.
  rewrite path_of_abs_path by done. change [id; "saves"; name] with ([id; "saves"] ++ [name]) in *.
  rewrite app_assoc in *. apply Forall_app in Hp as Hdc. destruct Hdc as [Hd [Hc _]%Forall_cons].
  rewrite Dir_abs_path, path_of_abs_path by done. set (d := rp ++ [id; "saves"]) in *.
  destruct s as [m fl] eqn:Es. pose proof (fw_faults _ Hw) as Hf. cbn in Hf. subst fl.
  pose proof (working_prefixes _ _ Hw Hid) as Hdirs. cbn [nodes] in Hdirs. fold d in Hdirs.
  set (m1 := with_dirs 488 (prefixes d) m).
  erewrite M_bind_ok by (unfold attempt, MkdirAll, call; cbn [fs_faults]; rewrite mkdirs_with_dirs by done; done).
  fold m1. assert (exists md, m1 !! d = Some (FDir md)) as [md Hmd].
  { assert (d ∈ prefixes d) as Hdp by (apply elem_of_prefixes; split; [by destruct rp|exists []; by rewrite app_nil_r]).
    unfold m1. rewrite lookup_with_dirs, bool_decide_eq_true_2 by done.
    rewrite Forall_forall in Hdirs. destruct (Hdirs d Hdp) as [->|[md ->]]; eauto. }
  set (t := temp_name d ".upload-" (Fs m1 [])). assert (d <> []) as Hd0 by by destruct rp.
  assert (CreateTemp d ".upload-" (Fs m1 []) = (Ok t, Fs (<[t := FFile 384 []]> m1) [])) as Ec.
  { unfold CreateTemp, simple, call, put_node, lookup_node, parent. cbn [fs_faults nodes]. fold t.
    assert (removelast t = d) as -> by apply removelast_last.
    by rewrite (bool_decide_eq_false_2 (d = [])), Hmd. }
  erewrite M_bind_ok by (unfold attempt; rewrite Ec; done). cbv iota beta.
  assert (t <> d ++ [name]) as Htp.
  { intros E. apply (temp_hidden d (Fs m1 []) ([id; "saves"] ++ [name]) Hv). rewrite app_assoc. by symmetry. }
  assert (t <> d) as Htd.
  { unfold t, temp_name. intros E. apply (f_equal length) in E. rewrite length_app in E. cbn in E. lia. }
  unfold deferred. rewrite (put_file_works d name t r m1 md Hd0 Hmd Htp Htd Hend).
  - rewrite delete_insert_eq, delete_id by exact (temp_name_fresh d ".upload-" (Fs m1 [])).
    assert (Remove t (Fs (<[d ++ [name] := FFile 384 (rd_data r)]> m1) [])
      = (Err ErrNotExist, Fs (<[d ++ [name] := FFile 384 (rd_data r)]> m1) [])) as ->.
    { unfold Remove, simple, call. cbn [fs_faults nodes]. rewrite lookup_insert_ne by done.
      pose proof (temp_name_fresh d ".upload-" (Fs m1 [])) as Hfresh. cbn [nodes] in Hfresh. fold t in Hfresh.
      by rewrite Hfresh. }
    eexists. split; [reflexivity|]. by apply fs_working_insert.
  - unfold m1. rewrite lookup_with_dirs. destruct (m !! (d ++ [name])) as [x|] eqn:Ex.
    + right. unfold d in Ex. rewrite <- app_assoc in Ex. apply (fw_shape _ Hw) in Ex as [_ [Ex _]]; [|done].
      destruct x; try done. eauto.
    + left. rewrite bool_decide_eq_false_2; [done|]. intros Hl%prefixes_length. rewrite length_app in Hl. cbn in Hl. lia.
Qed.

(** *** A listing *)

Lemma list_walk_files base l s out :
  fs_faults s = [] -> Forall (fun rn => is_dir (snd rn) = false) l ->
  list_walk base l [] out s = (Ok (out ++ map (fun rn => Join (base ++ fst rn) "/") l), s).
Proof.
  intros Hs Hl. revert out. induction Hl as [|[r n] l Hn _ IH]; intros out; [by rewrite app_nil_r|].
  cbn in Hn. cbn [list_walk existsb]. rewrite Hn, IH. cbn. by rewrite <- app_assoc.
Qed.

Lemma saves_path id : normal id -> exists p, key_path root (saves_prefix id) = Ok p /\ path_of p = rp ++ [id; "saves"].
Proof.
  intros Hid. assert (Forall normal [id; "saves"]) as Hn by (repeat constructor; done || apply Hid).
  assert (parts (saves_prefix id) = [id; "saves"; ""]) as Ep.
  { unfold saves_prefix. change "/saves/" with ("/" +:+ "saves" +:+ "/" +:+ ""). rewrite !parts_app.
    rewrite parts_single by apply Hid. done. }
  assert (Clean (saves_prefix id) = Join [id; "saves"] "/") as Ec.
  { destruct (Clean_Join [id; "saves"] Hn ltac:(done)) as [Hcj _]. rewrite <- Hcj.
    assert (forall s x l, parts s = x :: l -> x <> "" -> s <> "" /\ IsAbs s = false) as Hne.
    { intros s x l Es Hx. split; [intros ->; cbn in Es; congruence|].
      destruct (IsAbs s) eqn:E; [|done]. apply HasPrefix_spec in E as [y ->].
      rewrite append_cons, append_nil_l, parts_cons_sep in Es. congruence. }
    destruct Hid as (Hid & _).
    destruct (Hne _ _ _ Ep Hid) as [Hn1 Ha1].
    destruct (Hne _ _ _ (parts_Join [id; "saves"] ltac:(done) (Forall_normal_no_slash _ Hn)) Hid) as [Hn2 Ha2].
    unfold Clean. rewrite (bool_decide_eq_false_2 (saves_prefix id = "")) by done.
    rewrite (bool_decide_eq_false_2 (Join [id; "saves"] "/" = "")), Ha1, Ha2, Ep by done.
    rewrite parts_Join by (done || by apply Forall_normal_no_slash).
    assert (clean_parts false [] [id; "saves"; ""] = clean_parts false [] [id; "saves"]) as ->; [|done].
    change [id; "saves"; ""] with ([id; "saves"] ++ [""]). rewrite clean_parts_app. done. }
  exists (abs_path (rp ++ [id; "saves"])). split; [|by apply path_of_abs_path, Forall_app].
  rewrite <- key_path_Join by done. unfold key_path. rewrite Ec.
  by rewrite (proj1 (Clean_Join [id; "saves"] Hn ltac:(done))).
Qed.

(** The objects of a pack with a name that [List] looks for, as nodes. *)
Lemma fs_objects_saves id s k : normal id -> fs_working s -> HasSuffix k ".json" = true ->
  is_Some (fs_objects s !! k) /\ HasPrefix k (saves_prefix id) = true <->
  exists r n, r <> [] /\ nodes s !! ((rp ++ [id; "saves"]) ++ r) = Some n /\ k = Join ([id; "saves"] ++ r) "/".
Proof.
  intros Hid Hw Hj. rewrite lookup_fs_objects. split.
  - intros [[d Hd] Hp]. destruct (visible (parts k)) eqn:Ev; [|done].
    apply HasPrefix_spec in Hp as [x Hx]. unfold saves_prefix in Hx.
    change (id +:+ "/saves/") with (id +:+ "/" +:+ "saves" +:+ "/" +:+ "") in Hx.
    rewrite !append_assoc, append_nil_l in Hx. pose proof (f_equal parts Hx) as Hpk.
    rewrite !parts_app, (parts_single id) in Hpk by apply Hid. cbn [app] in Hpk.
    change (parts "saves") with ["saves"] in Hpk. cbn [app] in Hpk.
    unfold file_at in Hd. destruct (nodes s !! (rp ++ parts k)) as [n|] eqn:En; [|done].
    exists (parts x), n. split_and!.
    + destruct (SplitByte_nonempty slash x) as (h & t & E). unfold parts. by rewrite E.
    + rewrite Hpk in En. by rewrite <- app_assoc.
    + rewrite <- (Join_parts k), Hpk. done.
  - intros (r & n & Hr & Hn & ->). rewrite <- app_assoc in Hn.
    destruct (fw_shape _ Hw ([id; "saves"] ++ r) n ltac:(done) Hn) as [Hnorm Hsh].
    destruct r as [|name [|? ?]]; [done| |done]. cbn [app] in *. destruct Hsh as [Hreg _].
    pose proof (Forall_normal_no_slash _ Hnorm) as Hns.
    assert (visible [id; "saves"; name] = true) as Hv.
    { unfold visible. cbn [last]. apply andb_true_iff. split.
      - apply forallb_forall. intros c Hc%list_elem_of_In. rewrite Forall_forall in Hnorm.
        by apply bool_decide_eq_true, Hnorm.
      - apply orb_true_iff. right. apply HasSuffix_spec in Hj as [x Hx].
        rewrite !Join_cons2 in Hx. cbn [Join] in Hx. rewrite !Forall_cons in Hns. destruct Hns as (_ & _ & Hnm & _).
        apply (suffix_of_last (id +:+ "/" +:+ "saves") _ _ x); [|exact Hnm|done]. rewrite !append_assoc. exact Hx. }
    rewrite parts_Join, Hv by done. unfold file_at. rewrite Hn. destruct n; try done. split; [by eexists|].
    apply HasPrefix_spec. exists name. rewrite !Join_cons2. unfold saves_prefix. by rewrite !append_assoc.
Qed.

Lemma fs_List_works id s : normal id -> fs_working s ->
  exists l, fs_List root (saves_prefix id) s = (Ok l, s)
    /\ forall k, HasSuffix k ".json" = true ->
         k ∈ l <-> is_Some (fs_objects s !! k) /\ HasPrefix k (saves_prefix id) = true.
Proof.
  intros Hid Hw. destruct (saves_path id Hid) as (p & Ek & Ep). unfold fs_List.
  erewrite M_bind_ok by (unfold lift_result; rewrite Ek; done). rewrite Ep.
  rewrite path_of_abs_path, strip_app by done. cbn [default from_option].
  pose proof (fun k => fs_objects_saves id s k Hid Hw) as Hobj.
  destruct s as [m fl]. pose proof (fw_faults _ Hw) as Hf. cbn in Hf. subst fl.
  set (d := rp ++ [id; "saves"]) in *. assert (d <> []) as Hd0 by by destruct rp.
  assert (Stat d (Fs m []) = (match m !! d with Some n => Ok n | None => Err ErrNotExist end, Fs m [])) as Es.
  { unfold Stat, simple, call, lookup_node. cbn [fs_faults nodes]. rewrite bool_decide_eq_false_2 by done.
    by destruct (m !! d). }
  erewrite M_bind_ok by (unfold attempt; rewrite Es; done).
  destruct (m !! d) as [n|] eqn:Ed.
  - destruct (fw_shape _ Hw [id; "saves"] n ltac:(done) Ed) as [_ Hdir]. cbn in Hdir. rewrite Hdir.
    erewrite M_bind_ok by done. cbn [nodes list_walk existsb]. rewrite Hdir.
    erewrite M_bind_ok by (unfold attempt, simple, call; done). cbv iota beta.
    rewrite list_walk_files; [|done|].
    + eexists. split; [done|]. intros k Hj. rewrite (Hobj k Hj), app_nil_l, list_elem_of_fmap. split.
      * intros ([r n'] & -> & [Hr Hn]%elem_of_walk). by exists r, n'.
      * intros (r & n' & Hr & Hn & ->). exists (r, n'). split; [done|]. by apply elem_of_walk.
    + apply Forall_forall. intros [r n'] [Hr Hn]%elem_of_walk. unfold d in Hn. rewrite <- app_assoc in Hn.
      destruct (fw_shape _ Hw ([id; "saves"] ++ r) n' ltac:(done) Hn) as [_ Hsh].
      destruct r as [|name [|? ?]]; [done| |done]. by destruct Hsh as [Hreg _]; destruct n'.
  - eexists. split; [done|]. intros k Hj. rewrite (Hobj k Hj). split; [by intros ?%elem_of_nil|].
    intros (r & n' & Hr & Hn & _). unfold d in Hn. rewrite <- app_assoc in Hn.
    destruct (fw_shape _ Hw ([id; "saves"] ++ r) n' ltac:(done) Hn) as [_ Hsh].
    destruct r as [|name [|? ?]]; [done| |done]. destruct Hsh as [_ [md Hmd]].
    fold d in Hmd. cbn in Hmd, Ed. congruence.
Qed.

(** *** Reading changes nothing *)

Lemma simple_ret_nodes {A} (a : A) s : nodes (snd (simple (mret a) s)) = nodes s.
Proof. unfold simple, call. by destruct (fs_faults s) as [|[f|] l]. Qed.

Lemma list_walk_nodes base l sk out s : nodes (snd (list_walk base l sk out s)) = nodes s.
Proof.
  revert sk out s. induction l as [|[r n] l IH]; intros sk out s; [done|]. cbn [list_walk].
  destruct (existsb _ sk); [apply IH|]. destruct (is_dir n); [|apply IH].
  unfold mbind, M_bind, attempt. pose proof (simple_ret_nodes tt s) as Hs.
  destruct (simple (mret tt) s) as [[u|e] s1]; cbn in Hs; [by rewrite IH|].
  destruct (errors_is e ErrNotExist); [by rewrite IH|done].
Qed.

Lemma fs_List_nodes pre s : nodes (snd (fs_List root pre s)) = nodes s.
Proof.
  unfold fs_List, mbind, M_bind, lift_result, attempt, get_state. destruct (key_path root pre) as [p|e]; [|done].
  pose proof (Stat_nodes (path_of p) s) as Hs. destruct (Stat (path_of p) s) as [[n|e] s1]; cbn in Hs.
  - destruct (is_dir n); [|done]. by rewrite list_walk_nodes.
  - by destruct (errors_is e ErrNotExist).
Qed.

Lemma fs_Open_nodes k s : nodes (snd (fs_Open root k s)) = nodes s.
Proof.
  unfold fs_Open, mbind, M_bind, lift_result, attempt, get_state, CloseFile.
  destruct (key_path root k) as [p|e]; [|done].
  pose proof (Stat_nodes (path_of p) s) as Hs. destruct (Stat (path_of p) s) as [[n|e] s1]; cbn in Hs; [|done].
  pose proof (simple_ret_nodes tt s1) as H1. destruct (simple (mret tt) s1) as [r1 s2]. cbn in H1.
  pose proof (simple_ret_nodes tt s2) as H2. destruct (simple (mret tt) s2) as [r2 s3]. cbn in H2.
  destruct n, r1, (fs_faults s1) as [|[]]; cbn; congruence.
Qed.

Lemma fs_Open_whole q s o s' : visible q = true -> fs_Open root (Join q "/") s = (Ok o, s') ->
  rd_end (ob_reader o) = ErrEOF -> file_at s q = Some (rd_data (ob_reader o)).
Proof.
  intros Hv H He. destruct (visible_spec q Hv) as [Hq Hn]. unfold fs_Open in H.
  rewrite key_path_Join in H by done. apply M_bind_inv in H as (p & s1 & [= <- <-] & H).
  apply M_bind_inv in H as (n & s1 & Es & H). apply M_bind_inv in H as (s2 & s2' & [= <- <-] & H).
  rewrite path_of_abs_path in * by by apply Forall_app.
  assert (nodes s !! (rp ++ q) = Some n) as Hnode.
  { apply simple_ok in Es as [l Es]. unfold lookup_node in Es. cbn [nodes] in Es.
    rewrite bool_decide_eq_false_2 in Es by by destruct rp.
    destruct (nodes s !! (rp ++ q)); [|done]. by injection Es as -> _. }
  unfold file_at. rewrite Hnode. apply M_bind_inv in H as (r & s3 & _ & H).
  apply M_bind_inv in H as (c & s4 & _ & H).
  destruct n as [md|md b|t|], r as [u|e], (fs_faults s1) as [|[f|] l]; injection H as <- _; cbn in He; done.
Qed.

Lemma fs_Open_works q s : visible q = true -> fs_working s ->
  match file_at s q with
  | Some d => fs_Open root (Join q "/") s = (Ok (mkObject (bytes_reader d) None), s)
  | None => exists e, fs_Open root (Join q "/") s = (Err e, s)
  end \/ (exists n, nodes s !! (rp ++ q) = Some n /\ is_regular n = false).
Proof.
  intros Hv Hw. destruct (visible_spec q Hv) as [Hq Hn]. unfold fs_Open. rewrite key_path_Join by done.
  destruct s as [m fl]. pose proof (fw_faults _ Hw) as Hf. cbn in Hf. subst fl. unfold file_at. cbn [nodes].
  destruct (m !! (rp ++ q)) as [n|] eqn:E.
  - destruct (is_regular n) eqn:Er; [left|by right; exists n]. destruct n as [|md b| |]; try done.
    erewrite M_bind_ok by done. rewrite path_of_abs_path by by apply Forall_app.
    erewrite M_bind_ok; [|unfold Stat, simple, call, lookup_node; cbn [fs_faults nodes];
      rewrite bool_decide_eq_false_2, E by (by destruct rp); reflexivity].
    reflexivity.
  - left. exists ErrNotExist. erewrite M_bind_ok by done. rewrite path_of_abs_path by by apply Forall_app.
    apply M_bind_err. unfold Stat, simple, call, lookup_node. cbn [fs_faults nodes].
    by rewrite bool_decide_eq_false_2, E by (by destruct rp).
Qed.

(** *** The laws *)

Lemma saves_regular s id name n : fs_working s -> nodes s !! (rp ++ [id; "saves"; name]) = Some n -> is_regular n = true.
Proof. intros Hw Hn. by destruct (fw_shape _ Hw [id; "saves"; name] n ltac:(done) Hn) as [_ [? _]]. Qed.

Definition filesystem_laws : @BackendLaws fs (filesystem_backend root).
Proof.
  refine (@Build_BackendLaws fs (filesystem_backend root) fs_objects fs_working _ _ _ _ _ _ _).
  - intros id s. apply fs_objects_nodes, fs_List_nodes.
  - intros k s. apply fs_objects_nodes, fs_Open_nodes.
  - intros k k' r n s (id & name & -> & Hid & Hname & Hv)%store_key_parts Hne.
    destruct (fs_Put_effect (Join [id; "saves"; name] "/") [id; "saves"] name r n s) as (res & s' & E & _ & Hq);
      [by repeat constructor; done || apply Hid || apply Hname|done|apply key_path_Join; [|done];
       by repeat constructor; done || apply Hid || apply Hname|].
    cbn [Put filesystem_backend]. rewrite E. cbn [snd]. rewrite !lookup_fs_objects.
    destruct (visible (parts k')) eqn:Ev; [|done]. rewrite Hq by done. case_decide as Eq; [|done].
    destruct Hne. rewrite <- (Join_parts k'), Eq. done.
  - intros k s o s' (id & name & -> & Hid & Hname & Hv)%store_key_parts H He _.
    rewrite lookup_fs_objects, visible_parts, Hv by done. by eapply fs_Open_whole.
  - intros id s Hid Hw. destruct (fs_List_works id s Hid Hw) as (l & E & Hl). eauto.
  - intros k s Hk Hw.
    assert (exists q, visible q = true /\ k = Join q "/" /\
      forall n, nodes s !! (rp ++ q) = Some n -> is_regular n = true) as (q & Hv & -> & Hreg).
    { destruct Hk as [Hk|[d Hd]].
      - apply store_key_parts in Hk as (id & name & -> & Hid & Hname & Hv). exists [id; "saves"; name].
        split_and!; [done..|]. intros n. by apply saves_regular.
      - rewrite lookup_fs_objects in Hd. destruct (visible (parts k)) eqn:Hv; [|done].
        exists (parts k). rewrite Join_parts. split_and!; [done..|]. intros n Hn. unfold file_at in Hd.
        rewrite Hn in Hd. by destruct n. }
    rewrite lookup_fs_objects, visible_parts, Hv by done.
    destruct (fs_Open_works q s Hv Hw) as [H|(n & Hn & Hf)]; [|apply Hreg in Hn; congruence].
    cbn [Open filesystem_backend]. destruct (file_at s q) as [d|]; [eauto|].
    destruct H as [e H]. exists (Err e), s. split_and!; [done..|]. done.
  - intros k r n s Hk Hw Hend. apply store_key_parts in Hk as (id & name & -> & Hid & Hname & Hv).
    destruct (fs_Put_works id name r n s Hw Hid Hname Hv Hend) as (s' & E & Hw').
    destruct (fs_Put_effect (Join [id; "saves"; name] "/") [id; "saves"] name r n s) as (res & s1 & E1 & _ & Hq);
      [by repeat constructor; done || apply Hid || apply Hname|done|apply key_path_Join; [|done];
       by repeat constructor; done || apply Hid || apply Hname|].
    rewrite E in E1. injection E1 as <- <-. exists s'. split_and!; [done..|].
    apply map_eq. intros k'. rewrite lookup_fs_objects.
    destruct (decide (Join [id; "saves"; name] "/" = k')) as [<-|Hne].
    + rewrite lookup_insert_eq, visible_parts, Hv, Hq by done. by rewrite decide_True.
    + rewrite lookup_insert_ne, lookup_fs_objects by done. destruct (visible (parts k')) eqn:Ev; [|done].
      rewrite Hq by done. rewrite decide_False; [done|]. intros E1. apply Hne.
      by rewrite <- (Join_parts k'), E1.
Defined.

(** ** The theorems *)

(** C18: an upload is atomic, whatever call fails and whatever the reader delivers: it
    reports an error and every object is as before, or it reports success, the reader
    was read to its regular end, and the one object holds all of its bytes. *)
Theorem Filesystem_Put_atomic k r n s :
  store_key k ->
  exists res s', fs_Put root k r n s = (Ok res, s') /\
    match put_error res with
    | Some _ => fs_objects s' = fs_objects s
    | None => put_drained res = true /\ rd_end r = ErrEOF /\ fs_objects s' = <[k := rd_data r]> (fs_objects s)
    end.
Proof.
  intros (id & name & -> & Hid & Hname & Hv)%store_key_parts.
  assert (Forall normal [id; "saves"; name]) as Hn by (repeat constructor; done || apply Hid || apply Hname).
  destruct (fs_Put_effect (Join [id; "saves"; name] "/") [id; "saves"] name r n s) as (res & s' & E & Hok & Hq);
    [done|done|by apply key_path_Join|].
  exists res, s'. split; [done|]. destruct (put_error res) as [e|].
  - apply map_eq. intros k. rewrite !lookup_fs_objects. destruct (visible (parts k)) eqn:Ev; [|done].
    rewrite Hq by done. by case_decide.
  - destruct (Hok eq_refl) as [Hd He]. split_and!; [done..|]. apply map_eq. intros k. rewrite lookup_fs_objects.
    destruct (decide (Join [id; "saves"; name] "/" = k)) as [<-|Hne].
    + by rewrite lookup_insert_eq, visible_parts, Hv, Hq, decide_True by done.
    + rewrite lookup_insert_ne, lookup_fs_objects by done. destruct (visible (parts k)) eqn:Ev; [|done].
      rewrite Hq, decide_False; [done| |done]. intros E1. apply Hne. by rewrite <- (Join_parts k), E1.
Qed.

Lemma put_file_keeps tmp p r q : under tmp q = false -> under p q = false -> keeps q (put_file tmp p r).
Proof.
  intros Ht Hp. assert (tmp <> q) as Hne.
  { intros ->. rewrite not_under in Ht. apply (Ht []). by rewrite app_nil_r. }
  apply keeps_bind; [by apply keeps_attempt, keeps_WriteFile|]. intros w.
  apply keeps_bind; [apply keeps_attempt, keeps_bind; [apply keeps_lift|intros _; apply keeps_Sync]|]. intros e.
  apply keeps_bind; [apply keeps_attempt, keeps_Close|]. intros c.
  destruct e, c; try apply keeps_ret. apply keeps_bind; [by apply keeps_attempt, keeps_Rename|]. intros x. apply keeps_ret.
Qed.

(** No key leads out of the root: whatever the key is, unless it names the root
    itself, an upload changes nothing but what is below the root and missing parents of
    it, and a listing and a read change nothing at all. *)
Theorem Filesystem_contained key r n s q :
  Clean key <> "." ->
  (under rp q = false -> q ∉ prefixes rp -> nodes (snd (fs_Put root key r n s)) !! q = nodes s !! q)
  /\ nodes (snd (fs_List root key s)) = nodes s /\ nodes (snd (fs_Open root key s)) = nodes s.
Proof.
  intros Hk. split; [|split; [apply fs_List_nodes|apply fs_Open_nodes]]. intros Hu Hq. unfold fs_Put.
  destruct (key_path root key) as [p|e] eqn:Ep; [|done]. pose proof Ep as Ep'.
  apply key_path_below in Ep as (q0 & Hn & _ & Ec); [|done].
  destruct q0 as [|c q0 _] using rev_ind; [done|]. rewrite bool_decide_eq_false_2 in Ec by by destruct q0.
  assert (p = abs_path (rp ++ q0 ++ [c])) as ->.
  { unfold key_path in Ep'. destruct (IsAbs (Clean key) || _ || _); [done|]. injection Ep' as <-.
    rewrite Ec. apply PathJoin_normal; [done..|by destruct q0]. }
  apply Forall_app in Hn as Hqc. destruct Hqc as [Hq0 [Hc _]%Forall_cons].
  rewrite path_of_abs_path, app_assoc, Dir_abs_path, path_of_abs_path
    by (done || by rewrite ?Forall_app, ?Forall_singleton).
  assert (forall x, under (rp ++ x) q = false) as Hux.
  { intros x. apply not_under. intros y ->. rewrite <- app_assoc, under_app in Hu. done. }
  assert (keeps q (MkdirAll 488 (rp ++ q0))) as Hmk.
  { apply keeps_MkdirAll_other. intros [?|(p' & y & _ & _ & ->)]%prefixes_below; [done|].
    by rewrite under_app in Hu. }
  pose proof (Hmk s) as H1. unfold mbind, M_bind, attempt.
  destruct (MkdirAll 488 (rp ++ q0) s) as [[[]|e] s1]; cbn in H1; [|done].
  destruct (CreateTemp (rp ++ q0) ".upload-" s1) as [[t|e] s2] eqn:Et; cycle 1.
  { cbn. unfold CreateTemp, simple, call, put_node in Et.
    destruct (fs_faults s1) as [|[f|] l]; cbn in Et; repeat case_match; simplify_eq; done. }
  apply CreateTemp_ok in Et as [Et H2].
  assert (t <> q) as Htq.
  { intros <-. rewrite Et in Hu. unfold temp_name in Hu. by rewrite <- app_assoc, under_app in Hu. }
  assert (under t q = false) as Hut by (rewrite Et; unfold temp_name; rewrite <- app_assoc; apply Hux).
  assert (keeps q (deferred (Remove t) (put_file t ((rp ++ q0) ++ [c]) r))) as Hkeep.
  { apply keeps_deferred; [by apply keeps_Remove|]. apply put_file_keeps; [done|]. rewrite <- app_assoc. apply Hux. }
  rewrite Hkeep, H2, lookup_insert_ne by done. exact H1.
Qed.
End Laws.

(** ** The theorems on a concrete root *)

Definition ex_root : path := ["state"; "backups"].

Lemma ex_root_normal : Forall normal ex_root.
Proof. by apply Forall_normal_check. Qed.

Lemma Filesystem_Put_atomic_witness :
  exists res s', fs_Put (abs_path ex_root) (archive_key "vanilla" 1) (Reader [Byte.x61] ErrEOF) (-1)
    (Fs ∅ [None; None; Some (Fault (Errorf "no space left on device") 1)]) = (Ok res, s')
  /\ is_Some (put_error res) /\ fs_objects ex_root s' = ∅.
Proof.
  destruct (Filesystem_Put_atomic ex_root ex_root_normal ltac:(discriminate) (archive_key "vanilla" 1)
    (Reader [Byte.x61] ErrEOF) (-1) (Fs ∅ [None; None; Some (Fault (Errorf "no space left on device") 1)]))
    as (res & s' & E & Hres).
  { exists "vanilla", 1. split; [by split_and!|by left]. }
  exists res, s'. split; [exact E|].
  assert (put_error res = Some (Errorf "no space left on device")) as Er.
  { apply (f_equal (fun x => match fst x with Ok r => put_error r | Err _ => None end)) in E.
    cbn [fst] in E. rewrite <- E. vm_compute. reflexivity. }
  rewrite Er in Hres. split; [by rewrite Er|]. rewrite Hres. reflexivity.
Defined.

Lemma Filesystem_contained_witness :
  nodes (snd (fs_Put (abs_path ex_root) "../../etc/passwd" (Reader [] ErrEOF) 0
    (Fs {[ ["etc"] := FDir 493; ["etc"; "passwd"] := FFile 420 [] ]} []))) !! ["etc"; "passwd"] = Some (FFile 420 []).
Proof.
  destruct (Filesystem_contained ex_root ex_root_normal "../../etc/passwd" (Reader [] ErrEOF) 0
    (Fs {[ ["etc"] := FDir 493; ["etc"; "passwd"] := FFile 420 [] ]} []) ["etc"; "passwd"]) as [E _].
  - vm_compute. discriminate.
  - rewrite E; [reflexivity|reflexivity|]. intros (_ & r & Er)%elem_of_prefixes. discriminate Er.
Defined.
