(* ===== verification/S3.v ===== *)
(** * The S3 backend ([internal/store/s3.go]) and the choice of a backend

    Keys below a prefix of a bucket.  The S3 client is a third-party package: the class
    [Minio] is what the source calls of it, the class [MinioLaws] what it promises, and
    the theorem is that on them the backend keeps the laws the store relies on. *)
From Stdlib Require Import String Ascii.
From S2P Require Import Prelude GoStrings Filepath Fs Config Archive Store StoreHead StoreCommit StoreRestore Filesystem.

(** ** The entries below a prefix *)

Definition below {A} (p : string) (m : gmap string A) : gmap string A :=
  list_to_map (omap (fun '(K, x) => (fun k => (k, x)) <$> CutPrefix p K) (map_to_list m)).

Lemma elem_of_below {A} p (m : gmap string A) k x :
  (k, x) ∈ omap (fun '(K, x) => (fun k => (k, x)) <$> CutPrefix p K) (map_to_list m) <-> m !! (p +:+ k) = Some x.
Proof.
  rewrite list_elem_of_omap. split.
  - intros ([q y] & Hq%elem_of_map_to_list & E). apply fmap_Some in E as (r' & Es%CutPrefix_spec & E).
    injection E as -> ->. by subst q.
  - intros Hm. exists (p +:+ k, x). split; [by apply elem_of_map_to_list|].
    by rewrite (proj2 (CutPrefix_spec p (p +:+ k) k) eq_refl).
Qed.
Lemma lookup_below {A} p (m : gmap string A) k : below p m !! k = m !! (p +:+ k).
Proof.
  unfold below. destruct (m !! (p +:+ k)) as [x|] eqn:E.
  - apply elem_of_list_to_map_1'; [|by apply elem_of_below]. intros y Hy%elem_of_below. congruence.
  - apply not_elem_of_list_to_map_1. intros [[r' x] [-> Hx]]%list_elem_of_fmap.
    apply elem_of_below in Hx. cbn in *. congruence.
Qed.

(** ** The client *)

Class Minio (S : Type) := {
  ListObjects : string -> string -> S -> list (string + error) * S;
  GetObject : string -> string -> M S unit;
  StatObject : string -> string -> M S object;
  PutObject : string -> string -> reader -> Z -> M S put_result }.

(** What the client promises of a bucket: [contents] is what it holds, [serving s] that no
    call on [s] fails. *)
Class MinioLaws (S : Type) `{Minio S} := {
  contents : S -> string -> gmap string (list byte);
  serving : S -> Prop;
  ListObjects_frame b p s : contents (snd (ListObjects b p s)) = contents s;
  GetObject_frame b k s : contents (snd (GetObject b k s)) = contents s;
  StatObject_frame b k s : contents (snd (StatObject b k s)) = contents s;
  PutObject_frame b k k' r n s : k' <> k -> contents (snd (PutObject b k r n s)) b !! k' = contents s b !! k';
  StatObject_whole b k s o s' : StatObject b k s = (Ok o, s') ->
    rd_end (ob_reader o) = ErrEOF -> ob_close o = None -> contents s b !! k = Some (rd_data (ob_reader o));
  ListObjects_serving b p s : serving s -> exists keys s', ListObjects b p s = (map inl keys, s') /\ serving s'
    /\ forall k, k ∈ keys <-> is_Some (contents s b !! k) /\ HasPrefix k p = true;
  GetObject_serving b k s : serving s -> exists s', GetObject b k s = (Ok tt, s') /\ serving s';
  StatObject_serving b k s : serving s -> exists r s', StatObject b k s = (r, s') /\ serving s'
    /\ match contents s b !! k with Some d => r = Ok (mkObject (bytes_reader d) None) | None => is_ok r = false end;
  PutObject_serving b k r n s : serving s -> rd_end r = ErrEOF ->
    exists s', PutObject b k r n s = (Ok (mkPut true None), s') /\ serving s'
      /\ contents s' b = <[k := rd_data r]> (contents s b) }.

(** ** The backend *)

Record S3 := mkS3 { bucket : string; prefix : string }.

(** [url.Parse] as the scheme and the host it finds, and [minio.New]. *)
Definition NewS3 (url_parse : string -> result (string * string)) (minio_New : string -> bool -> string -> result unit)
    (c : S3Config) : result S3 :=
  u ← url_parse (Endpoint c);
  let secure := match Secure c with Some b => b | None => negb (bool_decide (fst u = "http")) end in
  _ ← minio_New (snd u) secure (Region c);
  Ok (mkS3 (Bucket c) (Trim (S3Prefix c) "/")).

Section S3.
Context {Svc : Type} `{ML : MinioLaws Svc} (s : S3).

Definition s3_key (k : string) : string := if bool_decide (prefix s = "") then k else PathJoin [prefix s; k].

(** The loop over the listing: the first failure ends it. *)
Fixpoint s3_names (items : list (string + error)) : result (list string) :=
  match items with
  | [] => Ok []
  | inr e :: _ => Err e
  | inl key :: items => out ← s3_names items; Ok (TrimPrefix (TrimPrefix key (prefix s)) "/" :: out)
  end.
Definition s3_List (p : string) : M Svc (list string) := fun t =>
  let '(items, t') := ListObjects (bucket s) (s3_key p) t in (s3_names items, t').
Definition s3_Open (key : string) : M Svc object :=
  GetObject (bucket s) (s3_key key);; StatObject (bucket s) (s3_key key).
Definition s3_Put (key : string) (r : reader) (size : Z) : M Svc put_result :=
  PutObject (bucket s) (s3_key key) r size.
Definition s3_backend : Backend Svc := {| List := s3_List; Open := s3_Open; Put := s3_Put |}.
End S3.

(** [FromConfig]: the driver's backend. *)
Inductive driver := FilesystemDriver (root : string) | S3Driver (s : S3) | RcloneDriver (remote : string).
Definition FromConfig `{GoUnicode} (new_s3 : S3Config -> result S3) (c : StorageConfig) : result driver :=
  if bool_decide (Driver c = "filesystem") then Ok (FilesystemDriver (FilesystemRoot c))
  else if bool_decide (Driver c = "s3") then s ← new_s3 (Config.S3 c); Ok (S3Driver s)
  else if bool_decide (Driver c = "rclone") then Ok (RcloneDriver (TrimSuffix (RcloneRemote c) "/"))
  else Err (Errorf ("unsupported store " +:+ Quote (Driver c))).

(** ** Keys *)

(** A prefix without empty and dotted components, as [path.Join] leaves it. *)
Definition clean_prefix (p : string) : Prop :=
  p = "" \/ exists ps, ps <> [] /\ Forall normal ps /\ p = Join ps "/".

Lemma Join_app l1 l2 : l1 <> [] -> l2 <> [] -> Join (l1 ++ l2) "/" = Join l1 "/" +:+ "/" +:+ Join l2 "/".
Proof.
  intros H1 H2. destruct l2 as [|c l2]; [done|]. clear H2. revert c. induction l2 as [|d l2 IH] using rev_ind; intros c.
  - by apply Join_snoc.
  - rewrite app_comm_cons, app_assoc, Join_snoc by by destruct l1. rewrite IH.
    rewrite (Join_snoc (c :: l2) d) by done. by rewrite !append_assoc.
Qed.

(** A slash at the end of a path that is not empty does not count. *)
Lemma Clean_slash a : a <> "" -> Clean (a +:+ "/") = Clean a.
Proof.
  intros Ha. assert (a +:+ "/" <> "") as Hs by by destruct a.
  assert (IsAbs (a +:+ "/") = IsAbs a) as Hi.
  { destruct a as [|c a]; [done|]. rewrite append_cons. unfold IsAbs, HasPrefix. cbn. by destruct (bool_decide (_ = c)). }
  assert (parts (a +:+ "/") = parts a ++ [""]) as Hq by exact (parts_app a "").
  unfold Clean. rewrite Hi, Hq, (bool_decide_eq_false_2 (a +:+ "/" = "")), (bool_decide_eq_false_2 (a = "")) by done.
  by rewrite clean_parts_app.
Qed.

Lemma append_slash_inj a b x y :
  ContainsByte slash a = false -> ContainsByte slash b = false -> a +:+ "/" +:+ x = b +:+ "/" +:+ y -> a = b /\ x = y.
Proof.
  intros Ha Hb E. assert (forall s, ContainsByte slash s = false -> string_forallb (fun c => negb (bool_decide (c = slash))) s = true) as Hn.
  { induction s as [|c s IH]; [done|]. unfold ContainsByte. cbn. intros [Hc Hs]%orb_false_iff.
    unfold ContainsByte in IH. rewrite IH by done. rewrite bool_decide_eq_false_2; [done|]. intros ->. done. }
  apply (append_sep_inj (fun c => negb (bool_decide (c = slash)))) in E as [-> E]; [by injection E as ->| | |done|done]; by apply Hn.
Qed.

Lemma store_key_slash k id t : store_key k -> normal id -> k = id +:+ "/saves" +:+ t -> HasPrefix k (saves_prefix id) = true.
Proof.
  intros (id' & name & -> & Hid' & Hname & _)%store_key_parts Hid E.
  change (Join [id'; "saves"; name] "/") with (id' +:+ "/" +:+ "saves" +:+ "/" +:+ name) in *.
  change (id +:+ "/saves" +:+ t) with (id +:+ "/" +:+ "saves" +:+ t) in E.
  apply append_slash_inj in E as [-> _]; [|apply Hid'|apply Hid]. apply HasPrefix_spec. exists name. unfold saves_prefix. by rewrite append_assoc.
Qed.

Section Keys.
Context (s : S3) (Hp : clean_prefix (prefix s)).

(** Where a key is in the bucket. *)
Definition s3_base : string := if bool_decide (prefix s = "") then "" else prefix s +:+ "/".

Lemma s3_key_parts q : Forall normal q -> q <> [] -> s3_key s (Join q "/") = s3_base +:+ Join q "/".
Proof.
  intros Hq Hne. unfold s3_key, s3_base. case_bool_decide as E; [done|].
  destruct Hp as [?|(ps & Hps & Hn & Ep)]; [done|]. cbn [PathJoin]. rewrite bool_decide_eq_false_2 by done.
  change (Join [prefix s; Join q "/"] "/") with (prefix s +:+ "/" +:+ Join q "/").
  rewrite append_assoc, Ep, <- Join_app by done.
  apply Clean_Join; [by apply Forall_app|by destruct ps].
Qed.
Lemma s3_key_store k : store_key k -> s3_key s k = s3_base +:+ k.
Proof.
  intros (id & name & -> & Hid & Hname & _)%store_key_parts. apply s3_key_parts; [|done].
  repeat constructor; done || apply Hid || apply Hname.
Qed.

(** The prefix of a listing loses its last slash, unless the bucket's prefix is empty. *)
Lemma s3_key_saves id : normal id ->
  s3_key s (saves_prefix id) = s3_base +:+ id +:+ "/saves" +:+ (if bool_decide (prefix s = "") then "/" else "").
Proof.
  intros Hid. unfold s3_base. destruct (decide (prefix s = "")) as [E|E].
  - unfold s3_key, saves_prefix. rewrite !bool_decide_eq_true_2 by done. done.
  - rewrite !(bool_decide_eq_false_2 (prefix s = "")) by done.
    assert (Forall normal [id; "saves"]) as Hn by (repeat constructor; done || apply Hid).
    pose proof (s3_key_parts [id; "saves"] Hn ltac:(done)) as Hk.
    unfold s3_key, s3_base in Hk |- *. rewrite !(bool_decide_eq_false_2 (prefix s = "")) in * by done.
    cbn [PathJoin] in *. rewrite !(bool_decide_eq_false_2 (prefix s = "")) in * by done.
    change (Join [prefix s; Join [id; "saves"] "/"] "/") with (prefix s +:+ "/" +:+ id +:+ "/saves") in Hk.
    change (Join [prefix s; saves_prefix id] "/") with (prefix s +:+ "/" +:+ id +:+ "/saves/").
    assert (Clean (prefix s +:+ "/" +:+ id +:+ "/saves/") = Clean (prefix s +:+ "/" +:+ id +:+ "/saves")) as ->.
    { change (id +:+ "/saves/") with (id +:+ "/saves" +:+ "/"). rewrite <- !append_assoc. apply Clean_slash.
      by destruct (prefix s). }
    rewrite Hk. rewrite append_nil_r. done.
Qed.
End Keys.

(** ** The laws *)

Section Laws.
Context {Svc : Type} `{ML : MinioLaws Svc} (s : S3) (Hp : clean_prefix (prefix s)).
Abbreviation base := (s3_base s).

Definition s3_objects (t : Svc) : gmap string (list byte) := below base (contents t (bucket s)).
(** Below the prefix there is nothing but what the store put there. *)
Definition tidy (t : Svc) : Prop := forall k, is_Some (s3_objects t !! k) -> store_key k.
Definition s3_working (t : Svc) : Prop := serving t /\ tidy t.

Lemma lookup_s3_objects t k : s3_objects t !! k = contents t (bucket s) !! (base +:+ k).
Proof. apply lookup_below. Qed.
Lemma s3_objects_frame t t' : contents t' = contents t -> s3_objects t' = s3_objects t.
Proof. unfold s3_objects. by intros ->. Qed.
Lemma base_inj k k' : base +:+ k = base +:+ k' -> k = k'.
Proof. induction base as [|c b IH]; [done|]. rewrite !append_cons. intros [= E]. by apply IH. Qed.

Lemma s3_names_keys (keys : list string) :
  s3_names s (map inl keys) = Ok (map (fun key => TrimPrefix (TrimPrefix key (prefix s)) "/") keys).
Proof. induction keys as [|k keys IH]; [done|]. cbn [map s3_names]. by rewrite IH. Qed.

Lemma TrimPrefix_app p x : TrimPrefix (p +:+ x) p = x.
Proof. unfold TrimPrefix. by rewrite (proj2 (CutPrefix_spec p (p +:+ x) x) eq_refl). Qed.
Lemma TrimPrefix_none x p : HasPrefix x p = false -> TrimPrefix x p = x.
Proof.
  unfold TrimPrefix, HasPrefix. intros Hx. destruct (CutPrefix p x) eqn:E; [|done].
  rewrite bool_decide_eq_false in Hx. destruct Hx. eauto.
Qed.
Lemma normal_no_slash id x : normal id -> HasPrefix (id +:+ x) "/" = false.
Proof.
  intros (Hne & _ & _ & Hs). destruct (HasPrefix _ _) eqn:E; [|done]. exfalso.
  apply HasPrefix_spec in E as [y E]. destruct id as [|c id]; [done|]. rewrite append_cons in E.
  change ("/" +:+ y) with (String slash y) in E. injection E as -> _. done.
Qed.

(** What a listed key stands for. *)
Lemma listed_key id x : normal id -> TrimPrefix (TrimPrefix (base +:+ id +:+ x) (prefix s)) "/" = id +:+ x.
Proof.
  intros Hid. unfold s3_base. destruct (decide (prefix s = "")) as [E|E].
  - rewrite bool_decide_eq_true_2, E, append_nil_l by done.
    change (TrimPrefix (id +:+ x) "") with (id +:+ x). by apply TrimPrefix_none, normal_no_slash.
  - rewrite bool_decide_eq_false_2, append_assoc, TrimPrefix_app by done. apply TrimPrefix_app.
Qed.

Lemma s3_List_working id t : normal id -> s3_working t ->
  exists l t', s3_List s (saves_prefix id) t = (Ok l, t') /\ s3_working t'
    /\ forall k, k ∈ l <-> is_Some (s3_objects t !! k) /\ HasPrefix k (saves_prefix id) = true.
Proof.
  intros Hid [Hs Ht]. unfold s3_List.
  destruct (ListObjects_serving (bucket s) (s3_key s (saves_prefix id)) t Hs) as (keys & t' & E & Hs' & Hk).
  rewrite E, s3_names_keys. eexists _, t'. split; [reflexivity|]. split.
  { split; [done|]. pose proof (ListObjects_frame (bucket s) (s3_key s (saves_prefix id)) t) as Hf. rewrite E in Hf.
    intros k. rewrite (s3_objects_frame t t') by done. apply Ht. }
  rewrite (s3_key_saves s Hp id Hid) in Hk. set (e := if bool_decide (prefix s = "") then "/" else "") in *.
  intros k. rewrite list_elem_of_fmap. split.
  - intros (K & -> & [Hc Hpre]%Hk). apply HasPrefix_spec in Hpre as [x ->]. rewrite !append_assoc in Hc |- *.
    rewrite listed_key by done. rewrite lookup_s3_objects. split; [done|].
    apply (store_key_slash _ id (e +:+ x)); [apply Ht; by rewrite lookup_s3_objects|done..].
  - intros [Ho Hpre]. apply HasPrefix_spec in Hpre as [x ->]. unfold saves_prefix in *.
    exists (base +:+ (id +:+ "/saves/") +:+ x). rewrite append_assoc, listed_key by done. split; [done|].
    apply Hk. rewrite lookup_s3_objects, append_assoc in Ho. split; [done|]. apply HasPrefix_spec. unfold e.
    case_bool_decide; [exists x|exists ("/" +:+ x)]; by rewrite !append_assoc.
Qed.

Definition s3_laws : @BackendLaws Svc (s3_backend s).
Proof.
  refine (@Build_BackendLaws Svc (s3_backend s) s3_objects s3_working _ _ _ _ _ _ _).
  - intros id t. apply s3_objects_frame. cbn. unfold s3_List.
    pose proof (ListObjects_frame (bucket s) (s3_key s (saves_prefix id)) t) as Hf.
    by destruct (ListObjects _ _ t).
  - intros k t. apply s3_objects_frame. cbn. unfold s3_Open, mbind, M_bind.
    pose proof (GetObject_frame (bucket s) (s3_key s k) t) as Hf. destruct (GetObject _ _ t) as [[u|e] t1]; [|done].
    by rewrite StatObject_frame.
  - intros k k' r n t Hk Hne. rewrite !lookup_s3_objects. cbn. unfold s3_Put. rewrite (s3_key_store s Hp k Hk).
    apply PutObject_frame. by intros E%base_inj.
  - intros k t o t' Hk E He Hc. rewrite lookup_s3_objects. cbn in E. unfold s3_Open, mbind, M_bind in E.
    pose proof (GetObject_frame (bucket s) (s3_key s k) t) as Hf. destruct (GetObject _ _ t) as [[u|e] t1]; [|done].
    apply StatObject_whole in E; [|done..]. rewrite (s3_key_store s Hp k Hk) in E. cbn in Hf. by rewrite Hf in E.
  - intros id t Hid Ht. destruct (s3_List_working id t Hid Ht) as (l & t' & E & Ht' & Hl). eauto 10.
  - intros k t Hk [Hs Ht]. assert (store_key k) as Hsk by by destruct Hk as [|Hk]; [|apply Ht].
    rewrite lookup_s3_objects. cbn. unfold s3_Open, mbind, M_bind. rewrite (s3_key_store s Hp k Hsk).
    pose proof (GetObject_frame (bucket s) (base +:+ k) t) as Hf1.
    destruct (GetObject_serving (bucket s) (base +:+ k) t Hs) as (t1 & E1 & Hs1). rewrite E1 in *. cbn in Hf1.
    pose proof (StatObject_frame (bucket s) (base +:+ k) t1) as Hf2.
    destruct (StatObject_serving (bucket s) (base +:+ k) t1 Hs1) as (r & t2 & E2 & Hs2 & Hr). rewrite E2 in *. cbn in Hf2.
    rewrite Hf1 in Hr. eexists r, t2. split; [done|]. split.
    + split; [done|]. intros k'. rewrite (s3_objects_frame t t2) by congruence. apply Ht.
    + destruct (contents t (bucket s) !! (base +:+ k)) as [d|]; [done|]. intros o ->. done.
  - intros k r n t Hk [Hs Ht] He. cbn. unfold s3_Put. rewrite (s3_key_store s Hp k Hk).
    destruct (PutObject_serving (bucket s) (base +:+ k) r n t Hs He) as (t' & E & Hs' & Hc).
    assert (s3_objects t' = <[k := rd_data r]> (s3_objects t)) as Ho.
    { apply map_eq. intros k'. rewrite lookup_s3_objects, Hc. destruct (decide (k = k')) as [->|Hne].
      - by rewrite !lookup_insert_eq.
      - rewrite !lookup_insert_ne, lookup_s3_objects; [done|done|by intros E'%base_inj]. }
    exists t'. split_and!; [done|split; [done|]|done]. intros k'. rewrite Ho.
    destruct (decide (k = k')) as [<-|Hne]; [done|]. rewrite lookup_insert_ne by done. apply Ht.
Defined.

End Laws.

(** ** An in-memory service *)

(** Buckets in memory; every call takes the next entry of a list of faults. *)
Record buckets := Buckets { bk_contents : string -> gmap string (list byte); bk_faults : list (option error) }.
Definition bk_call {A} (fail : error -> A) (f : (string -> gmap string (list byte)) -> A * (string -> gmap string (list byte)))
    (t : buckets) : A * buckets :=
  match bk_faults t with
  | Some e :: l => (fail e, Buckets (bk_contents t) l)
  | l => let '(a, c) := f (bk_contents t) in (a, Buckets c (List.tl l))
  end.

#[global] Instance mem_minio : Minio buckets := {|
  ListObjects b p := bk_call (fun e => [inr e]) (fun c =>
    (map inl (List.filter (fun k => HasPrefix k p) (map fst (map_to_list (c b)))), c));
  GetObject b k := bk_call Err (fun c => (Ok tt, c));
  StatObject b k := bk_call Err (fun c =>
    (match c b !! k with Some d => Ok (mkObject (bytes_reader d) None) | None => Err (Errorf "The specified key does not exist.") end, c));
  PutObject b k r _ := bk_call Err (fun c =>
    if bool_decide (rd_end r = ErrEOF)
    then (Ok (mkPut true None), fun b' => if bool_decide (b' = b) then <[k := rd_data r]> (c b) else c b')
    else (Ok (mkPut true (Some (rd_end r))), c)) |}.

Lemma bk_call_frame {A} fail (f : (string -> gmap string (list byte)) -> A * (string -> gmap string (list byte))) t :
  (forall c, snd (f c) = c) -> bk_contents (snd (bk_call fail f t)) = bk_contents t.
Proof.
  intros Hf. unfold bk_call. specialize (Hf (bk_contents t)).
  destruct (bk_faults t) as [|[e|] l]; [|done|]; destruct (f (bk_contents t)); cbn in *; congruence.
Qed.

#[global] Instance mem_minio_laws : MinioLaws buckets.
Proof.
  refine {| contents := bk_contents; serving t := bk_faults t = [] |}.
  - intros b p t. by apply bk_call_frame.
  - intros b k t. by apply bk_call_frame.
  - intros b k t. apply bk_call_frame. done.
  - intros b k k' r n t Hk. cbn. unfold bk_call. destruct (bk_faults t) as [|[e|] l]; [|done|];
      case_bool_decide; cbn; rewrite ?bool_decide_eq_true_2, ?lookup_insert_ne; done.
  - intros b k t o t'. cbn. unfold bk_call. destruct (bk_faults t) as [|[e|] l]; [|done|];
      destruct (bk_contents t b !! k) as [d|]; intros [=]; subst; done.
  - intros b p t Ht. cbn. unfold bk_call. rewrite Ht. eexists _, _. split_and!; [done..|].
    intros k. rewrite list_elem_of_In, filter_In, <- list_elem_of_In, list_elem_of_fmap. apply and_iff_compat_r. split.
    + intros ([k' d] & -> & Hin%elem_of_map_to_list). by exists d.
    + intros [d Hd%elem_of_map_to_list]. by exists (k, d).
  - intros b k t Ht. cbn. unfold bk_call. rewrite Ht. eauto.
  - intros b k t Ht. cbn. unfold bk_call. rewrite Ht. eexists _, _. split_and!; [done..|].
    by destruct (bk_contents t b !! k).
  - intros b k r n t Ht Hr. cbn. unfold bk_call. rewrite Ht, bool_decide_eq_true_2 by done.
    eexists. split_and!; [done..|]. cbn. by rewrite bool_decide_eq_true_2.
Defined.

Definition ex_s3 : S3 := mkS3 "worlds" "hostpack/worlds".
Lemma ex_s3_clean : clean_prefix (prefix ex_s3).
Proof. right. exists ["hostpack"; "worlds"]. split_and!; [done|by apply Forall_normal_check|done]. Qed.


(** *** A prefix with an empty component

    [key] cleans the whole path and [List] cuts the prefix as it was written: what was
    put is listed under names that cannot be opened. *)
Definition ex_unclean : S3 := mkS3 "worlds" "hostpack//worlds".
Definition after_put : buckets :=
  snd (s3_Put ex_unclean (manifest_key "atm9" 1) (bytes_reader []) 0 (Buckets (fun _ => ∅) [])).
Lemma unclean_prefix_hides_objects :
  fst (s3_Open ex_unclean (manifest_key "atm9" 1) after_put) = Ok (mkObject (bytes_reader []) None)
  /\ exists key, fst (s3_List ex_unclean (saves_prefix "atm9") after_put) = Ok [key]
       /\ is_ok (fst (s3_Open ex_unclean key after_put)) = false.
Proof. split; [vm_compute; reflexivity|]. eexists. split; vm_compute; reflexivity. Qed.
