(* ===== verification/Rclone.v ===== *)
(** * The rclone backend ([internal/store/rclone.go])

    Keys below a remote, through the [rclone] command.  The command is a program outside
    the repository: the class [Rclone] is running it, the class [RcloneLaws] what its
    three subcommands promise, and the theorem is that on them the backend keeps the
    laws the store relies on. *)
From Stdlib Require Import String Ascii.
From S2P Require Import Prelude GoStrings GoJson Scanner Filepath Fs Config Archive Store StoreHead StoreCommit StoreRestore Filesystem S3.

(** ** Running a command *)

(** What [exec.Cmd] sees: the error of starting it, its exit code, what it writes, alone
    and with its standard error between, and, of the copy of the source into it, whether
    the source was read to its end and the error it gave. *)
Record finished := mkFinished {
  fin_start : option error; fin_code : Z; fin_stdout : reader; fin_combined : list byte;
  fin_drained : bool; fin_copy : option error }.

(** A run of [rclone] with the given arguments and source. *)
Class Rclone (S : Type) := rclone : list string -> option reader -> S -> finished * S.

Definition ExitError (code : Z) : error := Errorf ("exit status " +:+ Itoa code).
(** [Cmd.Wait]: a bad exit counts before a failed copy. *)
Definition Wait (f : finished) : option error :=
  if negb (fin_code f =? 0) then Some (ExitError (fin_code f)) else fin_copy f.

(** The scanner of [List] has the default buffer. *)
Definition maxToken : Z := 64 * 1024.

(** ** The backend *)

Definition NewRclone (remote : string) : string := TrimSuffix remote "/".

Section Backend.
Context {Svc : Type} `{Rclone Svc} `{GoUnicode} (remote : string).

Definition target (key : string) : string := remote +:+ "/" +:+ key.

Definition rclone_List (prefix : string) : M Svc (list string) := fun t =>
  let '(f, t') := rclone ["lsf"; "--recursive"; "--files-only"; target prefix] None t in
  (match fin_start f with
   | Some e => Err (Wrapf "rclone lsf" e)
   | None =>
       if fin_code f =? 3 then Ok []
       else match Wait f with
       | Some e => Err (Wrapf "rclone lsf" e)
       | None =>
           let '(lines, ok) := scan_lines maxToken (fin_combined f) in
           if ok then Ok (map (append prefix) lines) else Err ErrTooLong
       end
   end, t').
(** [Open], with what [commandReader.Close] will say: the command is waited for. *)
Definition rclone_Open (key : string) : M Svc object := fun t =>
  let '(f, t') := rclone ["cat"; target key] None t in
  (match fin_start f with Some e => Err e | None => Ok (mkObject (fin_stdout f) (Wait f)) end, t').
(** The error of [Put] carries what the command wrote; one that did not start wrote nothing. *)
Definition rcat_error (output : list byte) (e : error) : error :=
  Wrapf "rclone rcat" (Noted e (TrimSpace (string_of_bytes output))).
Definition rclone_Put (key : string) (r : reader) (size : Z) : M Svc put_result := fun t =>
  let '(f, t') := rclone ["rcat"; target key] (Some r) t in
  (Ok (match fin_start f with
       | Some e => mkPut false (Some (rcat_error [] e))
       | None => mkPut (fin_drained f) (rcat_error (fin_combined f) <$> Wait f)
       end), t').
Definition rclone_backend : Backend Svc := {| List := rclone_List; Open := rclone_Open; Put := rclone_Put |}.
End Backend.

(** ** What the command promises *)

(** [remote_files] is what the remotes hold, by target; [answering s] says that no run on
    [s] fails.  The output of a listing, which is standard output and standard error
    together, may hold other lines, such as notices: the laws ask that the scanner can read
    it, so that no line has 64 KiB, and that of the lines it finds, the ones that end in
    [.json] are the manifests that are there.  rclone leaves with code 3 when the directory
    does not exist. *)
Class RcloneLaws (S : Type) `{Rclone S} := {
  remote_files : S -> gmap string (list byte);
  answering : S -> Prop;
  lsf_frame t s : remote_files (snd (rclone ["lsf"; "--recursive"; "--files-only"; t] None s)) = remote_files s;
  cat_frame t s : remote_files (snd (rclone ["cat"; t] None s)) = remote_files s;
  rcat_frame t t' r s : t' <> t -> remote_files (snd (rclone ["rcat"; t] (Some r) s)) !! t' = remote_files s !! t';
  cat_whole t s f s' : rclone ["cat"; t] None s = (f, s') -> fin_start f = None -> Wait f = None ->
    rd_end (fin_stdout f) = ErrEOF -> remote_files s !! t = Some (rd_data (fin_stdout f));
  lsf_answering d s : answering s ->
    (forall n, is_Some (remote_files s !! (d +:+ n)) -> good_line maxToken n = true) ->
    exists lines f s', rclone ["lsf"; "--recursive"; "--files-only"; d] None s = (f, s') /\ answering s'
      /\ fin_start f = None
      /\ (fin_code f = 3 /\ lines = []
          \/ Wait f = None /\ fin_code f <> 3 /\ scan_lines maxToken (fin_combined f) = (lines, true))
      /\ forall n, HasSuffix n ".json" = true -> n ∈ lines <-> is_Some (remote_files s !! (d +:+ n));
  cat_answering t s : answering s -> exists f s', rclone ["cat"; t] None s = (f, s') /\ answering s' /\ fin_start f = None
    /\ match remote_files s !! t with
       | Some b => fin_stdout f = bytes_reader b /\ Wait f = None
       | None => rd_data (fin_stdout f) = [] /\ Wait f <> None
       end;
  rcat_answering t r s : answering s -> rd_end r = ErrEOF ->
    exists f s', rclone ["rcat"; t] (Some r) s = (f, s') /\ answering s' /\ fin_start f = None /\ Wait f = None
      /\ fin_drained f = true /\ remote_files s' = <[t := rd_data r]> (remote_files s) }.

(** ** Names the store makes *)

(** The characters of a generation and its suffix. *)
Definition name_char (c : ascii) : bool := between 46 122 c.

Lemma forallb_existsb (p q : ascii -> bool) s :
  (forall c, p c = true -> q c = false) -> string_forallb p s = true -> string_existsb q s = false.
Proof.
  intros Hpq. induction s as [|c s IH]; [done|]. cbn. intros [Hc Hs]%andb_true_iff. by rewrite Hpq, IH.
Qed.

Lemma name_char_good n : n <> "" -> string_forallb name_char n = true -> string_len n < maxToken -> good_line maxToken n = true.
Proof.
  intros Hne Hn Hl. unfold good_line. rewrite bool_decide_eq_false_2, (proj2 (Z.ltb_lt _ _)) by done.
  assert (ContainsByte (chr 10) n = false) as ->.
  { apply (forallb_existsb name_char); [|done]. intros c Hc. apply bool_decide_eq_false_2. intros ->. done. }
  assert (HasSuffix n (String (chr 13) "") = false) as ->; [|done].
  destruct (HasSuffix n _) eqn:E; [|done]. apply HasSuffix_spec in E as [x ->].
  rewrite string_forallb_app in Hn. bools. done.
Qed.

Lemma digits_name n z : string_forallb name_char (digits n z) = true.
Proof.
  revert z. induction n as [|n IH]; intros z; [done|]. cbn [digits]. rewrite string_forallb_app, IH. cbn.
  pose proof (Z.mod_pos_bound z 10 ltac:(lia)). unfold name_char, between, code, chr.
  rewrite N_ascii_embedding by lia. rewrite !(proj2 (Z.leb_le _ _)) by lia. done.
Qed.

Lemma store_key_name k id n : store_key k -> normal id -> k = saves_prefix id +:+ n -> good_line maxToken n = true.
Proof.
  intros (id' & gen & Hid' & Hk) Hid E.
  assert (exists suf, k = id' +:+ "/" +:+ "saves" +:+ "/" +:+ (pad20 gen +:+ suf) /\ string_forallb name_char suf = true
    /\ string_len suf < 9) as (suf & -> & Hs & Hlen).
  { destruct Hk as [->| ->]; [exists ".tar.zst"|exists ".json"]; split_and!; done. }
  unfold saves_prefix in E. rewrite append_assoc in E.
  change ("/saves/" +:+ n) with ("/" +:+ "saves" +:+ "/" +:+ n) in E.
  apply append_slash_inj in E as [_ E]; [|apply Hid'|apply Hid].
  apply append_slash_inj in E as [_ <-]; [|done..].
  pose proof (digits_length 20 gen) as Hd. apply name_char_good.
  - intros E. apply (f_equal String.length) in E. rewrite length_append in E. unfold pad20 in E. rewrite Hd in E. done.
  - rewrite string_forallb_app. unfold pad20. by rewrite digits_name.
  - unfold string_len in *. rewrite length_append. unfold pad20. rewrite Hd. unfold maxToken. lia.
Qed.

(** A suffix without a slash lies behind the last slash. *)
Lemma HasSuffix_tail a n suf :
  ContainsByte slash suf = false -> HasSuffix (a +:+ String slash n) suf = true -> HasSuffix n suf = true.
Proof.
  intros Hs. rewrite !HasSuffix_spec. intros [x E]. revert x E.
  assert (forall y, suf <> y +:+ String slash n) as Hy.
  { intros y ->. unfold ContainsByte in Hs. rewrite string_existsb_app in Hs. apply orb_false_iff in Hs as [_ Hs]. done. }
  induction a as [|c a IH]; intros [|d x] E; rewrite ?append_nil_l, ?append_cons in E.
  - by destruct (Hy "").
  - injection E as _ ->. eauto.
  - destruct (Hy (String c a)). by rewrite append_cons.
  - injection E as _ E. by apply (IH x).
Qed.
Lemma HasSuffix_saves id n : HasSuffix (saves_prefix id +:+ n) ".json" = true -> HasSuffix n ".json" = true.
Proof.
  unfold saves_prefix. change (id +:+ "/saves/") with (id +:+ "/saves" +:+ "/"). rewrite !append_assoc.
  change ("/" +:+ n) with (String slash n). rewrite <- append_assoc. by apply HasSuffix_tail.
Qed.

(** ** The laws *)

Section Laws.
Context {Svc : Type} `{RL : RcloneLaws Svc} `{GoUnicode} (remote : string).
Abbreviation base := (remote +:+ "/").

Definition rclone_objects (t : Svc) : gmap string (list byte) := below base (remote_files t).
(** Below the remote there is nothing but what the store put there. *)
Definition rclone_tidy (t : Svc) : Prop := forall k, is_Some (rclone_objects t !! k) -> store_key k.
Definition rclone_working (t : Svc) : Prop := answering t /\ rclone_tidy t.

Lemma lookup_rclone_objects t k : rclone_objects t !! k = remote_files t !! target remote k.
Proof. unfold rclone_objects, target. by rewrite lookup_below, append_assoc. Qed.
Lemma rclone_objects_frame t t' : remote_files t' = remote_files t -> rclone_objects t' = rclone_objects t.
Proof. unfold rclone_objects. by intros ->. Qed.
Lemma tidy_frame t t' : remote_files t' = remote_files t -> rclone_tidy t -> rclone_tidy t'.
Proof. intros E Ht k. rewrite (rclone_objects_frame t t' E). apply Ht. Qed.
Lemma target_inj k k' : target remote k = target remote k' -> k = k'.
Proof. unfold target. intros E. by apply (inj (String.append remote)), (inj (String.append "/")) in E. Qed.

Lemma rclone_List_working id t : normal id -> rclone_working t ->
  exists l t', rclone_List remote (saves_prefix id) t = (Ok l, t') /\ rclone_working t'
    /\ forall k, HasSuffix k ".json" = true ->
         k ∈ l <-> is_Some (rclone_objects t !! k) /\ HasPrefix k (saves_prefix id) = true.
Proof.
  intros Hid [Ha Ht]. set (d := target remote (saves_prefix id)).
  assert (forall n, remote_files t !! (d +:+ n) = rclone_objects t !! (saves_prefix id +:+ n)) as Hd.
  { intros n. rewrite lookup_rclone_objects. unfold d, target. by rewrite !append_assoc. }
  destruct (lsf_answering d t Ha) as (lines & f & t' & E & Ha' & Hs & Hf & Hl).
  { intros n Hn. rewrite Hd in Hn. by eapply store_key_name; [apply Ht, Hn|exact Hid|]. }
  pose proof (lsf_frame d t) as Hfr. rewrite E in Hfr. exists (map (append (saves_prefix id)) lines), t'. split_and!.
  - unfold rclone_List. fold d. rewrite E, Hs. destruct Hf as [[-> ->]|(Hw & Hc & Hcomb)]; [done|].
    by rewrite (proj2 (Z.eqb_neq _ _)), Hw, Hcomb by done.
  - split; [done|]. by apply (tidy_frame t).
  - intros k Hj. rewrite list_elem_of_fmap. split.
    + intros (n & -> & Hn). split; [|apply HasPrefix_spec; eauto]. rewrite <- Hd. apply Hl; [|done].
      by apply (HasSuffix_saves id).
    + intros [Ho [n ->]%HasPrefix_spec]. exists n. split; [done|]. apply Hl; [|by rewrite Hd].
      by apply (HasSuffix_saves id).
Qed.

Definition rclone_laws : @BackendLaws Svc (rclone_backend remote).
Proof.
  refine (@Build_BackendLaws Svc (rclone_backend remote) rclone_objects rclone_working _ _ _ _ _ _ _).
  - intros id t. apply rclone_objects_frame. cbn. unfold rclone_List.
    pose proof (lsf_frame (target remote (saves_prefix id)) t) as Hf. by destruct (rclone _ _ t).
  - intros k t. apply rclone_objects_frame. cbn. unfold rclone_Open.
    pose proof (cat_frame (target remote k) t) as Hf. by destruct (rclone _ _ t).
  - intros k k' r n t _ Hne. rewrite !lookup_rclone_objects. cbn. unfold rclone_Put.
    pose proof (rcat_frame (target remote k) (target remote k') r t) as Hf. destruct (rclone _ _ t).
    apply Hf. by intros E%target_inj.
  - intros k t o t' _ E He Hc. rewrite lookup_rclone_objects. cbn in E. unfold rclone_Open in E.
    destruct (rclone _ _ t) as [f s1] eqn:Er. destruct (fin_start f) eqn:Es; [done|]. injection E as <- <-.
    by eapply cat_whole.
  - intros id t Hid Ht. destruct (rclone_List_working id t Hid Ht) as (l & t' & E & Ht' & Hl). eauto 10.
  - intros k t _ [Ha Ht]. rewrite lookup_rclone_objects. cbn. unfold rclone_Open.
    pose proof (cat_frame (target remote k) t) as Hf.
    destruct (cat_answering (target remote k) t Ha) as (f & t' & E & Ha' & Hs & Hr). rewrite E in *. cbn in Hf.
    rewrite Hs. eexists _, t'. split; [reflexivity|]. split; [split; [done|by apply (tidy_frame t)]|].
    destruct (remote_files t !! target remote k) as [b|].
    + by destruct Hr as [-> ->].
    + destruct Hr as [Hd Hw]. by intros o [= <-].
  - intros k r n t Hk [Ha Ht] He. cbn. unfold rclone_Put.
    destruct (rcat_answering (target remote k) r t Ha He) as (f & t' & E & Ha' & Hs & Hw & Hdr & Hf).
    assert (rclone_objects t' = <[k := rd_data r]> (rclone_objects t)) as Ho.
    { apply map_eq. intros k'. rewrite lookup_rclone_objects, Hf. destruct (decide (k = k')) as [->|Hne].
      - by rewrite !lookup_insert_eq.
      - rewrite !lookup_insert_ne, lookup_rclone_objects; [done|done|by intros E'%target_inj]. }
    exists t'. rewrite E, Hs, Hw, Hdr. split_and!; [done|split; [done|]|done]. intros k'. rewrite Ho.
    destruct (decide (k = k')) as [<-|Hne]; [done|]. rewrite lookup_insert_ne by done. apply Ht.
Defined.

End Laws.

(** ** An in-memory remote *)

(** Remotes in memory; every run takes the next entry of a list of faults, and a faulty
    run does not start. *)
Record remotes := Remotes { rm_files : gmap string (list byte); rm_faults : list (option error) }.

Definition lsf_lines (m : gmap string (list byte)) (d : string) : list string :=
  omap (fun kx => CutPrefix d (fst kx)) (map_to_list m).
Definition run_rclone (args : list string) (source : option reader) (m : gmap string (list byte))
    : finished * gmap string (list byte) :=
  let done code out := mkFinished None code (bytes_reader out) out true None in
  match args, source with
  | [_; _; _; d], None => (match lsf_lines m d with [] => done 3 [] | lines => done 0 (text lines) end, m)
  | [_; t], None => (match m !! t with Some b => done 0 b | None => done 1 [] end, m)
  | [_; t], Some r =>
      if bool_decide (rd_end r = ErrEOF) then (done 0 [], <[t := rd_data r]> m)
      else (mkFinished None 0 (bytes_reader []) [] true (Some (rd_end r)), <[t := rd_data r]> m)
  | _, _ => (done 1 [], m)
  end.
#[global] Instance mem_rclone : Rclone remotes := fun args source t =>
  match rm_faults t with
  | Some e :: l => (mkFinished (Some e) 0 (bytes_reader []) [] false None, Remotes (rm_files t) l)
  | l => let '(f, m) := run_rclone args source (rm_files t) in (f, Remotes m (List.tl l))
  end.

Lemma elem_of_lsf m d n : n ∈ lsf_lines m d <-> is_Some (m !! (d +:+ n)).
Proof.
  unfold lsf_lines. rewrite list_elem_of_omap. split.
  - intros ([k x] & Hk%elem_of_map_to_list & E%CutPrefix_spec). cbn in E. subst k. eauto.
  - intros [x Hx]. exists (d +:+ n, x). split; [by apply elem_of_map_to_list|]. by apply CutPrefix_spec.
Qed.

#[global] Instance mem_rclone_laws : RcloneLaws remotes.
Proof.
  refine {| remote_files := rm_files; answering t := rm_faults t = [] |}; unfold rclone, mem_rclone.
  - intros d t. by destruct (rm_faults t) as [|[e|] l].
  - intros k t. by destruct (rm_faults t) as [|[e|] l].
  - intros k k' r t Hk. destruct (rm_faults t) as [|[e|] l]; [|done|]; cbn;
      case_bool_decide; cbn; by rewrite lookup_insert_ne.
  - intros k t f t'. destruct (rm_faults t) as [|[e|] l]; cbn; [|by intros [= <- _]|];
      destruct (rm_files t !! k) as [b|]; intros [= <- _]; done.
  - intros d t Ht Hgood. rewrite Ht. cbn. exists (lsf_lines (rm_files t) d).
    eexists _, _. split; [reflexivity|]. split; [done|].
    split; [by destruct (lsf_lines _ d)|]. split; [|intros n _; apply elem_of_lsf].
    assert (Forall (fun l => good_line maxToken l = true) (lsf_lines (rm_files t) d)) as Hg.
    { apply Forall_forall. intros n Hn. apply Hgood. by apply elem_of_lsf. }
    destruct (lsf_lines (rm_files t) d) as [|x l]; [by left|right].
    split; [done|]. split; [done|]. exact (scan_text maxToken _ Hg).
  - intros k t Ht. rewrite Ht. cbn. eexists _, _. split; [reflexivity|]. split; [done|].
    by destruct (rm_files t !! k).
  - intros k r t Ht He. rewrite Ht. cbn. rewrite bool_decide_eq_true_2 by done. eexists _, _. by split_and!.
Defined.

