(* ===== verification/Cli.v ===== *)
(** * The commands of [hostpackd] ([cmd/hostpackd/main.go])

    The command line, its flags and the commands on files: what [lock], [config
    validate], [guest export], [backup] and [doctor] do to the file system, to the
    backup store and to their output, and the order in which [serve] takes and gives
    back what it needs.  An empty path stands for the working directory here, where it
    is an error for the operating system. *)
From Stdlib Require Import String Ascii.
From S2P Require Import Prelude GoStrings GoJson JsonText Filepath Fs Config LockFile FlyMachine Archive Store S3 LogBuffer WebUI Launcher Lock.

(** ** Flags: what the commands use of package [flag] *)

Inductive flag_kind := StringFlag | BoolFlag.
Inductive flag_token := Positional | Terminator | BadSyntax | Named (name : string) (value : option string).
Definition ErrHelp : error := Errorf "flag: help requested".

(** The text behind the dashes: a name, and a value behind the first ["="]. *)
Definition flag_name (s : string) : flag_token :=
  if HasPrefix s "-" || HasPrefix s "=" then BadSyntax
  else match CutByte (chr 61) s with
  | Some (name, value) => Named name (Some value)
  | None => Named s None
  end.
Definition flag_token_of (s : string) : flag_token :=
  match s with
  | String a (String b r) =>
      if negb (code a =? 45) then Positional
      else if code b =? 45 then (if bool_decide (r = "") then Terminator else flag_name r)
      else flag_name (String b r)
  | _ => Positional
  end.

(** [strconv.ParseBool]. *)
Definition ParseBool (s : string) : option bool :=
  if bool_decide (s ∈ ["1"; "t"; "T"; "TRUE"; "true"; "True"]) then Some true
  else if bool_decide (s ∈ ["0"; "f"; "F"; "FALSE"; "false"; "False"]) then Some false
  else None.
Definition FormatBool (b : bool) : string := if b then "true" else "false".

(** [FlagSet.Parse]: the values of the flags and the arguments that are left. *)
Fixpoint parse_flags (formal : gmap string flag_kind) (values : gmap string string) (args : list string)
    : result (gmap string string * list string) :=
  match args with
  | [] => Ok (values, [])
  | s :: rest =>
      match flag_token_of s with
      | Positional => Ok (values, args)
      | Terminator => Ok (values, rest)
      | BadSyntax => Err (Errorf ("bad flag syntax: " +:+ s))
      | Named name value =>
          match formal !! name, value, rest with
          | None, _, _ =>
              if bool_decide (name = "help") || bool_decide (name = "h") then Err ErrHelp
              else Err (Errorf ("flag provided but not defined: -" +:+ name))
          | Some BoolFlag, None, _ => parse_flags formal (<[name := "true"]> values) rest
          | Some BoolFlag, Some v, _ =>
              match ParseBool v with
              | Some b => parse_flags formal (<[name := FormatBool b]> values) rest
              | None => Err (Errorf ("invalid boolean value for -" +:+ name))
              end
          | Some StringFlag, Some v, _ => parse_flags formal (<[name := v]> values) rest
          | Some StringFlag, None, v :: rest' => parse_flags formal (<[name := v]> values) rest'
          | Some StringFlag, None, [] => Err (Errorf ("flag needs an argument: -" +:+ name))
          end
      end
  end.

(** A flag set: kinds and defaults. *)
Definition flag_set : Type := list (string * (flag_kind * string)).
Definition Parse (fs : flag_set) (args : list string) : result (gmap string string * list string) :=
  parse_flags (list_to_map (map (prod_map id fst) fs)) (list_to_map (map (prod_map id snd) fs)) args.
Definition flag (values : gmap string string) (name : string) : string := default "" (values !! name).

(** ** The environment *)

Definition envDefault (env : list string) (key value : string) : string :=
  let v := Getenv env key in if bool_decide (v = "") then value else v.
Definition minimumEnvironmentLength (env : list string) (name : string) (minimum : Z) : result unit :=
  if string_len (Getenv env name) <? minimum
  then Err (Errorf (name +:+ " must contain at least " +:+ Itoa minimum +:+ " characters")) else Ok tt.

Record commonFlags := mkCommonFlags { configPath : string; lockPath : string; stateRoot : string }.
Definition addCommon (env : list string) : flag_set :=
  [("config", (StringFlag, envDefault env "HOSTPACK_CONFIG" "/app/config/packs.yaml"));
   ("lock", (StringFlag, envDefault env "HOSTPACK_LOCK" "/app/config/packs.lock.json"));
   ("state", (StringFlag, envDefault env "HOSTPACK_STATE" "/state"))].
Definition common (values : gmap string string) : commonFlags :=
  mkCommonFlags (flag values "config") (flag values "lock") (flag values "state").

Definition lock_flags (env : list string) : flag_set :=
  addCommon env ++ [("check", (BoolFlag, "false")); ("previous", (StringFlag, ""))].

Definition guest_flags (env : list string) : flag_set :=
  [("config", (StringFlag, envDefault env "HOSTPACK_CONFIG" "/app/config/packs.yaml"));
   ("output", (StringFlag, "guest/catalog.json"))].

(** ** Files *)

(** The place of a path in the tree: relative paths start at the working directory. *)
Definition at_path (cwd p : string) : path := path_of (if IsAbs p then p else PathJoin [cwd; p]).

Definition atomicWrite (cwd p : string) (b : list byte) (mode : Z) : M fs unit :=
  let dir := at_path cwd (Dir p) in
  MkdirAll 488 dir;;
  tmp ← CreateTemp dir ".write-";
  commit_temp tmp (at_path cwd p) (Chmod mode tmp;; WriteFile tmp b;; SyncFile tmp) (mret tt).

Definition writable (p : path) : M fs unit :=
  MkdirAll 488 p;;
  name ← CreateTemp p ".doctor-";
  CloseFile name;;
  Remove name.

Section Executables.
Context {GU : GoUnicode} (env : list string) (cwd : string).

(** The permission bits [Stat] reports; a link or a device is taken for executable. *)
Definition permissions (n : node) : Z := match n with FDir m | FFile m _ => m | FLink _ | FOther => 511 end.
(** [exec.LookPath] of a name without a slash: the first directory of [PATH] that has it;
    what is found below the working directory is refused. *)
Fixpoint LookPath (dirs : list string) (name : string) : M fs unit :=
  match dirs with
  | [] => throw (Errorf ("exec: " +:+ Quote name +:+ ": executable file not found in $PATH"))
  | d :: dirs' =>
      n ← attempt (Stat (at_path cwd (PathJoin [d; name])));
      match n with
      | Ok n =>
          if negb (is_dir n) && negb (Z.land (permissions n) 73 =? 0)
          then (if IsAbs d then mret tt
                else throw (Errorf ("exec: " +:+ Quote name
                       +:+ ": cannot run executable found relative to current directory")))
          else LookPath dirs' name
      | Err _ => LookPath dirs' name
      end
  end.
Definition SplitList (s : string) : list string := if bool_decide (s = "") then [] else SplitByte (chr 58) s.
Definition executable (p : string) : M fs unit :=
  if ContainsByte slash p then
    n ← Stat (at_path cwd p);
    if Z.land (permissions n) 73 =? 0 then throw (Errorf "not executable") else mret tt
  else LookPath (SplitList (Getenv env "PATH")) p.
End Executables.

(** ** The world of a command *)

(** What [serve] takes and gives back, in order. *)
Inductive event :=
  | OpenLog | CloseLog
  | StartManager | ShutdownManager | CloseManager
  | Listen (address : string) | CloseListener (address : string)
  | ServeWeb (address : string) | ServeRouter (address : string) | ShutdownWeb.

(** The files, the backup store, the Fly API, the output, and the events of [serve].
    With the file-system driver the store's directory is apart from the files. *)
Record world (B Svc : Type) := World {
  w_fs : fs; w_backend : B; w_fly : Svc; w_out : string; w_events : list event }.
Arguments World {B Svc}.
Arguments w_fs {B Svc}.
Arguments w_backend {B Svc}.
Arguments w_fly {B Svc}.
Arguments w_out {B Svc}.
Arguments w_events {B Svc}.

Section World.
Context {B Svc : Type}.
Abbreviation W := (world B Svc).
Definition on_fs {A} (m : M fs A) : M W A := fun w =>
  let '(r, s) := m (w_fs w) in (r, World s (w_backend w) (w_fly w) (w_out w) (w_events w)).
Definition on_store {A} (m : M B A) : M W A := fun w =>
  let '(r, b) := m (w_backend w) in (r, World (w_fs w) b (w_fly w) (w_out w) (w_events w)).
Definition on_both {A} (m : M (B * fs) A) : M W A := fun w =>
  let '(r, (b, s)) := m (w_backend w, w_fs w) in (r, World s b (w_fly w) (w_out w) (w_events w)).
Definition on_fly {A} (m : M Svc A) : M W A := fun w =>
  let '(r, s) := m (w_fly w) in (r, World (w_fs w) (w_backend w) s (w_out w) (w_events w)).
Definition Printf (s : string) : M W unit := fun w =>
  (Ok tt, World (w_fs w) (w_backend w) (w_fly w) (w_out w +:+ s) (w_events w)).
Definition emit (e : event) : M W unit := fun w =>
  (Ok tt, World (w_fs w) (w_backend w) (w_fly w) (w_out w) (w_events w ++ [e])).
(** [defer]: [last] runs when [m] is done, whatever came of it. *)
Definition finally {A} (last : event) (m : M W A) : M W A := fun w =>
  let '(r, w1) := m w in (r, snd (emit last w1)).
End World.

(** ** The commands *)

Definition usage : string := "hostpackd <command>

Commands:
  serve              Run the Minecraft router and supervisor
  config validate    Validate packs.yaml and packs.lock.json
  lock [--check]     Generate or verify packs.lock.json
  backup list        List the newest backup for each configured pack
  backup restore ID  Restore a pack into an absent instance directory
  guest export       Generate the sanitized GitHub Pages pack catalog
  doctor             Check runtime prerequisites and storage connectivity
".

(** [errors.Join]: no error when all are nil. *)
Definition errors_Join (l : list (option error)) : result unit :=
  match omap id l with
  | [] => Ok tt
  | es => Err (Errorf (Join (map error_text es) newline))
  end.

(** A check of [doctor], and its line. *)
Definition pad16 (s : string) : string := s +:+ string_repeat " " (16 - String.length s).
Definition check_line (c : string * result unit) : string :=
  match snd c with
  | Err e => "FAIL " +:+ pad16 (fst c) +:+ " " +:+ error_text e +:+ newline
  | Ok _ => "OK   " +:+ fst c +:+ newline
  end.

(** What becomes of the two servers and the manager of [serve]: the verdict of
    [net.Listen] on each address, the errors the router and the dashboard's server end
    with ([None] for [http.ErrServerClosed] and nil), and those of the two shutdowns. *)
Record outcomes := mkOutcomes {
  listen : string -> option error; router_end : option error; web_end : option error;
  web_shutdown : option error; manager_shutdown : option error }.

(** The value [serve] hands to [NewManager]: an interface that holds a [*Client], which
    may be nil. *)
Inductive ResourceSizer := NilSizer | ClientSizer (c : option Client).

Section Commands.
Context {GU : GoUnicode} {MR : MapRange} {GT : GoTime} {B Svc : Type} {BK : Backend B}.
(** The environment, the working directory and the umask. *)
Context (env : list string) (cwd : string) (umask : Z).
(** The packages outside the repository: the YAML decoder, the HTTP services of the
    providers and of Fly, [net/url], the zstd and tar streams, the layout
    [time.RFC3339], and [NewS3] with its client. *)
Context (decode_yaml : string -> result Config).
Context (http : string -> Lock.Response + error) (url_error : string -> option error).
Context (url_parse : string -> result (string * string)) (Do : FlyMachine.Request -> M Svc FlyMachine.Response).
Context (unpack : reader -> unpacked) (format_RFC3339 : Z -> string).
Context (new_s3 : S3Config -> result S3.S3).
Abbreviation W := (world B Svc).
Abbreviation at_path := (at_path cwd).

Definition config_Load (p : string) : M W Config := on_fs (LoadConfig decode_yaml (at_path p)).
Definition config_LoadLock (p : string) : M W LockFile := on_fs (LoadLock (at_path p)).

Definition load (c : commonFlags) : M W (Config * LockFile) :=
  cfg ← config_Load (configPath c);
  lock ← config_LoadLock (lockPath c);
  lift_result (Matches lock cfg);;
  mret (cfg, lock).

Definition validate (args : list string) : M W unit :=
  parsed ← lift_result (Parse (addCommon env) args);
  let '(values, _) := parsed in
  loaded ← load (common values);
  let '(cfg, lock) := loaded in
  Printf ("valid: " +:+ Itoa (Z.of_nat (base.size (Packs cfg))) +:+ " packs, domain " +:+ Domain cfg
          +:+ ", lock " +:+ ConfigDigest lock +:+ newline).

(** The two halves of [lockCommand]. *)
Definition lock_check (c : commonFlags) (previousPath : string) (cfg : Config) : M W unit :=
  l ← config_LoadLock (lockPath c);
  lift_result (Matches l cfg);;
  (if bool_decide (previousPath = "") then mret tt
   else previous ← config_LoadLock previousPath; lift_result (CheckImmutable previous l));;
  Printf ("lock matches config" +:+ newline).
Definition lock_write (c : commonFlags) (cfg : Config) : M W unit :=
  l ← lift_result (Generate http url_error (Getenv env "CF_API_KEY") "https://api.modrinth.com/v2"
                     "https://api.curseforge.com/v1" cfg);
  previous ← attempt (config_LoadLock (lockPath c));
  (match previous with
   | Ok previous => lift_result (CheckImmutable previous l)
   | Err e => if errors_is e ErrNotExist then mret tt else throw e
   end);;
  on_fs (atomicWrite cwd (lockPath c) (lock_bytes l) 420).
Definition lockCommand (args : list string) : M W unit :=
  parsed ← lift_result (Parse (lock_flags env) args);
  let '(values, _) := parsed in
  let c := common values in
  cfg ← config_Load (configPath c);
  if bool_decide (flag values "check" = "true") then lock_check c (flag values "previous") cfg
  else lock_write c cfg.

Definition guestCommand (args : list string) : M W unit :=
  match args with
  | sub :: args =>
      if negb (bool_decide (sub = "export")) then throw (Errorf "guest requires export") else
      parsed ← lift_result (Parse (guest_flags env) args);
      let '(values, _) := parsed in
      cfg ← config_Load (flag values "config");
      on_fs (atomicWrite cwd (flag values "output")
        (bytes_of_string (MarshalIndent (catalog_json (Catalog cfg)) +:+ newline)) 420)
  | [] => throw (Errorf "guest requires export")
  end.

(** [makeStore]: the digest the store puts into a manifest is the lock's. *)
Definition lockDigest (lock : LockFile) (id : string) : string :=
  match lock_Packs lock !! id with Some p => lp_IdentityDigest p | None => "" end.
Definition makeStore (cfg : Config) (lock : LockFile) : M W (string -> string) :=
  lift_result (FromConfig new_s3 (Storage cfg));; mret (lockDigest lock).

Fixpoint backup_list (ids : list string) : M W unit :=
  match ids with
  | [] => mret tt
  | id :: ids' =>
      h ← on_store (Head id);
      Printf (match h with
        | None => id +:+ ": no backup" +:+ newline
        | Some m => id +:+ ": generation=" +:+ Itoa (m_Generation m) +:+ " created="
            +:+ format_RFC3339 (m_CreatedAt m) +:+ " sha256=" +:+ m_SHA256 m +:+ newline
        end);;
      backup_list ids'
  end.
Definition backup_restore (root : string) (cfg : Config) (rest : list string) : M W unit :=
  match rest with
  | [id] =>
      match Packs cfg !! id with
      | None => throw (Errorf ("unknown pack " +:+ Quote id))
      | Some _ =>
          let dest := PathJoin [root; "instances"; id; "server"] in
          m ← on_both (Restore unpack umask id (abs_path (at_path dest)));
          Printf ("restored " +:+ id +:+ " generation " +:+ Itoa (m_Generation m) +:+ " to " +:+ dest +:+ newline)
      end
  | _ => throw (Errorf "backup restore requires one pack ID")
  end.
Definition backupCommand (args : list string) : M W unit :=
  match args with
  | [] => throw (Errorf "backup requires list or restore")
  | action :: args =>
      parsed ← lift_result (Parse (addCommon env) args);
      let '(values, rest) := parsed in
      let c := common values in
      loaded ← load c;
      let '(cfg, lock) := loaded in
      makeStore cfg lock;;
      if bool_decide (action = "list") then backup_list (sorted_keys (Packs cfg))
      else if bool_decide (action = "restore") then backup_restore (stateRoot c) cfg rest
      else throw (Errorf ("unknown backup action " +:+ Quote action))
  end.

Definition firstPack (cfg : Config) : string :=
  match range (Packs cfg) with (id, _) :: _ => id | [] => "doctor" end.
Definition doctor (args : list string) : M W unit :=
  parsed ← lift_result (Parse (addCommon env) args);
  let '(values, _) := parsed in
  let c := common values in
  loaded ← load c;
  let '(cfg, lock) := loaded in
  runtime ← attempt (on_fs (writable (at_path (PathJoin [stateRoot c; "runtime"]))));
  java17 ← attempt (on_fs (executable env cwd "/opt/java17/bin/java"));
  java21 ← attempt (on_fs (executable env cwd "/opt/java21/bin/java"));
  start ← attempt (on_fs (executable env cwd (envDefault env "HOSTPACK_START_COMMAND" "/start")));
  let password := minimumEnvironmentLength env "HOSTPACK_WEB_PASSWORD" 16 in
  store ← attempt (makeStore cfg lock;; _ ← on_store (Head (firstPack cfg)); mret tt);
  sizer ← attempt (lift_result (FromEnv url_parse (Getenv env)));
  fly ← (match sizer with
         | Err e => mret (Err e)
         | Ok None => mret (Ok tt)
         | Ok (Some client) => attempt (on_fly (Check_api url_error Do client))
         end);
  let checks := [("state runtime", runtime); ("Java 17", java17); ("Java 21", java21); ("start command", start);
                 ("dashboard password", password); ("backup store", store); ("Fly resize API", fly)] in
  Printf (String.concat "" (map check_line checks));;
  if existsb (fun c => negb (is_ok (snd c))) checks
  then throw (Errorf "one or more doctor checks failed") else mret tt.

(** *** [serve] *)

Definition failing (e : option error) : result unit := match e with Some e => Err e | None => Ok tt end.

(** The part behind [NewManager], which is given back at its end. *)
Definition serve_listeners (o : outcomes) (cfg : Config) : M W unit :=
  let minecraft := ListenAddress (RuntimeCfg cfg) in
  let web := WebListenAddress (RuntimeCfg cfg) in
  lift_result (failing (listen o minecraft));;
  emit (Listen minecraft);;
  match listen o web with
  | Some e => emit (CloseListener minecraft);; throw e
  | None =>
      emit (Listen web);;
      emit (ServeWeb web);;
      emit (ServeRouter minecraft);;
      emit ShutdownWeb;;
      emit ShutdownManager;;
      lift_result (errors_Join [router_end o; web_end o; web_shutdown o; manager_shutdown o])
  end.
Definition serve (o : outcomes) (args : list string) : M W unit :=
  parsed ← lift_result (Parse (addCommon env) args);
  let '(values, _) := parsed in
  let c := common values in
  loaded ← load c;
  let '(cfg, lock) := loaded in
  if string_len (Getenv env "HOSTPACK_WEB_PASSWORD") <? 16
  then throw (Errorf "HOSTPACK_WEB_PASSWORD must contain at least 16 characters")
  else
    log ← attempt (on_fs (NewLogBuffer (at_path (PathJoin [stateRoot c; "runtime"])) "dashboard.log" 500 (Z.shiftl 4 20)));
    lift_result (wrap_err "open dashboard log" log);;
    emit OpenLog;;
    finally CloseLog
      (makeStore cfg lock;;
       lift_result (FromEnv url_parse (Getenv env));;
       emit StartManager;;
       finally CloseManager (serve_listeners o cfg)).

(** The sizer [serve] makes: the pointer goes into the interface whatever it is. *)
Definition serve_sizer : result ResourceSizer := ClientSizer <$> FromEnv url_parse (Getenv env).

Definition run (o : outcomes) (args : list string) : M W unit :=
  let unknown := throw (Errorf ("unknown command" +:+ newline +:+ usage)) in
  match args with
  | [] => throw (Errorf usage)
  | cmd :: args =>
      if bool_decide (cmd = "serve") then serve o args
      else if bool_decide (cmd = "config") then
        match args with
        | sub :: args => if bool_decide (sub = "validate") then validate args else unknown
        | [] => unknown
        end
      else if bool_decide (cmd = "lock") then lockCommand args
      else if bool_decide (cmd = "backup") then backupCommand args
      else if bool_decide (cmd = "guest") then guestCommand args
      else if bool_decide (cmd = "doctor") then doctor args
      else if bool_decide (cmd ∈ ["help"; "--help"; "-h"]) then Printf usage
      else unknown
  end.
End Commands.

(** *** The sizer of the manager *)

(** A call through an interface: it returns, or the goroutine panics. *)
Inductive called (A : Type) := Returned (r : result A) | Panicked.
Arguments Returned {A}.
Arguments Panicked {A}.

Section Sizer.
Context {GU : GoUnicode} {Svc : Type} (url_error : string -> option error) (Do : FlyMachine.Request -> M Svc FlyMachine.Response).

(** The test of [start], [m.sizer != nil]: an interface that holds a nil pointer is not
    nil.  [Client.Ensure] reads the fields of its client first. *)
Definition sizer_set (s : ResourceSizer) : bool := match s with NilSizer => false | ClientSizer _ => true end.
Definition sizer_Ensure (s : ResourceSizer) (p : Pack) (svc : Svc) : called bool * Svc :=
  match s with
  | ClientSizer (Some c) => let '(r, svc') := FlyMachine.Ensure url_error Do c p svc in (Returned r, svc')
  | ClientSizer None | NilSizer => (Panicked, svc)
  end.
End Sizer.
