(* ===== verification/CliProps.v ===== *)
(** * What the commands keep and promise

    [hostpackd lock] as a whole, from the files it reads to the lock that [config
    validate] then accepts; the commands that change nothing; what [serve] gives back;
    and the resize client outside Fly. *)
From Stdlib Require Import String Ascii.
From S2P Require Import Prelude GoStrings GoJson JsonText Filepath Fs Config LockFile FlyMachine Archive Store StoreHead StoreProps S3 LogBuffer WebUI Launcher Lock Cli.

(** ** [atomicWrite] *)

Lemma MkdirAll_existing q mode p s :
  is_Some (nodes s !! q) -> nodes (snd (MkdirAll mode p s)) !! q = nodes s !! q.
Proof.
  assert (forall l s, is_Some (nodes s !! q) -> nodes (snd (mkdirs mode l s)) !! q = nodes s !! q) as Hm.
  { induction l as [|d l IH]; intros t Ht; [done|]. cbn [mkdirs].
    destruct (nodes t !! d) as [[]|] eqn:E; [by apply IH|done..|].
    assert (d <> q) by (intros ->; rewrite E in Ht; by destruct Ht).
    rewrite IH; cbn; rewrite lookup_insert_ne; done. }
  intros Hs. unfold MkdirAll, call. destruct (fs_faults s) as [|[f|] l]; [by apply Hm|apply (Hm _ (Fs (nodes s) l)), Hs..].
Qed.

Lemma CreateTemp_existing q dir prefix s :
  is_Some (nodes s !! q) -> nodes (snd (CreateTemp dir prefix s)) !! q = nodes s !! q.
Proof.
  intros Hs. destruct (CreateTemp dir prefix s) as [[t|e] s'] eqn:E.
  - apply CreateTemp_ok in E as [-> E]. cbn. rewrite E, lookup_insert_ne; [done|].
    intros <-. rewrite temp_name_fresh in Hs. by destruct Hs.
  - cbn. revert E. unfold CreateTemp, simple, call, put_node. cbv zeta.
    destruct (fs_faults s) as [|[f|] l]; cbn; [|by intros [= _ <-]|];
      destruct (lookup_node _ _) as [[]|]; try done; by intros [= _ <-].
Qed.

Lemma Rename_file_others tmp p q s m b :
  nodes s !! tmp = Some (FFile m b) -> q <> tmp -> q <> p -> nodes (snd (Rename tmp p s)) !! q = nodes s !! q.
Proof.
  intros Ht Hq Hp. unfold Rename, simple, call, rename_node.
  assert (forall l, nodes (snd (rename_node tmp p (Fs (nodes s) l))) !! q = nodes s !! q) as Hr.
  { intros l. unfold rename_node. cbn [nodes]. rewrite Ht. cbn [is_dir].
    destruct (lookup_node (parent p) _) as [[]|]; try done. destruct (nodes s !! p) as [[]|]; try done;
      cbn; by rewrite lookup_insert_ne, lookup_delete_ne. }
  destruct s as [m0 [|[f|] l]]; cbn [fs_faults nodes] in *; [apply Hr|done|apply Hr].
Qed.

Lemma commit_temp_others {A} tmp p q fill (after : M fs A) mode b s :
  keeps q fill -> keeps q after -> fills tmp fill (FFile mode b) -> q <> tmp -> q <> p ->
  nodes s !! tmp = Some (FFile 384 []) -> nodes (snd (commit_temp tmp p fill after s)) !! q = nodes s !! q.
Proof.
  intros Hfill Hafter Hb Ht Hp Hs. unfold commit_temp, deferred.
  assert (nodes (snd ((then_close tmp fill;; Rename tmp p;; after) s)) !! q = nodes s !! q) as Hbody.
  { pose proof (keeps_then_close q tmp fill Hfill s) as Hk.
    destruct (then_close tmp fill s) as [[[]|e] s1] eqn:E; [|by erewrite M_bind_err by exact E].
    erewrite M_bind_ok by exact E. cbn [snd] in Hk. apply then_close_ok in E as (s0 & E & En).
    apply (Hb s s0 Hs) in E. rewrite <- En in E. pose proof (Rename_file_others tmp p q s1 _ _ E Ht Hp) as Hr.
    destruct (Rename tmp p s1) as [[[]|e] s2] eqn:Er; cbn [snd] in Hr.
    - erewrite M_bind_ok by exact Er. rewrite (Hafter s2). congruence.
    - erewrite M_bind_err by exact Er. cbn. congruence. }
  destruct ((then_close tmp fill;; Rename tmp p;; after) s) as [r s1]. cbn [snd] in Hbody.
  pose proof (keeps_Remove q tmp (not_eq_sym Ht) s1) as Hk. destruct (Remove tmp s1) as [r2 s2]. cbn in *. congruence.
Qed.

Lemma fills_Chmod_Write tmp mode b : fills tmp (Chmod mode tmp;; WriteFile tmp b;; SyncFile tmp) (FFile mode b).
Proof.
  intros s s' Hs E. unbind E as u s1 E1. unbind E as u2 s2 E2. destruct u2. apply SyncFile_ok in E as ->.
  apply simple_ok in E1 as [l E1]. cbn [nodes] in E1. rewrite Hs in E1. injection E1 as _ <-.
  eapply (WriteFile_ok tmp b _ s2 mode []) in E2; [exact E2|]. cbn. by rewrite lookup_insert_eq.
Qed.

(** A path that ends in the name of a file of its own. *)
Definition names_file (cwd p : string) : Prop :=
  exists name, at_path cwd p = at_path cwd (Dir p) ++ [name] /\ HasPrefix name ".write-" = false.

Lemma names_file_nonempty cwd p : names_file cwd p -> at_path cwd p <> [].
Proof. intros (n & -> & _) E. by apply app_nil in E as [_ ?]. Qed.

(** The file is as it was or complete, the latter when the call succeeded; and nothing
    else that was there changes. *)
Lemma atomicWrite_cases cwd p b mode s :
  names_file cwd p ->
  let '(r, s') := atomicWrite cwd p b mode s in
  ((is_ok r = false /\ nodes s' !! at_path cwd p = nodes s !! at_path cwd p)
   \/ nodes s' !! at_path cwd p = Some (FFile mode b))
  /\ forall q, q <> at_path cwd p -> is_Some (nodes s !! q) -> nodes s' !! q = nodes s !! q.
Proof.
  intros (name & Ep & Hname). unfold atomicWrite. set (dir := at_path cwd (Dir p)) in *. set (P := at_path cwd p) in *.
  assert (keeps P (MkdirAll 488 dir)) as Hm. { apply keeps_MkdirAll. rewrite Ep, length_app. cbn. lia. }
  specialize (Hm s). pose proof (fun q Hq => MkdirAll_existing q 488 dir s Hq) as Hmq.
  destruct (MkdirAll 488 dir s) as [[[]|e] s1] eqn:E1; cbn [snd] in Hm, Hmq; cycle 1.
  { erewrite M_bind_err by exact E1. split; [by left|]. auto. }
  erewrite M_bind_ok by exact E1. pose proof (keeps_CreateTemp dir ".write-" name Hname s1) as Hc.
  pose proof (fun q Hq => CreateTemp_existing q dir ".write-" s1 Hq) as Hcq. rewrite <- Ep in Hc.
  destruct (CreateTemp dir ".write-" s1) as [[t|e] s2] eqn:E2; cbn [snd] in Hc, Hcq; cycle 1.
  { erewrite M_bind_err by exact E2. split; [left; split; [done|congruence]|].
    intros q _ Hq. rewrite Hcq, Hmq; try done. by rewrite Hmq. }
  erewrite M_bind_ok by exact E2. apply CreateTemp_ok in E2 as [-> Hs2]. set (t := temp_name dir ".write-" s1) in *.
  assert (t <> P) as HtP. { rewrite Ep. by apply temp_name_ne. }
  assert (nodes s2 !! t = Some (FFile 384 [])) as Ht by (rewrite Hs2; apply lookup_insert_eq).
  assert (forall q, t <> q -> keeps q (Chmod mode t;; WriteFile t b;; SyncFile t)) as Hfill.
  { intros q Hq. apply keeps_bind; [by apply keeps_Chmod|]. intros _.
    apply keeps_bind; [by apply keeps_WriteFile|]. intros _. apply keeps_Sync. }
  pose proof (commit_temp_cases t P _ (mret tt) mode b s2 (Hfill P HtP) (keeps_ret P tt) (fills_Chmod_Write t mode b) HtP Ht) as H1.
  assert (forall q, q <> P -> is_Some (nodes s !! q) ->
    nodes (snd (commit_temp t P (Chmod mode t;; WriteFile t b;; SyncFile t) (mret tt) s2)) !! q = nodes s !! q) as H2.
  { intros q Hq Hs. assert (is_Some (nodes s1 !! q)) as Hs1 by by rewrite Hmq.
    assert (t <> q) as Htq. { intros <-. unfold t in Hs1. rewrite temp_name_fresh in Hs1. by destruct Hs1. }
    rewrite (commit_temp_others t P q _ (mret tt) mode b s2 (Hfill q Htq) (keeps_ret q tt) (fills_Chmod_Write t mode b));
      [|by apply not_eq_sym|done..]. rewrite Hcq, Hmq; done. }
  destruct (commit_temp _ _ _ _ s2) as [r s3]. split; [|exact H2].
  destruct H1 as [[? E]|E]; [left; split; [done|congruence]|by right].
Qed.

(** ** Reading the registry *)

Section Registry.
Context {GU : GoUnicode} {MR : MapRange} (decode_yaml : string -> result Config).

Lemma LoadLock_nodes p s : nodes (snd (LoadLock p s)) = nodes s.
Proof.
  unfold LoadLock, mbind, M_bind. pose proof (ReadFile_nodes p s) as H.
  by destruct (ReadFile p s) as [[b|e] s1].
Qed.
Lemma LoadConfig_nodes p s : nodes (snd (LoadConfig decode_yaml p s)) = nodes s.
Proof.
  unfold LoadConfig, mbind, M_bind. pose proof (ReadFile_nodes p s) as H.
  destruct (ReadFile p s) as [[b|e] s1]; [|done]. unfold lift_result. destruct (wrap_err _ _); [|done].
  by destruct (Config.Validate a) as [[[]|e] cfg].
Qed.

(** A lock that is there is read, or the command learns that it cannot be read. *)
Lemma LoadLock_there p s m b : p <> [] -> real_faults s -> nodes s !! p = Some (FFile m b) ->
  (exists l, fst (LoadLock p s) = Ok l /\ parse_lock b = Ok l)
  \/ exists e, fst (LoadLock p s) = Err e /\ errors_is e ErrNotExist = false.
Proof.
  intros Hp Hs Hn. unfold LoadLock, mbind, M_bind.
  destruct (ReadFile_there p s m b Hp Hs Hn) as [E|(e & E & He)];
    destruct (ReadFile p s) as [r s1]; cbn [fst] in E; subst r; [|eauto].
  cbn. destruct (parse_lock b) as [l|e] eqn:El; [eauto|]. right. exists e. split; [done|]. by eapply parse_lock_not_missing.
Qed.

(** What a configuration that was loaded was read from. *)
Definition config_file (p : path) (s : fs) (cfg : Config) : Prop :=
  exists m b cfg0, p <> [] /\ nodes s !! p = Some (FFile m b) /\ decode_yaml (string_of_bytes b) = Ok cfg0
    /\ Config.Validate cfg0 = (Ok tt, cfg).
Lemma LoadConfig_ok p s cfg s' : LoadConfig decode_yaml p s = (Ok cfg, s') -> config_file p s cfg.
Proof.
  intros E. unfold LoadConfig in E. unbind E as b s1 E1. pose proof E1 as [l E1']%simple_ok.
  assert (p <> []) as Hp. { intros ->. unfold lookup_node in E1'. by rewrite bool_decide_eq_true_2 in E1'. }
  apply ReadFile_ok in E1 as [m Hm]. unbind E as cfg0 s2 E2. unfold lift_result in E2.
  destruct (decode_yaml _) as [c0|] eqn:Ed; [|done]. injection E2 as -> <-.
  destruct (Config.Validate cfg0) as [[[]|e] c1] eqn:Ev; [|done]. injection E as -> _.
  by exists m, b, cfg0.
Qed.
Lemma LoadConfig_reads p s cfg : fs_faults s = [] -> config_file p s cfg -> LoadConfig decode_yaml p s = (Ok cfg, s).
Proof.
  intros Hs (m & b & cfg0 & Hp & Hn & Hd & Hv). unfold LoadConfig, ReadFile, simple, call, lookup_node, mbind, M_bind.
  rewrite Hs, bool_decide_eq_false_2, Hn by done. cbv beta iota. rewrite Hd. cbn. by rewrite Hv.
Qed.
Lemma LoadLock_reads p s m b l : fs_faults s = [] -> p <> [] -> nodes s !! p = Some (FFile m b) -> parse_lock b = Ok l ->
  LoadLock p s = (Ok l, s).
Proof.
  intros Hs Hp Hn Hl. unfold LoadLock, ReadFile, simple, call, lookup_node, mbind, M_bind.
  rewrite Hs, bool_decide_eq_false_2, Hn by done. cbv beta iota. cbn. by rewrite Hl.
Qed.
End Registry.

(** ** [lock] *)

Section LockCommand.
Context {GU : GoUnicode} {LT : LowerText} {MR : MapRange} {B Svc : Type}.
Context (env : list string) (cwd : string) (decode_yaml : string -> result Config).
Context (http : string -> Lock.Response + error) (url_error : string -> option error).
Abbreviation W := (world B Svc).
Abbreviation at_path := (at_path cwd).
Abbreviation Generate := (Generate http url_error (Getenv env "CF_API_KEY")
  "https://api.modrinth.com/v2" "https://api.curseforge.com/v1").
Abbreviation lock_write := (lock_write env cwd http url_error).
Abbreviation lockCommand := (lockCommand env cwd decode_yaml http url_error).
Abbreviation load := (load cwd decode_yaml).

(** The world with a disk that works. *)
Definition healthy (w : W) : W := World (Fs (nodes (w_fs w)) []) (w_backend w) (w_fly w) (w_out w) (w_events w).

Lemma on_fs_inv {A} (m : M fs A) (w : W) r w' : on_fs m w = (r, w') -> m (w_fs w) = (r, w_fs w').
Proof. unfold on_fs. destruct (m (w_fs w)) as [x s]. by intros [= <- <-]. Qed.

(** The lock file after [lock_write], and what became of the one before. *)
Definition replaced (p : path) (cfg : Config) (w w' : W) : Prop :=
  exists l, Generate cfg = Ok l /\ nodes (w_fs w') !! p = Some (FFile 420 (lock_bytes l))
    /\ forall m b, nodes (w_fs w) !! p = Some (FFile m b) ->
         exists previous, parse_lock b = Ok previous /\ CheckImmutable previous l = Ok tt.

Lemma lock_write_cases c cfg (w : W) :
  names_file cwd (lockPath c) -> real_faults (w_fs w) ->
  let '(r, w') := lock_write c cfg w in
  let p := at_path (lockPath c) in
  ((is_ok r = false /\ nodes (w_fs w') !! p = nodes (w_fs w) !! p) \/ replaced p cfg w w')
  /\ forall q, q <> p -> is_Some (nodes (w_fs w) !! q) -> nodes (w_fs w') !! q = nodes (w_fs w) !! q.
Proof.
  intros Hname Hs. destruct (lock_write c cfg w) as [r w'] eqn:E. cbv zeta. unfold lock_write in E.
  unfold lift_result, mbind at 1, M_bind at 1 in E. destruct (Generate cfg) as [l|e] eqn:El; cycle 1.
  { injection E as <- <-. split; [by left|done]. }
  set (p := at_path (lockPath c)) in *.
  assert (p <> []) as Hp by by eapply names_file_nonempty.
  pose proof (LoadLock_nodes p (w_fs w)) as Hn. pose proof (LoadLock_there p (w_fs w)) as Ht.
  destruct (LoadLock p (w_fs w)) as [pr s1] eqn:E1. cbn [snd fst] in Hn, Ht.
  set (w1 := World s1 (w_backend w) (w_fly w) (w_out w) (w_events w)) in *.
  assert (attempt (config_LoadLock cwd (lockPath c)) w = (Ok pr, w1)) as Ea.
  { unfold attempt, config_LoadLock, on_fs. fold p. by rewrite E1. }
  erewrite M_bind_ok in E by exact Ea.
  assert (forall y, (on_fs (atomicWrite cwd (lockPath c) (lock_bytes l) 420)) w1 = y -> (r, w') = y ->
    (forall m b, nodes (w_fs w) !! p = Some (FFile m b) ->
       exists previous, parse_lock b = Ok previous /\ CheckImmutable previous l = Ok tt) ->
    ((is_ok r = false /\ nodes (w_fs w') !! p = nodes (w_fs w) !! p) \/ replaced p cfg w w')
    /\ forall q, q <> p -> is_Some (nodes (w_fs w) !! q) -> nodes (w_fs w') !! q = nodes (w_fs w) !! q) as Hw.
  { intros y Ey <- Hprev. apply on_fs_inv in Ey. change (w_fs w1) with s1 in Ey.
    pose proof (atomicWrite_cases cwd (lockPath c) (lock_bytes l) 420 s1 Hname) as Ha. rewrite Ey, Hn in Ha.
    destruct Ha as [[Ha|Ha] Hq]; (split; [|exact Hq]); [by left|]. right. exists l. eauto. }
  destruct pr as [previous|e].
  - destruct (CheckImmutable previous l) as [[]|e] eqn:Ec; cbn in E.
    + eapply Hw; [reflexivity|symmetry; exact E|]. intros m b Hb.
      destruct (Ht m b Hp Hs Hb) as [(l' & [= <-] & Hl')|(e & ? & _)]; [eauto|done].
    + injection E as <- <-. cbn. rewrite Hn. split; [by left|done].
  - destruct (errors_is e ErrNotExist) eqn:Ee; cbn in E.
    + eapply Hw; [reflexivity|symmetry; exact E|]. intros m b Hb.
      destruct (Ht m b Hp Hs Hb) as [(l' & ? & _)|(e' & [= <-] & He)]; [done|]. by rewrite Ee in He.
    + injection E as <- <-. cbn. rewrite Hn. split; [by left|done].
Qed.

Lemma real_LoadConfig p : stays_real (LoadConfig decode_yaml p).
Proof.
  apply real_bind; [auto with real|]. intros b. apply real_bind; [auto with real|]. intros cfg.
  destruct (Config.Validate cfg) as [r cfg']. apply real_bind; auto with real.
Qed.

(** What [lock] wrote, [load] accepts. *)
Lemma load_written c (w w' : W) cfg l :
  decoded_bodies http -> (forall s cfg, decode_yaml s = Ok cfg -> config_text cfg) ->
  names_file cwd (lockPath c) -> config_file decode_yaml (at_path (configPath c)) (w_fs w) cfg ->
  nodes (w_fs w') !! at_path (configPath c) = nodes (w_fs w) !! at_path (configPath c) ->
  Generate cfg = Ok l -> nodes (w_fs w') !! at_path (lockPath c) = Some (FFile 420 (lock_bytes l)) ->
  fst (load c (healthy w')) = Ok (cfg, l).
Proof.
  intros Hbody Hyaml Hname (m & b & cfg0 & Hp & Hn & Hd & Hv) Hq Hl Hf.
  assert (valid_config cfg /\ config_text cfg) as [Hvc Htx].
  { apply Validate_valid in Hv as [Ev Hvc]. split; [done|]. rewrite Ev. apply (Hyaml _ _ Hd). }
  destruct (Generate_spec _ _ _ _ _ cfg l Hvc Hl) as (Hlv & Hm & _).
  unfold load, config_Load, config_LoadLock, on_fs, mbind, M_bind. cbn [w_fs healthy].
  rewrite (LoadConfig_reads decode_yaml _ (Fs (nodes (w_fs w')) []) cfg) by
    (done || by exists m, b, cfg0; rewrite <- Hn, <- Hq). cbv beta iota. cbn [w_fs].
  erewrite (LoadLock_reads (at_path (lockPath c)) (Fs (nodes (w_fs w')) [])) by
    (done || by apply names_file_nonempty || exact Hf || by apply parse_lock_bytes; [eapply Generate_text|]).
  cbv beta iota. cbn. by rewrite Hm.
Qed.

(** C33: [hostpackd lock] as a whole, whatever fails.  The lock file is as it was, or
    it is the complete text of the lock generated from the configuration; a file
    that was there before was a valid lock of which no pack was dropped or changed; and
    [config validate] on the same files then accepts the new lock.  A lock that cannot
    be read is never overwritten. *)
Theorem lock_command_safe args values rest (w : W) :
  decoded_bodies http -> (forall s cfg, decode_yaml s = Ok cfg -> config_text cfg) -> real_faults (w_fs w) ->
  Parse (lock_flags env) args = Ok (values, rest) -> flag values "check" <> "true" ->
  let c := common values in let p := at_path (lockPath c) in
  names_file cwd (lockPath c) -> at_path (configPath c) <> p ->
  let '(r, w') := lockCommand args w in
  (is_ok r = false /\ nodes (w_fs w') !! p = nodes (w_fs w) !! p)
  \/ exists cfg l, config_file decode_yaml (at_path (configPath c)) (w_fs w) cfg /\ Generate cfg = Ok l
      /\ nodes (w_fs w') !! p = Some (FFile 420 (lock_bytes l))
      /\ (forall m b, nodes (w_fs w) !! p = Some (FFile m b) ->
            exists previous, parse_lock b = Ok previous /\ CheckImmutable previous l = Ok tt)
      /\ fst (load c (healthy w')) = Ok (cfg, l).
Proof.
  intros Hbody Hyaml Hs Hargs Hflag c p Hname Hdiff. destruct (lockCommand args w) as [r w'] eqn:E.
  unfold lockCommand in E. erewrite M_bind_ok in E by (unfold lift_result; by rewrite Hargs). cbv beta iota zeta in E.
  fold c in E. destruct (config_Load cwd decode_yaml (configPath c) w) as [[cfg|e] w1] eqn:Ec; cycle 1.
  { erewrite M_bind_err in E by exact Ec. injection E as <- <-. left. apply on_fs_inv in Ec.
    pose proof (LoadConfig_nodes decode_yaml (at_path (configPath c)) (w_fs w)) as Hn. rewrite Ec in Hn. cbn in Hn. by rewrite Hn. }
  erewrite M_bind_ok in E by exact Ec. rewrite bool_decide_eq_false_2 in E by done.
  apply on_fs_inv in Ec. pose proof (LoadConfig_nodes decode_yaml (at_path (configPath c)) (w_fs w)) as Hn.
  pose proof (real_LoadConfig (at_path (configPath c)) (w_fs w) Hs) as Hs1.
  rewrite Ec in Hn, Hs1. cbn [snd] in Hn, Hs1. apply LoadConfig_ok in Ec as Hcfg.
  pose proof (lock_write_cases c cfg w1 Hname Hs1) as Hw. rewrite E, Hn in Hw. cbv zeta in Hw. fold p in Hw.
  destruct Hw as [[Hw|(l & Hl & Hp & Hprev)] Hq]; [by left|right]. exists cfg, l. rewrite Hn in Hprev.
  split_and!; [done..|]. eapply load_written; try done. apply (Hq (at_path (configPath c)) Hdiff).
  destruct Hcfg as (m & b & cfg0 & _ & Hb & _). eauto.
Qed.
End LockCommand.

(** ** The commands that change nothing *)

(** What is there stays as it is. *)
Definition tame {A} (m : M fs A) : Prop :=
  forall s q, is_Some (nodes s !! q) -> nodes (snd (m s)) !! q = nodes s !! q.
Lemma tame_bind {A B} (m : M fs A) (f : A -> M fs B) : tame m -> (forall s a s', m s = (Ok a, s') -> forall q, is_Some (nodes s !! q) ->
    nodes (snd (f a s')) !! q = nodes s' !! q) -> tame (m ≫= f).
Proof.
  intros Hm Hf s q Hq. unfold mbind, M_bind. specialize (Hm s q Hq). destruct (m s) as [[a|e] s1] eqn:E; [|done].
  rewrite (Hf s a s1 E q Hq). exact Hm.
Qed.
Lemma tame_then {A B} (m : M fs A) (f : A -> M fs B) : tame m -> (forall a, tame (f a)) -> tame (m ≫= f).
Proof.
  intros Hm Hf. apply tame_bind; [done|]. intros s a s' E q Hq. apply Hf. specialize (Hm s q Hq). rewrite E in Hm.
  cbn in Hm. by rewrite Hm.
Qed.
Lemma tame_same {A} (m : M fs A) : (forall s, nodes (snd (m s)) = nodes s) -> tame m.
Proof. intros Hm s q _. by rewrite Hm. Qed.
Lemma tame_attempt {A} (m : M fs A) : tame m -> tame (attempt m).
Proof. intros Hm s q Hq. unfold attempt. specialize (Hm s q Hq). by destruct (m s). Qed.
Lemma tame_Stat p : tame (Stat p).
Proof. apply tame_same, Stat_nodes. Qed.

Lemma tame_writable p : tame (writable p).
Proof.
  unfold writable. apply tame_then; [intros s q; apply MkdirAll_existing|]. intros _.
  apply tame_bind; [intros s q; apply CreateTemp_existing|]. intros s t s' E q Hq.
  apply CreateTemp_ok in E as [-> E].
  assert (temp_name p ".doctor-" s <> q) as Hne. { intros <-. rewrite temp_name_fresh in Hq. by destruct Hq. }
  assert (keeps q (CloseFile (temp_name p ".doctor-" s);; Remove (temp_name p ".doctor-" s))) as K; [|apply K].
  apply keeps_bind; [apply keeps_Close|]. intros _. by apply keeps_Remove.
Qed.

Lemma tame_executable {GU : GoUnicode} env cwd p : tame (executable env cwd p).
Proof.
  unfold executable. destruct (ContainsByte slash p).
  - apply tame_then; [apply tame_Stat|]. intros n. by case_match; apply tame_same.
  - induction (SplitList _) as [|d dirs IH]; [by apply tame_same|]. cbn [LookPath].
    apply tame_then; [apply tame_attempt, tame_Stat|]. intros [n|e]; [|exact IH].
    case_match; [|exact IH]. by case_match; apply tame_same.
Qed.

Section ReadOnly.
Context {B Svc : Type} `{BL : BackendLaws B}.
Abbreviation W := (world B Svc).

(** No file that was there changes, nor any object of the backup store. *)
Definition harmless {A} (m : M W A) : Prop := forall w : W,
  (forall q, is_Some (nodes (w_fs w) !! q) -> nodes (w_fs (snd (m w))) !! q = nodes (w_fs w) !! q)
  /\ objects (w_backend (snd (m w))) = objects (w_backend w).

Lemma harmless_bind {A C} (m : M W A) (f : A -> M W C) : harmless m -> (forall a, harmless (f a)) -> harmless (m ≫= f).
Proof.
  intros Hm Hf w. unfold mbind, M_bind. specialize (Hm w). destruct (m w) as [[a|e] w1]; [|done].
  destruct Hm as [Hq Ho], (Hf a w1) as [Hq1 Ho1]. cbn in *. split; [|congruence].
  intros q Hs. rewrite Hq1; [by apply Hq|]. by rewrite Hq.
Qed.
Lemma harmless_attempt {A} (m : M W A) : harmless m -> harmless (attempt m).
Proof. intros Hm w. unfold attempt. specialize (Hm w). by destruct (m w). Qed.
Lemma harmless_pure {A} (r : result A) : harmless (lift_result r).
Proof. by intros w. Qed.
Lemma harmless_lift {A C} (r : result A) (f : A -> M W C) :
  (forall a, r = Ok a -> harmless (f a)) -> harmless (lift_result r ≫= f).
Proof. intros Hf w. destruct r as [a|e]; [by apply (Hf a eq_refl w)|done]. Qed.
Lemma harmless_ret {A} (a : A) : harmless (mret a).
Proof. by intros w. Qed.
Lemma harmless_throw {A} e : harmless (@throw W A e).
Proof. by intros w. Qed.
Lemma harmless_Printf s : harmless (Printf s).
Proof. by intros w. Qed.
Lemma harmless_fs {A} (m : M fs A) : tame m -> harmless (on_fs m).
Proof. intros Hm w. unfold on_fs. specialize (Hm (w_fs w)). by destruct (m (w_fs w)). Qed.
Lemma harmless_store {A} (m : M B A) : (forall b, objects (snd (m b)) = objects b) -> harmless (on_store m).
Proof. intros Hm w. unfold on_store. specialize (Hm (w_backend w)). by destruct (m (w_backend w)). Qed.
Lemma harmless_fly {A} (m : M Svc A) : harmless (on_fly m).
Proof. intros w. unfold on_fly. by destruct (m (w_fly w)). Qed.
End ReadOnly.
Create HintDb harmless.
#[export] Hint Resolve harmless_attempt harmless_pure harmless_ret harmless_throw harmless_Printf harmless_fs
  harmless_store harmless_fly : harmless.

Section ReadOnlyCommands.
Context {GU : GoUnicode} {MR : MapRange} {GT : GoTime} {B Svc : Type} `{BL : BackendLaws B}.
Context (env : list string) (cwd : string) (umask : Z) (decode_yaml : string -> result Config).
Context (http : string -> Lock.Response + error) (url_error : string -> option error).
Context (url_parse : string -> result (string * string)) (Do : FlyMachine.Request -> M Svc FlyMachine.Response).
Context (unpack : reader -> unpacked) (format_RFC3339 : Z -> string) (new_s3 : S3Config -> result S3.S3).
Abbreviation W := (world B Svc).

(** The command lines that are documented to look only, and those that are misuses: of the
    commands that write, the ones whose flags are refused, and those without their
    sub-command or their argument. *)
Definition looks_only (args : list string) : bool :=
  match args with
  | [] => true
  | cmd :: rest =>
      if bool_decide (cmd = "lock") then
        match Parse (lock_flags env) rest with
        | Ok (values, _) => bool_decide (flag values "check" = "true")
        | Err _ => true
        end
      else if bool_decide (cmd = "serve") then negb (is_ok (Parse (addCommon env) rest))
      else if bool_decide (cmd = "guest") then
        match rest with
        | sub :: rest => negb (bool_decide (sub = "export")) || negb (is_ok (Parse (guest_flags env) rest))
        | [] => true
        end
      else if bool_decide (cmd = "backup") then
        match rest with
        | sub :: rest =>
            negb (bool_decide (sub = "restore"))
            || match Parse (addCommon env) rest with Ok (_, [_]) => false | _ => true end
        | [] => true
        end
      else true
  end.

Lemma harmless_LoadConfig p : harmless (B := B) (Svc := Svc) (config_Load cwd decode_yaml p).
Proof. apply harmless_fs, tame_same. intros s. apply LoadConfig_nodes. Qed.
Lemma harmless_LoadLock p : harmless (B := B) (Svc := Svc) (config_LoadLock cwd p).
Proof. apply harmless_fs, tame_same. intros s. apply LoadLock_nodes. Qed.
Lemma harmless_Head id : harmless (Svc := Svc) (on_store (B := B) (Head id)).
Proof. apply harmless_store. intros b. apply Head_frame. Qed.
#[local] Hint Resolve harmless_LoadConfig harmless_LoadLock harmless_Head : harmless.

(** One step of a command after the other. *)
Ltac harmless_steps :=
  repeat first
    [ solve [auto with harmless]
    | apply harmless_attempt
    | apply harmless_bind; [|intros ?]
    | match goal with |- context [match ?x with _ => _ end] => destruct x end ].

Lemma harmless_load c : harmless (B := B) (Svc := Svc) (load cwd decode_yaml c).
Proof. unfold load. harmless_steps. Qed.
#[local] Hint Resolve harmless_load : harmless.
Lemma harmless_validate args : harmless (B := B) (Svc := Svc) (validate env cwd decode_yaml args).
Proof. unfold validate. harmless_steps. Qed.
Lemma harmless_lock_check c p cfg : harmless (B := B) (Svc := Svc) (lock_check cwd c p cfg).
Proof. unfold lock_check. harmless_steps. Qed.
Lemma harmless_backup_list ids : harmless (B := B) (Svc := Svc) (backup_list format_RFC3339 ids).
Proof. induction ids as [|id ids IH]; cbn [backup_list]; harmless_steps; exact IH. Qed.
Lemma harmless_doctor args :
  harmless (B := B) (Svc := Svc) (doctor env cwd decode_yaml url_error url_parse Do new_s3 args).
Proof.
  unfold doctor, makeStore. apply harmless_bind; [auto with harmless|]. intros [values _].
  apply harmless_bind; [auto with harmless|]. intros [cfg lock].
  apply harmless_bind; [apply harmless_attempt, harmless_fs, tame_writable|]. intros r1.
  do 3 (apply harmless_bind; [apply harmless_attempt, harmless_fs, tame_executable|]; intros ?).
  harmless_steps.
Qed.

(** C34: the commands that look leave everything alone.  [config validate], [lock
    --check], [backup list], [doctor], [help] and the misuses of the command line - no
    command or an unknown one, a sub-command that is missing or unknown, flags that are
    refused (of [serve], [lock], [guest export] and [backup restore] too), and a [backup
    restore] with no pack or more than one - change no file that is there and no object
    of the backup store, whatever fails on the way. *)
Theorem looking_changes_nothing o args :
  looks_only args = true ->
  harmless (run env cwd umask decode_yaml http url_error url_parse Do unpack format_RFC3339 new_s3 o args).
Proof.
  intros Hl. destruct args as [|cmd args]; [apply harmless_throw|]. cbn [looks_only] in Hl. cbn [run].
  destruct (decide (cmd = "lock")) as [->|Hlock].
  - rewrite bool_decide_eq_true_2 in Hl by done. cbn. unfold lockCommand. apply harmless_lift.
    intros [values rest] E. rewrite E in Hl. rewrite Hl. pose proof harmless_lock_check. harmless_steps.
  - rewrite (bool_decide_eq_false_2 (cmd = "lock")) in Hl by done.
    rewrite (bool_decide_eq_false_2 (cmd = "lock")) by done.
    destruct (bool_decide (cmd = "serve")) eqn:Eserve.
    { unfold serve. destruct (Parse (addCommon env) args) as [x|e]; [done|apply harmless_throw]. }
    destruct (bool_decide (cmd = "config")) eqn:Econfig.
    { destruct args as [|sub args]; [apply harmless_throw|].
      destruct (bool_decide (sub = "validate")); [apply harmless_validate|apply harmless_throw]. }
    destruct (decide (cmd = "backup")) as [->|]; [|rewrite (bool_decide_eq_false_2 (cmd = "backup")) in * by done].
    { cbn in Hl |- *. unfold backupCommand, makeStore. destruct args as [|action args]; [apply harmless_throw|].
      apply orb_true_iff in Hl as [Hr|Hargs].
      - apply negb_true_iff in Hr as ->. pose proof harmless_backup_list. harmless_steps.
      - apply harmless_lift. intros [values rest] E. rewrite E in Hargs.
        apply harmless_bind; [auto with harmless|]. intros [cfg lock].
        apply harmless_bind; [harmless_steps|]. intros d.
        destruct (bool_decide (action = "list")); [pose proof harmless_backup_list; harmless_steps|].
        destruct (bool_decide (action = "restore")); [|apply harmless_throw].
        unfold backup_restore. destruct rest as [|? [|]]; [apply harmless_throw|done|apply harmless_throw]. }
    destruct (bool_decide (cmd = "guest")).
    { unfold guestCommand. destruct args as [|sub args]; [apply harmless_throw|].
      destruct (bool_decide (sub = "export")); [|apply harmless_throw].
      destruct (Parse (guest_flags env) args) as [x|e]; [done|apply harmless_throw]. }
    destruct (bool_decide (cmd = "doctor")); [apply harmless_doctor|].
    destruct (bool_decide (cmd ∈ _)); [apply harmless_Printf|apply harmless_throw].
Qed.
End ReadOnlyCommands.

(** ** [serve] *)

Section Serve.
Context {GU : GoUnicode} {MR : MapRange} {B Svc : Type}.
Context (env : list string) (cwd : string) (decode_yaml : string -> result Config).
Context (url_parse : string -> result (string * string)) (new_s3 : S3Config -> result S3.S3).
Abbreviation W := (world B Svc).

(** Computations that leave the trace alone. *)
Definition silent {A} (m : M W A) : Prop := forall w, w_events (snd (m w)) = w_events w.
Lemma silent_bind {A C} (m : M W A) (f : A -> M W C) w P :
  silent m -> (forall r w', m w = (r, w') -> w_events w' = w_events w ->
    match r with Ok a => P (f a w') | Err e => P (Err e, w') end) -> P ((m ≫= f) w).
Proof.
  intros Hm Hf. unfold mbind, M_bind. specialize (Hm w). destruct (m w) as [r w'] eqn:E. specialize (Hf r w' eq_refl Hm).
  by destruct r.
Qed.
Lemma silent_fs {A} (m : M fs A) : silent (on_fs m).
Proof. intros w. unfold on_fs. by destruct (m (w_fs w)). Qed.
Lemma silent_pure {A} (r : result A) : silent (lift_result r).
Proof. by intros w. Qed.
Lemma silent_attempt {A} (m : M W A) : silent m -> silent (attempt m).
Proof. intros Hm w. unfold attempt. specialize (Hm w). by destruct (m w). Qed.
Lemma silent_then {A C} (m : M W A) (f : A -> M W C) : silent m -> (forall a, silent (f a)) -> silent (m ≫= f).
Proof.
  intros Hm Hf w. unfold mbind, M_bind. specialize (Hm w). destruct (m w) as [[a|e] w1]; [|done].
  rewrite (Hf a w1). exact Hm.
Qed.
Lemma silent_load c : silent (load (B := B) (Svc := Svc) cwd decode_yaml c).
Proof.
  apply silent_then; [apply silent_fs|]. intros cfg. apply silent_then; [apply silent_fs|]. intros l.
  by apply silent_then.
Qed.

(** What the listeners' part adds to the trace, and when it succeeds. *)
Definition listeners_trace (o : outcomes) (ok : bool) (tr : list event) : Prop :=
  exists minecraft web,
    (ok = false /\ (tr = [] \/ tr = [Listen minecraft; CloseListener minecraft]))
    \/ (tr = [Listen minecraft; Listen web; ServeWeb web; ServeRouter minecraft; ShutdownWeb; ShutdownManager]
        /\ (ok = true -> router_end o = None /\ web_end o = None /\ web_shutdown o = None /\ manager_shutdown o = None)).

Lemma serve_listeners_trace o cfg (w : W) : let '(r, w') := serve_listeners o cfg w in
  exists tr, w_events w' = w_events w ++ tr /\ listeners_trace o (is_ok r) tr.
Proof.
  destruct (serve_listeners o cfg w) as [r w'] eqn:E. unfold serve_listeners in E.
  set (mc := ListenAddress _) in *. set (web := WebListenAddress _) in *.
  unfold mbind, M_bind, lift_result, emit, throw, failing in E.
  destruct (listen o mc) as [e|].
  { injection E as <- <-. exists []. rewrite app_nil_r. split; [done|]. exists mc, web. left. auto. }
  destruct (listen o web) as [e|]; cbn in E.
  { injection E as <- <-. eexists. cbn. rewrite <- app_assoc. split; [reflexivity|]. exists mc, web. left. auto. }
  injection E as <- <-. eexists. cbn. rewrite <- !app_assoc. split; [reflexivity|]. exists mc, web. right. split; [done|].
  unfold errors_Join. by destruct (router_end o), (web_end o), (web_shutdown o), (manager_shutdown o).
Qed.

(** What [serve] takes it gives back.  However it ends, the log is closed last; the
    manager, once started, is closed before it; a listener is closed when the other
    cannot be had, or goes to a server; and when both serve, the dashboard's server and
    then the manager are shut down exactly once, after the router is done.  Nothing is
    taken without a dashboard password of sixteen bytes, and success means that no part
    reported an error. *)
Theorem serve_gives_back o args (w : W) : let '(r, w') := serve env cwd decode_yaml url_parse new_s3 o args w in
  exists tr, w_events w' = w_events w ++ tr
    /\ ((is_ok r = false /\ (tr = [] \/ tr = [OpenLog; CloseLog] /\ 16 <= string_len (Getenv env "HOSTPACK_WEB_PASSWORD")))
        \/ (16 <= string_len (Getenv env "HOSTPACK_WEB_PASSWORD")
            /\ exists inner, tr = OpenLog :: StartManager :: inner ++ [CloseManager; CloseLog]
                 /\ listeners_trace o (is_ok r) inner)).
Proof.
  set (P := fun x : result unit * W => let '(r, w') := x in exists tr, w_events w' = w_events w ++ tr
    /\ ((is_ok r = false /\ (tr = [] \/ tr = [OpenLog; CloseLog] /\ 16 <= string_len (Getenv env "HOSTPACK_WEB_PASSWORD")))
        \/ (16 <= string_len (Getenv env "HOSTPACK_WEB_PASSWORD")
            /\ exists inner, tr = OpenLog :: StartManager :: inner ++ [CloseManager; CloseLog]
                 /\ listeners_trace o (is_ok r) inner))).
  change (P (serve env cwd decode_yaml url_parse new_s3 o args w)).
  assert (forall e w', w_events w' = w_events w -> P (Err e, w')) as Hsilent.
  { intros e w' E. exists []. rewrite app_nil_r. split; [done|]. left. auto. }
  unfold serve. apply silent_bind; [apply silent_pure|]. intros [[values rest]|e] w1 _ E1; [|by apply Hsilent].
  apply silent_bind; [apply silent_load|]. intros [[cfg lock]|e] w2 _ E2; [|apply Hsilent; congruence].
  destruct (string_len (Getenv env "HOSTPACK_WEB_PASSWORD") <? 16) eqn:Hpw; [apply Hsilent; cbn; congruence|].
  apply Z.ltb_ge in Hpw.
  apply silent_bind; [apply silent_attempt, silent_fs|]. intros [log|e] w3 _ E3; [|apply Hsilent; congruence].
  apply silent_bind; [apply silent_pure|]. intros [lg|e] w4 _ E4; [|apply Hsilent; congruence].
  assert (w_events w4 = w_events w) as E by congruence. clear -E Hpw P.
  unfold mbind at 1, M_bind at 1, emit at 1. unfold finally at 1. set (w5 := World _ _ _ _ _).
  assert (w_events w5 = w_events w ++ [OpenLog]) as E5 by (unfold w5; cbn; congruence). clearbody w5.
  unfold makeStore, lift_result. unfold mbind at 1, M_bind at 1. unfold mbind at 1, M_bind at 1.
  destruct (FromConfig new_s3 (Storage cfg)) as [d|e]; cycle 1.
  { exists [OpenLog; CloseLog]. cbn. rewrite E5, <- app_assoc. split; [done|]. left. auto. }
  unfold mret at 1, M_ret at 1. unfold mbind at 1, M_bind at 1. destruct (FromEnv _ _) as [sizer|e]; cycle 1.
  { exists [OpenLog; CloseLog]. cbn. rewrite E5, <- app_assoc. split; [done|]. left. auto. }
  unfold mbind at 1, M_bind at 1, emit at 1. unfold finally. set (w6 := World _ _ _ _ _).
  pose proof (serve_listeners_trace o cfg w6) as Hl. destruct (serve_listeners o cfg w6) as [r w7].
  destruct Hl as (inner & E7 & Hl). cbn in E7. cbn. eexists. rewrite E7, E5, <- !app_assoc. split; [reflexivity|].
  right. split; [done|]. exists inner. split; [by cbn|done].
Qed.

(** Outside Fly the first start of a pack brings the daemon down.  Without
    [FLY_MACHINE_ID] there is no client, but [serve] hands the nil pointer to
    [NewManager] as an interface, the test of [start] finds a sizer, and its call
    reads the fields of a client that is not there. *)
Theorem nil_sizer_panics : TrimSpace (Getenv env "FLY_MACHINE_ID") = "" ->
  exists s, serve_sizer env url_parse = Ok s /\ sizer_set s = true
    /\ forall url_error (Do : FlyMachine.Request -> M Svc FlyMachine.Response) p svc,
         fst (sizer_Ensure url_error Do s p svc) = Panicked.
Proof.
  intros H. exists (ClientSizer None). split; [|done]. unfold serve_sizer, FromEnv.
  by rewrite bool_decide_eq_true_2.
Qed.
End Serve.

(** ** Witnesses *)

(** Tables whose lower case is empty for what is not ASCII. *)
Definition ascii_unicode : GoUnicode := {| unicode_lower _ := ""; unicode_trim_space s := s; unicode_quote s := s |}.
#[local] Instance ascii_lower_text : @LowerText ascii_unicode.
Proof. by intros s. Qed.

Definition ex_yaml (s : string) : result Config := if bool_decide (s = "packs") then Ok example_config else Err (Errorf "yaml").
Definition ex_args : list string := ["--config"; "/c/packs.yaml"; "-lock=/c/packs.lock.json"].
Definition ex_world : world mem unit :=
  World (Fs (<[ ["c"] := FDir 493 ]> {[ ["c"; "packs.yaml"] := FFile 420 (bytes_of_string "packs") ]}) []) (Mem ∅ []) tt "" [].

Lemma ex_yaml_text s cfg : ex_yaml s = Ok cfg -> config_text cfg.
Proof.
  unfold ex_yaml. case_bool_decide; [|done]. intros [= <-] id p Hp.
  unfold example_config in Hp. cbn [Packs] in Hp. apply lookup_singleton_Some in Hp as [<- <-].
  split_and!; [repeat constructor|reflexivity..].
Qed.
Lemma test_provider_decoded : decoded_bodies test_provider.
Proof. intros url r j [= <-] [= <-]. reflexivity. Qed.

Definition ex_lock_run := @lockCommand ascii_unicode map_order mem unit [] "/" ex_yaml test_provider (fun _ => None) ex_args ex_world.

Lemma lock_command_safe_witness :
  is_ok (fst ex_lock_run) = true /\
  exists l, nodes (w_fs (snd ex_lock_run)) !! ["c"; "packs.lock.json"] = Some (FFile 420 (lock_bytes l)).
Proof.
  assert (is_ok (fst ex_lock_run) = true) as Hok by (vm_compute; reflexivity). split; [exact Hok|].
  pose proof (@lock_command_safe ascii_unicode ascii_lower_text map_order mem unit [] "/" ex_yaml test_provider (fun _ => None)
    ex_args) as H. unfold ex_lock_run in *.
  edestruct (Parse (lock_flags []) ex_args) as [[values rest]|] eqn:Ep; [|discriminate Ep].
  specialize (H values rest ex_world test_provider_decoded ex_yaml_text ltac:(constructor) eq_refl).
  assert (values = values) as _ by reflexivity. injection Ep as <- <-.
  specialize (H ltac:(vm_compute; discriminate)). cbv zeta in H.
  specialize (H ltac:(exists "packs.lock.json"; split; reflexivity) ltac:(vm_compute; discriminate)).
  destruct (lockCommand _ _ _ _ _ _ _) as [r w']. destruct H as [[Hr _]|(cfg & l & _ & _ & Hl & _)].
  - cbn in Hok. congruence.
  - exists l. exact Hl.
Defined.

Definition ex_outcomes : outcomes := mkOutcomes (fun _ => None) None None None None.
Lemma looking_changes_nothing_witness :
  looks_only [] ["lock"; "--check"; "--config"; "/c/packs.yaml"; "--lock"; "/c/packs.lock.json"] = true /\
  nodes (w_fs (snd (@run plain_unicode map_order decimal_time mem unit mem_backend [] "/" 18 ex_yaml test_provider (fun _ => None)
    (fun _ => Err ErrEOF) (fun _ s => (Err ErrEOF, s)) (fun r => mkUnpacked None [] ErrEOF []) Itoa (fun _ => Err ErrEOF) ex_outcomes
    ["lock"; "--check"; "--config"; "/c/packs.yaml"; "--lock"; "/c/packs.lock.json"] ex_world))) !! ["c"; "packs.yaml"]
  = Some (FFile 420 (bytes_of_string "packs")).
Proof.
  assert (looks_only [] ["lock"; "--check"; "--config"; "/c/packs.yaml"; "--lock"; "/c/packs.lock.json"] = true) as H
    by (vm_compute; reflexivity).
  split; [exact H|].
  destruct (@looking_changes_nothing plain_unicode map_order decimal_time mem unit mem_backend mem_laws [] "/" 18 ex_yaml
    test_provider (fun _ => None) (fun _ => Err ErrEOF) (fun _ s => (Err ErrEOF, s)) (fun r => mkUnpacked None [] ErrEOF [])
    Itoa (fun _ => Err ErrEOF) ex_outcomes _ H ex_world) as [Hf _].
  rewrite Hf; [vm_compute; reflexivity|]. exists (FFile 420 (bytes_of_string "packs")). vm_compute. reflexivity.
Defined.

Lemma nil_sizer_panics_witness :
  exists s, @serve_sizer plain_unicode [] (fun _ => Err ErrEOF) = Ok s /\ sizer_set s = true.
Proof.
  destruct (@nil_sizer_panics plain_unicode unit [] (fun _ => Err ErrEOF)) as (s & Hs & Ht & _);
    [vm_compute; reflexivity|]. exists s. split; [exact Hs|exact Ht].
Defined.
